(* ===== verification/_CoqProject ===== *)
-Q . S2P
Prelude.v
Machine.v
Mem.v
Regs.v
Addr.v
Spin.v
PageSource.v
PageAlloc.v
Sv39.v
Sv39Tree.v
Sv39Edit.v
Sv39Ops.v
Sv39Unmap.v
Sv39Large.v
Sv39Mmu.v
Sv39Props.v
VmSpace.v
VmInv.v
VmFault.v
VmUnmap.v
VmProps.v
VmFrame.v
VmGrow.v
VmNew.v
UserView.v
KernelTree.v
KernelMap.v
KernelRegions.v
NewUser.v
KernelTable.v
Console.v
Utf8.v
Apps.v
BuildScript.v
BuildImage.v
TaskState.v
KState.v
TrapContext.v
Task.v
TaskProps.v
Trap.v
KInv.v
KSample.v
KSteps.v
FaultProps.v
Uaccess.v
UaccessFault.v
UaccessProps.v
UaccessTo.v
LangItems.v
SchedProps.v
Syscall.v
SyscallProps.v
IoProps.v
InfoProps.v
Utrap.v
UtrapProps.v
UtrapEntry.v
UtrapArms.v
TrapProps.v
Rounds.v
Startup.v
Boot.v
BootProps.v
UserLib.v
UserApps.v
