(* ===== verification/Prelude.v ===== *)
(** * A verified model of the rCore-Tutorial kernel

    ** The program

    [src/os] is a small Unix-like kernel for riscv64 on QEMU's [virt] machine, [src/riscv] a
    crate of CSR accessors and [src/user] the user library with its applications.  One hart
    runs.  The kernel runs from a direct map of physical memory at [KERNEL_VA_OFFSET]; every
    task has its own Sv39 page table that shares the kernel's upper half.  At build time
    [build.rs] embeds the applications in the image; [rust_main] builds the kernel's page
    table, makes a task of every application and leaves for the first one.  From then on the
    kernel only runs to handle traps: time slices, system calls, page faults.

    ** The model

    Foundations
    - [Prelude]: 64-bit words as integers with wrap-around, automation, [Vec].
    - [Machine]: the machine monad.  [M S A] is a computation over a state [S] that returns,
      panics, or spins forever on a lock its own hart holds; [Result]s are values.
      [wp m Q s] says the run from [s] returns and satisfies [Q], so every [wp] theorem is one
      of total correctness; [ends] also says when a run may panic.  [Has T S] is a lens: a
      component is written for any state [S] that has its part.
    - [Mem]: physical memory, a map from addresses to bytes, with little-endian words.
    - [Regs]: [src/riscv/src/regs/*.rs] and [macros.rs].  [Addr]: [src/os/src/mm.rs].
    - [Spin]: [src/os/src/sync/spin.rs], as one hart uses it and as an interleaving of many
      threads.

    Memory ([src/os/src/mm])
    - [PageSource]: the interface between the page allocator and its clients, a class of
      operations and a class of laws.  [PageAlloc] models [page_alloc.rs], the instance.
    - [Sv39]: [sv39.rs] over byte memory.  [Sv39Tree] reads a page table in memory as a tree,
      [Sv39Edit] says what one store to it does, [Sv39Ops], [Sv39Unmap] and [Sv39Large]
      specify the operations, [Sv39Mmu] is the translation of the privileged manual, and
      [Sv39Props] states what the operations do to it.
    - [VmSpace]: the address spaces of [vm.rs], every operation included.  [VmInv] is their
      invariant; [VmFault] and [VmUnmap] specify faults and unmapping, [VmProps] has their
      theorems; [VmFrame] keeps spaces apart and drops them; [VmGrow], [VmNew] and [NewUser]
      follow the loader; [UserView] is the memory a task sees.
    - [KernelMap]: the kernel's own address space, the rest of [vm.rs].  [KernelTree],
      [KernelRegions] and [KernelTable] follow its construction range by range.
    - [Uaccess]: [uaccess.rs] and [uaccess.S], a step function for the copy loop with the
      traps it takes; [UaccessFault], [UaccessProps] and [UaccessTo] specify the copies.

    Tasks and traps
    - [Console]: [console.rs], [console/log.rs], [timer.rs], [sbi.rs].  [Utf8]: [core::str].
    - [Apps]: [task/apps.rs].  [BuildScript] and [BuildImage]: [src/os/build.rs], the text it
      writes given the answers of the file system ([UserApp.Env]; every [unwrap] is a
      panic), and what the assembler makes of it.
    - [TaskState]: [task/state.rs].  [KState]: the statics of the kernel in one record, and
      computations that may switch to another task ([K]).  [Task]: [task.rs] and [switch.S];
      [TaskProps] and [SchedProps] specify the scheduler.
    - [TrapContext], [Trap], [Utrap]: [trap.rs], [trap/ktrap.rs], [trap/utrap.rs] and
      [trap.S], from [__stvec], which tells kernel from user by [sscratch] ([Hart.dispatch]),
      to [sret].  A trap that [stvec] does not lead there, or that takes the other mode's
      path, is a panic of the model ([Hart.misdirected]); [KInv.in_kernel] and
      [KInv.in_user] say what excludes it.  [FaultProps], [UtrapEntry], [UtrapProps], [UtrapArms] and [TrapProps] follow a
      trap from the user's instruction to the return.
    - [Syscall]: [syscall.rs] and [syscall/*.rs]; [SyscallProps], [IoProps] and [InfoProps]
      specify the calls.
    - [KInv] is the invariant of the kernel between traps, [KSteps] its steps in sequence,
      [KSample] a small kernel the examples run on.  [Rounds] is the machine as user mode sees
      it: tasks and kernel in turns.
    - [Boot] and [LangItems]: [main.rs], [mm::init] and [lang_items.rs]; [Startup] and
      [BootProps] lead from reset to the first task.
    - [UserLib] and [UserApps]: [src/user/src/*.rs] and two of its programs.

    ** The theorems

    - From reset to user mode: [rust_main_correct] - the kernel runs on its page table,
      traps are led to their handler, the timer is set and a task has the hart -, over
      [init_kernel_satp_correct] (the
      whole kernel page table, for the hardware), [new_user_correct] (the ELF loader) and
      [build_registry] with [apps_registry] (the embedded applications).
    - In user mode: [u_trap_ends] - every trap, whatever its cause, comes to an end with the
      kernel sound or, for the causes it lists, a panic -,
      [rounds_well_formed] and [rounds_isolated] - whatever the tasks do in any number of
      turns, the invariant holds and a task without a turn keeps its memory.
    - Each system call, fault and switch: what it returns, what the task sees of it, and that
      nobody else notices.
    - Address spaces and page tables: each operation returns on every input in its range,
      keeps the table a well-formed tree of owned pages, and acts on the hardware translation
      as a pointwise update; errors leave it alone, and so do other page tables
      ([map_create_isolated]).  A few operations do less than they mean
      to, and theorems say exactly what.
    - Page allocator, spin lock, log filter, statistics, panic handler: their contracts.
      The panic handler reads the stack it traces through the page table in [satp].

    ** Bounds and fuel

    Loops of the code are over explicit lists.  Three run on fuel: [Spin.lock_loop], whose
    theorem gives the fuel; the copy loop, where [Uaccess.fuel] allows four steps a byte (a
    byte is two accesses, one of which may fault, and once) and is shown to be enough; and
    the stack trace of the panic handler, which ends when the chain of frames does.
    Arithmetic wraps at 64 bits, as in the release profile the Makefile builds.

    ** What is assumed

    - The layout of the linker script ([KernelLayout]) and of the generated tables, an
      allocator's buffer that lies in the bss, and at reset [tp] = 0, which the code relies on
      and does not establish ([BootProps.reset]).
    - What the compiler and the heap provide: a vector is private memory of the kernel
      ([heap_private]); the local of [sys_task_info] lies on the kernel stack below the trap
      context ([TaskInfoLaws]).
    - Where kernel code uses memory of its own - page tables, trap contexts, the kernel side
      of a user copy - the model goes to physical memory by the direct map that
      [init_kernel_satp_correct] establishes, without a walk; the theorems bound these
      accesses ([kernel_buffer]).  User addresses, and the stack trace, go through the walk.
    - The hardware reports a page fault at a user address only if the page table refuses the
      access ([TrapProps.trap_cause]).
    - User code only reaches addresses below [2^38] and only stores where the hardware lets it
      ([Rounds]).  A task that is switched to restarts from its saved trap context: the
      registers [__switch] saves go to a block that has been moved away.
    - Named parameters: the ELF parser ([xmas_elf]), [core::fmt], the heap allocator
      ([buddy_system_allocator]), the contents of the application files.

    ** Not modelled

    The boot page table and the first instructions ([entry.S]) and the firmware in
    [src/bootloader].  Interrupts while the kernel runs: the hardware masks them in every
    trap; between [trap::init] and the first task they are enabled and one would panic.  The
    TLB, so [sfence.vma] has no effect; atomics are sequentially consistent.  [test_heap],
    a self test of the third-party heap that nothing calls.  Of the applications, those that
    run one faulting instruction or exercise the kernel. *)

From Stdlib Require Export ZArith Lia Bool String.
From stdpp Require Export base tactics option numbers sets gmap strings list.
#[export] Set Default Goal Selector "!".
#[export] Unset Program Cases.

Declare Scope usize_scope.
Delimit Scope usize_scope with usize.
Open Scope Z_scope.

(** ** [usize]: 64-bit machine words as integers *)

(** A [usize] of riscv64 is a [Z] in [[0, 2^64)].  The arithmetic below is the
    one of the release profile the Makefile builds by default: it wraps. *)
Definition USIZE_MODULUS : Z := 18446744073709551616.
Definition USIZE_MAX : Z := 18446744073709551615.

Definition is_usize (z : Z) : Prop := 0 <= z < USIZE_MODULUS.
#[export] Instance is_usize_dec z : Decision (is_usize z) := _.

Definition wrap (z : Z) : Z := z mod USIZE_MODULUS.
Definition uadd (a b : Z) : Z := wrap (a + b).
Definition usub (a b : Z) : Z := wrap (a - b).
Definition umul (a b : Z) : Z := wrap (a * b).
(** [!a] *)
Definition unot (a : Z) : Z := USIZE_MAX - a.
(** [a << n], [a >> n] for a constant [n < 64] *)
Definition ushl (a n : Z) : Z := wrap (Z.shiftl a n).
Definition ushr (a n : Z) : Z := Z.shiftr a n.

(** [a.checked_add(b)], [a.checked_sub(b)] *)
Definition checked_add (a b : Z) : option Z :=
  if a + b <? USIZE_MODULUS then Some (a + b) else None.
Definition checked_sub (a b : Z) : option Z :=
  if b <=? a then Some (a - b) else None.

(** [x as isize] *)
Definition as_isize (x : Z) : Z :=
  if x <? 9223372036854775808 then x else x - USIZE_MODULUS.
(** [x as usize] for an [isize] *)
Definition isize_as_usize (x : Z) : Z := wrap x.

Notation "a ⊕ b" := (uadd a b) (at level 50, left associativity) : usize_scope.
Notation "a ⊖ b" := (usub a b) (at level 50, left associativity) : usize_scope.
Notation "a .<< n" := (ushl a n) (at level 49, left associativity) : usize_scope.
Notation "a .>> n" := (ushr a n) (at level 49, left associativity) : usize_scope.
Notation "a .& b" := (Z.land a b) (at level 51, left associativity) : usize_scope.
Notation "a .| b" := (Z.lor a b) (at level 52, left associativity) : usize_scope.
Notation "a .^ b" := (Z.lxor a b) (at level 52, left associativity) : usize_scope.
Notation ".~ a" := (unot a) (at level 35, right associativity) : usize_scope.
Open Scope usize_scope.

(** ** Automation *)

Create HintDb kernel.

(** [lia] extended with Euclidean division by constants. *)
Ltac zlia := Z.to_euclidean_division_equations; lia.

(** Turns every boolean comparison in the context and the goal into the
    proposition it decides. *)
Ltac reflect_bools :=
  repeat match goal with
  | H : (_ && _)%bool = true |- _ => apply andb_true_iff in H; destruct H
  | H : (_ || _)%bool = false |- _ => apply orb_false_iff in H; destruct H
  | H : negb _ = true |- _ => apply negb_true_iff in H
  | H : negb _ = false |- _ => apply negb_false_iff in H
  | H : (_ =? _) = true |- _ => apply Z.eqb_eq in H
  | H : (_ =? _) = false |- _ => apply Z.eqb_neq in H
  | H : (_ <? _) = true |- _ => apply Z.ltb_lt in H
  | H : (_ <? _) = false |- _ => apply Z.ltb_ge in H
  | H : (_ <=? _) = true |- _ => apply Z.leb_le in H
  | H : (_ <=? _) = false |- _ => apply Z.leb_gt in H
  end.

(** Splits on the scrutinee of the first [if] or boolean [match] of the goal. *)
Ltac case_if :=
  match goal with
  | |- context [if ?b then _ else _] =>
      let E := fresh "E" in destruct b eqn:E; reflect_bools
  end.

(** Bitwise equality: extensionality, then a case analysis on each bit test. *)
Ltac bits_ext i Hi := apply Z.bits_inj'; intros i Hi.

(** ** Lemmas on words *)

Lemma wrap_small z : is_usize z → wrap z = z.
Proof. unfold is_usize, wrap. intros. by apply Z.mod_small. Qed.

Lemma wrap_is_usize z : is_usize (wrap z).
Proof. apply Z.mod_pos_bound. done. Qed.
#[export] Hint Resolve wrap_is_usize : kernel.

Lemma uadd_small a b : 0 <= a + b < USIZE_MODULUS → a ⊕ b = a + b.
Proof. apply wrap_small. Qed.

Lemma usub_small a b : 0 <= a - b < USIZE_MODULUS → a ⊖ b = a - b.
Proof. apply wrap_small. Qed.

Lemma ushr_div a n : 0 <= n → a .>> n = a / 2 ^ n.
Proof. apply Z.shiftr_div_pow2. Qed.

Lemma ushl_mul a n : 0 <= n → 0 <= a * 2 ^ n < USIZE_MODULUS → a .<< n = a * 2 ^ n.
Proof.
  intros Hn H. unfold ushl. rewrite Z.shiftl_mul_pow2 by done. by apply wrap_small.
Qed.

Lemma ushl_mod a n : 0 <= n → a .<< n = (a * 2 ^ n) mod USIZE_MODULUS.
Proof. intros. unfold ushl, wrap. by rewrite Z.shiftl_mul_pow2. Qed.

(** Masking with [2^n - 1] is the remainder modulo [2^n]. *)
Lemma land_mask a n m : 0 <= n → m = 2 ^ n - 1 → a .& m = a mod 2 ^ n.
Proof. intros Hn ->. rewrite <- Z.land_ones by done. by rewrite Z.ones_equiv. Qed.

(** A word has no bit set from position 64 on. *)
Lemma usize_bits_high a i : is_usize a → 64 <= i → Z.testbit a i = false.
Proof.
  intros [Ha Hlt] Hi. apply Z.testbit_false; [lia|].
  rewrite Z.div_small; [done|]. split; [done|].
  eapply Z.lt_le_trans; [done|]. change USIZE_MODULUS with (2 ^ 64).
  by apply Z.pow_le_mono_r.
Qed.

(** Clearing the low [n] bits of a word rounds it down to a multiple of [2^n]. *)
Lemma land_not_mask a n m :
  0 <= n < 64 → m = 2 ^ n - 1 → is_usize a → a .& .~ m = a - a mod 2 ^ n.
Proof.
  intros Hn -> Ha.
  assert (a - a mod 2 ^ n = Z.shiftl (Z.shiftr a n) n) as ->.
  { rewrite Z.shiftl_mul_pow2, Z.shiftr_div_pow2 by lia.
    pose proof (Z.div_mod a (2 ^ n) ltac:(lia)). lia. }
  assert (unot (2 ^ n - 1) = Z.shiftl (Z.ones (64 - n)) n) as ->.
  { rewrite Z.shiftl_mul_pow2, Z.ones_equiv by lia. unfold unot.
    assert (2 ^ 64 = 2 ^ (64 - n) * 2 ^ n) by (rewrite <- Z.pow_add_r by lia; f_equal; lia).
    unfold USIZE_MAX. lia. }
  bits_ext i Hi. rewrite Z.land_spec, !Z.shiftl_spec by lia.
  destruct (decide (i < n)).
  - rewrite !(Z.testbit_neg_r _ (i - n)) by lia. by rewrite andb_false_r.
  - rewrite Z.shiftr_spec, Z.testbit_ones by lia.
    replace (i - n + n) with i by lia.
    destruct (decide (i < 64)).
    + replace ((0 <=? i - n) && (i - n <? 64 - n)) with true by (symmetry; lia).
      apply andb_true_r.
    + by rewrite (usize_bits_high a i) by (done || lia).
Qed.

(** The bits below [2^n] and the bits of [a] shifted past them do not meet. *)
Lemma land_shiftl_low a b n : 0 <= n → 0 <= b < 2 ^ n → Z.shiftl a n .& b = 0.
Proof.
  intros Hn Hb. bits_ext i Hi. rewrite Z.land_spec, Z.shiftl_spec, Z.bits_0 by done.
  destruct (decide (i < n)); [by rewrite Z.testbit_neg_r by lia|].
  rewrite andb_comm. assert (Z.testbit b i = false) as ->; [|done].
  apply Z.testbit_false; [done|]. rewrite Z.div_small; [done|].
  split; [lia|]. eapply Z.lt_le_trans; [apply Hb|]. apply Z.pow_le_mono_r; lia.
Qed.

Lemma lor_shiftl_add a b n : 0 <= n → 0 <= b < 2 ^ n → Z.shiftl a n .| b = a * 2 ^ n + b.
Proof.
  intros Hn Hb. rewrite <- Z.shiftl_mul_pow2 by done.
  pose proof (land_shiftl_low a b n Hn Hb).
  by rewrite Z.add_nocarry_lxor, Z.lxor_lor.
Qed.

(** A mask below [2^n] only looks at the low [n] bits. *)
Lemma land_low_bits a b n m :
  0 <= n → 0 <= m < 2 ^ n → (a * 2 ^ n + b) .& m = b .& m.
Proof.
  intros Hn Hm. rewrite <- (Z.mod_small m (2 ^ n)) by done.
  rewrite <- Z.land_ones by done. rewrite (Z.land_comm m), !Z.land_assoc.
  rewrite !Z.land_ones by done. by rewrite Z.add_comm, Z.mod_add by lia.
Qed.

(** Ranges are unfolded by their lemmas only. *)
#[global] Arguments seqZ _ _ : simpl never.

(** ** [Vec]: push and pop at the end *)
Definition vec_push {A} (l : list A) (x : A) : list A := l ++ [x].
Definition vec_pop {A} (l : list A) : option (A * list A) :=
  match reverse l with
  | [] => None
  | x :: r => Some (x, reverse r)
  end.

Lemma vec_pop_push {A} (l : list A) x : vec_pop (vec_push l x) = Some (x, l).
Proof. unfold vec_pop, vec_push. by rewrite reverse_snoc, reverse_involutive. Qed.

Lemma vec_pop_Some {A} (l l' : list A) x : vec_pop l = Some (x, l') → l = l' ++ [x].
Proof.
  unfold vec_pop. destruct (reverse l) as [|y r] eqn:E; [done|]. intros [= <- <-].
  by rewrite <- (reverse_involutive l), E, reverse_cons.
Qed.

Lemma vec_pop_None {A} (l : list A) : vec_pop l = None → l = [].
Proof.
  unfold vec_pop. destruct (reverse l) eqn:E; [|done]. intros _.
  by rewrite <- (reverse_involutive l), E.
Qed.
