(* ===== verification/Machine.v ===== *)
(** * The machine monad

    Kernel code is a computation over a state: it returns a value and a new
    state, panics (Rust's [panic!], a failed [assert!], [unwrap] or [expect],
    which ends in [shutdown(true)]), or spins forever on a spin lock that the
    same hart already holds.  Recoverable errors are values of [result]. *)

From S2P Require Export Prelude.

(** ** [Result] *)

Inductive result (A E : Type) :=
  | Ok (a : A)
  | Err (e : E).
Arguments Ok {A E} a.
Arguments Err {A E} e.

#[export] Instance result_eq_dec `{EqDecision A, EqDecision E} : EqDecision (result A E).
Proof. solve_decision. Defined.

Definition is_ok {A E} (r : result A E) : bool :=
  match r with Ok _ => true | Err _ => false end.
(** [r.map_err(f)] *)
Definition map_err {A E F} (f : E → F) (r : result A E) : result A F :=
  match r with Ok a => Ok a | Err e => Err (f e) end.
(** [o.ok_or(e)] *)
Definition ok_or {A E} (o : option A) (e : E) : result A E :=
  match o with Some a => Ok a | None => Err e end.

(** ** Computations *)

Inductive outcome (S A : Type) :=
  | Ret (a : A) (s : S)
  | Panic (msg : string)
  | Spin.
Arguments Ret {S A} a s.
Arguments Panic {S A} msg.
Arguments Spin {S A}.

Definition M (S A : Type) : Type := S → outcome S A.

#[export] Instance M_ret {S} : MRet (M S) := λ A a s, Ret a s.
#[export] Instance M_bind {S} : MBind (M S) := λ A B f m s,
  match m s with
  | Ret a s' => f a s'
  | Panic msg => Panic msg
  | Spin => Spin
  end.
#[export] Instance M_fmap {S} : FMap (M S) := λ A B f m s,
  match m s with
  | Ret a s' => Ret (f a) s'
  | Panic msg => Panic msg
  | Spin => Spin
  end.

Definition gets {S A} (f : S → A) : M S A := λ s, Ret (f s) s.
Definition modify {S} (f : S → S) : M S unit := λ s, Ret tt (f s).
Definition panic {S A} (msg : string) : M S A := λ _, Panic msg.
Definition spin {S A} : M S A := λ _, Spin.
(** [assert!(b, msg)] *)
Definition assert_or {S} (b : bool) (msg : string) : M S unit :=
  if b then mret tt else panic msg.
(** [o.expect(msg)], [o.unwrap()] *)
Definition expect {S A} (o : option A) (msg : string) : M S A :=
  match o with Some a => mret a | None => panic msg end.

(** Statements run for their effect, one after the other. *)
Fixpoint for_each {S A} (l : list A) (f : A → M S unit) : M S unit :=
  match l with
  | [] => mret tt
  | x :: l => f x ;; for_each l f
  end.

(** [iter.try_for_each(f)]: stops at the first error. *)
Fixpoint try_for_each {S A T E} (l : list A) (f : A → T → M S (result unit E * T))
    (t : T) : M S (result unit E * T) :=
  match l with
  | [] => mret (Ok tt, t)
  | x :: l =>
      '(r, t) ← f x t;
      match r with
      | Ok _ => try_for_each l f t
      | Err e => mret (Err e, t)
      end
  end.

(** The half-open range [lo..hi] *)
Definition range (lo hi : Z) : list Z := seqZ lo (hi - lo).
(** [(lo..hi).step_by(step)] *)
Definition range_step (lo hi step : Z) : list Z :=
  (λ i, lo + step * i) <$> seqZ 0 ((hi - lo + step - 1) / step).

(** The run returned [Ok]. *)
Definition ran_ok {S A E T} (o : outcome S (result A E * T)) : bool :=
  match o with Ret (Ok _, _) _ => true | _ => false end.

Lemma ran_ok_inv {S A E T} (o : outcome S (result A E * T)) :
  ran_ok o = true → ∃ a t s, o = Ret (Ok a, t) s.
Proof. destruct o as [[[a|] t] s| |]; [|done..]. intros _. by eexists _, _, _. Qed.

(** ** Weakest preconditions: the run returns, and its result satisfies [Q]. *)

Definition wp {S A} (m : M S A) (Q : A → S → Prop) (s : S) : Prop :=
  match m s with
  | Ret a s' => Q a s'
  | Panic _ => False
  | Spin => False
  end.

Section wp.
Context {S : Type}.
Implicit Types s : S.

Lemma wp_ret {A} (a : A) (Q : A → S → Prop) s : Q a s → wp (mret a) Q s.
Proof. done. Qed.

Lemma wp_bind {A B} (m : M S A) (f : A → M S B) Q s :
  wp m (λ a s', wp (f a) Q s') s → wp (m ≫= f) Q s.
Proof. unfold wp, mbind, M_bind. by destruct (m s). Qed.

Lemma wp_fmap {A B} (f : A → B) (m : M S A) Q s :
  wp m (λ a s', Q (f a) s') s → wp (f <$> m) Q s.
Proof. unfold wp, fmap, M_fmap. by destruct (m s). Qed.

Lemma wp_mono {A} (m : M S A) (P Q : A → S → Prop) s :
  wp m P s → (∀ a s', P a s' → Q a s') → wp m Q s.
Proof. unfold wp. destruct (m s); eauto. Qed.

Lemma wp_gets {A} (f : S → A) Q s : Q (f s) s → wp (gets f) Q s.
Proof. done. Qed.

Lemma wp_modify (f : S → S) Q s : Q tt (f s) → wp (modify f) Q s.
Proof. done. Qed.

Lemma wp_assert (b : bool) msg Q s : b = true → Q tt s → wp (assert_or b msg) Q s.
Proof. by intros ->. Qed.

Lemma wp_expect {A} (o : option A) msg (Q : A → S → Prop) s a :
  o = Some a → Q a s → wp (expect o msg) Q s.
Proof. by intros ->. Qed.

Lemma wp_run {A} (m : M S A) Q s a s' : wp m Q s → m s = Ret a s' → Q a s'.
Proof. unfold wp. intros H E. by rewrite E in H. Qed.

Lemma wp_returns {A} (m : M S A) Q s : wp m Q s → ∃ a s', m s = Ret a s' ∧ Q a s'.
Proof. unfold wp. destruct (m s); naive_solver. Qed.

Lemma wp_intro {A} (m : M S A) (Q : A → S → Prop) s a s' :
  m s = Ret a s' → Q a s' → wp m Q s.
Proof. unfold wp. by intros ->. Qed.
(** The run from [s] is the run of [m'] from [s']. *)
Lemma wp_at {A} (m m' : M S A) (Q : A → S → Prop) s s' :
  m s = m' s' → wp m' Q s' → wp m Q s.
Proof. unfold wp. by intros ->. Qed.

(** Computations that run alike *)
Lemma wp_ext {A} (m m' : M S A) Q s : m s = m' s → wp m' Q s → wp m Q s.
Proof. unfold wp. by intros ->. Qed.

(** Two specifications of one run hold of the same result. *)
Lemma wp_conj {A} (m : M S A) (P Q : A → S → Prop) s :
  wp m P s → wp m Q s → wp m (λ a s', P a s' ∧ Q a s') s.
Proof. unfold wp. by destruct (m s). Qed.

(** A loop keeps an invariant indexed by the elements already visited. *)
Lemma wp_for_each {A} (l : list A) (f : A → M S unit) (I : list A → S → Prop) s :
  I [] s →
  (∀ done x todo s, l = done ++ x :: todo → I done s →
     wp (f x) (λ _ s', I (done ++ [x]) s') s) →
  wp (for_each l f) (λ _ s', I l s') s.
Proof.
  intros H0 Hstep.
  cut (∀ todo don s, l = don ++ todo → I don s →
         wp (for_each todo f) (λ _ s', I l s') s).
  { intros H. by apply (H l [] s). }
  induction todo as [|x todo IH]; intros don s' -> HI; simpl.
  - rewrite app_nil_r. by apply wp_ret.
  - apply wp_bind. eapply wp_mono; [by eapply (Hstep don x todo)|].
    intros [] s'' HI'. apply (IH (don ++ [x])); [|done].
    by rewrite <- app_assoc.
Qed.

(** The same for a loop that may stop at an error *)
Lemma wp_try_for_each {A T E} (l : list A) (f : A → T → M S (result unit E * T))
    (I : list A → T → S → Prop) (Q : E → T → S → Prop) t s :
  I [] t s →
  (∀ done x todo t s, l = done ++ x :: todo → I done t s →
     wp (f x t) (λ '(r, t') s',
       match r with Ok _ => I (done ++ [x]) t' s' | Err e => Q e t' s' end) s) →
  wp (try_for_each l f t) (λ '(r, t') s',
    match r with Ok _ => I l t' s' | Err e => Q e t' s' end) s.
Proof.
  intros H0 Hstep.
  cut (∀ todo don t s, l = don ++ todo → I don t s →
         wp (try_for_each todo f t) (λ '(r, t') s',
           match r with Ok _ => I l t' s' | Err e => Q e t' s' end) s).
  { intros H. by apply (H l [] t s). }
  induction todo as [|x todo IH]; intros don t' s' -> HI; simpl.
  - rewrite app_nil_r. by apply wp_ret.
  - apply wp_bind. eapply wp_mono; [by eapply (Hstep don x todo)|].
    intros [[[]|e] t''] s'' HI'; [|by apply wp_ret]. apply (IH (don ++ [x])); [|done].
    by rewrite <- app_assoc.
Qed.
End wp.

(** ** Runs that may panic: never [Spin], and a panic satisfies [E] *)

Definition ends {S A} (m : M S A) (Q : A → S → Prop) (E : string → Prop) (s : S) : Prop :=
  match m s with
  | Ret a s' => Q a s'
  | Panic msg => E msg
  | Spin => False
  end.

Section ends.
Context {S : Type}.
Implicit Types s : S.

Lemma ends_wp {A} (m : M S A) Q E s : wp m Q s → ends m Q E s.
Proof. unfold wp, ends. by destruct (m s). Qed.
Lemma ends_panic {A} msg (Q : A → S → Prop) (E : string → Prop) s : E msg → ends (panic msg) Q E s.
Proof. done. Qed.
Lemma ends_bind {A B} (m : M S A) (f : A → M S B) Q E s :
  ends m (λ a s', ends (f a) Q E s') E s → ends (m ≫= f) Q E s.
Proof. unfold ends, mbind, M_bind. by destruct (m s). Qed.
Lemma ends_fmap {A B} (f : A → B) (m : M S A) Q E s :
  ends m (λ a s', Q (f a) s') E s → ends (f <$> m) Q E s.
Proof. unfold ends, fmap, M_fmap. by destruct (m s). Qed.
Lemma ends_mono {A} (m : M S A) (P Q : A → S → Prop) (E F : string → Prop) s :
  ends m P E s → (∀ a s', P a s' → Q a s') → (∀ msg, E msg → F msg) → ends m Q F s.
Proof. unfold ends. destruct (m s); eauto. Qed.
Lemma ends_for_each {A} (l : list A) (f : A → M S unit) (I : list A → S → Prop) E s :
  I [] s →
  (∀ don x todo s, l = don ++ x :: todo → I don s → ends (f x) (λ _ s', I (don ++ [x]) s') E s) →
  ends (for_each l f) (λ _ s', I l s') E s.
Proof.
  intros H0 Hstep.
  cut (∀ todo don s, l = don ++ todo → I don s → ends (for_each todo f) (λ _ s', I l s') E s).
  { intros H. by apply (H l [] s). }
  induction todo as [|x todo IH]; intros don s' -> HI; simpl.
  - by rewrite app_nil_r.
  - apply ends_bind. eapply ends_mono; [by eapply (Hstep don x todo)| |done].
    intros [] s'' HI'. apply (IH (don ++ [x])); [|done]. by rewrite <- app_assoc.
Qed.
Lemma ends_at {A} (m m' : M S A) (Q : A → S → Prop) E s s' :
  m s = m' s' → ends m' Q E s' → ends m Q E s.
Proof. unfold ends. by intros ->. Qed.
End ends.

(** A run, one bind at a time *)
Lemma bind_run {S A B} (m : M S A) (f : A → M S B) s a s' :
  m s = Ret a s' → (m ≫= f) s = f a s'.
Proof. unfold mbind, M_bind. by intros ->. Qed.

(** Symbolic execution of one step of a [wp] goal. *)
Ltac wp_step :=
  match goal with
  | |- wp (mbind _ _) _ _ => apply wp_bind
  | |- wp (mret _) _ _ => apply wp_ret
  | |- wp (gets _) _ _ => apply wp_gets
  | |- wp (modify _) _ _ => apply wp_modify
  | |- wp (fmap _ _) _ _ => apply wp_fmap
  end.
Ltac wp_steps := repeat (wp_step; simpl).

(** Uses the specification [H] of the computation at the head of the goal. *)
Ltac wp_use H := eapply wp_mono; [eapply H|simpl].

(** ** Lenses: one component's state inside a larger one *)

Class Has (T S : Type) := {
  proj : S → T;
  upd : T → S → S;
  proj_upd t s : proj (upd t s) = t;
  upd_proj s : upd (proj s) s = s;
  upd_upd t t' s : upd t (upd t' s) = upd t s;
}.

(** Updating the part [T] leaves the part [U] alone. *)
Class Separate (T U S : Type) `{!Has T S} `{!Has U S} :=
  separate t s : (proj (upd (t : T) s) : U) = proj s.

(** Runs a computation of the component inside the larger state. *)
Definition lift {T S A} `{Has T S} (m : M T A) : M S A := λ s,
  match m (proj s) with
  | Ret a t => Ret a (upd t s)
  | Panic msg => Panic msg
  | Spin => Spin
  end.

Lemma wp_lift {T S A} `{Has T S} (m : M T A) Q (s : S) :
  wp m (λ a t, Q a (upd t s)) (proj s) → wp (lift m) Q s.
Proof. unfold wp, lift. by destruct (m (proj s)). Qed.

(** ** Ranges *)

Lemma NoDup_range_step lo hi step : 0 < step → NoDup (range_step lo hi step).
Proof.
  intros Hstep. apply NoDup_fmap_2_strong; [|apply NoDup_seqZ]. intros i j _ _ E. nia.
Qed.

Lemma elem_of_range_step lo hi step x :
  0 < step →
  x ∈ range_step lo hi step ↔ lo <= x < hi ∧ (x - lo) mod step = 0.
Proof.
  intros Hstep. unfold range_step. rewrite list_elem_of_fmap. setoid_rewrite elem_of_seqZ. split.
  - intros (i & -> & Hi). replace (lo + step * i - lo) with (i * step) by lia.
    rewrite Z.mod_mul by lia. split; [|done].
    assert (step * i < hi - lo); [|nia].
    assert (i <= (hi - lo + step - 1) / step - 1) as Hle by lia.
    pose proof (Z.mul_div_le (hi - lo + step - 1) step Hstep). nia.
  - intros [Hx Hm]. exists ((x - lo) / step).
    pose proof (Z.div_mod (x - lo) step ltac:(lia)) as E. rewrite Hm in E. split; [lia|].
    split; [apply Z.div_pos; lia|]. rewrite Z.add_0_l.
    assert (((x - lo) / step + 1) * step <= hi - lo + step - 1) as Hle by lia.
    apply Z.div_le_mono with (c := step) in Hle; [|done]. rewrite Z.div_mul in Hle by lia. lia.
Qed.

Lemma range_nil lo hi : hi <= lo → range lo hi = [].
Proof. intros. unfold range. by rewrite seqZ_nil by lia. Qed.

Lemma range_cons lo hi : lo < hi → range lo hi = lo :: range (lo + 1) hi.
Proof.
  intros. unfold range. rewrite seqZ_cons by lia.
  f_equal. f_equal; lia.
Qed.

Lemma elem_of_range lo hi x : x ∈ range lo hi ↔ lo <= x < hi.
Proof. unfold range. rewrite elem_of_seqZ. lia. Qed.

(** Induction along a range, from its end. *)
Lemma range_ind (P : Z → Prop) lo hi :
  lo <= hi → P hi → (∀ x, lo <= x < hi → P (x + 1) → P x) → P lo.
Proof.
  intros Hle Hhi Hstep.
  assert (∀ n : nat, Z.of_nat n <= hi - lo → P (hi - Z.of_nat n)) as H.
  { induction n as [|n IH]; intros Hn; [by rewrite Z.sub_0_r|].
    apply Hstep; [lia|]. replace (hi - Z.of_nat (Datatypes.S n) + 1) with (hi - Z.of_nat n) by lia.
    apply IH. lia. }
  specialize (H (Z.to_nat (hi - lo)) ltac:(lia)).
  by replace (hi - Z.of_nat (Z.to_nat (hi - lo))) with lo in H by lia.
Qed.

Arguments range : simpl never.
Arguments range_step : simpl never.
