(* ===== verification/Mem.v ===== *)
(** * Physical memory

    Byte-addressed memory with little-endian 64-bit accesses, which is what a
    [*mut u8] and a [*mut PTE] of the kernel point into.  An address that was
    never written reads 0; every theorem holds of an arbitrary memory. *)

From S2P Require Export Machine.

(** A map from physical addresses to bytes. *)
Abbreviation mem := (gmap Z Z).

Definition read_u8 (m : mem) (a : Z) : Z := default 0 (m !! a) mod 256.
Definition write_u8 (m : mem) (a b : Z) : mem := <[a := b mod 256]> m.

(** [n] bytes from [a], least significant first *)
Fixpoint read_le (m : mem) (a : Z) (n : nat) : Z :=
  match n with
  | O => 0
  | S n => read_u8 m a + 256 * read_le m (a + 1) n
  end.
Fixpoint write_le (m : mem) (a : Z) (n : nat) (v : Z) : mem :=
  match n with
  | O => m
  | S n => write_le (write_u8 m a v) (a + 1) n (v / 256)
  end.

Definition read_u64 (m : mem) (a : Z) : Z := read_le m a 8.
Definition write_u64 (m : mem) (a v : Z) : mem := write_le m a 8 v.

(** ** Bytes *)

Lemma read_u8_range m a : 0 <= read_u8 m a < 256.
Proof. by apply Z.mod_pos_bound. Qed.

Lemma read_u8_write_same m a b : read_u8 (write_u8 m a b) a = b mod 256.
Proof.
  unfold read_u8, write_u8. rewrite lookup_insert_eq. simpl. by rewrite Z.mod_mod.
Qed.

Lemma read_u8_write_ne m a a' b : a ≠ a' → read_u8 (write_u8 m a b) a' = read_u8 m a'.
Proof. intros. unfold read_u8, write_u8. by rewrite lookup_insert_ne. Qed.

(** ** Little-endian words *)

Lemma read_le_range m a n : 0 <= read_le m a n < 256 ^ Z.of_nat n.
Proof.
  revert a. induction n as [|n IH]; intros a; cbn [read_le]; [done|].
  specialize (IH (a + 1)). pose proof (read_u8_range m a).
  rewrite Nat2Z.inj_succ, Z.pow_succ_r by lia. lia.
Qed.

Lemma read_le_ext m m' a n :
  (∀ b, a <= b < a + Z.of_nat n → read_u8 m b = read_u8 m' b) →
  read_le m a n = read_le m' a n.
Proof.
  revert a. induction n as [|n IH]; intros a H; cbn [read_le]; [done|].
  rewrite H by lia. rewrite (IH (a + 1)); [done|]. intros b Hb. apply H. lia.
Qed.

Lemma write_le_other m a n v b :
  (b < a ∨ a + Z.of_nat n <= b) → read_u8 (write_le m a n v) b = read_u8 m b.
Proof.
  revert m a v. induction n as [|n IH]; intros m a v Hb; cbn [write_le]; [done|].
  rewrite IH by lia. rewrite read_u8_write_ne by lia. done.
Qed.

(** A write makes the same difference to memories that agree. *)
Lemma write_le_cong m m' a n v b :
  read_u8 m' b = read_u8 m b → read_u8 (write_le m' a n v) b = read_u8 (write_le m a n v) b.
Proof.
  revert m m' a v. induction n as [|n IH]; intros m m' a v Hb; cbn [write_le]; [done|].
  apply IH. destruct (decide (a = b)) as [->|].
  - by rewrite !read_u8_write_same.
  - by rewrite !read_u8_write_ne.
Qed.

Lemma read_write_le_same m a n v :
  read_le (write_le m a n v) a n = v mod 256 ^ Z.of_nat n.
Proof.
  revert m a v. induction n as [|n IH]; intros m a v; cbn [read_le write_le].
  - by rewrite Z.pow_0_r, Z.mod_1_r.
  - rewrite IH, write_le_other, read_u8_write_same by lia.
    rewrite Nat2Z.inj_succ, Z.pow_succ_r by lia.
    rewrite (Z.rem_mul_r v 256) by lia. done.
Qed.

Lemma read_u64_range m a : is_usize (read_u64 m a).
Proof. apply (read_le_range m a 8). Qed.
#[export] Hint Resolve read_u64_range : kernel.

Lemma read_write_u64_same m a v : is_usize v → read_u64 (write_u64 m a v) a = v.
Proof.
  intros Hv. unfold read_u64, write_u64. rewrite read_write_le_same.
  by apply Z.mod_small.
Qed.
Lemma read_write_u64_wrap m a v : read_u64 (write_u64 m a v) a = wrap v.
Proof. apply read_write_le_same. Qed.

Lemma read_u64_ext m m' a :
  (∀ b, a <= b < a + 8 → read_u8 m b = read_u8 m' b) → read_u64 m a = read_u64 m' a.
Proof. intros H. by apply read_le_ext. Qed.

Lemma write_u64_other m a v b :
  (b < a ∨ a + 8 <= b) → read_u8 (write_u64 m a v) b = read_u8 m b.
Proof. intros H. apply (write_le_other m a 8). simpl. lia. Qed.

Lemma read_write_u64_ne m a v b :
  (b + 8 <= a ∨ a + 8 <= b) → read_u64 (write_u64 m a v) b = read_u64 m b.
Proof. intros H. apply read_u64_ext. intros. apply write_u64_other. lia. Qed.

Lemma read_u64_zero m a : (∀ b, a <= b < a + 8 → read_u8 m b = 0) → read_u64 m a = 0.
Proof.
  intros H. unfold read_u64. cbn [read_le].
  by rewrite !H by lia.
Qed.

(** ** Memories with the same bytes *)

#[export] Instance mem_equiv : Equiv mem := λ m m', ∀ a, read_u8 m a = read_u8 m' a.
#[export] Instance mem_equivalence : Equivalence (≡@{mem}).
Proof.
  split.
  - intros m a. done.
  - intros m m' H a. by rewrite H.
  - intros m1 m2 m3 H1 H2 a. by rewrite H1, H2.
Qed.
#[export] Instance read_u8_proper : Proper ((≡@{mem}) ==> eq ==> eq) read_u8.
Proof. intros m m' H a ? <-. apply H. Qed.
#[export] Instance read_u64_proper : Proper ((≡@{mem}) ==> eq ==> eq) read_u64.
Proof. intros m m' H a ? <-. apply read_u64_ext. intros. apply H. Qed.
#[export] Instance write_u8_proper :
  Proper ((≡@{mem}) ==> eq ==> eq ==> (≡@{mem})) write_u8.
Proof.
  intros m m' H a ? <- b ? <- x. destruct (decide (a = x)) as [<-|].
  - by rewrite !read_u8_write_same.
  - rewrite !read_u8_write_ne by done. apply H.
Qed.

(** ** Frames: [same_outside lo hi m m'] says only bytes of [[lo, hi)] may differ. *)
Definition same_outside (lo hi : Z) (m m' : mem) : Prop :=
  ∀ a, (a < lo ∨ hi <= a) → read_u8 m' a = read_u8 m a.

Lemma same_outside_refl lo hi m : same_outside lo hi m m.
Proof. done. Qed.

Lemma same_outside_trans lo hi m1 m2 m3 :
  same_outside lo hi m1 m2 → same_outside lo hi m2 m3 → same_outside lo hi m1 m3.
Proof. intros H1 H2 a Ha. by rewrite H2, H1. Qed.

Lemma same_outside_write_u8 lo hi m a b :
  lo <= a < hi → same_outside lo hi m (write_u8 m a b).
Proof. intros H x Hx. apply read_u8_write_ne. lia. Qed.

Lemma same_outside_read_u64 lo hi m m' a :
  same_outside lo hi m m' → (a + 8 <= lo ∨ hi <= a) → read_u64 m' a = read_u64 m a.
Proof. intros H Ha. apply read_u64_ext. intros b Hb. apply H. lia. Qed.
#[export] Hint Resolve same_outside_refl same_outside_trans : kernel.
