(* ===== verification/Regs.v ===== *)
(** * Supervisor CSRs: the [riscv] crate

    One module per file of [src/riscv/src/regs].  The CSR file is a map from
    CSR numbers to words; the macros of [src/riscv/src/macros.rs] wrap the four
    instructions [csrr], [csrw], [csrrc] and [csrrs]. *)

From S2P Require Export Machine.

(** The CSR file, a register never written reads 0. *)
Record csrs := mk_csrs { csr_map : gmap Z Z }.
#[export] Instance csrs_empty : Empty csrs := mk_csrs ∅.
#[export] Instance csrs_insert : Insert Z Z csrs := λ n v c, mk_csrs (<[n := v]> (csr_map c)).

(** ** [macros.rs] *)

Definition csr_value (c : csrs) (csr_no : Z) : Z := default 0 (csr_map c !! csr_no).

Definition csrr (csr_no : Z) : M csrs Z := gets (λ c, csr_value c csr_no).
Definition csrw (csr_no value : Z) : M csrs unit := modify (<[csr_no := value]>).
Definition csrrc (csr_no mask : Z) : M csrs Z :=
  old ← csrr csr_no;
  csrw csr_no (old .& .~ mask);;
  mret old.
Definition csrrs (csr_no mask : Z) : M csrs Z :=
  old ← csrr csr_no;
  csrw csr_no (old .| mask);;
  mret old.

(** ** [satp.rs] *)
Module Satp.
Inductive Mode := Bare | Sv39 | Sv48 | Sv57 | Sv64.

Definition get_mode_value (mode : Mode) : Z :=
  match mode with
  | Bare => 0
  | Sv39 => 8
  | Sv48 => 9
  | Sv57 => 10
  | Sv64 => 11
  end.

Definition compute_value (ppn : Z) (mode : Mode) : Z :=
  let ppn := ppn .& 0xfffffffffff in
  let mode_value := get_mode_value mode in
  (mode_value .<< 60) .| ppn.
End Satp.

(** ** [scause.rs] *)
Module Scause.
Definition CSR_NO : Z := 0x142.
Definition INTERRUPT_BIT : Z := 1 .<< 63.

Inductive Cause :=
  (* Interrupt *)
  | SupervisorSoftwareInterrupt
  | SupervisorTimerInterrupt
  | SupervisorExternalInterrupt
  | CounterOverflowInterrupt
  (* Exception *)
  | InstructionAddressMisaligned
  | InstructionAccessFault
  | IllegalInstruction
  | Breakpoint
  | LoadAddressMisaligned
  | LoadAccessFault
  | StoreOrAmoAddressMisaligned
  | StoreOrAmoAccessFault
  | UserEnvironmentCall
  | SupervisorEnvironmentCall
  | InstructionPageFault
  | LoadPageFault
  | StoreOrAmoPageFault
  | SoftwareCheck
  | HardwareError
  (* Other *)
  | Unknown.
#[export] Instance cause_eq_dec : EqDecision Cause.
Proof. solve_decision. Defined.

Definition read : M csrs Z := csrr CSR_NO.

Definition is_interrupt (value : Z) : bool := negb (value .& INTERRUPT_BIT =? 0).

Definition match_interrupt_cause (value : Z) : Cause :=
  match value .^ INTERRUPT_BIT with
  | 1 => SupervisorSoftwareInterrupt
  | 5 => SupervisorTimerInterrupt
  | 9 => SupervisorExternalInterrupt
  | 13 => CounterOverflowInterrupt
  | _ => Unknown
  end.

Definition match_exception_cause (value : Z) : Cause :=
  match value with
  | 0 => InstructionAddressMisaligned
  | 1 => InstructionAccessFault
  | 2 => IllegalInstruction
  | 3 => Breakpoint
  | 4 => LoadAddressMisaligned
  | 5 => LoadAccessFault
  | 6 => StoreOrAmoAddressMisaligned
  | 7 => StoreOrAmoAccessFault
  | 8 => UserEnvironmentCall
  | 9 => SupervisorEnvironmentCall
  | 12 => InstructionPageFault
  | 13 => LoadPageFault
  | 15 => StoreOrAmoPageFault
  | 18 => SoftwareCheck
  | 19 => HardwareError
  | _ => Unknown
  end.

Definition match_cause (value : Z) : Cause :=
  if is_interrupt value then match_interrupt_cause value
  else match_exception_cause value.
End Scause.

(** ** [sepc.rs], [stval.rs], [sie.rs] *)
Module Sepc.
Definition CSR_NO : Z := 0x141.
Definition read : M csrs Z := csrr CSR_NO.
Definition write (value : Z) : M csrs unit := csrw CSR_NO value.
End Sepc.

Module Stval.
Definition CSR_NO : Z := 0x143.
Definition read : M csrs Z := csrr CSR_NO.
End Stval.

Module Sie.
Definition CSR_NO : Z := 0x104.
Definition STIE_BIT : Z := 1 .<< 5.
Definition set_stie : M csrs Z := csrrs CSR_NO STIE_BIT.
End Sie.

(** ** [sstatus.rs] *)
Module Sstatus.
Definition CSR_NO : Z := 0x100.
Definition SIE_BIT : Z := 1 .<< 1.
Definition SPP_BIT : Z := 1 .<< 8.
Definition SUM_BIT : Z := 1 .<< 18.

Definition read : M csrs Z := csrr CSR_NO.
Definition set_spp_user : M csrs Z :=
  result ← csrrc CSR_NO SPP_BIT;
  mret (result .& .~ SPP_BIT).
Definition set_sie : M csrs Z := csrrs CSR_NO SIE_BIT.
Definition set_sum_permit : M csrs Z := csrrs CSR_NO SUM_BIT.
Definition set_sum_deny : M csrs Z := csrrc CSR_NO SUM_BIT.
End Sstatus.

(** ** [stvec.rs] *)
Module Stvec.
Definition CSR_NO : Z := 0x105.
Definition MODE_BITS : Z := 3.
Inductive Mode := Direct | Vectored.

Definition install (base_addr : Z) (mode : Mode) : M csrs bool :=
  if negb (base_addr .& MODE_BITS =? 0) then mret false
  else
    let addr := match mode with
                | Direct => base_addr
                | Vectored => base_addr .| 1
                end in
    csrw CSR_NO addr;;
    mret true.
End Stvec.

(** ** Specifications *)

(** The fields of [satp] as the privileged manual lays them out. *)
Definition satp_mode (v : Z) : Z := v / 2 ^ 60.
Definition satp_asid (v : Z) : Z := v / 2 ^ 44 mod 2 ^ 16.
Definition satp_ppn (v : Z) : Z := v mod 2 ^ 44.

Lemma get_mode_value_range mode : 0 <= Satp.get_mode_value mode < 16.
Proof. by destruct mode. Qed.

Lemma compute_value_eq ppn mode :
  Satp.compute_value ppn mode = Satp.get_mode_value mode * 2 ^ 60 + ppn mod 2 ^ 44.
Proof.
  unfold Satp.compute_value. rewrite (land_mask ppn 44) by done.
  assert (0 <= ppn mod 2 ^ 44 < 2 ^ 44) by (apply Z.mod_pos_bound; done).
  unfold ushl. rewrite wrap_small.
  - rewrite lor_shiftl_add by lia. done.
  - rewrite Z.shiftl_mul_pow2 by done. pose proof (get_mode_value_range mode).
    unfold is_usize, USIZE_MODULUS. lia.
Qed.

(** [satp::compute_value] puts the mode value, ASID 0 and the low 44 bits of
    the page number into the fields of [satp]; the bits of the page number above
    the field are dropped. *)
Theorem satp_fields ppn mode :
  satp_mode (Satp.compute_value ppn mode) = Satp.get_mode_value mode ∧
  satp_asid (Satp.compute_value ppn mode) = 0 ∧
  satp_ppn (Satp.compute_value ppn mode) = ppn mod 2 ^ 44 ∧
  is_usize (Satp.compute_value ppn mode).
Proof.
  rewrite compute_value_eq. unfold satp_mode, satp_asid, satp_ppn, is_usize, USIZE_MODULUS.
  pose proof (get_mode_value_range mode).
  assert (0 <= ppn mod 2 ^ 44 < 2 ^ 44) by (apply Z.mod_pos_bound; done).
  repeat split; zlia.
Qed.

(** The exception code table of the privileged manual, read in the other
    direction: the value the hardware writes to [scause] for a cause. *)
Definition scause_value (c : Scause.Cause) : option Z :=
  let irq n := Some (2 ^ 63 + n) in
  match c with
  | Scause.SupervisorSoftwareInterrupt => irq 1
  | Scause.SupervisorTimerInterrupt => irq 5
  | Scause.SupervisorExternalInterrupt => irq 9
  | Scause.CounterOverflowInterrupt => irq 13
  | Scause.InstructionAddressMisaligned => Some 0
  | Scause.InstructionAccessFault => Some 1
  | Scause.IllegalInstruction => Some 2
  | Scause.Breakpoint => Some 3
  | Scause.LoadAddressMisaligned => Some 4
  | Scause.LoadAccessFault => Some 5
  | Scause.StoreOrAmoAddressMisaligned => Some 6
  | Scause.StoreOrAmoAccessFault => Some 7
  | Scause.UserEnvironmentCall => Some 8
  | Scause.SupervisorEnvironmentCall => Some 9
  | Scause.InstructionPageFault => Some 12
  | Scause.LoadPageFault => Some 13
  | Scause.StoreOrAmoPageFault => Some 15
  | Scause.SoftwareCheck => Some 18
  | Scause.HardwareError => Some 19
  | Scause.Unknown => None
  end.

(** Bit 63 of a word *)
Lemma land_bit63 v : is_usize v → v .& Scause.INTERRUPT_BIT = if v <? 2 ^ 63 then 0 else 2 ^ 63.
Proof.
  intros Hv. change Scause.INTERRUPT_BIT with (2 ^ 63).
  assert (v .& 2 ^ 63 = if Z.testbit v 63 then 2 ^ 63 else 0) as ->.
  { bits_ext i Hi. rewrite Z.land_spec, Z.pow2_bits_eqb by done.
    destruct (Z.eqb_spec 63 i) as [<-|Hne].
    - destruct (Z.testbit v 63); [by rewrite Z.pow2_bits_true|by rewrite Z.bits_0].
    - rewrite andb_false_r. destruct (Z.testbit v 63); [|by rewrite Z.bits_0].
      symmetry. by apply Z.pow2_bits_false. }
  rewrite Z.testbit_eqb by done. unfold is_usize, USIZE_MODULUS in Hv.
  destruct (Z.ltb_spec v (2 ^ 63)).
  - rewrite Z.div_small by lia. done.
  - replace (v / 2 ^ 63) with 1 by zlia. done.
Qed.

Lemma lxor_bit63 v : 2 ^ 63 <= v < 2 ^ 64 → v .^ Scause.INTERRUPT_BIT = v - 2 ^ 63.
Proof.
  intros Hv. change Scause.INTERRUPT_BIT with (2 ^ 63).
  assert (v .& 2 ^ 63 = 2 ^ 63) as H.
  { pose proof (land_bit63 v ltac:(unfold is_usize, USIZE_MODULUS; lia)) as H.
    change Scause.INTERRUPT_BIT with (2 ^ 63) in H. rewrite H.
    destruct (Z.ltb_spec v (2 ^ 63)); [lia|done]. }
  rewrite Z.sub_nocarry_ldiff.
  - bits_ext i Hi. rewrite Z.lxor_spec, Z.ldiff_spec.
    assert (Z.testbit (v .& 2 ^ 63) i = Z.testbit (2 ^ 63) i) as Hb by (by rewrite H).
    rewrite Z.land_spec in Hb.
    by destruct (Z.testbit v i), (Z.testbit (2 ^ 63) i).
  - bits_ext i Hi. rewrite Z.ldiff_spec, Z.bits_0.
    assert (Z.testbit (v .& 2 ^ 63) i = Z.testbit (2 ^ 63) i) as Hb by (by rewrite H).
    rewrite Z.land_spec in Hb.
    by destruct (Z.testbit v i), (Z.testbit (2 ^ 63) i).
Qed.

(** Reduces a [match] on integer literals at its default branch. *)
Ltac default_branch v :=
  let p := fresh "p" in
  destruct v as [|p|p]; [..|]; try done; do 5 try destruct p; try done; congruence.

(** Uses an equation between [scause] values. *)
Ltac simplify_scause :=
  match goal with
  | H : scause_value ?c = Some _ |- _ =>
      destruct c; cbn -[Z.add Z.pow] in H; first [discriminate H | injection H as H; lia]
  end.

Lemma match_exception_cause_cases v :
  scause_value (Scause.match_exception_cause v) = Some v ∨
  Scause.match_exception_cause v = Scause.Unknown ∧
    ∀ c, scause_value c = Some v → 2 ^ 63 <= v.
Proof.
  destruct (decide (v ∈ [0;1;2;3;4;5;6;7;8;9;12;13;15;18;19])) as [Hin|Hin].
  - left. rewrite !elem_of_cons, elem_of_nil in Hin.
    by destruct_or?; subst.
  - right. rewrite !not_elem_of_cons in Hin. destruct_and!. split.
    + default_branch v.
    + intros c Hc. simplify_scause.
Qed.

Lemma match_interrupt_cause_cases v :
  2 ^ 63 <= v < 2 ^ 64 →
  scause_value (Scause.match_interrupt_cause v) = Some v ∨
  Scause.match_interrupt_cause v = Scause.Unknown ∧ ∀ c, scause_value c ≠ Some v.
Proof.
  intros Hv. unfold Scause.match_interrupt_cause. rewrite lxor_bit63 by done.
  remember (v - 2 ^ 63) as w eqn:Hw. assert (v = 2 ^ 63 + w) as -> by lia.
  assert (0 <= w) by lia. clear Hv Hw.
  destruct (decide (w ∈ [1;5;9;13])) as [Hin|Hin].
  - left. rewrite !elem_of_cons, elem_of_nil in Hin.
    by destruct_or?; subst.
  - right. rewrite !not_elem_of_cons in Hin. destruct_and!. split.
    + default_branch w.
    + intros c Hc. simplify_scause.
Qed.

(** [scause::match_cause] inverts the exception code table: the cause it
    returns is the one whose code is the value, and [Unknown] means no listed
    cause has that code. *)
Theorem match_cause_correct v :
  is_usize v →
  match Scause.match_cause v with
  | Scause.Unknown => ∀ c, scause_value c ≠ Some v
  | c => scause_value c = Some v
  end.
Proof.
  intros Hv. unfold Scause.match_cause, Scause.is_interrupt. rewrite land_bit63 by done.
  unfold is_usize, USIZE_MODULUS in Hv.
  destruct (Z.ltb_spec v (2 ^ 63)) as [Hlt|Hge]; simpl.
  - destruct (match_exception_cause_cases v) as [H|[-> H]].
    + by destruct (Scause.match_exception_cause v).
    + intros c Hc. specialize (H c Hc). lia.
  - destruct (match_interrupt_cause_cases v) as [H|[H1 H2]]; [lia|..].
    + by destruct (Scause.match_interrupt_cause _).
    + by rewrite H1.
Qed.

Lemma match_cause_correct_witness :
  is_usize 9223372036854775813 ∧
  scause_value Scause.SupervisorTimerInterrupt = Some 9223372036854775813.
Proof.
  assert (is_usize 9223372036854775813) as H by (vm_compute; split; congruence).
  split; [exact H|]. exact (match_cause_correct 9223372036854775813 H).
Defined.

(** The value of a CSR after [csrrc] and [csrrs]; every other CSR is kept. *)
Lemma csrrc_run csr_no mask c :
  csrrc csr_no mask c =
    Ret (csr_value c csr_no) (<[csr_no := csr_value c csr_no .& .~ mask]> c).
Proof. done. Qed.
Lemma csrrs_run csr_no mask c :
  csrrs csr_no mask c =
    Ret (csr_value c csr_no) (<[csr_no := csr_value c csr_no .| mask]> c).
Proof. done. Qed.
Lemma csr_value_insert_same c csr_no v : csr_value (<[csr_no := v]> c) csr_no = v.
Proof. unfold csr_value. simpl. by rewrite lookup_insert_eq. Qed.
Lemma csr_value_insert_ne c n n' v : n ≠ n' → csr_value (<[n := v]> c) n' = csr_value c n'.
Proof. intros. unfold csr_value. simpl. by rewrite lookup_insert_ne. Qed.

(** Bit [i] of [!m] *)
Lemma testbit_unot m i : is_usize m → 0 <= i < 64 → Z.testbit (.~ m) i = negb (Z.testbit m i).
Proof.
  intros Hm Hi. unfold unot.
  assert (Z.ldiff m USIZE_MAX = 0) as Hd.
  { bits_ext j Hj. rewrite Z.ldiff_spec, Z.bits_0. change USIZE_MAX with (Z.ones 64).
    rewrite Z.testbit_ones by lia. destruct (decide (j < 64)).
    - replace ((0 <=? j) && (j <? 64)) with true by (symmetry; lia). by rewrite andb_false_r.
    - by rewrite usize_bits_high by (done || lia). }
  rewrite Z.sub_nocarry_ldiff by done. rewrite Z.ldiff_spec.
  change USIZE_MAX with (Z.ones 64). rewrite Z.testbit_ones by lia.
  replace ((0 <=? i) && (i <? 64)) with true by (symmetry; lia). done.
Qed.

(** The [n]-th bit mask *)
Lemma testbit_shl1 n i : 0 <= n < 64 → 0 <= i → Z.testbit (1 .<< n) i = (n =? i).
Proof.
  intros Hn Hi. unfold ushl. rewrite Z.shiftl_1_l, wrap_small.
  - apply Z.pow2_bits_eqb. lia.
  - unfold is_usize. change USIZE_MODULUS with (2 ^ 64). split; [lia|].
    apply Z.pow_lt_mono_r; lia.
Qed.

Lemma testbit_clear v n i :
  0 <= n < 64 → 0 <= i < 64 →
  Z.testbit (v .& .~ (1 .<< n)) i = Z.testbit v i && negb (n =? i).
Proof.
  intros Hn Hi. rewrite Z.land_spec, testbit_unot, testbit_shl1 by (done || lia || apply wrap_is_usize).
  done.
Qed.

Lemma testbit_set v n i :
  0 <= n < 64 → 0 <= i < 64 →
  Z.testbit (v .| (1 .<< n)) i = Z.testbit v i || (n =? i).
Proof. intros Hn Hi. by rewrite Z.lor_spec, testbit_shl1 by lia. Qed.

(** [sstatus::set_spp_user] returns the register value it leaves behind, which
    is the old one with SPP cleared and every other bit kept. *)
Theorem set_spp_user_spec c :
  ∃ v c', Sstatus.set_spp_user c = Ret v c' ∧
    v = csr_value c' Sstatus.CSR_NO ∧
    (∀ i, 0 <= i < 64 →
       Z.testbit v i = if i =? 8 then false else Z.testbit (csr_value c Sstatus.CSR_NO) i) ∧
    ∀ n, n ≠ Sstatus.CSR_NO → csr_value c' n = csr_value c n.
Proof.
  eexists _, _. split; [reflexivity|].
  rewrite csr_value_insert_same. split; [done|]. split.
  - intros i Hi. unfold Sstatus.SPP_BIT. rewrite testbit_clear by lia.
    rewrite (Z.eqb_sym i 8). by destruct (8 =? i), (Z.testbit _ i).
  - intros n Hn. by apply csr_value_insert_ne.
Qed.

(** [set_sum_permit] then [set_sum_deny] opens and closes the user-memory
    window: SUM is set in between and clear after, and no other bit or register
    changes. *)
Theorem sum_window_spec c :
  ∃ v c1 v' c2, Sstatus.set_sum_permit c = Ret v c1 ∧ Sstatus.set_sum_deny c1 = Ret v' c2 ∧
    Z.testbit (csr_value c1 Sstatus.CSR_NO) 18 = true ∧
    Z.testbit (csr_value c2 Sstatus.CSR_NO) 18 = false ∧
    (∀ i, 0 <= i < 64 → i ≠ 18 →
       Z.testbit (csr_value c2 Sstatus.CSR_NO) i = Z.testbit (csr_value c Sstatus.CSR_NO) i) ∧
    ∀ n, n ≠ Sstatus.CSR_NO → csr_value c2 n = csr_value c n.
Proof.
  eexists _, _, _, _. split_and!; [reflexivity|reflexivity|..].
  - rewrite csr_value_insert_same. unfold Sstatus.SUM_BIT.
    rewrite testbit_set by lia. by rewrite orb_true_r.
  - rewrite csr_value_insert_same. unfold Sstatus.SUM_BIT.
    rewrite testbit_clear by lia. by rewrite andb_false_r.
  - intros i Hi Hne. rewrite !csr_value_insert_same. unfold Sstatus.SUM_BIT.
    rewrite testbit_clear, testbit_set by lia.
    replace (18 =? i) with false by (symmetry; lia). by rewrite orb_false_r, andb_true_r.
  - intros n Hn. by rewrite !csr_value_insert_ne by done.
Qed.

(** [stvec::install] writes the base address with the mode in its low bits when
    the address is 4-aligned, and changes nothing and returns false otherwise. *)
Theorem stvec_install_spec base mode c :
  is_usize base →
  Stvec.install base mode c =
    if base mod 4 =? 0 then
      Ret true (<[Stvec.CSR_NO := base + match mode with
                                         | Stvec.Direct => 0
                                         | Stvec.Vectored => 1 end]> c)
    else Ret false c.
Proof.
  intros Hb. unfold Stvec.install. rewrite (land_mask base 2) by done.
  change (2 ^ 2) with 4. destruct (Z.eqb_spec (base mod 4) 0) as [H0|]; [|done].
  destruct mode; cbn -[Z.lor Z.add].
  - by rewrite Z.add_0_r.
  - do 2 f_equal. unfold csrw, modify. do 2 f_equal.
    assert (base = Z.shiftl (base / 4) 2) as -> by (rewrite Z.shiftl_mul_pow2 by done; zlia).
    rewrite lor_shiftl_add by lia. rewrite Z.shiftl_mul_pow2 by done. done.
Qed.

Lemma stvec_install_spec_witness :
  is_usize 0x80200004 ∧
  Stvec.install 0x80200004 Stvec.Direct ∅ = Ret true (<[Stvec.CSR_NO := 0x80200004]> ∅).
Proof.
  assert (is_usize 0x80200004) as H by (vm_compute; split; congruence).
  split; [exact H|]. exact (stvec_install_spec 0x80200004 Stvec.Direct ∅ H).
Defined.
