(* ===== verification/Addr.v ===== *)
(** * Addresses and page numbers: [src/os/src/mm.rs]

    The constants of the memory map, the linker symbols, the kernel's direct
    map between physical and virtual addresses, the page-number types and the
    user-range checks.  [PPN] and [VPN] wrap a [usize]; here they are [Z]s. *)

From S2P Require Export Mem.

(** ** Constants *)

Definition QEMU_VIRT_MMIO : list (Z * Z) := [
  (0x00100000, 0x00001000); (* VIRT_TEST *)
  (0x00101000, 0x00001000); (* VIRT_RTC *)
  (0x02000000, 0x00010000); (* VIRT_CLINT *)
  (0x0c000000, 0x00600000); (* VIRT_PLIC *)
  (0x10000000, 0x00000100); (* VIRT_UART0 *)
  (0x10010000, 0x00001000)  (* VIRT_VIRTIO *)
].

Definition MEM_START_PA : Z := 0x80000000.
Definition MEM_SIZE_BYTES : Z := 128 .<< 20.
Definition PAGE_SIZE_ORDER : Z := 12.
Definition PAGE_SIZE_BYTES : Z := 1 .<< PAGE_SIZE_ORDER.
Definition LARGE_PAGE_SIZE_ORDER : Z := 21.
Definition LARGE_PAGE_SIZE_BYTES : Z := 1 .<< LARGE_PAGE_SIZE_ORDER.
Definition KERNEL_VA_OFFSET : Z := 0xffffffc000000000.
Definition KERNEL_HEAP_SIZE_BYTES : Z := 4 .<< 20.
Definition USER_SPACE_END : Z := 0x4000000000 ⊖ PAGE_SIZE_BYTES.
Definition USER_STACK_MAX_SIZE_BYTES : Z := 8 .<< 20.

(** The [extern "C"] block: symbols of [src/os/src/linker.ld], all virtual
    addresses. *)
Class LinkerSymbols := {
  kernel_start : Z;
  text_start : Z;
  text_end : Z;
  boot_pgt : Z;
  kernel_stack_start : Z;
  kernel_stack_end : Z;
  rodata_start : Z;
  rodata_end : Z;
  data_start : Z;
  data_end : Z;
  bss_start : Z;
  bss_end : Z;
  kernel_end : Z;
}.

(** ** The direct map *)

Definition get_va_from_pa {S} (pa : Z) : M S Z :=
  expect (checked_add pa KERNEL_VA_OFFSET) "address overflow".
Definition get_pa_from_va {S} (va : Z) : M S Z :=
  expect (checked_sub va KERNEL_VA_OFFSET) "address underflow".
(** A [*mut u8] is the virtual address it holds. *)
Definition get_pa_mut_ptr {S} (pa : Z) : M S Z := get_va_from_pa pa.

(** Accesses of the kernel through its direct map: the byte behind the virtual
    address [va] is the one at physical address [va - KERNEL_VA_OFFSET]. *)
Section access.
Context {S : Type} `{Has mem S}.
Definition mem_of (s : S) : mem := proj s.
Definition upd_mem (f : mem → mem) (s : S) : S := upd (f (proj s)) s.
Definition store_u8 (va b : Z) : M S unit :=
  modify (upd_mem (λ m, write_u8 m (va - KERNEL_VA_OFFSET) b)).
Definition load_u8 (va : Z) : M S Z :=
  gets (λ s, read_u8 (mem_of s) (va - KERNEL_VA_OFFSET)).
Definition store_u64 (va v : Z) : M S unit :=
  modify (upd_mem (λ m, write_u64 m (va - KERNEL_VA_OFFSET) v)).
Definition load_u64 (va : Z) : M S Z :=
  gets (λ s, read_u64 (mem_of s) (va - KERNEL_VA_OFFSET)).

Definition clear_bss `{LinkerSymbols} : M S unit :=
  for_each (range bss_start bss_end) (λ a, store_u8 a 0).
End access.

(** ** User ranges *)

Definition check_u_va (va : Z) : bool := va <? USER_SPACE_END.
Definition check_u_va_range (start len : Z) : bool :=
  check_u_va start &&
  match checked_add start len with
  | Some end_ => check_u_va (end_ ⊖ 1)
  | None => false
  end.

(** ** [PPN] *)
Module PPN.
Definition MAX_PA : Z := (1 .<< 56) ⊖ 1.
Definition is_valid_pa (pa : Z) : bool := pa <? MAX_PA.
Definition from_pa {S} (pa : Z) : M S Z :=
  assert_or (is_valid_pa pa) "invalid physical address";;
  mret (pa .>> PAGE_SIZE_ORDER).
Definition get_pa (ppn : Z) : Z := ppn .<< PAGE_SIZE_ORDER.
Definition get_raw (ppn : Z) : Z := ppn.
End PPN.

(** ** [VPN] *)
Module VPN.
Definition is_valid_va (va : Z) : bool :=
  let mask := 0xffffffc000000000 in
  (va .& mask =? 0) || (va .& mask =? mask).
Definition from_va {S} (va : Z) : M S Z :=
  assert_or (is_valid_va va) "invalid virtual address";;
  mret (va .>> PAGE_SIZE_ORDER).
Definition get_va (vpn : Z) : Z := vpn .<< PAGE_SIZE_ORDER.
End VPN.

(** ** Values of the constants *)

Lemma page_size_eq : PAGE_SIZE_BYTES = 4096. Proof. done. Qed.
Lemma large_page_size_eq : LARGE_PAGE_SIZE_BYTES = 2097152. Proof. done. Qed.
Lemma user_space_end_eq : USER_SPACE_END = 0x3ffffff000. Proof. done. Qed.
Lemma max_pa_eq : PPN.MAX_PA = 2 ^ 56 - 1. Proof. done. Qed.
Create Rewrite HintDb consts.
#[export] Hint Rewrite page_size_eq large_page_size_eq user_space_end_eq max_pa_eq : consts.

(** Replaces the named constants by their values. *)
Ltac consts :=
  autorewrite with consts in *;
  unfold KERNEL_VA_OFFSET, PAGE_SIZE_ORDER, LARGE_PAGE_SIZE_ORDER, is_usize,
    USIZE_MODULUS in *.

(** ** Page numbers *)

Lemma is_valid_va_cases va :
  is_usize va →
  VPN.is_valid_va va = true ↔ va < 2 ^ 38 ∨ 2 ^ 64 - 2 ^ 38 <= va.
Proof.
  intros Hva. unfold VPN.is_valid_va.
  change 0xffffffc000000000 with (.~ (2 ^ 38 - 1)).
  rewrite (land_not_mask va 38) by (done || lia).
  change (.~ (2 ^ 38 - 1)) with (2 ^ 64 - 2 ^ 38).
  rewrite orb_true_iff, !Z.eqb_eq. unfold is_usize, USIZE_MODULUS in Hva. zlia.
Qed.

(** [VPN::is_valid_va] accepts exactly the canonical Sv39 addresses: bits 63
    to 39 all equal to bit 38. *)
Theorem is_valid_va_canonical va :
  is_usize va →
  VPN.is_valid_va va = true ↔
  ∀ i, 39 <= i < 64 → Z.testbit va i = Z.testbit va 38.
Proof.
  intros Hva. rewrite is_valid_va_cases by done.
  set (hi := va / 2 ^ 38).
  assert (∀ i, 38 <= i → Z.testbit va i = Z.testbit hi (i - 38)) as Hbit.
  { intros i Hi. unfold hi. rewrite <- Z.shiftr_div_pow2, Z.shiftr_spec by lia.
    f_equal. lia. }
  assert (0 <= hi < 2 ^ 26) as Hhi.
  { unfold hi. unfold is_usize, USIZE_MODULUS in Hva. zlia. }
  split.
  - intros Hc. assert (hi = 0 ∨ hi = Z.ones 26) as Hcase.
    { unfold hi. change (Z.ones 26) with (2 ^ 26 - 1).
      unfold is_usize, USIZE_MODULUS in Hva. zlia. }
    intros i Hi. rewrite !Hbit by lia. destruct Hcase as [->| ->].
    + by rewrite !Z.bits_0.
    + rewrite !Z.testbit_ones by lia. lia.
  - intros Hall. assert (hi = if Z.testbit hi 0 then Z.ones 26 else 0) as Hcase.
    { bits_ext i Hi. destruct (decide (i < 26)).
      - transitivity (Z.testbit hi 0).
        + destruct (decide (i = 0)) as [->|]; [done|].
          specialize (Hall (i + 38) ltac:(lia)). rewrite !Hbit in Hall by lia.
          replace (i + 38 - 38) with i in Hall by lia. done.
        + destruct (Z.testbit hi 0); [|by rewrite Z.bits_0].
          rewrite Z.testbit_ones by lia. lia.
      - transitivity false.
        + apply Z.testbit_false; [done|]. rewrite Z.div_small; [done|].
          split; [lia|]. eapply Z.lt_le_trans; [apply Hhi|]. apply Z.pow_le_mono_r; lia.
        + destruct (Z.testbit hi 0); [|by rewrite Z.bits_0].
          rewrite Z.testbit_ones by lia. lia. }
    destruct (Z.testbit hi 0).
    + right. change (Z.ones 26) with (2 ^ 26 - 1) in Hcase. unfold hi in Hcase. zlia.
    + left. unfold hi in Hcase. zlia.
Qed.

Lemma is_valid_va_canonical_witness :
  is_usize 0xffffffc080200000 ∧
  ∀ i, 39 <= i < 64 → Z.testbit 0xffffffc080200000 i = Z.testbit 0xffffffc080200000 38.
Proof.
  assert (is_usize 0xffffffc080200000) as H by (vm_compute; split; congruence).
  split; [exact H|]. apply (proj1 (is_valid_va_canonical _ H)). reflexivity.
Defined.

Lemma from_va_run {S} va (s : S) :
  is_usize va → (va < 2 ^ 38 ∨ 2 ^ 64 - 2 ^ 38 <= va) →
  VPN.from_va va s = Ret (va / 4096) s.
Proof.
  intros Hu Hv. unfold VPN.from_va. rewrite (proj2 (is_valid_va_cases va Hu) Hv).
  cbn. by rewrite ushr_div.
Qed.

Lemma from_pa_run {S} pa (s : S) :
  0 <= pa < 2 ^ 56 - 1 → PPN.from_pa pa s = Ret (pa / 4096) s.
Proof.
  intros Hp. unfold PPN.from_pa, PPN.is_valid_pa. rewrite max_pa_eq.
  destruct (Z.ltb_spec pa (2 ^ 56 - 1)); [|lia]. cbn. by rewrite ushr_div.
Qed.

Lemma get_pa_eq p : 0 <= p < 2 ^ 52 → PPN.get_pa p = p * 4096.
Proof. intros Hp. unfold PPN.get_pa, PAGE_SIZE_ORDER. apply ushl_mul; unfold USIZE_MODULUS; lia. Qed.

Lemma get_va_eq v : 0 <= v < 2 ^ 52 → VPN.get_va v = v * 4096.
Proof. intros Hp. unfold VPN.get_va, PAGE_SIZE_ORDER. apply ushl_mul; unfold USIZE_MODULUS; lia. Qed.

Lemma get_va_from_pa_run {S} pa (s : S) :
  pa < 2 ^ 38 → get_va_from_pa pa s = Ret (pa + KERNEL_VA_OFFSET) s.
Proof.
  intros Hp. unfold get_va_from_pa, checked_add.
  destruct (Z.ltb_spec (pa + KERNEL_VA_OFFSET) USIZE_MODULUS); [done|].
  consts. lia.
Qed.

(** the direct map is a bijection on the 256 GiB it covers:
    [get_pa_from_va] inverts [get_va_from_pa], whose result is a canonical
    address; a physical address from 2^38 on panics. *)
Theorem direct_map_roundtrip {S} pa (s : S) :
  is_usize pa →
  (if pa <? 2 ^ 38 then
     ∃ va, get_va_from_pa pa s = Ret va s ∧ get_pa_from_va va s = Ret pa s ∧
           VPN.is_valid_va va = true
   else get_va_from_pa pa s = Panic "address overflow").
Proof.
  intros Hp. destruct (Z.ltb_spec pa (2 ^ 38)).
  - eexists. split; [by apply get_va_from_pa_run|]. split.
    + unfold get_pa_from_va, checked_sub.
      destruct (Z.leb_spec KERNEL_VA_OFFSET (pa + KERNEL_VA_OFFSET)); consts; [|lia].
      simpl. unfold mret, M_ret. f_equal. lia.
    + apply is_valid_va_cases; consts; lia.
  - unfold get_va_from_pa, checked_add.
    destruct (Z.ltb_spec (pa + KERNEL_VA_OFFSET) USIZE_MODULUS); [|done].
    consts. lia.
Qed.

Lemma direct_map_roundtrip_witness :
  is_usize 0x80200000 ∧
  ∃ va, get_va_from_pa 0x80200000 tt = Ret va tt ∧ get_pa_from_va va tt = Ret 0x80200000 tt ∧
        VPN.is_valid_va va = true.
Proof.
  assert (is_usize 0x80200000) as H by (vm_compute; split; congruence).
  split; [exact H|]. exact (direct_map_roundtrip 0x80200000 tt H).
Defined.

Lemma direct_map_overflow {S} pa (s : S) :
  2 ^ 38 <= pa → get_va_from_pa pa s = Panic "address overflow".
Proof.
  intros Hp. unfold get_va_from_pa, checked_add.
  destruct (Z.ltb_spec (pa + KERNEL_VA_OFFSET) USIZE_MODULUS); [|done].
  consts. lia.
Qed.

(** [PPN::from_pa] followed by [get_pa] rounds an address down to its page
    and gives a 44-bit page number, for every address below 2^56 - 1.  The last
    byte of the 56-bit physical space panics: the test compares with the largest
    address instead of one past it. *)
Theorem ppn_from_pa_spec {S} pa (s : S) :
  is_usize pa →
  (if pa <? 2 ^ 56 - 1 then
     ∃ p, PPN.from_pa pa s = Ret p s ∧ PPN.get_pa p = pa - pa mod 4096 ∧ 0 <= p < 2 ^ 44
   else PPN.from_pa pa s = Panic "invalid physical address").
Proof.
  intros Hp. destruct (Z.ltb_spec pa (2 ^ 56 - 1)).
  - eexists. split; [apply from_pa_run; unfold is_usize in Hp; lia|].
    unfold is_usize in Hp. split; [|zlia]. rewrite get_pa_eq by zlia. zlia.
  - unfold PPN.from_pa, PPN.is_valid_pa. rewrite max_pa_eq.
    by destruct (Z.ltb_spec pa (2 ^ 56 - 1)); [lia|].
Qed.

Lemma ppn_from_pa_spec_witness :
  is_usize (2 ^ 56 - 1) ∧ PPN.from_pa (2 ^ 56 - 1) tt = Panic "invalid physical address".
Proof.
  assert (is_usize (2 ^ 56 - 1)) as H by (vm_compute; split; congruence).
  split; [exact H|]. exact (ppn_from_pa_spec (2 ^ 56 - 1) tt H).
Defined.

(** ** User ranges *)

Lemma check_u_va_range_iff start len :
  is_usize start → is_usize len →
  check_u_va_range start len = true ↔
  start < USER_SPACE_END ∧ start + len <= USER_SPACE_END ∧ 0 < start + len.
Proof.
  intros Hs Hl. unfold check_u_va_range, check_u_va, checked_add, usub, wrap.
  rewrite andb_true_iff, Z.ltb_lt. consts.
  destruct (Z.ltb_spec (start + len) 18446744073709551616); [|split; [naive_solver|lia]].
  rewrite Z.ltb_lt. zlia.
Qed.

(** The page range [mmap] and [munmap] compute from a checked byte range. *)
Lemma user_range_pages {S} start len (s : S) :
  is_usize start → is_usize len → check_u_va_range start len = true →
  VPN.from_va start s = Ret (start / 4096) s ∧
  VPN.from_va (((start ⊕ len) ⊕ PAGE_SIZE_BYTES) ⊖ 1) s =
    Ret ((start + len + 4095) / 4096) s.
Proof.
  intros Hs Hl Hc. apply check_u_va_range_iff in Hc; [|done..]. consts.
  rewrite !uadd_small, usub_small by (consts; rewrite ?uadd_small; consts; lia).
  split; [apply from_va_run; consts; lia|].
  rewrite from_va_run by (consts; lia). do 2 f_equal. lia.
Qed.

(** [check_u_va_range] accepts a byte range exactly when it starts in user
    space, ends in user space and does not wrap (the empty range at address 0 is
    refused: its last byte wraps).  Once it accepts, neither [VPN::from_va] of
    [mmap] and [munmap] panics, and a page is in the computed range exactly when
    it holds a byte of a non-empty range. *)
Theorem user_range_sound {S} start len (s : S) :
  is_usize start → is_usize len →
  (check_u_va_range start len = true ↔
     start < USER_SPACE_END ∧ start + len <= USER_SPACE_END ∧ 0 < start + len) ∧
  (check_u_va_range start len = true → 0 < len →
     ∃ v1 v2, VPN.from_va start s = Ret v1 s ∧
       VPN.from_va (((start ⊕ len) ⊕ PAGE_SIZE_BYTES) ⊖ 1) s = Ret v2 s ∧
       v2 <= USER_SPACE_END / PAGE_SIZE_BYTES ∧
       ∀ v, v1 <= v < v2 ↔ ∃ a, start <= a < start + len ∧ v = a / PAGE_SIZE_BYTES).
Proof.
  intros Hs Hl. split; [by apply check_u_va_range_iff|]. intros Hc Hpos.
  destruct (user_range_pages start len s Hs Hl Hc) as [H1 H2].
  apply check_u_va_range_iff in Hc; [|done..].
  eexists _, _. split_and!; [done|done|consts; zlia|]. consts.
  intros v. split.
  - intros Hv. exists (Z.max start (v * 4096)). zlia.
  - intros (a & Ha & ->). zlia.
Qed.

Lemma user_range_sound_witness :
  is_usize 0x80000002 ∧ is_usize 4096 ∧
  ∃ v1 v2, VPN.from_va 0x80000002 tt = Ret v1 tt ∧ VPN.from_va 0x80002001 tt = Ret v2 tt ∧
    v1 = 0x80000 ∧ v2 = 0x80002.
Proof.
  assert (is_usize 0x80000002) as H1 by (vm_compute; split; congruence).
  assert (is_usize 4096) as H2 by (vm_compute; split; congruence).
  split; [exact H1|]. split; [exact H2|].
  destruct (proj2 (user_range_sound 0x80000002 4096 tt H1 H2) eq_refl eq_refl)
    as (v1 & v2 & E1 & E2 & _).
  exists v1, v2. split; [exact E1|]. split; [exact E2|].
  vm_compute in E1, E2. injection E1 as <-. injection E2 as <-. split; reflexivity.
Defined.
