(* ===== verification/Spin.v ===== *)
(** * Spin lock: [src/os/src/sync/spin.rs]

    Two views.  The sequential one is what kernel code on one hart sees: [lock]
    returns when the lock is free and spins forever when this hart already holds
    it.  The concurrent one is a step relation over any number of threads, in
    which mutual exclusion is proved and the sequential view is justified. *)

From S2P Require Export Machine.
From stdpp Require Import relations list.
Open Scope Z_scope.

(** [struct SpinLock<T>] *)
Record SpinLock (T : Type) := mk_SpinLock {
  locked : bool;
  data : T;
}.
Arguments mk_SpinLock {T} _ _.
Arguments locked {T} _.
Arguments data {T} _.

Definition new {T} (d : T) : SpinLock T := mk_SpinLock false d.

(** [locked.compare_exchange_weak(false, true, ..)]: [spurious] tells whether
    this attempt fails for no reason, which the weak form may. *)
Definition compare_exchange_weak {T} (spurious : bool) (l : SpinLock T)
    : result bool bool * SpinLock T :=
  if locked l || spurious then (Err (locked l), l)
  else (Ok false, mk_SpinLock true (data l)).

(** The [while] loop of [lock], with fuel; [spurious] is the hardware's choice at
    each attempt. *)
Fixpoint lock_loop {T} (fuel : nat) (spurious : nat → bool) (l : SpinLock T)
    : option (SpinLock T) :=
  match fuel with
  | O => None
  | S fuel =>
      match compare_exchange_weak (spurious O) l with
      | (Ok _, l') => Some l'
      | (Err _, l') => lock_loop fuel (λ n, spurious (S n)) l'
      end
  end.

(** ** The lock as one hart uses it *)
Section sequential.
Context {T S : Type} `{Has (SpinLock T) S}.

Definition lock : M S unit := λ s,
  let l := proj s : SpinLock T in
  if locked l then Spin else Ret tt (upd (mk_SpinLock true (data l)) s).
(** [SpinLock::unlock], called by the drop of the guard *)
Definition unlock : M S unit :=
  modify (λ s, let l := proj s : SpinLock T in upd (mk_SpinLock false (data l)) s).
(** [*guard] *)
Definition deref : M S T := gets (λ s, data (proj s : SpinLock T)).
Definition deref_mut (d : T) : M S unit :=
  modify (λ s, let l := proj s : SpinLock T in upd (mk_SpinLock (locked l) d) s).
(** [f(&mut *LOCK.lock())] with the guard dropped at the end *)
Definition with_guard {A} (f : T → A * T) : M S A :=
  lock;;
  d ← deref;
  let '(a, d') := f d in
  deref_mut d';;
  unlock;;
  mret a.
End sequential.
Arguments lock : clear implicits.
Arguments lock T {S _}.
Arguments unlock : clear implicits.
Arguments unlock T {S _}.

Section sequential_lemmas.
Context {T S : Type} `{Has (SpinLock T) S}.
Implicit Types s : S.

Lemma with_guard_run {A} (f : T → A * T) s a d' d :
  (proj s : SpinLock T) = mk_SpinLock false d → f d = (a, d') →
  with_guard f s = Ret a (upd (mk_SpinLock false d') s).
Proof.
  intros Hs Hf. unfold with_guard, lock, mbind, M_bind. rewrite Hs. cbn.
  rewrite proj_upd. cbn. rewrite Hf. cbn. by rewrite !proj_upd, !upd_upd.
Qed.

Lemma with_guard_held {A} (f : T → A * T) s d :
  (proj s : SpinLock T) = mk_SpinLock true d → with_guard f s = Spin.
Proof. intros Hs. unfold with_guard, lock, mbind, M_bind. by rewrite Hs. Qed.
End sequential_lemmas.

(** The loop ends as soon as one attempt on a free lock is not spurious. *)
Lemma lock_loop_free {T} n spurious (d : T) :
  spurious n = false →
  ∃ fuel, (fuel <= Datatypes.S n)%nat ∧ lock_loop fuel spurious (new d) = Some (mk_SpinLock true d).
Proof.
  revert spurious. induction n as [|n IH]; intros spurious Hn.
  - exists 1%nat. split; [lia|]. cbn. by rewrite Hn.
  - destruct (spurious O) eqn:E.
    + destruct (IH (λ n, spurious (Datatypes.S n)) Hn) as (fuel & Hle & Hrun).
      exists (Datatypes.S fuel). split; [lia|]. cbn. by rewrite E.
    + exists 1%nat. split; [lia|]. cbn. by rewrite E.
Qed.

Lemma lock_loop_held {T} fuel spurious (d : T) :
  lock_loop fuel spurious (mk_SpinLock true d) = None.
Proof. revert spurious. induction fuel as [|fuel IH]; intros; [done|]. apply IH. Qed.

(** [SpinLock::lock]'s loop agrees with the sequential [lock]: on a free lock
    it terminates with the lock taken and the data untouched, whatever spurious
    failures precede the first real attempt; on a lock that stays held no amount
    of iterations returns. *)
Theorem lock_loop_spec {T} (l : SpinLock T) spurious n :
  spurious n = false →
  if locked l then ∀ fuel, lock_loop fuel spurious l = None
  else ∃ fuel, (fuel <= Datatypes.S n)%nat ∧
       lock_loop fuel spurious l = Some (mk_SpinLock true (data l)).
Proof.
  intros Hn. destruct l as [[] d]; simpl.
  - intros fuel. apply lock_loop_held.
  - by apply lock_loop_free.
Qed.

Lemma lock_loop_spec_witness :
  (λ n, n <? 3)%nat 3%nat = false ∧
  ∃ fuel, (fuel <= 4)%nat ∧ lock_loop fuel (λ n, n <? 3)%nat (new 7) = Some (mk_SpinLock true 7).
Proof.
  split; [reflexivity|]. exact (lock_loop_spec (new 7) (λ n, n <? 3)%nat 3 eq_refl).
Defined.

(** ** Interleavings *)
Section concurrent.
Context {T : Type}.

(** What a thread is doing with the lock: how many guards it holds, and whether
    it is inside the loop of [lock]. *)
Record thread := mk_thread { guards : nat; spinning : bool }.

Record config := mk_config {
  the_lock : SpinLock T;
  threads : nat → thread;
}.

Definition set_thread (t : nat) (th : thread) (f : nat → thread) : nat → thread :=
  λ t', if decide (t = t') then th else f t'.

Lemma set_thread_same t th f : set_thread t th f t = th.
Proof. unfold set_thread. by rewrite decide_True. Qed.
Lemma set_thread_ne t t' th f : t ≠ t' → set_thread t th f t' = f t'.
Proof. intros. unfold set_thread. by rewrite decide_False. Qed.

Inductive step : config → config → Prop :=
  (** a thread calls [lock], even if it holds a guard already *)
  | step_call t l f n :
      f t = mk_thread n false →
      step (mk_config l f) (mk_config l (set_thread t (mk_thread n true) f))
  (** one iteration of the loop *)
  | step_cas_err t l f n spurious v l' :
      f t = mk_thread n true →
      compare_exchange_weak spurious l = (Err v, l') →
      step (mk_config l f) (mk_config l' f)
  | step_cas_ok t l f n spurious v l' :
      f t = mk_thread n true →
      compare_exchange_weak spurious l = (Ok v, l') →
      step (mk_config l f) (mk_config l' (set_thread t (mk_thread (Datatypes.S n) false) f))
  (** [deref_mut] of a guard *)
  | step_access t l f n d :
      f t = mk_thread (Datatypes.S n) false →
      step (mk_config l f) (mk_config (mk_SpinLock (locked l) d) f)
  (** the drop of a guard *)
  | step_drop t l f n :
      f t = mk_thread (Datatypes.S n) false →
      step (mk_config l f)
           (mk_config (mk_SpinLock false (data l)) (set_thread t (mk_thread n false) f)).

Definition initial (d : T) : config := mk_config (new d) (λ _, mk_thread 0 false).

(** The lock word is the number of guards alive. *)
Definition lock_inv (c : config) : Prop :=
  if locked (the_lock c)
  then ∃ t, guards (threads c t) = 1%nat ∧ ∀ t', t' ≠ t → guards (threads c t') = 0%nat
  else ∀ t, guards (threads c t) = 0%nat.

Lemma lock_inv_initial d : lock_inv (initial d).
Proof. done. Qed.

(** The one holder is the thread at hand. *)
Lemma lock_inv_holder l f t n :
  lock_inv (mk_config l f) → guards (f t) = Datatypes.S n →
  locked l = true ∧ n = 0%nat ∧ ∀ t', t' ≠ t → guards (f t') = 0%nat.
Proof.
  unfold lock_inv. simpl. intros Hinv Ht. destruct (locked l).
  - destruct Hinv as (t0 & H0 & Hother). destruct (decide (t = t0)) as [->|Hne].
    + split_and!; [done|congruence|done].
    + specialize (Hother t Hne). congruence.
  - specialize (Hinv t). congruence.
Qed.

Lemma compare_exchange_weak_cases spurious (l : SpinLock T) :
  compare_exchange_weak spurious l = (Err (locked l), l) ∨
  locked l = false ∧
    compare_exchange_weak spurious l = (Ok false, mk_SpinLock true (data l)).
Proof.
  unfold compare_exchange_weak. destruct (locked l); [by left|].
  destruct spurious; [by left|by right].
Qed.

Lemma lock_inv_step c c' : lock_inv c → step c c' → lock_inv c'.
Proof.
  intros Hinv Hstep. destruct Hstep as
    [t l f n Ht|t l f n sp v l' Ht Hc|t l f n sp v l' Ht Hc|t l f n d Ht|t l f n Ht].
  - assert (∀ t', guards (set_thread t (mk_thread n true) f t') = guards (f t')) as E.
    { intros t'. unfold set_thread. case_decide; [|done]. subst. by rewrite Ht. }
    unfold lock_inv in *. simpl in *. destruct (locked l).
    + destruct Hinv as (t0 & H0 & Hother). exists t0. rewrite E. split; [done|].
      intros t' Ht'. rewrite E. by apply Hother.
    + intros t'. by rewrite E.
  - destruct (compare_exchange_weak_cases sp l) as [E|[_ E]]; rewrite E in Hc; by simplify_eq.
  - destruct (compare_exchange_weak_cases sp l) as [E|[Hl E]]; rewrite E in Hc; simplify_eq.
    unfold lock_inv in *. simpl in *. rewrite Hl in Hinv. exists t.
    rewrite set_thread_same. simpl. split.
    + specialize (Hinv t). rewrite Ht in Hinv. simpl in Hinv. congruence.
    + intros t' Ht'. by rewrite set_thread_ne.
  - done.
  - destruct (lock_inv_holder l f t n Hinv ltac:(by rewrite Ht)) as (_ & -> & Hother).
    unfold lock_inv. simpl. intros t'. destruct (decide (t = t')) as [<-|Hne].
    + by rewrite set_thread_same.
    + rewrite set_thread_ne by done. by apply Hother.
Qed.

Lemma lock_inv_reachable d c : rtc step (initial d) c → lock_inv c.
Proof.
  intros Hrtc. remember (initial d) as c0 eqn:E.
  assert (lock_inv c0) as Hinv by (subst; apply lock_inv_initial). clear E.
  induction Hrtc; eauto using lock_inv_step.
Qed.

(** A thread that waits for a lock it holds itself waits forever. *)
Definition self_deadlocked (t : nat) (c : config) : Prop :=
  lock_inv c ∧ spinning (threads c t) = true ∧ guards (threads c t) ≠ 0%nat.

Lemma self_deadlocked_step t c c' :
  self_deadlocked t c → step c c' →
  self_deadlocked t c' ∧ data (the_lock c') = data (the_lock c).
Proof.
  intros (Hinv & Hsp & Hg) Hstep.
  assert (locked (the_lock c) = true ∧
          ∀ t', t' ≠ t → guards (threads c t') = 0%nat) as [Hl Hother].
  { destruct c as [l f]. simpl in *. destruct (guards (f t)) as [|n] eqn:E; [done|].
    destruct (lock_inv_holder l f t n Hinv E) as (? & _ & ?). done. }
  pose proof (lock_inv_step _ _ Hinv Hstep) as Hinv'.
  unfold self_deadlocked.
  destruct Hstep as
    [t1 l f n Ht|t1 l f n sp v l' Ht Hc|t1 l f n sp v l' Ht Hc|t1 l f n d Ht|t1 l f n Ht];
    simpl in *.
  - assert (t1 ≠ t) by (intros ->; by rewrite Ht in Hsp).
    by rewrite set_thread_ne by done.
  - destruct (compare_exchange_weak_cases sp l) as [E|[E _]]; [|congruence].
    rewrite E in Hc. by simplify_eq.
  - destruct (compare_exchange_weak_cases sp l) as [E|[E _]]; [|congruence].
    rewrite E in Hc. by simplify_eq.
  - exfalso. destruct (decide (t1 = t)) as [->|Hne]; [by rewrite Ht in Hsp|].
    specialize (Hother t1 Hne). by rewrite Ht in Hother.
  - exfalso. destruct (decide (t1 = t)) as [->|Hne]; [by rewrite Ht in Hsp|].
    specialize (Hother t1 Hne). by rewrite Ht in Hother.
Qed.
End concurrent.
Arguments config : clear implicits.

(** C23: mutual exclusion and data protection: in every interleaving of lock
    attempts (with spurious failures), accesses and guard drops by any number of
    threads, at most one guard is alive, the lock word is set exactly while one
    is, and a thread that holds a guard is the only one that holds one. *)
Theorem mutual_exclusion {T} (d : T) c :
  rtc step (initial d) c →
  (locked (the_lock c) = true ↔ ∃ t, guards (threads c t) ≠ 0%nat) ∧
  ∀ t1 t2, guards (threads c t1) ≠ 0%nat → guards (threads c t2) ≠ 0%nat →
    t1 = t2 ∧ guards (threads c t1) = 1%nat.
Proof.
  intros Hr. pose proof (lock_inv_reachable d c Hr) as Hinv. unfold lock_inv in Hinv.
  destruct (locked (the_lock c)) eqn:E.
  - destruct Hinv as (t & Ht & Hother). split.
    + split; [|done]. intros _. exists t. congruence.
    + assert (∀ t', guards (threads c t') ≠ 0%nat → t' = t) as Huniq.
      { intros t' Ht'. destruct (decide (t' = t)); [done|]. by destruct Ht'; apply Hother. }
      intros t1 t2 H1 H2. by rewrite (Huniq t1), (Huniq t2).
  - split; [split; [done|]|].
    + intros [t Ht]. by rewrite Hinv in Ht.
    + intros t1 t2 H1. by rewrite Hinv in H1.
Qed.

Lemma mutual_exclusion_witness :
  ∃ c : config Z, rtc step (initial 5) c ∧ locked (the_lock c) = true ∧
    (locked (the_lock c) = true ↔ ∃ t, guards (threads c t) ≠ 0%nat).
Proof.
  assert (rtc step (initial 5)
    (mk_config (mk_SpinLock true 5)
       (set_thread 1 (mk_thread 1 false)
          (set_thread 1 (mk_thread 0 true) (λ _, mk_thread 0 false))))) as H.
  { eapply rtc_l; [by apply (step_call 1 _ _ 0)|].
    eapply rtc_l; [|apply rtc_refl].
    by eapply (step_cas_ok 1 _ _ 0 false). }
  eexists. split; [exact H|]. split; [reflexivity|].
  exact (proj1 (mutual_exclusion 5 _ H)).
Defined.

(** locking is not reentrant: once a thread waits for a lock it holds itself,
    it waits in every later configuration, the lock stays taken and no thread
    ever changes the data again. *)
Theorem self_deadlock_forever {T} (d : T) t c c' :
  rtc step (initial d) c → rtc step c c' →
  spinning (threads c t) = true → guards (threads c t) ≠ 0%nat →
  spinning (threads c' t) = true ∧ locked (the_lock c') = true ∧
  data (the_lock c') = data (the_lock c).
Proof.
  intros H0 Hr Hsp Hg.
  assert (self_deadlocked t c) as Hd by (split_and!; eauto using lock_inv_reachable).
  clear H0 Hsp Hg. induction Hr as [c|c1 c2 c3 Hstep Hr IH].
  - destruct Hd as (Hinv & Hsp & Hg). split_and!; [done| |done].
    destruct c as [l f]. simpl in *. destruct (guards (f t)) as [|n] eqn:E; [done|].
    by destruct (lock_inv_holder l f t n Hinv E).
  - destruct (self_deadlocked_step t _ _ Hd Hstep) as [Hd' Hdata].
    destruct (IH Hd') as (? & ? & ?). split_and!; [done..|congruence].
Qed.

Lemma self_deadlock_forever_witness :
  ∃ c : config Z, rtc step (initial 5) c ∧ spinning (threads c 1%nat) = true ∧
    locked (the_lock c) = true.
Proof.
  assert (rtc step (initial 5)
    (mk_config (mk_SpinLock true 5)
       (set_thread 1 (mk_thread 1 true) (set_thread 1 (mk_thread 1 false)
          (set_thread 1 (mk_thread 0 true) (λ _, mk_thread 0 false)))))) as H.
  { eapply rtc_l; [by apply (step_call 1 _ _ 0)|].
    eapply rtc_l; [by eapply (step_cas_ok 1 _ _ 0 false)|].
    eapply rtc_l; [by apply (step_call 1 _ _ 1)|]. apply rtc_refl. }
  eexists. split; [exact H|].
  destruct (self_deadlock_forever 5 1%nat _ _ H (rtc_refl _ _) eq_refl
              ltac:(cbv; congruence)) as (Hs & Hl & _).
  split; [exact Hs|exact Hl].
Defined.
