(* ===== verification/PageSource.v ===== *)
(** * The page source interface

    What [src/os/src/mm/sv39.rs] and [src/os/src/mm/vm.rs] use of the page
    allocator: pages handed out one by one, zeroed or not, and given back when the
    owning [Page] is dropped.  The page table and the address space are written
    and verified against this class; [PageAlloc] implements it. *)

From S2P Require Export Addr.

(** The byte range of a physical page *)
Definition page_start (p : Z) : Z := p * 4096.
Definition page_end (p : Z) : Z := p * 4096 + 4096.

Definition page_zero (m : mem) (p : Z) : Prop :=
  ∀ a, page_start p <= a < page_end p → read_u8 m a = 0.

(** Only bytes of page [p] differ. *)
Definition same_outside_page (p : Z) : mem → mem → Prop :=
  same_outside (page_start p) (page_end p).

Class PageSource (S : Type) `{Has mem S} := {
  (** [alloc_page()]; the returned [Page] is its page number *)
  ps_alloc_page : M S (option Z);
  (** [alloc_zeroed_page()] *)
  ps_alloc_zeroed_page : M S (option Z);
  (** [drop(page)] *)
  ps_drop_page : Z → M S unit;
}.

Class PageSourceLaws (S : Type) `{PageSource S} := {
  (** the internal invariant *)
  ps_ok : S → Prop;
  (** the pages that may be handed out next *)
  ps_free : S → Z → Prop;
  (** the pages ever handed out, all of them reachable by the direct map, even the byte
      behind them *)
  ps_managed : Z → Prop;
  ps_managed_ram p : ps_managed p → 0 <= p < 2 ^ 26;
  ps_managed_end p : ps_managed p → p + 1 < 2 ^ 26;
  ps_free_managed s p : ps_ok s → ps_free s p → ps_managed p;
  ps_upd_mem_ok m s : ps_ok s → ps_ok (upd m s);
  ps_upd_mem_free m s p : ps_free (upd m s) p ↔ ps_free s p;
  ps_alloc_page_law s :
    ps_ok s →
    wp ps_alloc_page (λ r s',
      ps_ok s' ∧ mem_of s' = mem_of s ∧
      match r with
      | None => s' = s ∧ ∀ p, ¬ ps_free s p
      | Some p => ps_free s p ∧ ∀ q, ps_free s' q ↔ ps_free s q ∧ q ≠ p
      end) s;
  ps_alloc_zeroed_page_law s :
    ps_ok s →
    wp ps_alloc_zeroed_page (λ r s',
      ps_ok s' ∧
      match r with
      | None => s' = s ∧ ∀ p, ¬ ps_free s p
      | Some p =>
          ps_free s p ∧ (∀ q, ps_free s' q ↔ ps_free s q ∧ q ≠ p) ∧
          page_zero (mem_of s') p ∧ same_outside_page p (mem_of s) (mem_of s')
      end) s;
  ps_drop_page_law s p :
    ps_ok s → ps_managed p → ¬ ps_free s p →
    wp (ps_drop_page p) (λ _ s',
      ps_ok s' ∧ mem_of s' = mem_of s ∧
      ∀ q, ps_free s' q ↔ ps_free s q ∨ q = p) s;
}.

(** ** Consequences every client uses *)
Section laws.
Context {S : Type} `{PageSourceLaws S}.
Implicit Types s : S.

Lemma ps_upd_ok f s : ps_ok s → ps_ok (upd_mem f s).
Proof. apply ps_upd_mem_ok. Qed.
Lemma ps_upd_free f s p : ps_free (upd_mem f s) p ↔ ps_free s p.
Proof. apply ps_upd_mem_free. Qed.
Lemma mem_of_upd f s : mem_of (upd_mem f s) = f (mem_of s).
Proof. unfold mem_of, upd_mem. apply proj_upd. Qed.

Lemma ps_free_ram s p : ps_ok s → ps_free s p → 0 <= p < 2 ^ 26.
Proof. intros Hok Hp. apply ps_managed_ram. by apply (ps_free_managed s). Qed.

(** Dropping several pages in a row *)
Lemma ps_drop_pages_law s (l : list Z) :
  ps_ok s → NoDup l → (∀ p, p ∈ l → ps_managed p ∧ ¬ ps_free s p) →
  wp (for_each l ps_drop_page) (λ _ s',
    ps_ok s' ∧ mem_of s' = mem_of s ∧
    ∀ q, ps_free s' q ↔ ps_free s q ∨ q ∈ l) s.
Proof.
  revert s. induction l as [|p l IH]; intros s Hok Hnd Hl; simpl.
  - apply wp_ret. split_and!; [done..|]. intros q. rewrite elem_of_nil. tauto.
  - apply NoDup_cons in Hnd as [Hp Hnd]. apply wp_bind.
    destruct (Hl p) as [Hm Hf]; [by left|].
    eapply wp_mono; [by apply ps_drop_page_law|]. intros [] s1 (Hok1 & Hm1 & Hf1).
    eapply wp_mono; [apply IH; [done..|]|].
    + intros q Hq. destruct (Hl q) as [? Hnf]; [by right|]. split; [done|].
      rewrite Hf1. intros [?| ->]; done.
    + intros [] s2 (Hok2 & Hm2 & Hf2). split_and!; [done|congruence|].
      intros q. rewrite Hf2, Hf1, elem_of_cons. tauto.
Qed.
End laws.

(** ** Counting pages *)
Section count.
Context {S : Type} `{PageSourceLaws S}.
Implicit Types s : S.

(** At least [n] pages are free. *)
Definition spare (n : nat) s : Prop :=
  ∃ l, NoDup l ∧ length l = n ∧ ∀ p, p ∈ l → ps_free s p.
(** At most [n] free pages were taken. *)
Definition took_at_most (n : nat) s s' : Prop :=
  ∃ l, (length l <= n)%nat ∧ ∀ p, ps_free s p → ps_free s' p ∨ p ∈ l.

Lemma took_at_most_refl n s s' : (∀ p, ps_free s' p ↔ ps_free s p) → took_at_most n s s'.
Proof. intros Hf. exists []. split; [simpl; lia|]. intros p ?. left. by apply Hf. Qed.

Lemma took_at_most_trans n k s1 s2 s3 :
  took_at_most n s1 s2 → took_at_most k s2 s3 → took_at_most (n + k) s1 s3.
Proof.
  intros (l1 & Hl1 & Hf1) (l2 & Hl2 & Hf2). exists (l1 ++ l2). rewrite length_app.
  split; [lia|]. intros p Hp. rewrite elem_of_app. destruct (Hf1 p Hp) as [Hp2|?]; [|tauto].
  destruct (Hf2 p Hp2); tauto.
Qed.

Lemma took_at_most_le n k s s' : (n <= k)%nat → took_at_most n s s' → took_at_most k s s'.
Proof. intros Hn (l & Hl & Hf). exists l. split; [lia|done]. Qed.

(** At most [n] pages are free. *)
Definition scarce (n : nat) s : Prop := ∃ l, (length l <= n)%nat ∧ ∀ p, ps_free s p → p ∈ l.

Lemma took_scarce n k s s' : took_at_most n s s' → scarce k s' → scarce (n + k) s.
Proof.
  intros (l & Hl & Hf) (l' & Hl' & Hf'). exists (l ++ l'). rewrite length_app.
  split; [lia|]. intros p Hp. rewrite elem_of_app. destruct (Hf p Hp) as [Hp'|?]; [|tauto].
  right. by apply Hf'.
Qed.
Lemma scarce_le n k s : (n <= k)%nat → scarce n s → scarce k s.
Proof. intros Hn (l & Hl & Hf). exists l. split; [lia|done]. Qed.
Lemma scarce_none s : (∀ p, ¬ ps_free s p) → scarce 0 s.
Proof. intros Hn. exists []. split; [done|]. intros p Hp. by destruct (Hn p). Qed.

Lemma spare_not_scarce n s : spare (Datatypes.S n) s → ¬ scarce n s.
Proof.
  intros (l & Hnd & Hlen & Hl) (l' & Hlen' & Hl').
  assert (length l <= length l')%nat by (apply submseteq_length, NoDup_submseteq; [done|auto]). lia.
Qed.

(** Whoever takes [k] pages of [n] leaves [n - k]. *)
Lemma spare_left n k s s' :
  spare n s → took_at_most k s s' → spare (n - k) s'.
Proof.
  intros (l & Hnd & <- & Hl) (l' & Hlen & Htake).
  pose proof (filter_app_complement (.∈ l') l) as Hc. apply Permutation_length in Hc.
  rewrite length_app in Hc.
  assert (length (filter (.∈ l') l) <= length l')%nat.
  { apply submseteq_length, NoDup_submseteq; [by apply NoDup_filter|].
    by intros p [? _]%list_elem_of_filter. }
  exists (take (length l - k) (filter (λ p, p ∉ l') l)). split_and!.
  - eapply sublist_NoDup; [by apply (NoDup_filter (λ p, p ∉ l') l)|by apply sublist_take].
  - rewrite length_take. lia.
  - intros p Hp. apply elem_of_take in Hp as (i & Hi & _). apply list_elem_of_lookup_2 in Hi.
    apply list_elem_of_filter in Hi as [Hn Hp]. by destruct (Htake p (Hl p Hp)).
Qed.

Lemma spare_one n s : spare (Datatypes.S n) s → ∃ p, ps_free s p.
Proof. intros ([|p l] & _ & Hlen & Hl); [done|]. exists p. apply Hl. by left. Qed.
Lemma spare_two n s q : spare (Datatypes.S (Datatypes.S n)) s → ∃ p, ps_free s p ∧ p ≠ q.
Proof.
  intros ([|p [|p' l]] & Hnd & Hlen & Hl); [done..|].
  destruct (decide (p = q)) as [->|]; [|exists p; split; [apply Hl; by left|done]].
  exists p'. split; [apply Hl; right; by left|]. intros ->.
  apply NoDup_cons in Hnd as [[] _]. by left.
Qed.
End count.
#[export] Hint Resolve ps_upd_ok : kernel.
