(* ===== verification/PageAlloc.v ===== *)
(** * Physical page allocator: [src/os/src/mm/page_alloc.rs]

    Pages between the end of the kernel and the end of memory, handed out in
    increasing order, recycled pages first (last in, first out).  The allocator
    sits behind a spin lock; every entry point takes and releases it. *)

From S2P Require Export PageSource Spin.
From stdpp Require Import relations list.
Open Scope Z_scope.

(** ** The allocator *)

(** [struct PageAllocator] *)
Record PageAllocator := mk_PageAllocator {
  next_unused_ppn : Z;
  max_ppn : Z;
  recycled_ppn : list Z;
}.

(** The statics of [src/os/src/mm]: physical memory, [PAGE_ALLOCATOR] and
    [KERNEL_SATP]. *)
Record MM := mk_MM {
  mm_mem : mem;
  page_allocator : SpinLock PageAllocator;
  kernel_satp : Z;
}.

#[export] Instance has_mem_MM : Has mem MM.
Proof.
  refine {| proj := mm_mem; upd m s := mk_MM m (page_allocator s) (kernel_satp s) |};
    by intros; repeat match goal with s : MM |- _ => destruct s end.
Defined.
#[export] Instance has_page_allocator_MM : Has (SpinLock PageAllocator) MM.
Proof.
  refine {| proj := page_allocator; upd a s := mk_MM (mm_mem s) a (kernel_satp s) |};
    by intros; repeat match goal with s : MM |- _ => destruct s end.
Defined.

(** [PageAllocator::alloc], [PageAllocator::dealloc] *)
Definition alloc (a : PageAllocator) : option Z * PageAllocator :=
  match vec_pop (recycled_ppn a) with
  | Some (ppn, rest) =>
      (Some ppn, mk_PageAllocator (next_unused_ppn a) (max_ppn a) rest)
  | None =>
      if max_ppn a <=? next_unused_ppn a then (None, a)
      else
        (Some (next_unused_ppn a),
         mk_PageAllocator (next_unused_ppn a ⊕ 1) (max_ppn a) (recycled_ppn a))
  end.
Definition dealloc (page : Z) (a : PageAllocator) : PageAllocator :=
  mk_PageAllocator (next_unused_ppn a) (max_ppn a) (vec_push (recycled_ppn a) page).

Definition alloc_page : M MM (option Z) := with_guard alloc.

Definition alloc_zeroed_page : M MM (option Z) :=
  result ← alloc_page;
  match result with
  | None => mret None
  | Some page =>
      let pa := PPN.get_pa page in
      pa_mut_ptr ← get_pa_mut_ptr pa;
      for_each (range 0 PAGE_SIZE_BYTES) (λ i, store_u8 (pa_mut_ptr + i) 0);;
      mret (Some page)
  end.

(** [impl Drop for Page] *)
Definition drop_page (page : Z) : M MM unit := with_guard (λ a, (tt, dealloc page a)).

Definition dealloc_pages (pages : list Z) : M MM unit :=
  lock PageAllocator;;
  for_each pages (λ page, a ← deref; deref_mut (dealloc page a));;
  unlock PageAllocator.

(** ** The initial allocator, [lazy_static! PAGE_ALLOCATOR] *)

Definition compute_first_unused_ppn `{LinkerSymbols} {S} : M S Z :=
  kernel_end_pa ← get_pa_from_va kernel_end;
  if kernel_end_pa .& (PAGE_SIZE_BYTES ⊖ 1) =? 0 then PPN.from_pa kernel_end_pa
  else PPN.from_pa (kernel_end_pa ⊕ PAGE_SIZE_BYTES).

Definition compute_max_ppn {S} : M S Z :=
  assert_or (MEM_START_PA .& (PAGE_SIZE_BYTES ⊖ 1) =? 0)
    "The algorithm assumes MEM_START_PA is page-aligned";;
  assert_or (MEM_SIZE_BYTES .& (PAGE_SIZE_BYTES ⊖ 1) =? 0)
    "The algorithm assumes MEM_SIZE_BYTES is page-aligned";;
  PPN.from_pa (MEM_START_PA ⊕ MEM_SIZE_BYTES).

Definition init_page_allocator `{LinkerSymbols} {S} : M S (SpinLock PageAllocator) :=
  next_unused_ppn ← compute_first_unused_ppn;
  max_ppn ← compute_max_ppn;
  mret (new (mk_PageAllocator next_unused_ppn max_ppn [])).

(** ** [test_page_allocator] *)

(** [PAGE_ALLOCATOR.lock().field] *)
Definition locked_field {A} (f : PageAllocator → A) : M MM A :=
  with_guard (λ a, (f a, a)).
Definition recycled_len : M MM Z := locked_field (λ a, Z.of_nat (length (recycled_ppn a))).
Definition assert_recycled_len (n : Z) (msg : string) : M MM unit :=
  len ← recycled_len;
  assert_or (len =? n) msg.

Definition assert_eq_msg : string := "assertion `left == right` failed".
Definition assert_ne_msg : string := "assertion `left != right` failed".
Definition expect_page (o : option Z) : M MM Z := expect o "Failed to allocate page".

Fixpoint push_pages (n : nat) (pages : list Z) : M MM (list Z) :=
  match n with
  | O => mret pages
  | S n =>
      o ← alloc_page;
      page ← expect_page o;
      push_pages n (vec_push pages page)
  end.

Definition test_page_allocator : M MM unit :=
  assert_recycled_len 0 "This test assumes no recycled pages at the start";;

  (* Allocate and deallocate a single page *)
  old_next_unused_ppn ← locked_field next_unused_ppn;
  o ← alloc_page;
  page ← expect_page o;
  assert_or (page =? old_next_unused_ppn) assert_eq_msg;;
  assert_recycled_len 0 assert_eq_msg;;
  drop_page page;;
  assert_recycled_len 1 assert_eq_msg;;
  first ← locked_field (λ a, recycled_ppn a !! 0%nat);
  first ← expect first "index out of bounds";
  assert_or (first =? old_next_unused_ppn) assert_eq_msg;;

  (* Allocate and deallocate a single page when there are recycled pages *)
  old_next_unused_ppn ← locked_field next_unused_ppn;
  o ← alloc_page;
  page ← expect_page o;
  assert_or (negb (page =? old_next_unused_ppn)) assert_ne_msg;;
  next ← locked_field next_unused_ppn;
  assert_or (next =? old_next_unused_ppn) assert_eq_msg;;
  assert_recycled_len 0 assert_eq_msg;;
  drop_page page;;

  (* Allocate and deallocate a single zerod page *)
  o ← alloc_zeroed_page;
  page ← expect_page o;
  ptr ← get_pa_mut_ptr (PPN.get_pa page);
  for_each (range 0 PAGE_SIZE_BYTES) (λ i, store_u8 (ptr + i) 2);;
  drop_page page;;
  assert_recycled_len 1 assert_eq_msg;;
  o ← alloc_zeroed_page;
  zeroed_page ← expect_page o;
  ptr ← get_pa_mut_ptr (PPN.get_pa zeroed_page);
  for_each (range 0 PAGE_SIZE_BYTES)
    (λ i, b ← load_u8 (ptr + i); assert_or (b =? 0) assert_eq_msg);;

  (* Allocate and deallocate multiple pages *)
  pages ← push_pages 10 [];
  assert_recycled_len 0 assert_eq_msg;;
  popped ← expect (vec_pop pages) "called `Option::unwrap()` on a `None` value";
  let '(page, pages) := popped in
  dealloc_pages pages;;
  assert_recycled_len 9 assert_eq_msg;;
  drop_page page;;
  assert_recycled_len 10 assert_eq_msg;;
  (* the end of the scope of the zeroed page *)
  drop_page zeroed_page.

(** ** Invariant *)

Definition LAST_PPN : Z := 0x88000.

(** The first page after the kernel image *)
Definition first_ppn `{LinkerSymbols} : Z :=
  (kernel_end - KERNEL_VA_OFFSET + 4095) / 4096.

Section invariant.
Context `{LinkerSymbols}.

Definition managed (p : Z) : Prop := Z.max 0 first_ppn <= p < LAST_PPN.

Record alloc_ok (a : PageAllocator) : Prop := {
  ao_max : max_ppn a = LAST_PPN;
  ao_next : Z.max 0 first_ppn <= next_unused_ppn a;
  ao_nodup : NoDup (recycled_ppn a);
  ao_recycled p : p ∈ recycled_ppn a → managed p ∧ p < next_unused_ppn a;
}.

Definition free (a : PageAllocator) (p : Z) : Prop :=
  p ∈ recycled_ppn a ∨ next_unused_ppn a <= p < max_ppn a.

Lemma free_managed a p : alloc_ok a → free a p → managed p.
Proof.
  intros Ha [Hp|Hp]; [by apply ao_recycled in Hp as [??]|].
  destruct Ha. unfold managed. lia.
Qed.

Lemma alloc_spec a :
  alloc_ok a →
  match alloc a with
  | (None, a') => a' = a ∧ ∀ p, ¬ free a p
  | (Some p, a') => free a p ∧ alloc_ok a' ∧ ∀ q, free a' q ↔ free a q ∧ q ≠ p
  end.
Proof.
  intros [Hmax Hnext Hnd Hrec]. unfold alloc.
  destruct (vec_pop (recycled_ppn a)) as [[p rest]|] eqn:E.
  - apply vec_pop_Some in E. rewrite E in Hnd, Hrec.
    apply NoDup_app in Hnd as (Hnd & Hnin & _).
    assert (p ∉ rest) as Hp by (intros Hp; apply (Hnin p Hp); by apply list_elem_of_singleton).
    destruct (Hrec p) as [Hm Hlt]; [set_solver|].
    unfold free; simpl. rewrite E. split_and!.
    + left. set_solver.
    + split; simpl; [done..|]. intros q Hq. apply Hrec. set_solver.
    + intros q. rewrite elem_of_app, list_elem_of_singleton.
      destruct (decide (q = p)) as [->|Hne]; [|tauto].
      split; [intros [?|?]; [done|lia]|tauto].
  - apply vec_pop_None in E. destruct (Z.leb_spec (max_ppn a) (next_unused_ppn a)).
    + split; [done|]. intros p [Hp|Hp]; [rewrite E in Hp; set_solver|lia].
    + unfold LAST_PPN in *.
      rewrite uadd_small by (unfold USIZE_MODULUS; lia). unfold free; simpl. rewrite E.
      split_and!; [right; lia| |].
      * split; simpl; [done|lia|constructor|set_solver].
      * intros q. rewrite elem_of_nil. lia.
Qed.

Lemma dealloc_spec a p :
  alloc_ok a → managed p → ¬ free a p →
  alloc_ok (dealloc p a) ∧ ∀ q, free (dealloc p a) q ↔ free a q ∨ q = p.
Proof.
  intros [Hmax Hnext Hnd Hrec] Hm Hf. unfold free in *. simpl. unfold vec_push. split.
  - split; simpl; [done..| |].
    + apply NoDup_app. split_and!; [done| |by apply NoDup_singleton].
      intros q Hq ->%list_elem_of_singleton. tauto.
    + intros q [Hq|Hq%list_elem_of_singleton]%elem_of_app; [by apply Hrec|]. subst.
      split; [done|]. unfold managed in Hm. lia.
  - intros q. rewrite elem_of_app, list_elem_of_singleton. tauto.
Qed.

Definition mm_ok (s : MM) : Prop :=
  locked (page_allocator s) = false ∧ alloc_ok (data (page_allocator s)).
Definition mm_free (s : MM) (p : Z) : Prop := free (data (page_allocator s)) p.

Lemma alloc_page_run s :
  locked (page_allocator s) = false →
  alloc_page s =
    Ret (alloc (data (page_allocator s))).1
        (mk_MM (mm_mem s) (new (alloc (data (page_allocator s))).2) (kernel_satp s)).
Proof.
  intros Hl. unfold alloc_page.
  destruct (alloc (data (page_allocator s))) as [r a'] eqn:E. simpl.
  erewrite with_guard_run; [done| |exact E]. simpl.
  destruct s as [? [] ?]. simpl in *. by subst.
Qed.

Lemma drop_page_run p s :
  locked (page_allocator s) = false →
  drop_page p s =
    Ret tt (mk_MM (mm_mem s) (new (dealloc p (data (page_allocator s)))) (kernel_satp s)).
Proof.
  intros Hl. unfold drop_page. erewrite with_guard_run; [done| |done].
  destruct s as [? [] ?]. simpl in *. by subst.
Qed.

Lemma alloc_page_law s :
  mm_ok s →
  wp alloc_page (λ r s',
    mm_ok s' ∧ mem_of s' = mem_of s ∧
    match r with
    | None => s' = s ∧ ∀ p, ¬ mm_free s p
    | Some p => mm_free s p ∧ ∀ q, mm_free s' q ↔ mm_free s q ∧ q ≠ p
    end) s.
Proof.
  intros [Hl Ha]. eapply wp_intro; [by apply alloc_page_run|].
  pose proof (alloc_spec _ Ha) as Hspec.
  destruct s as [m [lk a] k]. simpl in *. subst lk. unfold mm_ok, mm_free. simpl.
  destruct (alloc a) as [[p|] a']; simpl; [naive_solver|].
  destruct Hspec as [-> Hnf]. split_and!; done.
Qed.

(** A loop of byte stores over the page behind a direct-map pointer *)
Lemma fill_page_law p b s :
  wp (for_each (range 0 PAGE_SIZE_BYTES)
        (λ i, store_u8 (p * 4096 + KERNEL_VA_OFFSET + i) b)) (λ _ s',
    page_allocator s' = page_allocator s ∧ kernel_satp s' = kernel_satp s ∧
    (∀ a, page_start p <= a < page_end p → read_u8 (mem_of s') a = b mod 256) ∧
    same_outside_page p (mem_of s) (mem_of s')) s.
Proof.
  eapply wp_mono.
  - apply wp_for_each with (I := λ don s',
      page_allocator s' = page_allocator s ∧ kernel_satp s' = kernel_satp s ∧
      (∀ a, page_start p <= a < page_start p + Z.of_nat (length don) →
            read_u8 (mem_of s') a = b mod 256) ∧
      same_outside_page p (mem_of s) (mem_of s')).
    + split_and!; [done..|simpl; lia|apply same_outside_refl].
    + intros don i todo s1 Hl (Ha & Hk & Hb & Hout).
      assert (i = Z.of_nat (length don) ∧ Z.of_nat (length don) < 4096) as [-> Hlt].
      { assert (range 0 PAGE_SIZE_BYTES !! length don = Some i) as Hi
          by (rewrite Hl; by apply list_lookup_middle).
        apply lookup_seqZ in Hi. rewrite page_size_eq in Hi. lia. }
      apply wp_modify. simpl. split_and!; [done..| |].
      * rewrite length_app. simpl. intros a Hin. unfold mem_of, upd_mem. simpl.
        unfold page_start in *.
        destruct (decide (a = p * 4096 + Z.of_nat (length don))) as [->|Hne].
        -- replace (p * 4096 + KERNEL_VA_OFFSET + Z.of_nat (length don) - KERNEL_VA_OFFSET)
             with (p * 4096 + Z.of_nat (length don)) by lia.
           by rewrite read_u8_write_same.
        -- rewrite read_u8_write_ne by lia. apply Hb. lia.
      * eapply same_outside_trans; [exact Hout|]. apply same_outside_write_u8.
        unfold page_start, page_end. lia.
  - intros [] s' (Ha & Hk & Hb & Hout). split_and!; [done..| |done].
    intros a Hin. apply Hb. unfold range. rewrite length_seqZ, page_size_eq.
    unfold page_start, page_end in *. lia.
Qed.

Lemma page_ptr_run {S} p (s : S) :
  0 <= p < 2 ^ 26 →
  get_pa_mut_ptr (PPN.get_pa p) s = Ret (p * 4096 + KERNEL_VA_OFFSET) s.
Proof.
  intros Hp. unfold get_pa_mut_ptr. rewrite get_pa_eq by lia.
  apply get_va_from_pa_run. lia.
Qed.

Lemma alloc_zeroed_page_law s :
  mm_ok s →
  wp alloc_zeroed_page (λ r s',
    mm_ok s' ∧
    match r with
    | None => s' = s ∧ ∀ p, ¬ mm_free s p
    | Some p =>
        mm_free s p ∧ (∀ q, mm_free s' q ↔ mm_free s q ∧ q ≠ p) ∧
        page_zero (mem_of s') p ∧ same_outside_page p (mem_of s) (mem_of s')
    end) s.
Proof.
  intros Hok. apply wp_bind. eapply wp_mono; [by apply alloc_page_law|].
  intros [p|] s1 (Hok1 & Hm1 & Hr).
  - destruct Hr as [Hfree Hrest].
    assert (0 <= p < 2 ^ 26) as Hp.
    { destruct Hok as [_ Ha]. pose proof (free_managed _ _ Ha Hfree).
      unfold managed, LAST_PPN in *. lia. }
    apply wp_bind. eapply wp_intro; [by apply page_ptr_run|].
    apply wp_bind. eapply wp_mono; [apply fill_page_law|].
    intros [] s2 (Ha2 & _ & Hz & Hout). apply wp_ret.
    unfold mm_ok, mm_free in *. rewrite Ha2. rewrite <- Hm1.
    exact (conj Hok1 (conj Hfree (conj Hrest (conj Hz Hout)))).
  - apply wp_ret. by destruct Hr.
Qed.

Lemma drop_page_law s p :
  mm_ok s → managed p → ¬ mm_free s p →
  wp (drop_page p) (λ _ s',
    mm_ok s' ∧ mem_of s' = mem_of s ∧ ∀ q, mm_free s' q ↔ mm_free s q ∨ q = p) s.
Proof.
  intros [Hl Ha] Hm Hf. eapply wp_intro; [by apply drop_page_run|].
  destruct (dealloc_spec _ p Ha Hm Hf) as [Ha' Hf'].
  unfold mm_ok, mm_free. simpl. split_and!; done.
Qed.

(** None of them touches [KERNEL_SATP]. *)
Definition same_satp {A} (s : MM) : A → MM → Prop := λ _ s', kernel_satp s' = kernel_satp s.

Lemma alloc_page_satp s : mm_ok s → wp alloc_page (same_satp s) s.
Proof. intros [Hl _]. eapply wp_intro; [by apply alloc_page_run|done]. Qed.
Lemma drop_page_satp p s : mm_ok s → wp (drop_page p) (same_satp s) s.
Proof. intros [Hl _]. eapply wp_intro; [by apply drop_page_run|done]. Qed.
Lemma alloc_zeroed_page_satp s : mm_ok s → wp alloc_zeroed_page (same_satp s) s.
Proof.
  intros Hok. apply wp_bind.
  eapply wp_mono; [apply wp_conj; [by apply alloc_page_satp|by apply alloc_page_law]|].
  intros [p|] s1 [Hk (Hok1 & _ & Hr)]; [|by apply wp_ret].
  assert (0 <= p < 2 ^ 26) as Hp.
  { destruct Hok as [_ Ha], Hr as [Hf _]. pose proof (free_managed _ _ Ha Hf).
    unfold managed, LAST_PPN in *. lia. }
  apply wp_bind. eapply wp_intro; [by apply page_ptr_run|].
  apply wp_bind. eapply wp_mono; [apply fill_page_law|].
  intros [] s2 (_ & Hk2 & _). apply wp_ret. unfold same_satp in *. congruence.
Qed.
End invariant.

(** ** The allocator is a page source. *)

#[export] Instance page_source_MM : PageSource MM := {|
  ps_alloc_page := alloc_page;
  ps_alloc_zeroed_page := alloc_zeroed_page;
  ps_drop_page := drop_page;
|}.

#[export] Instance page_source_laws_MM `{LinkerSymbols} : PageSourceLaws MM.
Proof.
  refine {| ps_ok := mm_ok; ps_free := mm_free; ps_managed := managed |}.
  - unfold managed, LAST_PPN. lia.
  - unfold managed, LAST_PPN. lia.
  - intros s p [_ Ha]. by apply free_managed.
  - intros m s [Hl Ha]. done.
  - intros m s p. done.
  - apply alloc_page_law.
  - apply alloc_zeroed_page_law.
  - apply drop_page_law.
Defined.

Lemma drop_pages_law `{LinkerSymbols} (s : MM) l :
  mm_ok s → NoDup l → (∀ p, p ∈ l → managed p ∧ ¬ mm_free s p) →
  wp (for_each l drop_page) (λ _ s',
    mm_ok s' ∧ mem_of s' = mem_of s ∧ ∀ q, mm_free s' q ↔ mm_free s q ∨ q ∈ l) s.
Proof. exact (@ps_drop_pages_law MM _ _ page_source_laws_MM s l). Qed.

(** ** Exact runs *)
Section runs.
Implicit Types (m : mem) (a : PageAllocator).

Lemma alloc_page_eq m a k :
  alloc_page (mk_MM m (new a) k) = Ret (alloc a).1 (mk_MM m (new (alloc a).2) k).
Proof. by apply alloc_page_run. Qed.

Lemma drop_page_eq p m a k :
  drop_page p (mk_MM m (new a) k) = Ret tt (mk_MM m (new (dealloc p a)) k).
Proof. by apply drop_page_run. Qed.

Lemma locked_field_eq {A} (f : PageAllocator → A) m a k :
  locked_field f (mk_MM m (new a) k) = Ret (f a) (mk_MM m (new a) k).
Proof. done. Qed.

Lemma assert_recycled_len_eq n msg m a k :
  Z.of_nat (length (recycled_ppn a)) = n →
  assert_recycled_len n msg (mk_MM m (new a) k) = Ret tt (mk_MM m (new a) k).
Proof.
  intros <-. unfold assert_recycled_len, recycled_len, mbind, M_bind.
  rewrite locked_field_eq. by rewrite Z.eqb_refl.
Qed.

Definition dealloc_all (pages : list Z) (a : PageAllocator) : PageAllocator :=
  foldl (λ a p, dealloc p a) a pages.

Lemma dealloc_pages_eq pages m a k :
  dealloc_pages pages (mk_MM m (new a) k) =
    Ret tt (mk_MM m (new (dealloc_all pages a)) k).
Proof.
  assert (∀ l a, for_each l (λ page, b ← deref; deref_mut (dealloc page b))
                   (mk_MM m (mk_SpinLock true a) k) =
                 Ret tt (mk_MM m (mk_SpinLock true (dealloc_all l a)) k)) as Hloop.
  { induction l as [|p l IH]; intros b; [done|]. exact (IH (dealloc p b)). }
  unfold dealloc_pages, mbind, M_bind. unfold lock. cbn [proj has_page_allocator_MM].
  cbn [page_allocator locked new data upd]. setoid_rewrite Hloop. done.
Qed.

Lemma recycled_dealloc_all pages a :
  dealloc_all pages a =
    mk_PageAllocator (next_unused_ppn a) (max_ppn a) (recycled_ppn a ++ pages).
Proof.
  revert a. induction pages as [|p pages IH]; intros a; simpl.
  - rewrite app_nil_r. by destruct a.
  - rewrite IH. simpl. unfold vec_push. by rewrite <- app_assoc.
Qed.

(** No recycled page: the next unused one *)
Lemma alloc_fresh n mx :
  0 <= n < mx → mx < USIZE_MODULUS →
  alloc (mk_PageAllocator n mx []) = (Some n, mk_PageAllocator (n + 1) mx []).
Proof.
  intros Hn Hmx. unfold alloc. simpl. destruct (Z.leb_spec mx n); [lia|].
  by rewrite uadd_small by lia.
Qed.
(** A recycled page: the last one pushed *)
Lemma alloc_recycled n mx l p :
  alloc (mk_PageAllocator n mx (vec_push l p)) = (Some p, mk_PageAllocator n mx l).
Proof. unfold alloc. simpl. by rewrite vec_pop_push. Qed.

Lemma push_pages_eq c pages m n mx k :
  0 <= n → n + Z.of_nat c <= mx → mx < USIZE_MODULUS →
  push_pages c pages (mk_MM m (new (mk_PageAllocator n mx [])) k) =
    Ret (pages ++ seqZ n (Z.of_nat c))
        (mk_MM m (new (mk_PageAllocator (n + Z.of_nat c) mx [])) k).
Proof.
  revert pages n. induction c as [|c IH]; intros pages n Hn Hle Hmx.
  - simpl. by rewrite app_nil_r, Z.add_0_r.
  - cbn [push_pages]. unfold mbind, M_bind. rewrite alloc_page_eq.
    rewrite alloc_fresh by lia. cbn [fst snd]. unfold expect_page. cbn -[Z.of_nat].
    rewrite IH by lia. rewrite (seqZ_cons n) by lia. unfold vec_push.
    rewrite <- app_assoc. simpl. do 2 f_equal.
    + do 2 f_equal; lia.
    + by replace (n + 1 + Z.of_nat c) with (n + Z.of_nat (Datatypes.S c)) by lia.
Qed.
End runs.

(** ** The initial state *)

Lemma first_ppn_run `{LinkerSymbols} {S} (s : S) :
  KERNEL_VA_OFFSET <= kernel_end < USIZE_MODULUS →
  compute_first_unused_ppn s = Ret first_ppn s.
Proof.
  intros Hk. unfold compute_first_unused_ppn, get_pa_from_va, checked_sub, first_ppn.
  destruct (Z.leb_spec KERNEL_VA_OFFSET kernel_end); [|lia].
  unfold expect, mbind, M_bind, mret, M_ret.
  set (pa := kernel_end - KERNEL_VA_OFFSET).
  assert (0 <= pa < 2 ^ 38) as Hpa by (unfold pa; consts; lia).
  rewrite (land_mask pa 12) by done. change (2 ^ 12) with 4096.
  destruct (Z.eqb_spec (pa mod 4096) 0).
  - rewrite from_pa_run by lia. f_equal. zlia.
  - rewrite page_size_eq, uadd_small by (consts; lia).
    rewrite from_pa_run by lia. f_equal. zlia.
Qed.

Lemma max_ppn_run {S} (s : S) : compute_max_ppn s = Ret LAST_PPN s.
Proof. done. Qed.

Lemma init_page_allocator_run `{LinkerSymbols} {S} (s : S) :
  KERNEL_VA_OFFSET <= kernel_end < USIZE_MODULUS →
  init_page_allocator s = Ret (new (mk_PageAllocator first_ppn LAST_PPN [])) s.
Proof.
  intros Hk. unfold init_page_allocator, mbind, M_bind. rewrite first_ppn_run by done.
  by rewrite max_ppn_run.
Qed.

Lemma first_ppn_nonneg `{LinkerSymbols} :
  KERNEL_VA_OFFSET <= kernel_end → 0 <= first_ppn.
Proof. unfold first_ppn. intros. apply Z.div_pos; lia. Qed.

Lemma init_alloc_ok `{LinkerSymbols} m k :
  KERNEL_VA_OFFSET <= kernel_end →
  let s := mk_MM m (new (mk_PageAllocator first_ppn LAST_PPN [])) k in
  mm_ok s ∧ ∀ p, managed p ↔ mm_free s p.
Proof.
  intros Hk s. pose proof (first_ppn_nonneg Hk). split.
  - split; [done|]. split; simpl; [done|lia|constructor|set_solver].
  - intros p. unfold mm_free, free, managed. simpl. rewrite elem_of_nil. lia.
Qed.

(** ** Clients: sequences of allocations and drops *)
Section clients.
Context `{LinkerSymbols}.

(** The kernel as the allocator sees it: the memory-management state and the
    pages currently owned by a [Page] value. *)
Definition client : Type := MM * list Z.

Inductive client_step : client → client → Prop :=
  | client_alloc s s' owned p :
      alloc_page s = Ret (Some p) s' → client_step (s, owned) (s', p :: owned)
  | client_alloc_zeroed s s' owned p :
      alloc_zeroed_page s = Ret (Some p) s' → client_step (s, owned) (s', p :: owned)
  | client_alloc_failed s s' owned :
      alloc_page s = Ret None s' → client_step (s, owned) (s', owned)
  | client_write s s' owned f :
      s' = upd_mem f s → client_step (s, owned) (s', owned)
  | client_drop s s' owned p rest :
      owned ≡ₚ p :: rest → drop_page p s = Ret tt s' →
      client_step (s, owned) (s', rest)
  | client_dealloc_pages s s' owned pages rest :
      owned ≡ₚ pages ++ rest → dealloc_pages pages s = Ret tt s' →
      client_step (s, owned) (s', rest).

(** Owned and free pages split the managed ones. *)
Definition client_inv (c : client) : Prop :=
  mm_ok c.1 ∧ NoDup c.2 ∧
  (∀ p, managed p ↔ mm_free c.1 p ∨ p ∈ c.2) ∧ ∀ p, p ∈ c.2 → ¬ mm_free c.1 p.

Lemma client_inv_alloc s s' owned p :
  client_inv (s, owned) → mm_ok s' → mm_free s p →
  (∀ q, mm_free s' q ↔ mm_free s q ∧ q ≠ p) →
  client_inv (s', p :: owned).
Proof.
  intros (Hok & Hnd & Hsplit & Hdisj) Hok' Hp Hfree. unfold client_inv in *; simpl in *.
  split_and!; [done| | |].
  - apply NoDup_cons. split; [|done]. intros Hin. by apply (Hdisj p).
  - intros q. rewrite elem_of_cons, Hfree, Hsplit.
    destruct (decide (q = p)) as [->|]; tauto.
  - intros q Hq. rewrite Hfree. apply elem_of_cons in Hq as [->|Hq]; [tauto|].
    specialize (Hdisj q Hq). tauto.
Qed.

Lemma client_inv_dealloc s s' owned pages rest :
  client_inv (s, owned) → owned ≡ₚ pages ++ rest → mm_ok s' →
  (∀ q, mm_free s' q ↔ mm_free s q ∨ q ∈ pages) →
  client_inv (s', rest).
Proof.
  intros (Hok & Hnd & Hsplit & Hdisj) Hperm Hok' Hfree. unfold client_inv in *; simpl in *.
  rewrite Hperm in Hnd. apply NoDup_app in Hnd as (Hnd1 & Hx & Hnd2).
  split_and!; [done|done| |].
  - intros q. rewrite Hsplit, Hfree, Hperm, elem_of_app. tauto.
  - intros q Hq. rewrite Hfree. intros [Hf|Hin].
    + apply (Hdisj q); [|done]. rewrite Hperm, elem_of_app. tauto.
    + by apply (Hx q).
Qed.

Lemma dealloc_pages_drops s pages :
  locked (page_allocator s) = false →
  dealloc_pages pages s = for_each pages drop_page s.
Proof.
  intros Hl. destruct s as [m [lk a] k]. simpl in Hl. subst lk.
  change (mk_SpinLock false a) with (new a). rewrite dealloc_pages_eq.
  revert a. induction pages as [|p pages IH]; intros a; simpl; [done|].
  unfold mbind, M_bind. rewrite drop_page_eq. apply IH.
Qed.

Lemma client_inv_step c c' : client_inv c → client_step c c' → client_inv c'.
Proof.
  intros Hinv Hstep. pose proof Hinv as (Hok & Hnd & Hsplit & Hdisj).
  destruct Hstep as [s s' owned p Hr|s s' owned p Hr|s s' owned Hr|s s' owned f ->
    |s s' owned p rest Hperm Hr|s s' owned pages rest Hperm Hr]; simpl in *.
  - apply (wp_run _ _ _ _ _ (alloc_page_law s Hok)) in Hr as (Hok' & _ & Hp & Hf).
    by eapply client_inv_alloc.
  - apply (wp_run _ _ _ _ _ (alloc_zeroed_page_law s Hok)) in Hr as (Hok' & Hp & Hf & _).
    by eapply client_inv_alloc.
  - apply (wp_run _ _ _ _ _ (alloc_page_law s Hok)) in Hr as (_ & _ & -> & _). done.
  - destruct Hok. done.
  - assert (managed p ∧ ¬ mm_free s p) as [Hm Hnf].
    { assert (p ∈ owned) by (rewrite Hperm; by left). split; [apply Hsplit; tauto|auto]. }
    apply (wp_run _ _ _ _ _ (drop_page_law s p Hok Hm Hnf)) in Hr as (Hok' & _ & Hf).
    eapply (client_inv_dealloc _ _ _ [p]); [done|done|done|].
    intros q. by rewrite Hf, list_elem_of_singleton.
  - rewrite dealloc_pages_drops in Hr by apply Hok.
    pose proof Hnd as Hnd'. rewrite Hperm in Hnd'. apply NoDup_app in Hnd' as (Hnd1 & _).
    assert (∀ p, p ∈ pages → managed p ∧ ¬ mm_free s p) as Hpages.
    { intros p Hp. assert (p ∈ owned) by (rewrite Hperm, elem_of_app; tauto).
      split; [apply Hsplit; tauto|auto]. }
    apply (wp_run _ _ _ _ _ (drop_pages_law s pages Hok Hnd1 Hpages))
      in Hr as (Hok' & _ & Hf).
    by eapply client_inv_dealloc.
Qed.

Lemma client_inv_reachable c c' : client_inv c → rtc client_step c c' → client_inv c'.
Proof. induction 2; eauto using client_inv_step. Qed.
End clients.

(** C22: exclusive ownership of physical pages: start from the initial allocator of
    a kernel image and run any sequence of allocations (zeroed or not), memory
    writes, drops of owned pages and [dealloc_pages] of owned pages.  Then no page
    is owned twice, every owned page lies after the kernel image and below the end
    of memory, no owned page can be handed out again, and no page is ever lost:
    each managed page is either owned or free. *)
Theorem page_ownership `{LinkerSymbols} m k a s owned (s0 : MM) :
  KERNEL_VA_OFFSET <= kernel_end < USIZE_MODULUS →
  init_page_allocator s0 = Ret a s0 →
  rtc client_step (mk_MM m a k, []) (s, owned) →
  NoDup owned ∧
  (∀ p, p ∈ owned →
     kernel_end - KERNEL_VA_OFFSET <= page_start p ∧
     page_end p <= MEM_START_PA + MEM_SIZE_BYTES) ∧
  (∀ p s', alloc_page s = Ret (Some p) s' → p ∉ owned) ∧
  (∀ s', alloc_page s = Ret None s' →
     ∀ p, first_ppn <= p < LAST_PPN → p ∈ owned).
Proof.
  intros Hk Ha Hr. rewrite init_page_allocator_run in Ha by done. injection Ha as <-.
  destruct (init_alloc_ok m k (proj1 Hk)) as [Hok Hfree].
  assert (client_inv (mk_MM m (new (mk_PageAllocator first_ppn LAST_PPN [])) k, [])) as Hi.
  { split_and!; [done|constructor| |set_solver].
    intros p. simpl. rewrite elem_of_nil, Hfree. tauto. }
  pose proof (client_inv_reachable _ _ Hi Hr) as (Hok' & Hnd & Hsplit & Hdisj). simpl in *.
  split_and!; [done| | |].
  - intros p Hp. assert (managed p) as Hm by (apply Hsplit; tauto).
    unfold managed, LAST_PPN, first_ppn, page_start, page_end in *.
    change (MEM_START_PA + MEM_SIZE_BYTES) with 0x88000000. zlia.
  - intros p s' Hrun Hp.
    apply (wp_run _ _ _ _ _ (alloc_page_law s Hok')) in Hrun as (_ & _ & Hf & _).
    by apply (Hdisj p).
  - intros s' Hrun p Hp.
    apply (wp_run _ _ _ _ _ (alloc_page_law s Hok')) in Hrun as (_ & _ & _ & Hnf).
    pose proof (first_ppn_nonneg (proj1 Hk)).
    assert (managed p) as Hm by (unfold managed; lia). apply Hsplit in Hm as [?|?]; [|done].
    by destruct (Hnf p).
Qed.

(** A kernel image whose last section ends at physical address 0x80706000 *)
Definition sample_symbols : LinkerSymbols := {|
  kernel_start := 0xffffffc080200000;
  text_start := 0xffffffc080200000;
  text_end := 0xffffffc080210000;
  boot_pgt := 0xffffffc080210000;
  kernel_stack_start := 0xffffffc080211000;
  kernel_stack_end := 0xffffffc080215000;
  rodata_start := 0xffffffc080215000;
  rodata_end := 0xffffffc080219000;
  data_start := 0xffffffc080219000;
  data_end := 0xffffffc080300000;
  bss_start := 0xffffffc080300000;
  bss_end := 0xffffffc080706000;
  kernel_end := 0xffffffc080706000;
|}.
Definition sample_mm : MM := mk_MM ∅ (new (mk_PageAllocator 0x80706 LAST_PPN [])) 0.

Lemma page_ownership_witness :
  ∃ s owned, @rtc client client_step (sample_mm, []) (s, owned) ∧ owned = [0x80707] ∧
    NoDup owned.
Proof.
  set (HL := sample_symbols).
  assert (rtc client_step (sample_mm, [])
    (mk_MM ∅ (new (mk_PageAllocator 0x80708 LAST_PPN [0x80706])) 0, [0x80707])) as Hr.
  { eapply rtc_l; [by apply client_alloc; vm_compute|].
    eapply rtc_l; [by apply client_alloc; vm_compute|].
    eapply rtc_l; [|apply rtc_refl].
    eapply (client_drop _ _ _ 0x80706 [0x80707]); [|vm_compute; reflexivity].
    apply perm_swap. }
  eexists _, _. split; [exact Hr|]. split; [reflexivity|].
  refine (proj1 (@page_ownership HL ∅ 0 _ _ _ sample_mm _ _ Hr)); [|vm_compute; reflexivity].
  vm_compute. split; congruence.
Defined.

(** C28: [alloc_zeroed_page] hands out a free page whose 4096 bytes all read 0 and
    changes no other byte of memory; it fails, changing nothing, only when no page
    is free. *)
Theorem alloc_zeroed_page_correct `{LinkerSymbols} s :
  mm_ok s →
  ∃ r s', alloc_zeroed_page s = Ret r s' ∧ mm_ok s' ∧
    match r with
    | Some p => mm_free s p ∧ ¬ mm_free s' p ∧
                (∀ a, page_start p <= a < page_end p → read_u8 (mm_mem s') a = 0) ∧
                (∀ a, a < page_start p ∨ page_end p <= a →
                      read_u8 (mm_mem s') a = read_u8 (mm_mem s) a)
    | None => s' = s ∧ ∀ p, ¬ mm_free s p
    end.
Proof.
  intros Hok. destruct (wp_returns _ _ _ (alloc_zeroed_page_law s Hok))
    as (r & s' & Hrun & Hok' & Hr).
  exists r, s'. split; [done|]. split; [done|]. destruct r as [p|]; [|done].
  destruct Hr as (Hp & Hf & Hz & Hout). rewrite Hf. split; [done|]. split; [tauto|].
  split; [exact Hz|exact Hout].
Qed.

Lemma alloc_zeroed_page_correct_witness :
  @mm_ok sample_symbols sample_mm ∧ ∃ r s', alloc_zeroed_page sample_mm = Ret r s' ∧
    @mm_ok sample_symbols s'.
Proof.
  assert (@mm_ok sample_symbols sample_mm) as H.
  { apply (@init_alloc_ok sample_symbols ∅ 0). vm_compute. congruence. }
  split; [exact H|].
  destruct (@alloc_zeroed_page_correct sample_symbols sample_mm H) as (r & s' & Hr & Hok & _).
  exists r, s'. split; [exact Hr|exact Hok].
Defined.

(** [dealloc_pages] gives the pages back exactly as dropping them one by one
    would, in one critical section; wrapping each page in [ManuallyDrop] is needed,
    since dropping a [Page] while the guard is alive spins forever. *)
Theorem dealloc_pages_equiv s :
  locked (page_allocator s) = false →
  (∀ pages, dealloc_pages pages s = for_each pages drop_page s) ∧
  (∀ p, (lock PageAllocator;; drop_page p) s = Spin).
Proof.
  intros Hl. split.
  - intros pages. by apply dealloc_pages_drops.
  - intros p. destruct s as [m [lk a] k]. simpl in Hl. by subst.
Qed.

Lemma dealloc_pages_equiv_witness :
  locked (page_allocator sample_mm) = false ∧
  dealloc_pages [0x80710; 0x80711] sample_mm =
    Ret tt (mk_MM ∅ (new (mk_PageAllocator 0x80706 LAST_PPN [0x80710; 0x80711])) 0).
Proof.
  split; [reflexivity|].
  rewrite (proj1 (dealloc_pages_equiv sample_mm eq_refl)). vm_compute. reflexivity.
Defined.

(** ** The self test *)
Section self_test.
Implicit Types (m : mem) (a : PageAllocator).

(** One exactly known step of a run *)
Ltac run_step :=
  apply wp_bind;
  lazymatch goal with
  | |- wp (locked_field _) _ _ => eapply wp_intro; [apply locked_field_eq|]
  | |- wp alloc_page _ _ => eapply wp_intro; [apply alloc_page_eq|]
  | |- wp (drop_page _) _ _ => eapply wp_intro; [apply drop_page_eq|]
  | |- wp (dealloc_pages _) _ _ => eapply wp_intro; [apply dealloc_pages_eq|]
  | |- wp (assert_recycled_len _ _) _ _ =>
      eapply wp_intro; [by apply assert_recycled_len_eq|]
  end; cbn [fst snd].
Ltac known_page := apply wp_bind; apply wp_ret.

Lemma alloc_zeroed_page_eq m a k p a' :
  alloc a = (Some p, a') → 0 <= p < 2 ^ 26 →
  wp alloc_zeroed_page (λ r s', r = Some p ∧
    ∃ m', s' = mk_MM m' (new a') k ∧ page_zero m' p) (mk_MM m (new a) k).
Proof.
  intros Ha Hp. unfold alloc_zeroed_page. apply wp_bind.
  eapply wp_intro; [apply alloc_page_eq|]. rewrite Ha. cbn [fst snd].
  apply wp_bind. eapply wp_intro; [by apply page_ptr_run|].
  apply wp_bind. eapply wp_mono; [apply fill_page_law|].
  intros [] [m' a2 k2] (E1 & E2 & Hz & _). simpl in *. subst. apply wp_ret.
  split; [done|]. by exists m'.
Qed.

Lemma fill_page_eq p b m a k :
  wp (for_each (range 0 PAGE_SIZE_BYTES)
        (λ i, store_u8 (p * 4096 + KERNEL_VA_OFFSET + i) b))
     (λ _ s', ∃ m', s' = mk_MM m' (new a) k) (mk_MM m (new a) k).
Proof.
  eapply wp_mono; [apply fill_page_law|].
  intros [] [m' a2 k2] (E1 & E2 & _). simpl in *. subst. by exists m'.
Qed.

Lemma check_zero_page p s :
  page_zero (mem_of s) p →
  wp (for_each (range 0 PAGE_SIZE_BYTES)
        (λ i, b ← load_u8 (p * 4096 + KERNEL_VA_OFFSET + i);
              assert_or (b =? 0) assert_eq_msg)) (λ _ s', s' = s) s.
Proof.
  intros Hz. apply (wp_for_each _ _ (λ _ s', s' = s)); [done|].
  intros don i todo s' Hl ->.
  assert (0 <= i < 4096) as Hi.
  { rewrite <- page_size_eq. apply elem_of_range. rewrite Hl. set_solver. }
  apply wp_bind, wp_gets, wp_assert; [|done].
  rewrite Z.eqb_eq. apply Hz. unfold page_start, page_end. lia.
Qed.

(** The test from a state with no recycled page *)
Lemma test_page_allocator_wp m n mx k :
  0 <= n → n + 11 <= mx → mx <= 2 ^ 26 →
  wp test_page_allocator (λ _ s', ∃ m', s' =
      mk_MM m' (new (mk_PageAllocator (n + 11) mx (seqZ (n + 1) 10 ++ [n]))) k)
    (mk_MM m (new (mk_PageAllocator n mx [])) k).
Proof.
  intros Hn Hle Hmx. unfold test_page_allocator.
  assert (mx < USIZE_MODULUS) by (unfold USIZE_MODULUS; lia).
  run_step. run_step. run_step. rewrite alloc_fresh by lia. cbn [fst snd]. known_page.
  apply wp_bind, wp_assert; [apply Z.eqb_refl|].
  do 4 run_step. known_page. apply wp_bind, wp_assert; [apply Z.eqb_refl|].
  run_step. run_step. change (dealloc n _) with (mk_PageAllocator (n + 1) mx (vec_push [] n)).
  rewrite alloc_recycled. cbn [fst snd next_unused_ppn]. known_page.
  apply wp_bind, wp_assert; [apply negb_true_iff, Z.eqb_neq; lia|].
  run_step. cbn [next_unused_ppn]. apply wp_bind, wp_assert; [apply Z.eqb_refl|].
  run_step. run_step. change (dealloc n _) with (mk_PageAllocator (n + 1) mx (vec_push [] n)).
  apply wp_bind. eapply wp_mono; [apply alloc_zeroed_page_eq; [apply alloc_recycled|lia]|].
  intros ? ? (-> & m1 & -> & _). known_page.
  apply wp_bind. eapply wp_intro; [apply page_ptr_run; lia|].
  apply wp_bind. eapply wp_mono; [apply fill_page_eq|]. intros [] ? [m2 ->].
  do 2 run_step. change (dealloc n _) with (mk_PageAllocator (n + 1) mx (vec_push [] n)).
  apply wp_bind. eapply wp_mono; [apply alloc_zeroed_page_eq; [apply alloc_recycled|lia]|].
  intros ? ? (-> & m3 & -> & Hz). known_page.
  apply wp_bind. eapply wp_intro; [apply page_ptr_run; lia|].
  apply wp_bind. eapply wp_mono; [by apply check_zero_page|]. intros [] ? ->.
  apply wp_bind. eapply wp_intro; [apply push_pages_eq; simpl; lia|]. run_step.
  change (Z.of_nat 10) with 10. rewrite app_nil_l.
  assert (seqZ (n + 1) 10 = seqZ (n + 1) 9 ++ [n + 10]) as Eseq.
  { transitivity (seqZ (n + 1) (9 + 1)); [done|]. rewrite seqZ_app by lia.
    rewrite (seqZ_cons (n + 1 + 9)) by lia. do 2 f_equal. lia. }
  rewrite Eseq. change (seqZ (n + 1) 9 ++ [n + 10]) with (vec_push (seqZ (n + 1) 9) (n + 10)).
  rewrite vec_pop_push. known_page. run_step. rewrite recycled_dealloc_all.
  cbn [next_unused_ppn max_ppn recycled_ppn]. rewrite app_nil_l.
  do 3 run_step. eapply wp_intro; [apply drop_page_eq|]. exists m3.
  unfold dealloc; simpl. unfold vec_push.
  by replace (n + 11) with (n + 1 + 10) by lia.
Qed.
End self_test.

(** C34: the kernel's own allocator test passes: from any state with the lock free,
    no recycled page and 11 pages left, no assertion of [test_page_allocator] fails;
    it ends with the 11 pages it used recycled. *)
Theorem test_page_allocator_passes m n mx k :
  0 <= n → n + 11 <= mx → mx <= 2 ^ 26 →
  ∃ m' l, test_page_allocator (mk_MM m (new (mk_PageAllocator n mx [])) k) =
            Ret tt (mk_MM m' (new (mk_PageAllocator (n + 11) mx l)) k) ∧
          l ≡ₚ seqZ n 11.
Proof.
  intros Hn Hle Hmx.
  destruct (wp_returns _ _ _ (test_page_allocator_wp m n mx k Hn Hle Hmx))
    as ([] & s' & Hrun & m' & ->).
  eexists _, _. split; [exact Hrun|]. rewrite (seqZ_cons n) by lia.
  rewrite Permutation_app_comm. simpl. done.
Qed.

Lemma test_page_allocator_passes_witness :
  0 <= 0x80706 ∧ 0x80706 + 11 <= LAST_PPN ∧ LAST_PPN <= 2 ^ 26 ∧
  ∃ m' l, test_page_allocator sample_mm =
    Ret tt (mk_MM m' (new (mk_PageAllocator 0x80711 LAST_PPN l)) 0) ∧ l ≡ₚ seqZ 0x80706 11.
Proof.
  assert (0 <= 0x80706) as H1 by lia. assert (0x80706 + 11 <= LAST_PPN) as H2 by (cbv; congruence).
  assert (LAST_PPN <= 2 ^ 26) as H3 by (cbv; congruence).
  split; [exact H1|]. split; [exact H2|]. split; [exact H3|].
  exact (test_page_allocator_passes ∅ 0x80706 LAST_PPN 0 H1 H2 H3).
Defined.
