(* ===== verification/Sv39.v ===== *)
(** * Sv39 page tables: [src/os/src/mm/sv39.rs]

    [PTE], [RootPgt] and its operations, over any page source.  A page table is a
    page of physical memory holding 512 little-endian PTEs; a [&mut [PTE; 512]] is
    the virtual address of that page in the direct map. *)

From S2P Require Export PageSource Regs.

Definition PTES_PER_TABLE : Z := 512.

(** [enum PgtError] *)
Inductive PgtError :=
  | AcquirePageFailed
  | InvalidPteFlags (pte_flags : Z)
  | DoubleMapping (vpn ppn : Z).
#[export] Instance PgtError_eq_dec : EqDecision PgtError.
Proof. solve_decision. Defined.

(** [VPN_0], [VPN_1] and [VPN_2] of a virtual page number *)
Definition parse_vpn (vpn : Z) : list Z :=
  let va := VPN.get_va vpn in
  let vpn_0 := (va .>> 12) .& 0x1ff in
  let vpn_1 := (va .>> 21) .& 0x1ff in
  let vpn_2 := (va .>> 30) .& 0x1ff in
  [vpn_0; vpn_1; vpn_2].
(** [parsed_vpn[level]]; the level is 0, 1 or 2. *)
Definition parsed (parsed_vpn : list Z) (level : nat) : Z := nth level parsed_vpn 0.

(** ** [PTE] *)
Module PTE.
Definition ALL_FLAGS : Z := 0x3ff.
Definition FLAG_V : Z := 1 .<< 0.
Definition FLAG_R : Z := 1 .<< 1.
Definition FLAG_W : Z := 1 .<< 2.
Definition FLAG_X : Z := 1 .<< 3.
Definition FLAG_U : Z := 1 .<< 4.

Definition has_unknown_flags_set (pte_flags : Z) : bool :=
  negb (pte_flags .& .~ ALL_FLAGS =? 0).
Definition has_v_flag_clear (pte_flags : Z) : bool := pte_flags .& FLAG_V =? 0.
Definition is_reserved_xwr_encodings (pte_flags : Z) : bool :=
  let xwr := (pte_flags .& (FLAG_X .| FLAG_W .| FLAG_R)) .>> 1 in
  (xwr =? 2) || (xwr =? 6).
Definition is_valid_flags (pte_flags : Z) : bool :=
  if has_unknown_flags_set pte_flags || has_v_flag_clear pte_flags
     || is_reserved_xwr_encodings pte_flags
  then false else true.

Definition new (ppn pte_flags : Z) : result Z PgtError :=
  if negb (is_valid_flags pte_flags) then Err (InvalidPteFlags pte_flags)
  else
    let value := (PPN.get_raw ppn .<< 10) .| pte_flags in
    Ok value.

Definition is_valid (pte : Z) : bool := negb (pte .& FLAG_V =? 0).
Definition get_ppn {S} (pte : Z) : M S Z :=
  let ppn := (pte .>> 10) .& 0xfffffffffff in
  PPN.from_pa (ppn .<< PAGE_SIZE_ORDER).
Definition is_leaf (pte : Z) : bool :=
  is_valid pte && negb (pte .& (FLAG_X .| FLAG_W) =? 0).
End PTE.

(** ** [RootPgt] *)
Record RootPgt := mk_RootPgt {
  rp_ppn : Z;
  rp_pages : list Z;
}.

Module Pgt.
Section ops.
Context {S : Type} `{PageSource S}.

(** [RootPgt::get_ptes_mut]: a pointer to the table; [as_mut().unwrap()] fails
    on a null pointer. *)
Definition get_ptes_mut (ppn : Z) : M S Z :=
  ptr ← get_pa_mut_ptr (PPN.get_pa ppn);
  assert_or (negb (ptr =? 0)) "called `Option::unwrap()` on a `None` value";;
  mret ptr.
(** [table[i]], [table[i] = pte] *)
Definition pte_get (table i : Z) : M S Z := load_u64 (table + 8 * i).
Definition pte_set (table i pte : Z) : M S unit := store_u64 (table + 8 * i) pte.

Definition new : M S (result RootPgt PgtError) :=
  page ← ps_alloc_zeroed_page;
  match page with
  | None => mret (Err AcquirePageFailed)
  | Some ppn => mret (Ok (mk_RootPgt ppn [ppn]))
  end.

Definition new_copy (entries : Z) : M S (result RootPgt PgtError) :=
  page ← ps_alloc_page;
  match page with
  | None => mret (Err AcquirePageFailed)
  | Some ppn =>
      table ← get_ptes_mut ppn;
      for_each (range 0 PTES_PER_TABLE) (λ i, pte ← pte_get entries i; pte_set table i pte);;
      mret (Ok (mk_RootPgt ppn [ppn]))
  end.

Definition get_satp (self : RootPgt) : Z :=
  Satp.compute_value (PPN.get_raw (rp_ppn self)) Satp.Sv39.

(** The pages are leaked: nothing is dropped. *)
Definition forget_self (self : RootPgt) : M S Z :=
  mret (Z.of_nat (length (rp_pages self))).

(** [if !table[i].is_valid() { .. }]: links a new, zeroed table in the slot. *)
Definition ensure_table (self : RootPgt) (table i : Z)
    : M S (result unit PgtError * RootPgt) :=
  pte ← pte_get table i;
  if negb (PTE.is_valid pte) then
    page ← ps_alloc_zeroed_page;
    match page with
    | None => mret (Err AcquirePageFailed, self)
    | Some page =>
        match PTE.new page PTE.FLAG_V with
        | Err e => ps_drop_page page;; mret (Err e, self)
        | Ok pte =>
            pte_set table i pte;;
            mret (Ok tt, mk_RootPgt (rp_ppn self) (vec_push (rp_pages self) page))
        end
    end
  else mret (Ok tt, self).

(** The [for level in [2, 1]] loop of [map_create]; returns the leaf table. *)
Fixpoint walk_create (levels : list nat) (self : RootPgt) (table : Z)
    (parsed_vpn : list Z) (vpn ppn : Z) : M S (result Z PgtError * RootPgt) :=
  match levels with
  | [] => mret (Ok table, self)
  | level :: levels =>
      let i := parsed parsed_vpn level in
      '(r, self) ← ensure_table self table i;
      match r with
      | Err e => mret (Err e, self)
      | Ok _ =>
          pte ← pte_get table i;
          if PTE.is_leaf pte then mret (Err (DoubleMapping vpn ppn), self)
          else
            next_ppn ← PTE.get_ppn pte;
            table ← get_ptes_mut next_ppn;
            walk_create levels self table parsed_vpn vpn ppn
      end
  end.

Definition map_create (self : RootPgt) (vpn ppn pte_flags : Z)
    : M S (result unit PgtError * RootPgt) :=
  let parsed_vpn := parse_vpn vpn in
  match PTE.new ppn pte_flags with
  | Err e => mret (Err e, self)
  | Ok leaf_pte =>
      table ← get_ptes_mut (rp_ppn self);
      '(r, self) ← walk_create [2%nat; 1%nat] self table parsed_vpn vpn ppn;
      match r with
      | Err e => mret (Err e, self)
      | Ok table =>
          let i := parsed parsed_vpn 0 in
          pte ← pte_get table i;
          if PTE.is_valid pte then mret (Err (DoubleMapping vpn ppn), self)
          else
            pte_set table i leaf_pte;;
            mret (Ok tt, self)
      end
  end.

Definition map_create_large (self : RootPgt) (vpn ppn pte_flags : Z)
    : M S (result unit PgtError * RootPgt) :=
  vpn ← VPN.from_va (VPN.get_va vpn .& .~ (LARGE_PAGE_SIZE_BYTES ⊖ 1));
  ppn ← PPN.from_pa (PPN.get_pa ppn .& .~ (LARGE_PAGE_SIZE_BYTES ⊖ 1));
  let parsed_vpn := parse_vpn vpn in
  match PTE.new ppn pte_flags with
  | Err e => mret (Err e, self)
  | Ok leaf_pte =>
      level2_table ← get_ptes_mut (rp_ppn self);
      let i2 := parsed parsed_vpn 2 in
      '(r, self) ← ensure_table self level2_table i2;
      match r with
      | Err e => mret (Err e, self)
      | Ok _ =>
          pte2 ← pte_get level2_table i2;
          if PTE.is_leaf pte2 then mret (Err (DoubleMapping vpn ppn), self)
          else
            next_ppn ← PTE.get_ppn pte2;
            level1_table ← get_ptes_mut next_ppn;
            let i1 := parsed parsed_vpn 1 in
            pte1 ← pte_get level1_table i1;
            if PTE.is_leaf pte1 then mret (Err (DoubleMapping vpn ppn), self)
            else
              pte_set level1_table i1 leaf_pte;;
              mret (Ok tt, self)
      end
  end.

(** The three nested loops of [unmap].  The inner one returns [true] when it
    executes [return Ok(())]. *)
Fixpoint unmap_vpn0 (l : list Z) (table0 vpn2 vpn1 end_vpn : Z) : M S bool :=
  match l with
  | [] => mret false
  | vpn0 :: l =>
      let vpn := ((vpn2 .<< 18) ⊕ (vpn1 .<< 9)) ⊕ vpn0 in
      if end_vpn <=? vpn then mret true
      else
        pte_set table0 vpn0 0;;
        unmap_vpn0 l table0 vpn2 vpn1 end_vpn
  end.

(** Also returns [parsed_vpn[0]]. *)
Fixpoint unmap_vpn1 (l : list Z) (p0 table1 vpn2 end_vpn : Z) : M S (bool * Z) :=
  match l with
  | [] => mret (false, p0)
  | vpn1 :: l =>
      pte1 ← pte_get table1 vpn1;
      if negb (PTE.is_valid pte1) then unmap_vpn1 l 0 table1 vpn2 end_vpn
      else
        assert_or (negb (PTE.is_leaf pte1)) "Unmap large page is unexpected";;
        ppn0 ← PTE.get_ppn pte1;
        table0 ← get_ptes_mut ppn0;
        done ← unmap_vpn0 (range p0 PTES_PER_TABLE) table0 vpn2 vpn1 end_vpn;
        if (done : bool) then mret (true, p0)
        else unmap_vpn1 l 0 table1 vpn2 end_vpn
  end.

Fixpoint unmap_vpn2 (l : list Z) (p1 p0 table2 end_vpn : Z) : M S (result unit PgtError) :=
  match l with
  | [] => panic "Code should not reach here."
  | vpn2 :: l =>
      pte2 ← pte_get table2 vpn2;
      if negb (PTE.is_valid pte2) then unmap_vpn2 l 0 0 table2 end_vpn
      else
        assert_or (negb (PTE.is_leaf pte2)) "Unmap huge page is unexpected";;
        ppn1 ← PTE.get_ppn pte2;
        table1 ← get_ptes_mut ppn1;
        '(done, p0) ← unmap_vpn1 (range p1 PTES_PER_TABLE) p0 table1 vpn2 end_vpn;
        if (done : bool) then mret (Ok tt)
        else unmap_vpn2 l 0 p0 table2 end_vpn
  end.

Definition unmap (self : RootPgt) (start_vpn end_vpn : Z) : M S (result unit PgtError) :=
  if end_vpn <=? start_vpn then mret (Ok tt)
  else
    let parsed_vpn := parse_vpn start_vpn in
    table2 ← get_ptes_mut (rp_ppn self);
    unmap_vpn2 (range (parsed parsed_vpn 2) PTES_PER_TABLE)
      (parsed parsed_vpn 1) (parsed parsed_vpn 0) table2 end_vpn.
End ops.
End Pgt.

(** The lemmas of [Sv39Tree] rewrite these; they are not unfolded by [simpl]. *)
#[global] Arguments PTE.new _ _ : simpl never.
#[global] Arguments PTE.is_valid _ : simpl never.
#[global] Arguments PTE.is_leaf _ : simpl never.
#[global] Arguments PTE.get_ppn {S} _ : simpl never.
