(* ===== verification/Sv39Tree.v ===== *)
(** * Page-table trees

    The abstract view of the memory behind a root table: which pages are tables
    ([node_at]), what a virtual page number resolves to ([pgt_lookup]), and the
    lemmas that say how one PTE store changes both.  [Sv39Ops] uses them to specify
    the operations of [Sv39]. *)

From S2P Require Export Sv39.

(** ** PTEs as integers *)

Definition pte_ppn (e : Z) : Z := e / 1024 mod 2 ^ 44.

Lemma flag_mask_low e f m : 0 <= m < 1024 → (e * 1024 + f) .& m = f .& m.
Proof. intros Hm. change 1024 with (2 ^ 10) in *. by apply land_low_bits. Qed.

Lemma is_valid_mod e : PTE.is_valid e = (e mod 2 =? 1).
Proof.
  unfold PTE.is_valid. change PTE.FLAG_V with (2 ^ 1 - 1).
  rewrite (land_mask e 1) by done. change (2 ^ 1) with 2.
  destruct (Z.eqb_spec (e mod 2) 0), (Z.eqb_spec (e mod 2) 1); zlia.
Qed.

Lemma is_valid_zero : PTE.is_valid 0 = false.
Proof. done. Qed.

Lemma get_ppn_run {S} e (s : S) : PTE.get_ppn e s = Ret (pte_ppn e) s.
Proof.
  unfold PTE.get_ppn. rewrite (land_mask _ 44), ushr_div by done. fold (pte_ppn e).
  change (e / 2 ^ 10 mod 2 ^ 44) with (pte_ppn e).
  assert (0 <= pte_ppn e < 2 ^ 44) by (apply Z.mod_pos_bound; done).
  unfold PAGE_SIZE_ORDER. rewrite ushl_mul by (unfold USIZE_MODULUS; lia).
  rewrite from_pa_run by lia. f_equal. zlia.
Qed.

Lemma pte_ppn_range e : 0 <= pte_ppn e < 2 ^ 44.
Proof. by apply Z.mod_pos_bound. Qed.

(** The flags the code accepts *)
Lemma is_valid_flags_range f :
  is_usize f → PTE.is_valid_flags f = true → 0 <= f < 1024 ∧ PTE.is_valid f = true.
Proof.
  intros Hf. unfold PTE.is_valid_flags.
  destruct (PTE.has_unknown_flags_set f) eqn:E1; [done|].
  destruct (PTE.has_v_flag_clear f) eqn:E2; [done|]. intros _.
  unfold PTE.has_unknown_flags_set in E1. reflect_bools.
  change PTE.ALL_FLAGS with (2 ^ 10 - 1) in E1.
  rewrite (land_not_mask f 10) in E1 by (done || lia).
  unfold is_usize in Hf. split; [zlia|].
  unfold PTE.has_v_flag_clear in E2. unfold PTE.is_valid. by rewrite E2.
Qed.

Definition mk_pte (p f : Z) : Z := p * 1024 + f.

Lemma pte_new_ok p f :
  0 <= p < 2 ^ 44 → is_usize f → PTE.is_valid_flags f = true →
  PTE.new p f = Ok (mk_pte p f).
Proof.
  intros Hp Hf Hv. destruct (is_valid_flags_range f Hf Hv) as [Hr _].
  unfold PTE.new. rewrite Hv. simpl. unfold PPN.get_raw, ushl.
  rewrite wrap_small by (unfold is_usize, USIZE_MODULUS; rewrite Z.shiftl_mul_pow2 by done; lia).
  by rewrite lor_shiftl_add.
Qed.

Lemma pte_new_err p f : PTE.is_valid_flags f = false → PTE.new p f = Err (InvalidPteFlags f).
Proof. intros Hv. unfold PTE.new. by rewrite Hv. Qed.

Section mk_pte.
Context (p f : Z) (Hp : 0 <= p < 2 ^ 44) (Hf : 0 <= f < 1024).

Lemma mk_pte_usize : is_usize (mk_pte p f).
Proof using Hp Hf. unfold mk_pte, is_usize, USIZE_MODULUS. lia. Qed.
Lemma mk_pte_ppn : pte_ppn (mk_pte p f) = p.
Proof using Hp Hf. unfold mk_pte, pte_ppn. zlia. Qed.
Lemma mk_pte_valid : PTE.is_valid (mk_pte p f) = PTE.is_valid f.
Proof using. clear. unfold PTE.is_valid, mk_pte. by rewrite flag_mask_low by done. Qed.
Lemma mk_pte_leaf : PTE.is_leaf (mk_pte p f) = PTE.is_leaf f.
Proof using.
  clear. unfold PTE.is_leaf, PTE.is_valid, mk_pte. by rewrite !flag_mask_low by done.
Qed.
End mk_pte.

(** The pointer PTE [map_create] writes for a new table *)
Definition table_pte (p : Z) : Z := mk_pte p 1.

Lemma pte_new_table p : 0 <= p < 2 ^ 44 → PTE.new p PTE.FLAG_V = Ok (table_pte p).
Proof. intros Hp. by apply pte_new_ok. Qed.
Lemma table_pte_valid p : PTE.is_valid (table_pte p) = true.
Proof. unfold table_pte. by rewrite mk_pte_valid. Qed.
Lemma table_pte_not_leaf p : PTE.is_leaf (table_pte p) = false.
Proof. unfold table_pte. by rewrite mk_pte_leaf. Qed.

(** ** Entries in memory *)

Definition pte_addr (t i : Z) : Z := page_start t + 8 * i.
Definition pte (m : mem) (t i : Z) : Z := read_u64 m (pte_addr t i).
Definition pte_write (m : mem) (t i v : Z) : mem := write_u64 m (pte_addr t i) v.

(** An index into a table *)
Definition idx_ok (i : Z) : Prop := 0 <= i < 512.

Lemma pte_usize m t i : is_usize (pte m t i).
Proof. apply read_u64_range. Qed.
#[export] Hint Resolve pte_usize mk_pte_usize : kernel.

Lemma pte_write_same m t i v : is_usize v → pte (pte_write m t i v) t i = v.
Proof. apply read_write_u64_same. Qed.

Lemma pte_write_ne m t i t' i' v :
  idx_ok i → idx_ok i' → (t, i) ≠ (t', i') → pte (pte_write m t i v) t' i' = pte m t' i'.
Proof.
  intros Hi Hi' Hne. apply read_write_u64_ne. unfold pte_addr, page_start, idx_ok in *.
  destruct (decide (t = t')) as [->|]; [|lia].
  assert (i ≠ i') by congruence. lia.
Qed.

Lemma pte_write_case m t i t' i' v :
  is_usize v → idx_ok i → idx_ok i' →
  pte (pte_write m t i v) t' i' = if decide ((t, i) = (t', i')) then v else pte m t' i'.
Proof.
  intros. case_decide as E; [injection E as -> ->; by apply pte_write_same|].
  by apply pte_write_ne.
Qed.

Lemma pte_same_outside p m m' t i :
  same_outside_page p m m' → t ≠ p → idx_ok i → pte m' t i = pte m t i.
Proof.
  intros Hout Hne Hi. eapply same_outside_read_u64; [exact Hout|].
  unfold pte_addr, page_start, page_end, idx_ok in *. lia.
Qed.

Lemma pte_zero_page m p i : page_zero m p → idx_ok i → pte m p i = 0.
Proof.
  intros Hz Hi. apply read_u64_zero. intros b Hb. apply Hz.
  unfold pte_addr, page_start, page_end, idx_ok in *. lia.
Qed.

(** A store in a table leaves every other page alone. *)
Lemma pte_write_frame m t i v :
  idx_ok i → same_outside_page t m (pte_write m t i v).
Proof.
  intros Hi a Ha. apply write_u64_other.
  unfold pte_addr, page_start, page_end, idx_ok in *. lia.
Qed.

(** ** Paths *)

(** The table an interior entry points to, as the code tells them from leaves *)
Definition child (e : Z) : option Z :=
  if PTE.is_valid e && negb (PTE.is_leaf e) then Some (pte_ppn e) else None.

(** The table reached from [t] along a list of indices *)
Fixpoint node_at (m : mem) (t : Z) (q : list Z) : option Z :=
  match q with
  | [] => Some t
  | i :: q =>
      match child (pte m t i) with
      | Some t' => node_at m t' q
      | None => None
      end
  end.

(** What a full path resolves to: the level and the valid leaf entry *)
Fixpoint lookup_at (m : mem) (t : Z) (q : list Z) : option (nat * Z) :=
  match q with
  | [] => None
  | i :: q =>
      let e := pte m t i in
      if negb (PTE.is_valid e) then None
      else
        match q with
        | [] => Some (O, e)
        | _ :: _ =>
            if PTE.is_leaf e then Some (length q, e)
            else lookup_at m (pte_ppn e) q
        end
  end.

Definition path_ok (q : list Z) : Prop := Forall idx_ok q ∧ (length q <= 2)%nat.

Lemma node_at_app m t q1 q2 :
  node_at m t (q1 ++ q2) =
    match node_at m t q1 with Some t' => node_at m t' q2 | None => None end.
Proof.
  revert t. induction q1 as [|i q1 IH]; intros t; simpl; [done|].
  by destruct (child (pte m t i)).
Qed.

Lemma path_ok_nil : path_ok [].
Proof. split; [constructor|simpl; lia]. Qed.
Lemma path_ok_prefix q1 q2 : path_ok (q1 ++ q2) → path_ok q1.
Proof.
  intros [Hf Hl]. apply Forall_app in Hf as [? _]. rewrite length_app in Hl.
  split; [done|lia].
Qed.
Lemma path_ok_idx q1 i q2 : path_ok (q1 ++ i :: q2) → idx_ok i.
Proof. intros [Hf _]. apply Forall_app in Hf as [_ Hf]. by inversion Hf. Qed.
#[export] Hint Resolve path_ok_nil : kernel.

(** Two memories that agree on the entries a path reads resolve it alike. *)
Lemma node_at_agree m m' t q :
  (∀ q0 i q1 t', q = q0 ++ i :: q1 → node_at m t q0 = Some t' → pte m' t' i = pte m t' i) →
  node_at m' t q = node_at m t q.
Proof.
  revert t. induction q as [|i q IH]; intros t H; simpl; [done|].
  rewrite (H [] i q t eq_refl eq_refl).
  destruct (child (pte m t i)) as [t'|] eqn:E; [|done].
  apply IH. intros q0 j q1 t2 -> Hn. apply (H (i :: q0) j q1 t2); [done|].
  simpl. by rewrite E.
Qed.

Lemma lookup_at_agree m m' t q :
  (∀ q0 i q1 t', q = q0 ++ i :: q1 → node_at m t q0 = Some t' → pte m' t' i = pte m t' i) →
  lookup_at m' t q = lookup_at m t q.
Proof.
  revert t. induction q as [|i q IH]; intros t H; simpl; [done|].
  rewrite (H [] i q t eq_refl eq_refl).
  destruct (PTE.is_valid (pte m t i)) eqn:Ev; simpl; [|done].
  destruct q as [|j q]; [done|].
  destruct (PTE.is_leaf (pte m t i)) eqn:El; [done|].
  apply IH. intros q0 j' q1 t2 E Hn. apply (H (i :: q0) j' q1 t2); [by rewrite E|].
  simpl. unfold child. by rewrite Ev, El.
Qed.

(** A path goes on from the table its prefix reaches. *)
Lemma lookup_at_app m t q1 q2 t' :
  node_at m t q1 = Some t' → q2 ≠ [] → lookup_at m t (q1 ++ q2) = lookup_at m t' q2.
Proof.
  revert t. induction q1 as [|i q1 IH]; intros t Hn Hne; simpl in *; [congruence|].
  unfold child in Hn. destruct (PTE.is_valid (pte m t i)) eqn:Ev; [|done]. simpl in *.
  destruct (PTE.is_leaf (pte m t i)) eqn:El; [done|]. simpl in *.
  specialize (IH _ Hn Hne). destruct (q1 ++ q2) eqn:E; [by destruct q1, q2|done].
Qed.

(** ** Well-formed tables *)

(** Tables are distinct pages of memory the direct map covers, and an interior
    entry that is not a leaf is a pure pointer, so that the code and the hardware
    agree on which entries are leaves. *)
Record pgt_wf (m : mem) (root : Z) : Prop := {
  wf_ram q t : path_ok q → node_at m root q = Some t → 0 <= t < 2 ^ 26;
  wf_inj q1 q2 t : path_ok q1 → path_ok q2 →
    node_at m root q1 = Some t → node_at m root q2 = Some t → q1 = q2;
  wf_pointer q t i : path_ok (q ++ [i]) → node_at m root q = Some t →
    PTE.is_valid (pte m t i) = true → PTE.is_leaf (pte m t i) = false →
    pte m t i .& PTE.FLAG_R = 0;
}.

(** [p] is none of the tables below [root]. *)
Definition not_table (m : mem) (root p : Z) : Prop :=
  ∀ q, path_ok q → node_at m root q ≠ Some p.

Lemma wf_root_ram m root : pgt_wf m root → 0 <= root < 2 ^ 26.
Proof. intros Hwf. by apply (wf_ram _ _ Hwf [] root path_ok_nil). Qed.

(** Two memories that agree on the tables of one of them have the same tree. *)
Lemma node_at_same_tables m m' root q :
  (∀ q t i, path_ok q → node_at m root q = Some t → idx_ok i → pte m' t i = pte m t i) →
  path_ok q → node_at m' root q = node_at m root q.
Proof.
  intros H Hq. apply node_at_agree. intros q0 i q1 t' -> Hn.
  apply (H q0); [by eapply path_ok_prefix|done|by eapply path_ok_idx].
Qed.

Lemma lookup_at_same_tables m m' root q :
  (∀ q t i, path_ok q → node_at m root q = Some t → idx_ok i → pte m' t i = pte m t i) →
  Forall idx_ok q → (length q <= 3)%nat → lookup_at m' root q = lookup_at m root q.
Proof.
  intros H Hf Hl. apply lookup_at_agree. intros q0 i q1 t' -> Hn.
  apply Forall_app in Hf as [Hf0 Hf1]. rewrite length_app in Hl. simpl in Hl.
  apply (H q0); [split; [done|lia]|done|by inversion Hf1].
Qed.

Lemma pgt_wf_same_tables m m' root :
  (∀ q t i, path_ok q → node_at m root q = Some t → idx_ok i → pte m' t i = pte m t i) →
  pgt_wf m root → pgt_wf m' root.
Proof.
  intros H [Hram Hinj Hptr].
  assert (∀ q, path_ok q → node_at m' root q = node_at m root q) as E
    by (intros; by apply node_at_same_tables).
  split.
  - intros q t Hq. rewrite E by done. by apply Hram.
  - intros q1 q2 t H1 H2. rewrite !E by done. by apply Hinj.
  - intros q t i Hq. rewrite E by (by eapply path_ok_prefix). intros Hn.
    rewrite (H q t i) by (done || by eapply path_ok_prefix || by eapply path_ok_idx).
    by apply (Hptr q).
Qed.

(** Writing a page that is no table changes nothing. *)
Lemma same_tables_outside m m' root p :
  same_outside_page p m m' → not_table m root p →
  ∀ q t i, path_ok q → node_at m root q = Some t → idx_ok i → pte m' t i = pte m t i.
Proof.
  intros Hout Hp q t i Hq Hn Hi. apply (pte_same_outside p); [done| |done].
  intros ->. by apply (Hp q).
Qed.

(** An empty table *)
Lemma pgt_wf_zero m root : 0 <= root < 2 ^ 26 → page_zero m root → pgt_wf m root.
Proof.
  intros Hr Hz.
  assert (∀ q t, path_ok q → node_at m root q = Some t → q = [] ∧ t = root) as H.
  { intros [|i q] t Hq; simpl; [by intros [= <-]|].
    rewrite (pte_zero_page m root i Hz) by (by eapply (path_ok_idx [])). done. }
  split.
  - intros q t Hq Hn. destruct (H q t Hq Hn) as [_ ->]. done.
  - intros q1 q2 t H1 H2 Hn1 Hn2.
    destruct (H _ _ H1 Hn1) as [-> _]. by destruct (H _ _ H2 Hn2) as [-> _].
  - intros q t i Hq Hn. destruct (H q t (path_ok_prefix _ _ Hq) Hn) as [-> ->].
    rewrite (pte_zero_page m root i Hz) by (by eapply (path_ok_idx [])). done.
Qed.
