(* ===== verification/Sv39Edit.v ===== *)
(** * One PTE store: what it does to a page-table tree

    The kinds of stores [sv39.rs] makes - linking a fresh table, writing a page leaf,
    writing a large-page leaf where no table is or over a table, clearing a page leaf -
    and their effect on
    the tables ([node_at]) and on the mappings ([lookup_at]). *)

From S2P Require Export Sv39Tree.

(** A full path: the three indices of a virtual page number *)
Definition full_path (q : list Z) : Prop := Forall idx_ok q ∧ length q = 3%nat.

(** Page [p] holds the same bytes. *)
Definition page_same (p : Z) (m m' : mem) : Prop :=
  ∀ a, page_start p <= a < page_end p → read_u8 m' a = read_u8 m a.

Lemma page_same_refl p m : page_same p m m.
Proof. done. Qed.
Lemma page_same_trans p m1 m2 m3 : page_same p m1 m2 → page_same p m2 m3 → page_same p m1 m3.
Proof. intros H1 H2 a Ha. by rewrite H2, H1. Qed.
#[export] Hint Resolve page_same_refl : kernel.

Lemma page_same_outside p p' m m' : same_outside_page p m m' → p' ≠ p → page_same p' m m'.
Proof. intros H Hne a Ha. apply H. unfold page_start, page_end in *. lia. Qed.

Lemma page_same_pte p m m' i : page_same p m m' → idx_ok i → pte m' p i = pte m p i.
Proof.
  intros H Hi. apply read_u64_ext. intros b Hb. apply H.
  unfold pte_addr, page_start, page_end, idx_ok in *. lia.
Qed.

Lemma page_same_zero p m m' : page_same p m m' → page_zero m p → page_zero m' p.
Proof. intros H Hz a Ha. rewrite H by done. by apply Hz. Qed.

Lemma page_same_write m t i e p : idx_ok i → p ≠ t → page_same p m (pte_write m t i e).
Proof. intros. eapply page_same_outside; [by apply pte_write_frame|done]. Qed.

(** A zeroed table has no children and no mappings. *)
Lemma node_at_zero m p i q : page_zero m p → idx_ok i → node_at m p (i :: q) = None.
Proof. intros Hz Hi. simpl. by rewrite pte_zero_page. Qed.
Lemma lookup_at_zero m p q : page_zero m p → Forall idx_ok q → lookup_at m p q = None.
Proof.
  intros Hz Hq. destruct q as [|i q]; [done|]. simpl.
  rewrite pte_zero_page; [done|done|]. by inversion Hq.
Qed.

Lemma child_Some e t : child e = Some t → PTE.is_valid e = true ∧ PTE.is_leaf e = false.
Proof. unfold child. destruct (PTE.is_valid e), (PTE.is_leaf e); naive_solver. Qed.
Lemma child_invalid e : PTE.is_valid e = false → child e = None.
Proof. unfold child. by intros ->. Qed.
Lemma child_leaf e : PTE.is_leaf e = true → child e = None.
Proof. unfold child. intros ->. by destruct (PTE.is_valid e). Qed.
Lemma child_table p : 0 <= p < 2 ^ 44 → child (table_pte p) = Some p.
Proof.
  intros Hp. unfold child. rewrite table_pte_valid, table_pte_not_leaf. simpl.
  unfold table_pte. by rewrite mk_pte_ppn.
Qed.
Lemma leaf_valid e : PTE.is_leaf e = true → PTE.is_valid e = true.
Proof. unfold PTE.is_leaf. by destruct (PTE.is_valid e). Qed.

(** ** One store *)
Section store.
Context (m : mem) (root : Z) (Hwf : pgt_wf m root).
(** the slot: index [k] of the table [t] at path [π] *)
Context (π : list Z) (k t e : Z).
Context (Hπ : path_ok π) (Hk : idx_ok k) (Ht : node_at m root π = Some t).
Context (He : is_usize e).
Let m' := pte_write m t k e.

Lemma store_slot : pte m' t k = e.
Proof using He. by apply pte_write_same. Qed.

(** A path that does not go through the slot reads the same entries. *)
Lemma store_off_path q :
  Forall idx_ok q → (length q <= 3)%nat → ¬ (π ++ [k]) `prefix_of` q →
  ∀ q0 i q1 t', q = q0 ++ i :: q1 → node_at m root q0 = Some t' →
  pte m' t' i = pte m t' i.
Proof using Hwf Hπ Hk Ht.
  intros Hf Hl Hnp q0 i q1 t' -> Hn. rewrite length_app in Hl. simpl in Hl.
  apply Forall_app in Hf as [Hf0 Hf1]. apply Forall_cons in Hf1 as [Hi _].
  apply pte_write_ne; [done..|]. intros [= <- <-]. apply Hnp.
  assert (q0 = π) as -> by (apply (wf_inj _ _ Hwf _ _ t); [split; [done|lia]|done..]).
  exists q1. by rewrite <- app_assoc.
Qed.

Lemma store_node_other q :
  path_ok q → ¬ (π ++ [k]) `prefix_of` q → node_at m' root q = node_at m root q.
Proof using Hwf Hπ Hk Ht.
  intros [Hf Hl] Hnp. apply node_at_agree. apply store_off_path; [done|lia|done].
Qed.

Lemma store_lookup_other q :
  full_path q → ¬ (π ++ [k]) `prefix_of` q → lookup_at m' root q = lookup_at m root q.
Proof using Hwf Hπ Hk Ht.
  intros [Hf Hl] Hnp. apply lookup_at_agree. apply store_off_path; [done|lia|done].
Qed.

Lemma store_node_self : node_at m' root π = Some t.
Proof using Hwf Hπ Hk Ht.
  rewrite store_node_other; [done..|]. intros [q Hq].
  apply (f_equal length) in Hq. rewrite !length_app in Hq. simpl in Hq. lia.
Qed.

Lemma store_node_through q :
  node_at m' root (π ++ k :: q) =
    match child e with Some t' => node_at m' t' q | None => None end.
Proof using Hwf Hπ Hk Ht He.
  rewrite node_at_app, store_node_self. simpl.
  by rewrite store_slot.
Qed.

Lemma store_lookup_through q :
  lookup_at m' root (π ++ k :: q) =
    if negb (PTE.is_valid e) then None
    else match q with
         | [] => Some (O, e)
         | _ :: _ => if PTE.is_leaf e then Some (length q, e) else lookup_at m' (pte_ppn e) q
         end.
Proof using Hwf Hπ Hk Ht He.
  rewrite (lookup_at_app _ _ π (k :: q) t store_node_self) by done. simpl.
  by rewrite store_slot.
Qed.

(** The same slot before the store *)
Lemma slot_node_through q :
  node_at m root (π ++ k :: q) =
    match child (pte m t k) with Some t' => node_at m t' q | None => None end.
Proof using Ht. rewrite node_at_app, Ht. done. Qed.

(** *** A leaf in a last-level table, valid or cleared *)
Section page_leaf.
Context (Hlen : length π = 2%nat).

Lemma page_leaf_node q : path_ok q → node_at m' root q = node_at m root q.
Proof using Hwf Hπ Hk Ht Hlen.
  intros Hq. apply store_node_other; [done|]. intros [q' ->].
  destruct Hq as [_ Hl]. rewrite !length_app in Hl. simpl in Hl. lia.
Qed.

Lemma page_leaf_wf : pgt_wf m' root.
Proof using Hwf Hπ Hk Ht Hlen.
  split.
  - intros q u Hq. rewrite page_leaf_node by done. by apply (wf_ram _ _ Hwf).
  - intros q1 q2 u H1 H2. rewrite !page_leaf_node by done. by apply (wf_inj _ _ Hwf).
  - intros q u i Hq. rewrite page_leaf_node by (by eapply path_ok_prefix). intros Hn.
    assert (u ≠ t) as Hne.
    { intros ->. assert (q = π) as ->
        by (apply (wf_inj _ _ Hwf _ _ t); [by eapply path_ok_prefix|done..]).
      destruct Hq as [_ Hl]. rewrite length_app in Hl. simpl in Hl. lia. }
    unfold m'. rewrite pte_write_ne by (congruence || by eapply path_ok_idx || done).
    by apply (wf_pointer _ _ Hwf q).
Qed.

Lemma page_leaf_lookup q :
  full_path q →
  lookup_at m' root q =
    if decide (q = π ++ [k]) then if PTE.is_valid e then Some (O, e) else None
    else lookup_at m root q.
Proof using Hwf Hπ Hk Ht He Hlen.
  intros Hq. case_decide as E.
  - subst q. rewrite store_lookup_through. by destruct (PTE.is_valid e).
  - apply store_lookup_other; [done|]. intros [q' ->]. apply E.
    destruct Hq as [_ Hl]. rewrite !length_app in Hl. simpl in Hl.
    destruct q'; [by rewrite app_nil_r|simpl in Hl; lia].
Qed.
End page_leaf.

(** *** A fresh, zeroed table in an empty slot *)
Section link.
Context (p : Z) (Hp : 0 <= p < 2 ^ 26) (Hep : e = table_pte p).
Context (Hlen : (length π <= 1)%nat) (Hslot : PTE.is_valid (pte m t k) = false).
Context (Hz : page_zero m p) (Hfresh : not_table m root p).

Lemma link_page_zero : page_zero m' p.
Proof using Hπ Hk Ht Hz Hfresh.
  eapply page_same_zero; [|exact Hz]. apply page_same_write; [done|].
  intros E. apply (Hfresh π Hπ). by rewrite E.
Qed.

Lemma link_node_through q :
  Forall idx_ok q → node_at m' root (π ++ k :: q) = match q with [] => Some p | _ => None end.
Proof using Hwf Hπ Hk Ht He Hp Hep Hz Hfresh Hslot Hlen.
  intros Hf. rewrite store_node_through, Hep, child_table by lia.
  destruct q as [|i q]; [done|]. apply node_at_zero; [apply link_page_zero|].
  by inversion Hf.
Qed.

Lemma link_node q :
  path_ok q →
  node_at m' root q = if decide (q = π ++ [k]) then Some p else node_at m root q.
Proof using Hwf Hπ Hk Ht He Hp Hep Hz Hfresh Hslot Hlen.
  intros Hq. case_decide as E.
  - subst q. by rewrite link_node_through.
  - destruct (decide ((π ++ [k]) `prefix_of` q)) as [[q' ->]|Hnp].
    + rewrite <- app_assoc in *. simpl in *. rewrite slot_node_through, link_node_through.
      * rewrite child_invalid by done. by destruct q'.
      * destruct Hq as [Hf _]. rewrite Forall_app, Forall_cons in Hf. tauto.
    + by apply store_node_other.
Qed.

Lemma link_wf : pgt_wf m' root.
Proof using Hwf Hπ Hk Ht He Hp Hep Hz Hfresh Hslot Hlen.
  split.
  - intros q u Hq. rewrite link_node by done. case_decide; [by intros [= <-]|].
    by apply (wf_ram _ _ Hwf).
  - intros q1 q2 u H1 H2. rewrite !link_node by done.
    repeat case_decide; subst; intros E1 E2; simplify_eq; [done|..].
    + by destruct (Hfresh q2).
    + by destruct (Hfresh q1).
    + by apply (wf_inj _ _ Hwf q1 q2 u).
  - intros q u i Hq. rewrite link_node by (by eapply path_ok_prefix).
    case_decide as E; intros Hn; [injection Hn as <-|].
    + rewrite (pte_zero_page _ _ _ link_page_zero) by (by eapply path_ok_idx). done.
    + unfold m'. rewrite pte_write_case by (done || by eapply path_ok_idx).
      case_decide as E'; [|by apply (wf_pointer _ _ Hwf q)].
      intros _ _. rewrite Hep. unfold table_pte, mk_pte. by apply flag_mask_low.
Qed.

Lemma link_lookup q : full_path q → lookup_at m' root q = lookup_at m root q.
Proof using Hwf Hπ Hk Ht He Hp Hep Hz Hfresh Hslot Hlen.
  intros Hq. destruct (decide ((π ++ [k]) `prefix_of` q)) as [[q' ->]|Hnp];
    [|by apply store_lookup_other].
  rewrite <- app_assoc in *. simpl in *. destruct Hq as [Hf Hl].
  rewrite length_app in Hl. simpl in Hl.
  rewrite Forall_app, Forall_cons in Hf. destruct Hf as (_ & _ & Hf).
  rewrite store_lookup_through.
  rewrite (lookup_at_app m root π (k :: q') t Ht) by done. simpl. rewrite Hslot. simpl.
  rewrite Hep, table_pte_valid. simpl. destruct q' as [|i q']; [simpl in Hl; lia|].
  rewrite table_pte_not_leaf. unfold table_pte. rewrite mk_pte_ppn by lia.
  by rewrite lookup_at_zero by (apply link_page_zero || done).
Qed.
End link.

(** *** A large-page leaf in a second-level table, over an entry that is no table *)
Section large_leaf.
Context (Hlen : length π = 1%nat) (Hleaf : PTE.is_leaf e = true).
Context (Hslot : child (pte m t k) = None).

Lemma large_leaf_node q : path_ok q → node_at m' root q = node_at m root q.
Proof using Hwf Hπ Hk Ht He Hleaf Hslot.
  intros Hq. destruct (decide ((π ++ [k]) `prefix_of` q)) as [[q' ->]|Hnp];
    [|by apply store_node_other].
  rewrite <- app_assoc. simpl. rewrite store_node_through, slot_node_through, Hslot.
  by rewrite child_leaf.
Qed.

Lemma large_leaf_wf : pgt_wf m' root.
Proof using Hwf Hπ Hk Ht He Hleaf Hslot.
  split.
  - intros q u Hq. rewrite large_leaf_node by done. by apply (wf_ram _ _ Hwf).
  - intros q1 q2 u H1 H2. rewrite !large_leaf_node by done. by apply (wf_inj _ _ Hwf).
  - intros q u i Hq. rewrite large_leaf_node by (by eapply path_ok_prefix). intros Hn.
    unfold m'. rewrite pte_write_case by (done || by eapply path_ok_idx).
    case_decide; [congruence|]. by apply (wf_pointer _ _ Hwf q).
Qed.

Lemma large_leaf_lookup q :
  full_path q →
  lookup_at m' root q =
    if decide ((π ++ [k]) `prefix_of` q) then Some (1%nat, e) else lookup_at m root q.
Proof using Hwf Hπ Hk Ht He Hleaf Hlen.
  intros Hq. case_decide as E; [|by apply store_lookup_other].
  destruct E as [q' ->]. destruct Hq as [_ Hl]. rewrite <- app_assoc in *. simpl in *.
  rewrite length_app in Hl. simpl in Hl.
  rewrite store_lookup_through, leaf_valid by done. simpl. rewrite Hleaf.
  destruct q' as [|i [|]]; simpl in *; [lia|done|lia].
Qed.
End large_leaf.

(** *** A leaf over any entry: a table below the slot drops out of the tree *)
Section leaf_over.
Context (Hleaf : PTE.is_leaf e = true).

Lemma leaf_over_node q :
  path_ok q →
  node_at m' root q =
    if decide ((π ++ [k]) `prefix_of` q) then None else node_at m root q.
Proof using Hwf Hπ Hk Ht He Hleaf.
  intros Hq. case_decide as E; [|by apply store_node_other].
  destruct E as [q' ->]. rewrite <- app_assoc. simpl.
  by rewrite store_node_through, child_leaf.
Qed.

Lemma leaf_over_sub q u :
  path_ok q → node_at m' root q = Some u → node_at m root q = Some u.
Proof using Hwf Hπ Hk Ht He Hleaf. intros Hq. rewrite leaf_over_node by done. by case_decide. Qed.

Lemma leaf_over_wf : pgt_wf m' root.
Proof using Hwf Hπ Hk Ht He Hleaf.
  split.
  - intros q u Hq Hn%leaf_over_sub; [|done]. by apply (wf_ram _ _ Hwf q).
  - intros q1 q2 u H1 H2 Hn1%leaf_over_sub Hn2%leaf_over_sub; [|done..].
    by apply (wf_inj _ _ Hwf q1 q2 u).
  - intros q u i Hq Hn%leaf_over_sub; [|by eapply path_ok_prefix].
    unfold m'. rewrite pte_write_case by (done || by eapply path_ok_idx).
    case_decide; [congruence|]. by apply (wf_pointer _ _ Hwf q).
Qed.
End leaf_over.
End store.
