(* ===== verification/Sv39Ops.v ===== *)
(** * Specifications of the page-table operations

    What [RootPgt::map_create], [map_create_large] and the constructors do to the
    tree of tables and to the mapping of every virtual page, whatever the page
    source.  [Sv39Unmap] does the same for [unmap]. *)

From S2P Require Export Sv39Edit.

(** ** Virtual page numbers *)

Definition vpn_path (vpn : Z) : list Z :=
  [vpn / 2 ^ 18 mod 512; vpn / 2 ^ 9 mod 512; vpn mod 512].

(** What a page table maps a virtual page to: the level and the leaf entry *)
Definition pgt_lookup (m : mem) (root vpn : Z) : option (nat * Z) :=
  lookup_at m root (vpn_path vpn).

Lemma vpn_path_full vpn : full_path (vpn_path vpn).
Proof.
  split; [|done]. repeat constructor; unfold idx_ok; apply Z.mod_pos_bound; done.
Qed.
#[export] Hint Resolve vpn_path_full : kernel.

Lemma vpn_path_inj v1 v2 :
  vpn_path v1 = vpn_path v2 → v1 mod 2 ^ 27 = v2 mod 2 ^ 27.
Proof. unfold vpn_path. intros [= H1 H2 H3]. zlia. Qed.

Lemma parse_vpn_eq vpn :
  0 <= vpn < 2 ^ 52 →
  parse_vpn vpn = [vpn mod 512; vpn / 2 ^ 9 mod 512; vpn / 2 ^ 18 mod 512].
Proof.
  intros Hv. unfold parse_vpn. rewrite get_va_eq by lia.
  rewrite !(land_mask _ 9), !ushr_div by done.
  assert (∀ n, 12 <= n → vpn * 4096 / 2 ^ n = vpn / 2 ^ (n - 12)) as E.
  { intros n Hn. change 4096 with (2 ^ 12).
    replace n with (12 + (n - 12)) at 1 by lia.
    rewrite Z.pow_add_r, (Z.mul_comm (2 ^ 12)), Z.div_mul_cancel_r; lia. }
  rewrite !E by lia. simpl. by rewrite Z.div_1_r.
Qed.

(** ** Accesses to a table *)

(** The address of table [t] in the direct map *)
Definition table_va (t : Z) : Z := page_start t + KERNEL_VA_OFFSET.

Lemma get_ptes_mut_run {S} t (s : S) :
  0 <= t < 2 ^ 26 → Pgt.get_ptes_mut t s = Ret (table_va t) s.
Proof.
  intros Ht. unfold Pgt.get_ptes_mut, get_pa_mut_ptr. rewrite get_pa_eq by lia.
  unfold mbind, M_bind. rewrite get_va_from_pa_run by (unfold KERNEL_VA_OFFSET, USIZE_MODULUS; lia).
  fold (page_start t). fold (table_va t).
  destruct (Z.eqb_spec (table_va t) 0) as [E|]; [|done].
  unfold table_va, page_start, KERNEL_VA_OFFSET in E. lia.
Qed.

Section access.
Context {S : Type} `{PageSourceLaws S}.
Implicit Types s : S.

Lemma pte_get_run t i s : Pgt.pte_get (table_va t) i s = Ret (pte (mem_of s) t i) s.
Proof.
  unfold Pgt.pte_get, load_u64, gets, table_va, pte, pte_addr. do 2 f_equal. lia.
Qed.

Lemma pte_set_run t i v s :
  Pgt.pte_set (table_va t) i v s = Ret tt (upd_mem (λ m, pte_write m t i v) s).
Proof.
  unfold Pgt.pte_set, store_u64, modify, table_va, pte_write, pte_addr.
  by replace (page_start t + KERNEL_VA_OFFSET + 8 * i - KERNEL_VA_OFFSET)
    with (page_start t + 8 * i) by lia.
Qed.

Lemma wp_get_ptes_mut t (Q : Z → S → Prop) s :
  0 <= t < 2 ^ 26 → Q (table_va t) s → wp (Pgt.get_ptes_mut t) Q s.
Proof. intros Ht HQ. unfold wp. by rewrite get_ptes_mut_run. Qed.
Lemma wp_pte_get t i (Q : Z → S → Prop) s :
  Q (pte (mem_of s) t i) s → wp (Pgt.pte_get (table_va t) i) Q s.
Proof. unfold wp. by rewrite pte_get_run. Qed.
Lemma wp_pte_set t i v (Q : unit → S → Prop) s :
  Q tt (upd_mem (λ m, pte_write m t i v) s) → wp (Pgt.pte_set (table_va t) i v) Q s.
Proof. unfold wp. by rewrite pte_set_run. Qed.
Lemma wp_get_ppn e (Q : Z → S → Prop) s : Q (pte_ppn e) s → wp (PTE.get_ppn e) Q s.
Proof. unfold wp. by rewrite get_ppn_run. Qed.

(** ** Growing a tree *)

(** No free page is a table. *)
Definition pgt_fresh (s : S) (root : Z) : Prop :=
  ∀ p, ps_free s p → not_table (mem_of s) root p.

(** What every step of [map_create] keeps: tables are only added, from free pages
    ([new]), and no page changes but those and the tables in [W]. *)
Record pgt_step (root : Z) (W : Z → Prop) (new : list Z) (s s' : S) : Prop := {
  step_ok : ps_ok s';
  step_wf : pgt_wf (mem_of s') root;
  step_fresh : pgt_fresh s' root;
  step_nodup : NoDup new;
  step_new p : p ∈ new → ps_free s p;
  step_free p : ps_free s' p ↔ ps_free s p ∧ p ∉ new;
  step_node q t : path_ok q →
    node_at (mem_of s) root q = Some t → node_at (mem_of s') root q = Some t;
  step_node_inv q t : path_ok q →
    node_at (mem_of s') root q = Some t → node_at (mem_of s) root q = Some t ∨ t ∈ new;
  step_frame p : p ∉ new → ¬ W p → page_same p (mem_of s) (mem_of s');
}.

Lemma pgt_step_refl root W s :
  ps_ok s → pgt_wf (mem_of s) root → pgt_fresh s root → pgt_step root W [] s s.
Proof. split; [done..|constructor|set_solver|set_solver|eauto|eauto|done]. Qed.

Lemma pgt_step_trans root W new1 new2 s1 s2 s3 :
  pgt_step root W new1 s1 s2 →
  pgt_step root (λ p, W p ∨ p ∈ new1) new2 s2 s3 →
  pgt_step root W (new1 ++ new2) s1 s3.
Proof.
  intros [?? _ Hnd1 Hn1 Hf1 Ho1 Hi1 Hp1] [??? Hnd2 Hn2 Hf2 Ho2 Hi2 Hp2]. split; [done..| | | | | |].
  - apply NoDup_app. split_and!; [done| |done]. intros p Hp Hp2'.
    apply Hn2, Hf1 in Hp2'. tauto.
  - intros p [?|Hp]%elem_of_app; [by apply Hn1|]. apply Hn2, Hf1 in Hp. tauto.
  - intros p. rewrite Hf2, Hf1, elem_of_app. tauto.
  - eauto.
  - intros q t Hq Hn. rewrite elem_of_app. destruct (Hi2 q t Hq Hn); [|tauto].
    destruct (Hi1 q t Hq); tauto.
  - intros p Hp Hw. rewrite elem_of_app in Hp. eapply page_same_trans.
    + apply Hp1; tauto.
    + apply Hp2; tauto.
Qed.

Lemma pgt_step_weaken root (W W' : Z → Prop) new s s' :
  (∀ p, W p → W' p ∨ p ∈ new) → pgt_step root W new s s' → pgt_step root W' new s s'.
Proof.
  intros HW [???????? Hp]. split; [done..|]. intros p Hn Hw. apply Hp; [done|].
  intros ?. destruct (HW p); tauto.
Qed.

(** Writing a leaf in a last-level table *)
Lemma pgt_step_leaf root s π k t e :
  ps_ok s → pgt_wf (mem_of s) root → pgt_fresh s root →
  path_ok π → length π = 2%nat → idx_ok k → node_at (mem_of s) root π = Some t → is_usize e →
  pgt_step root (λ p, p = t) [] s (upd_mem (λ m, pte_write m t k e) s).
Proof.
  intros Hok Hwf Hfr Hπ Hl Hk Ht He.
  assert (∀ q, path_ok q →
    node_at (pte_write (mem_of s) t k e) root q = node_at (mem_of s) root q) as Hn
    by (intros; by apply (page_leaf_node _ _ Hwf π)).
  split; try rewrite mem_of_upd.
  - by apply ps_upd_ok.
  - by apply (page_leaf_wf _ _ Hwf π).
  - intros p. rewrite ps_upd_free, mem_of_upd. intros Hp q Hq. rewrite Hn by done. by apply Hfr.
  - constructor.
  - set_solver.
  - intros p. rewrite ps_upd_free. set_solver.
  - intros q u Hq. by rewrite Hn.
  - intros q u Hq. rewrite Hn by done. tauto.
  - intros p _ Hp. by apply page_same_write.
Qed.

(** Writing a free, zeroed page leaves the tree alone. *)
Lemma zeroed_page_same_tables root s p m' :
  pgt_fresh s root → ps_free s p → same_outside_page p (mem_of s) m' →
  ∀ q t i, path_ok q → node_at (mem_of s) root q = Some t → idx_ok i →
    pte m' t i = pte (mem_of s) t i.
Proof. intros Hfr Hp Hout. eapply same_tables_outside; [done|]. by apply Hfr. Qed.

(** Linking the page [alloc_zeroed_page] returned *)
Lemma pgt_step_link root s s1 π k t p :
  ps_ok s → pgt_wf (mem_of s) root → pgt_fresh s root →
  path_ok π → (length π <= 1)%nat → idx_ok k → node_at (mem_of s) root π = Some t →
  PTE.is_valid (pte (mem_of s) t k) = false →
  ps_free s p → ps_ok s1 → (∀ q, ps_free s1 q ↔ ps_free s q ∧ q ≠ p) →
  page_zero (mem_of s1) p → same_outside_page p (mem_of s) (mem_of s1) →
  let s2 := upd_mem (λ m, pte_write m t k (table_pte p)) s1 in
  pgt_step root (λ u, u = t) [p] s s2 ∧
  (∀ q, full_path q → lookup_at (mem_of s2) root q = lookup_at (mem_of s) root q) ∧
  ∀ q, path_ok q → q ≠ π ++ [k] → node_at (mem_of s2) root q = node_at (mem_of s) root q.
Proof.
  intros Hok Hwf Hfr Hπ Hl Hk Ht Hslot Hp Hok1 Hf1 Hz Hout s2.
  assert (0 <= p < 2 ^ 26) as Hpr by (by apply (ps_free_ram s)).
  pose proof (zeroed_page_same_tables _ _ _ _ Hfr Hp Hout) as Hsame.
  assert (∀ q, path_ok q → node_at (mem_of s1) root q = node_at (mem_of s) root q) as Hn1
    by (intros; by apply (node_at_same_tables _ _ _ _ Hsame)).
  assert (pgt_wf (mem_of s1) root) as Hwf1 by (by apply (pgt_wf_same_tables _ _ _ Hsame)).
  assert (not_table (mem_of s1) root p) as Hnt by (intros q Hq; rewrite Hn1 by done; by apply Hfr).
  assert (node_at (mem_of s1) root π = Some t) as Ht1 by (by rewrite Hn1).
  assert (PTE.is_valid (pte (mem_of s1) t k) = false) as Hslot1 by (by rewrite (Hsame π)).
  assert (is_usize (table_pte p)) as He by (apply mk_pte_usize; lia).
  assert (∀ q, path_ok q → node_at (mem_of s2) root q =
            if decide (q = π ++ [k]) then Some p else node_at (mem_of s) root q) as Hn2.
  { intros q Hq. unfold s2. rewrite mem_of_upd. rewrite <- Hn1 by done.
    by apply (link_node _ _ Hwf1 π k t _ Hπ Hk Ht1 He p Hpr eq_refl Hl Hslot1 Hz Hnt). }
  assert (path_ok (π ++ [k])) as Hπk.
  { destruct Hπ as [Hf _]. split; [|rewrite length_app; simpl; lia].
    apply Forall_app. split; [done|]. by constructor. }
  split_and!.
  - split.
    + by apply ps_upd_ok.
    + unfold s2. rewrite mem_of_upd.
      by apply (link_wf _ _ Hwf1 π k t _ Hπ Hk Ht1 He p Hpr eq_refl Hl Hslot1 Hz Hnt).
    + intros u. unfold s2 at 1. rewrite ps_upd_free, Hf1. intros [Hu Hne] q Hq.
      rewrite Hn2 by done. case_decide; [congruence|]. by apply Hfr.
    + apply NoDup_singleton.
    + by intros u ->%list_elem_of_singleton.
    + intros u. unfold s2. rewrite ps_upd_free, Hf1. set_solver.
    + intros q u Hq Hn. rewrite Hn2 by done. case_decide; [|done]. subst q.
      rewrite node_at_app, Ht in Hn. simpl in Hn. by rewrite child_invalid in Hn.
    + intros q u Hq. rewrite Hn2 by done. case_decide; [|tauto]. set_solver.
    + intros u Hu Hne. eapply page_same_trans.
      * eapply page_same_outside; [exact Hout|set_solver].
      * unfold s2. rewrite mem_of_upd. by apply page_same_write.
  - intros q Hq. unfold s2. rewrite mem_of_upd.
    rewrite (link_lookup _ _ Hwf1 π k t _ Hπ Hk Ht1 He p Hpr eq_refl Hl Hslot1 Hz Hnt) by done.
    destruct Hq as [Hf Hlq]. apply (lookup_at_same_tables _ _ _ _ Hsame); [done|lia].
  - intros q Hq Hne. rewrite Hn2 by done. by rewrite decide_False.
Qed.

(** A step that changes no mapping *)
Definition pgt_grow (root : Z) (W : Z → Prop) (new : list Z) (s s' : S) : Prop :=
  pgt_step root W new s s' ∧
  ∀ q, full_path q → lookup_at (mem_of s') root q = lookup_at (mem_of s) root q.

Lemma pgt_grow_refl root W s :
  ps_ok s → pgt_wf (mem_of s) root → pgt_fresh s root → pgt_grow root W [] s s.
Proof. split; [by apply pgt_step_refl|done]. Qed.

Lemma pgt_grow_trans root (W W2 : Z → Prop) new1 new2 s1 s2 s3 :
  pgt_grow root W new1 s1 s2 → pgt_grow root W2 new2 s2 s3 →
  (∀ p, W2 p → W p ∨ p ∈ new1) →
  pgt_grow root W (new1 ++ new2) s1 s3.
Proof.
  intros [Hs1 L1] [Hs2 L2] HW. split.
  - eapply pgt_step_trans; [exact Hs1|]. eapply pgt_step_weaken; [|exact Hs2].
    intros p Hp. destruct (HW p Hp); tauto.
  - intros q Hq. by rewrite L2, L1.
Qed.

(** Tables were added along the path [q0] only, and every new page is one of them. *)
Definition grew_along (root : Z) (q0 : list Z) (new : list Z) (s s' : S) : Prop :=
  (∀ q, path_ok q → ¬ q `prefix_of` q0 →
     node_at (mem_of s') root q = node_at (mem_of s) root q) ∧
  ∀ p, p ∈ new → ∃ q, q `prefix_of` q0 ∧ node_at (mem_of s') root q = Some p.

Lemma grew_along_nil root q0 s s' :
  (∀ q, path_ok q → node_at (mem_of s') root q = node_at (mem_of s) root q) →
  grew_along root q0 [] s s'.
Proof. split; [auto|set_solver]. Qed.

Lemma path_ok_prefix_of q q0 : path_ok q0 → q `prefix_of` q0 → path_ok q.
Proof. intros Hq [z ->]. by eapply path_ok_prefix. Qed.

Lemma grew_along_widen root q1 q2 new s s' :
  q1 `prefix_of` q2 → grew_along root q1 new s s' → grew_along root q2 new s s'.
Proof.
  intros Hpre [Hs Hn]. split.
  - intros q Hq Hnp. apply Hs; [done|]. intros ?. apply Hnp. by etrans.
  - intros p Hp. destruct (Hn p Hp) as (q & ? & ?). exists q. split; [by etrans|done].
Qed.

Lemma grew_along_longer root q0 new s s' q :
  grew_along root q0 new s s' → path_ok q → (length q0 < length q)%nat →
  node_at (mem_of s') root q = node_at (mem_of s) root q.
Proof. intros [Hs _] Hq Hl. apply Hs; [done|]. intros Hp%prefix_length. lia. Qed.

Lemma grew_along_same_nodes root q0 new s s1 s2 :
  path_ok q0 → grew_along root q0 new s s1 →
  (∀ q, path_ok q → node_at (mem_of s2) root q = node_at (mem_of s1) root q) →
  grew_along root q0 new s s2.
Proof.
  intros Hq0 [Hs Hn] Hsame. split.
  - intros q Hq Hnp. rewrite Hsame by done. by apply Hs.
  - intros p Hp. destruct (Hn p Hp) as (q & Hq & Ht). exists q. split; [done|].
    rewrite Hsame; [done|by eapply path_ok_prefix_of].
Qed.

Lemma grew_along_trans root W q1 q2 new1 new2 s1 s2 s3 :
  path_ok q2 → q1 `prefix_of` q2 → pgt_step root W new2 s2 s3 →
  grew_along root q1 new1 s1 s2 → grew_along root q2 new2 s2 s3 →
  grew_along root q2 (new1 ++ new2) s1 s3.
Proof.
  intros Hq2 Hpre Hst [Hs1 Hn1] [Hs2 Hn2]. split.
  - intros q Hq Hnp. rewrite Hs2 by done. apply Hs1; [done|]. intros ?. apply Hnp. by etrans.
  - intros p [Hp|Hp]%elem_of_app; [|by apply Hn2]. destruct (Hn1 p Hp) as (q & Hq & Ht).
    assert (q `prefix_of` q2) by (by etrans). exists q. split; [done|].
    apply (step_node _ _ _ _ _ Hst); [by eapply path_ok_prefix_of|done].
Qed.

(** The tables a walk along [q] may go through *)
Definition on_path (s : S) (root : Z) (q : list Z) (p : Z) : Prop :=
  ∃ q', q' `prefix_of` q ∧ node_at (mem_of s) root q' = Some p.

Lemma ensure_table_spec self π k t s :
  ps_ok s → pgt_wf (mem_of s) (rp_ppn self) → pgt_fresh s (rp_ppn self) →
  path_ok π → (length π <= 1)%nat → idx_ok k →
  node_at (mem_of s) (rp_ppn self) π = Some t →
  wp (Pgt.ensure_table self (table_va t) k) (λ '(r, self') s', ∃ new,
    self' = mk_RootPgt (rp_ppn self) (rp_pages self ++ new) ∧ (length new <= 1)%nat ∧
    pgt_grow (rp_ppn self) (λ p, p = t) new s s' ∧
    grew_along (rp_ppn self) (π ++ [k]) new s s' ∧
    match r with
    | Ok _ => PTE.is_valid (pte (mem_of s') t k) = true
    | Err e => e = AcquirePageFailed ∧ new = [] ∧ s' = s ∧ (∀ p, ¬ ps_free s p) ∧
               PTE.is_valid (pte (mem_of s) t k) = false
    end) s.
Proof.
  intros Hok Hwf Hfr Hπ Hl Hk Ht. unfold Pgt.ensure_table. wp_step. apply wp_pte_get.
  destruct (PTE.is_valid (pte (mem_of s) t k)) eqn:Hv; cbn [negb].
  { wp_step. exists []. destruct self. simpl in *. rewrite app_nil_r.
    split_and!; [done|simpl; lia|by apply pgt_grow_refl|by apply grew_along_nil|done]. }
  wp_step. eapply wp_mono; [by apply ps_alloc_zeroed_page_law|].
  intros [p|] s1 (Hok1 & Hal); cbv beta iota in Hal |- *.
  - destruct Hal as (Hp & Hf1 & Hz & Hout).
    pose proof (ps_free_ram s p Hok Hp).
    rewrite pte_new_table by lia. simpl. wp_step. apply wp_pte_set. wp_step. exists [p].
    destruct (pgt_step_link (rp_ppn self) s s1 π k t p) as (Hst & Hlk & Hn); [done..|].
    set (s2 := upd_mem (λ m, pte_write m t k (table_pte p)) s1) in *.
    assert (pte (mem_of s2) t k = table_pte p) as Hslot.
    { unfold s2. rewrite mem_of_upd. apply pte_write_same, mk_pte_usize; lia. }
    split_and!; [done|done|by split| |rewrite Hslot; apply table_pte_valid]. split.
    + intros q Hq Hnp. apply Hn; [done|]. by intros ->.
    + intros p' ->%list_elem_of_singleton. exists (π ++ [k]). split; [done|].
      rewrite node_at_app, (step_node _ _ _ _ _ Hst π t Hπ Ht). simpl.
      by rewrite Hslot, child_table by lia.
  - destruct Hal as [-> Hnone]. wp_step. exists []. destruct self. simpl in *.
    rewrite app_nil_r. split_and!; [done|simpl; lia|by apply pgt_grow_refl|by apply grew_along_nil|done..].
Qed.

(** The walk down to the last-level table *)
Lemma walk_create_spec levels pv vpn ppn self π t s :
  ps_ok s → pgt_wf (mem_of s) (rp_ppn self) → pgt_fresh s (rp_ppn self) →
  path_ok π → (length π + length levels <= 2)%nat →
  Forall idx_ok (parsed pv <$> levels) →
  node_at (mem_of s) (rp_ppn self) π = Some t →
  let ks := parsed pv <$> levels in
  wp (Pgt.walk_create levels self (table_va t) pv vpn ppn) (λ '(r, self') s', ∃ new,
    self' = mk_RootPgt (rp_ppn self) (rp_pages self ++ new) ∧
    (length new <= length levels)%nat ∧
    pgt_grow (rp_ppn self) (on_path s (rp_ppn self) (π ++ ks)) new s s' ∧
    grew_along (rp_ppn self) (π ++ ks) new s s' ∧
    match r with
    | Ok table => ∃ t', table = table_va t' ∧
                        node_at (mem_of s') (rp_ppn self) (π ++ ks) = Some t'
    | Err AcquirePageFailed =>
        (∀ p, ¬ ps_free s' p) ∧
        ∀ q, full_path (π ++ ks ++ q) →
             lookup_at (mem_of s) (rp_ppn self) (π ++ ks ++ q) = None
    | Err (DoubleMapping v p) =>
        v = vpn ∧ p = ppn ∧
        ∀ q, full_path (π ++ ks ++ q) →
             is_Some (lookup_at (mem_of s) (rp_ppn self) (π ++ ks ++ q))
    | Err (InvalidPteFlags _) => False
    end) s.
Proof.
  revert self π t s.
  induction levels as [|level levels IH]; intros self π t s Hok Hwf Hfr Hπ Hlen Hks Ht ks.
  { simpl. wp_step. exists []. destruct self. simpl in *. rewrite app_nil_r.
    split_and!; [done|done|by apply pgt_grow_refl|by apply grew_along_nil|].
    exists t. by rewrite app_nil_r. }
  simpl in *. apply Forall_cons in Hks as [Hk Hks].
  set (k := parsed pv level) in *. subst ks.
  wp_step. eapply wp_mono; [apply (ensure_table_spec self π k t); (done || lia)|].
  intros [r self1] s1 (new1 & -> & Hn & Hg1 & Ha1 & Hr). destruct r as [[]|e].
  2:{ destruct Hr as (-> & -> & -> & Hnone & Hinv). wp_step. exists [].
    split_and!; [done|simpl; lia|by apply pgt_grow_refl|by apply grew_along_nil|done|].
    intros q Hq. rewrite (lookup_at_app _ _ π _ t Ht) by done. simpl. by rewrite Hinv. }
  wp_step. apply wp_pte_get.
  destruct Hg1 as [Hst1 Hlk1]. pose proof (step_node _ _ _ _ _ Hst1 π t Hπ Ht) as Ht1.
  assert (pgt_grow (rp_ppn self)
    (on_path s (rp_ppn self) (π ++ k :: (parsed pv <$> levels))) new1 s s1) as Hg1.
  { split; [|done]. eapply pgt_step_weaken; [|exact Hst1]. intros p ->. left.
    exists π. split; [by exists (k :: (parsed pv <$> levels))|done]. }
  set (q0 := π ++ k :: (parsed pv <$> levels)) in *.
  assert (path_ok q0) as Hq0.
  { split; [|unfold q0; rewrite length_app; cbn [length]; by rewrite length_fmap].
    destruct Hπ. apply Forall_app. split; [done|]. by constructor. }
  assert (π ++ [k] `prefix_of` q0) as Hpre
    by (exists (parsed pv <$> levels); unfold q0; by rewrite <- app_assoc).
  destruct (PTE.is_leaf (pte (mem_of s1) t k)) eqn:Hleaf.
  { wp_step. exists new1. split_and!; [done|lia|done|by eapply grew_along_widen|done|done|]. intros q Hq.
    rewrite <- Hlk1 by done. rewrite (lookup_at_app _ _ π _ t Ht1) by done. simpl.
    rewrite Hr. cbn [negb]. rewrite Hleaf. case_match; by eexists. }
  set (t1 := pte_ppn (pte (mem_of s1) t k)).
  assert (path_ok (π ++ [k])) as Hπk.
  { destruct Hπ as [Hf _]. split; [|rewrite length_app; simpl; lia].
    apply Forall_app. split; [done|]. by constructor. }
  assert (node_at (mem_of s1) (rp_ppn self) (π ++ [k]) = Some t1) as Hn1.
  { rewrite node_at_app, Ht1. simpl. unfold child. by rewrite Hr, Hleaf. }
  wp_step. apply wp_get_ppn. fold t1. wp_step. apply wp_get_ptes_mut.
  { by apply (wf_ram _ _ (step_wf _ _ _ _ _ Hst1) (π ++ [k])). }
  eapply wp_mono; [apply (IH _ (π ++ [k]) t1 s1); simpl|].
  - apply Hst1.
  - apply Hst1.
  - apply Hst1.
  - done.
  - rewrite length_app. simpl. lia.
  - done.
  - done.
  - simpl. intros [r self2] s2 (new2 & -> & Hn2 & Hg2 & Hr2). simpl.
    rewrite <- !app_assoc in *. simpl in *. exists (new1 ++ new2).
    destruct Hr2 as [Ha2 Hr2].
    split_and!; [by rewrite app_assoc|rewrite length_app; lia| | |].
    + eapply pgt_grow_trans; [exact Hg1|exact Hg2|]. intros p (q' & Hq' & Hp).
      assert (path_ok q') as Hqok by exact (path_ok_prefix_of q' q0 Hq0 Hq').
      destruct (step_node_inv _ _ _ _ _ Hst1 _ _ Hqok Hp); [left|by right]. by exists q'.
    + eapply grew_along_trans; [done|exact Hpre|apply Hg2|done|done].
    + destruct r as [table|[| |]]; [done| |done|].
      * destruct Hr2 as [? Hr2]. split; [done|]. intros q Hq.
        rewrite <- Hlk1 by done. specialize (Hr2 q). rewrite <- !app_assoc in Hr2. by apply Hr2.
      * destruct Hr2 as (? & ? & Hr2). split_and!; [done..|]. intros q Hq.
        rewrite <- Hlk1 by done. specialize (Hr2 q). rewrite <- !app_assoc in Hr2. by apply Hr2.
Qed.

(** The tables a walk for [vpn] goes through *)
Definition vpn_tables (s : S) (root vpn : Z) : Z → Prop :=
  on_path s root [vpn / 2 ^ 18 mod 512; vpn / 2 ^ 9 mod 512].

Lemma vpn_path_idx vpn :
  idx_ok (vpn / 2 ^ 18 mod 512) ∧ idx_ok (vpn / 2 ^ 9 mod 512) ∧ idx_ok (vpn mod 512).
Proof. unfold idx_ok. split_and!; apply Z.mod_pos_bound; done. Qed.

Lemma vpn_tables_path_ok vpn : path_ok [vpn / 2 ^ 18 mod 512; vpn / 2 ^ 9 mod 512].
Proof. destruct (vpn_path_idx vpn) as (? & ? & _). split; [by eauto using Forall|done]. Qed.

(** Everything [map_create] does, in one specification *)
Lemma map_create_wp self vpn ppn flags s :
  ps_ok s → pgt_wf (mem_of s) (rp_ppn self) → pgt_fresh s (rp_ppn self) →
  0 <= vpn < 2 ^ 52 → 0 <= ppn < 2 ^ 44 → is_usize flags →
  wp (Pgt.map_create self vpn ppn flags) (λ '(r, self') s', ∃ new,
    self' = mk_RootPgt (rp_ppn self) (rp_pages self ++ new) ∧ (length new <= 2)%nat ∧
    pgt_step (rp_ppn self) (vpn_tables s (rp_ppn self) vpn) new s s' ∧
    grew_along (rp_ppn self) [vpn / 2 ^ 18 mod 512; vpn / 2 ^ 9 mod 512] new s s' ∧
    match r with
    | Ok _ =>
        PTE.is_valid_flags flags = true ∧
        lookup_at (mem_of s) (rp_ppn self) (vpn_path vpn) = None ∧
        ∀ q, full_path q →
          lookup_at (mem_of s') (rp_ppn self) q =
            if decide (q = vpn_path vpn) then Some (O, mk_pte ppn flags)
            else lookup_at (mem_of s) (rp_ppn self) q
    | Err e =>
        (∀ q, full_path q →
           lookup_at (mem_of s') (rp_ppn self) q = lookup_at (mem_of s) (rp_ppn self) q) ∧
        match e with
        | InvalidPteFlags f => f = flags ∧ PTE.is_valid_flags flags = false ∧ s' = s
        | AcquirePageFailed =>
            PTE.is_valid_flags flags = true ∧ (∀ p, ¬ ps_free s' p) ∧
            lookup_at (mem_of s) (rp_ppn self) (vpn_path vpn) = None
        | DoubleMapping v p =>
            PTE.is_valid_flags flags = true ∧ v = vpn ∧ p = ppn ∧
            is_Some (lookup_at (mem_of s) (rp_ppn self) (vpn_path vpn))
        end
    end) s.
Proof.
  intros Hok Hwf Hfr Hv Hp Hu. unfold Pgt.map_create. rewrite parse_vpn_eq by done.
  destruct (vpn_path_idx vpn) as (Hi2 & Hi1 & Hi0).
  destruct (PTE.is_valid_flags flags) eqn:Hf.
  2:{ rewrite pte_new_err by done. wp_step. exists []. destruct self. simpl in *.
    rewrite app_nil_r.
    split_and!; [done|simpl; lia|by apply pgt_step_refl|by apply grew_along_nil|done..]. }
  destruct (is_valid_flags_range flags Hu Hf) as [Hfl Hfv].
  rewrite pte_new_ok by done. wp_step.
  apply wp_get_ptes_mut; [by apply (wf_root_ram (mem_of s))|]. wp_step.
  eapply wp_mono; [apply (walk_create_spec _ _ _ _ self [] (rp_ppn self)); try done|].
  { apply path_ok_nil. }
  { apply (vpn_tables_path_ok vpn). }
  simpl. intros [r self'] s1 (new & -> & Hn & [Hst Hlk] & Ha & Hr).
  change (grew_along (rp_ppn self) [vpn / 2 ^ 18 mod 512; vpn / 2 ^ 9 mod 512] new s s1) in Ha.
  destruct r as [table|e].
  - destruct Hr as (t & -> & Ht). wp_step. apply wp_pte_get.
    change (parsed _ 0) with (vpn mod 512).
    change (node_at (mem_of s1) (rp_ppn self)
      [vpn / 2 ^ 18 mod 512; vpn / 2 ^ 9 mod 512] = Some t) in Ht.
    pose proof (vpn_tables_path_ok vpn) as Hpok.
    assert (lookup_at (mem_of s1) (rp_ppn self) (vpn_path vpn) =
            if PTE.is_valid (pte (mem_of s1) t (vpn mod 512))
            then Some (O, pte (mem_of s1) t (vpn mod 512)) else None) as Hl.
    { change (vpn_path vpn) with
        ([vpn / 2 ^ 18 mod 512; vpn / 2 ^ 9 mod 512] ++ [vpn mod 512]).
      rewrite (lookup_at_app _ _ _ _ t Ht) by done. cbn [lookup_at]. cbv zeta.
      by destruct (PTE.is_valid (pte (mem_of s1) t (vpn mod 512))). }
    rewrite Hlk in Hl by apply vpn_path_full.
    destruct (PTE.is_valid (pte (mem_of s1) t (vpn mod 512))).
    + wp_step. exists new. by split_and!.
    + wp_step. apply wp_pte_set. wp_step. exists new. split_and!; [done|done| | |done..|].
      * rewrite <- (app_nil_r new).
        eapply pgt_step_trans; [exact Hst|].
        (* the last-level table is old or new *)
        eapply pgt_step_weaken;
          [|apply (pgt_step_leaf _ s1 _ (vpn mod 512) t _ (step_ok _ _ _ _ _ Hst)
              (step_wf _ _ _ _ _ Hst) (step_fresh _ _ _ _ _ Hst) Hpok eq_refl Hi0 Ht);
            by apply mk_pte_usize].
        intros p ->. left.
        destruct (step_node_inv _ _ _ _ _ Hst _ _ Hpok Ht); [left|by right].
        by eexists.
      * eapply grew_along_same_nodes; [done|exact Ha|]. intros q Hq. rewrite mem_of_upd.
        by apply (page_leaf_node _ _ (step_wf _ _ _ _ _ Hst) _ _ _ _ Hpok Hi0 Ht eq_refl).
      * intros q Hq. rewrite mem_of_upd.
        rewrite (page_leaf_lookup _ _ (step_wf _ _ _ _ _ Hst) _ _ _ _ Hpok Hi0 Ht
          (mk_pte_usize _ _ Hp Hfl) eq_refl q Hq).
        rewrite mk_pte_valid, Hfv, Hlk by done. done.
  - wp_step. exists new. split_and!; [done..|].
    destruct e as [|f|v p]; [|done|].
    + destruct Hr as [Hnf Hr]. split_and!; [done..|]. apply (Hr [_]), vpn_path_full.
    + destruct Hr as (-> & -> & Hr). split_and!; [done..|]. apply (Hr [_]), vpn_path_full.
Qed.

(** On a page that is mapped as a page, [map_create] changes nothing at all. *)
Lemma map_create_mapped_wp self vpn ppn flags e s :
  pgt_wf (mem_of s) (rp_ppn self) →
  0 <= vpn < 2 ^ 52 → 0 <= ppn < 2 ^ 44 → is_usize flags → PTE.is_valid_flags flags = true →
  pgt_lookup (mem_of s) (rp_ppn self) vpn = Some (O, e) →
  wp (Pgt.map_create self vpn ppn flags)
    (λ '(r, self') s', r = Err (DoubleMapping vpn ppn) ∧ self' = self ∧ s' = s) s.
Proof.
  intros Hwf Hv Hp Hu Hf Hl. unfold Pgt.map_create. rewrite parse_vpn_eq, pte_new_ok by done.
  destruct (vpn_path_idx vpn) as (Hi2 & Hi1 & _).
  unfold pgt_lookup, vpn_path in Hl. cbn [lookup_at] in Hl.
  set (i2 := vpn / 2 ^ 18 mod 512) in *. set (i1 := vpn / 2 ^ 9 mod 512) in *.
  set (e2 := pte (mem_of s) (rp_ppn self) i2) in *.
  destruct (PTE.is_valid e2) eqn:V2; [|done]. destruct (PTE.is_leaf e2) eqn:L2; [done|].
  cbn [negb] in Hl. set (e1 := pte (mem_of s) (pte_ppn e2) i1) in *.
  destruct (PTE.is_valid e1) eqn:V1; [|done]. destruct (PTE.is_leaf e1) eqn:L1; [done|].
  cbn [negb] in Hl. destruct (PTE.is_valid (pte (mem_of s) (pte_ppn e1) (vpn mod 512))) eqn:V0; [|done].
  assert (node_at (mem_of s) (rp_ppn self) [i2] = Some (pte_ppn e2)) as N2
    by (cbn [node_at]; unfold child; fold e2; by rewrite V2, L2).
  assert (node_at (mem_of s) (rp_ppn self) [i2; i1] = Some (pte_ppn e1)) as N1.
  { change [i2; i1] with ([i2] ++ [i1]). rewrite node_at_app, N2. cbn [node_at].
    fold e1. unfold child. by rewrite V1, L1. }
  pose proof (vpn_tables_path_ok vpn) as Hpo. fold i2 i1 in Hpo.
  wp_step. apply wp_get_ptes_mut; [by apply (wf_root_ram (mem_of s))|].
  unfold Pgt.walk_create, Pgt.ensure_table. cbn [parsed nth].
  wp_step. wp_step. wp_step. apply wp_pte_get. fold e2. rewrite V2. cbn [negb]. wp_step.
  wp_step. apply wp_pte_get. fold e2. rewrite L2. wp_step. apply wp_get_ppn.
  wp_step. apply wp_get_ptes_mut; [by apply (wf_ram _ _ Hwf [i2] _ (path_ok_prefix [i2] [i1] Hpo))|].
  wp_step. wp_step. apply wp_pte_get. fold e1. rewrite V1. cbn [negb]. wp_step.
  wp_step. apply wp_pte_get. fold e1. rewrite L1. wp_step. apply wp_get_ppn.
  wp_step. apply wp_get_ptes_mut; [by apply (wf_ram _ _ Hwf [i2; i1])|].
  wp_step. wp_step. apply wp_pte_get. rewrite V0. by wp_step.
Qed.
End access.
