(* ===== verification/Sv39Unmap.v ===== *)
(** * Specification of [RootPgt::unmap]

    The three nested loops clear the entries of the range one by one and return at
    the first last-level table entry past its end.  They never look at the end
    anywhere else: without such a table ([sentinel] below) they panic. *)

From S2P Require Export Sv39Ops.

(** The virtual page number of three indices *)
Definition vpn_of (i2 i1 i0 : Z) : Z := i2 * 2 ^ 18 + i1 * 2 ^ 9 + i0.

Lemma vpn_path_of i2 i1 i0 :
  idx_ok i2 → idx_ok i1 → idx_ok i0 → vpn_path (vpn_of i2 i1 i0) = [i2; i1; i0].
Proof.
  unfold idx_ok, vpn_path, vpn_of. intros.
  f_equal; [zlia|]. f_equal; [zlia|]. f_equal. zlia.
Qed.

Lemma vpn_of_path v :
  0 <= v < 2 ^ 27 → v = vpn_of (v / 2 ^ 18 mod 512) (v / 2 ^ 9 mod 512) (v mod 512).
Proof. unfold vpn_of. zlia. Qed.

Lemma loop_vpn_eq i2 i1 i0 :
  idx_ok i2 → idx_ok i1 → idx_ok i0 →
  ((i2 .<< 18) ⊕ (i1 .<< 9)) ⊕ i0 = vpn_of i2 i1 i0.
Proof.
  unfold idx_ok, vpn_of. intros. rewrite !ushl_mul by (unfold USIZE_MODULUS; lia).
  rewrite !uadd_small; unfold USIZE_MODULUS; try lia.
  rewrite uadd_small; unfold USIZE_MODULUS; lia.
Qed.

Lemma path1_ok i2 : idx_ok i2 → path_ok [i2].
Proof. split; [eauto using Forall|simpl; lia]. Qed.
Lemma path2_ok i2 i1 : idx_ok i2 → idx_ok i1 → path_ok [i2; i1].
Proof. split; [eauto using Forall|simpl; lia]. Qed.

(** The mappings of the pages in [[a, b)] are gone, nothing else is. *)
Record cleared (root a b : Z) (m m' : mem) : Prop := {
  cl_wf : pgt_wf m' root;
  cl_node q : path_ok q → node_at m' root q = node_at m root q;
  cl_lookup v : 0 <= v < 2 ^ 27 →
    lookup_at m' root (vpn_path v) =
      if decide (a <= v < b) then None else lookup_at m root (vpn_path v);
  cl_frame p :
    (¬ ∃ v, a <= v < b ∧
       node_at m root [v / 2 ^ 18 mod 512; v / 2 ^ 9 mod 512] = Some p) →
    page_same p m m';
}.

Lemma cleared_refl root a b m : b <= a → pgt_wf m root → cleared root a b m m.
Proof. intros Hb Hwf. split; [done|done| |done]. intros v _. by rewrite decide_False by lia. Qed.

(** A stretch without mappings needs no store. *)
Lemma cleared_extend root a b c m m' :
  b <= c → cleared root a b m m' →
  (∀ v, b <= v < c → 0 <= v < 2 ^ 27 → lookup_at m' root (vpn_path v) = None) →
  cleared root a c m m'.
Proof.
  intros Hbc [Hwf Hn Hl Hfr] Hnone. split; [done|done| |].
  - intros v Hv. case_decide as E.
    + destruct (decide (v < b)); [|apply Hnone; [lia|done]].
      rewrite Hl by done. by rewrite decide_True by lia.
    + rewrite Hl by done. by rewrite decide_False by lia.
  - intros p Hp. apply Hfr. intros (v & Hv & Hnv). apply Hp. exists v. split; [lia|done].
Qed.

(** One entry more *)
Lemma cleared_store root a m m' i2 i1 i0 t :
  idx_ok i2 → idx_ok i1 → idx_ok i0 → a <= vpn_of i2 i1 i0 →
  node_at m root [i2; i1] = Some t →
  cleared root a (vpn_of i2 i1 i0) m m' →
  cleared root a (vpn_of i2 i1 i0 + 1) m (pte_write m' t i0 0).
Proof.
  intros H2 H1 H0 Ha Ht [Hwf Hn Hl Hfr].
  assert (path_ok [i2; i1]) as Hp by (split; [eauto using Forall|done]).
  assert (node_at m' root [i2; i1] = Some t) as Ht' by (by rewrite Hn).
  pose proof (vpn_path_of i2 i1 i0 H2 H1 H0) as Hpath.
  split.
  - by apply (page_leaf_wf _ _ Hwf [i2; i1]).
  - intros q Hq. rewrite (page_leaf_node _ _ Hwf [i2; i1] _ _ _ Hp H0 Ht' eq_refl q Hq).
    by apply Hn.
  - intros v Hv.
    rewrite (page_leaf_lookup _ _ Hwf [i2; i1] i0 t 0 Hp H0 Ht') by (done || apply vpn_path_full).
    change ([i2; i1] ++ [i0]) with [i2; i1; i0]. rewrite <- Hpath. rewrite is_valid_zero.
    case_decide as E.
    + apply vpn_path_inj in E.
      rewrite !Z.mod_small in E by (unfold vpn_of, idx_ok in *; lia).
      by rewrite decide_True by lia.
    + assert (v ≠ vpn_of i2 i1 i0) by congruence. rewrite Hl by done.
      by repeat case_decide; try lia.
  - intros p Hp'. eapply page_same_trans.
    + apply Hfr. intros (v & Hv & Hnv). apply Hp'. exists v. split; [lia|done].
    + apply page_same_write; [done|]. intros ->. apply Hp'.
      exists (vpn_of i2 i1 i0). split; [lia|]. unfold vpn_path in Hpath.
      by injection Hpath as -> -> _.
Qed.

(** ** The loops *)
Section loops.
Context {S : Type} `{PageSourceLaws S}.
Context (self : RootPgt) (s0 : S) (start end_vpn : Z).
(** the table that stops the loops *)
Context (j2 j1 : Z).
Let root := rp_ppn self.
Let m0 := mem_of s0.

Record sentinel : Prop := {
  sn_idx : idx_ok j2 ∧ idx_ok j1;
  sn_table : is_Some (node_at m0 root [j2; j1]);
  sn_end : end_vpn <= vpn_of j2 j1 511;
  sn_pages v l e : start <= v < vpn_of j2 j1 0 →
    lookup_at m0 root (vpn_path v) = Some (l, e) → l = O;
}.
Context (Hsn : sentinel) (Hstart : 0 <= start).

(** The state when the next entry to look at is the one of [x] *)
Definition at_vpn (x : Z) (s : S) : Prop :=
  ps_ok s ∧ (∀ p, ps_free s p ↔ ps_free s0 p) ∧
  cleared root start (Z.min x end_vpn) m0 (mem_of s).

(** The state when [unmap] has returned *)
Definition unmapped (s : S) : Prop :=
  ps_ok s ∧ (∀ p, ps_free s p ↔ ps_free s0 p) ∧
  cleared root start end_vpn m0 (mem_of s).

Lemma at_vpn_done x s : end_vpn <= x → at_vpn x s → unmapped s.
Proof. intros Hx (? & ? & Hc). split_and!; [done..|]. by rewrite Z.min_r in Hc by lia. Qed.

(** An empty slot of an upper table is skipped. *)
Lemma at_vpn_skip x y s π t k :
  path_ok π → idx_ok k → node_at m0 root π = Some t →
  PTE.is_valid (pte (mem_of s) t k) = false →
  x <= y → (∀ v, x <= v < y → ∃ q, vpn_path v = π ++ k :: q) →
  at_vpn x s → at_vpn y s.
Proof.
  intros Hπ Hk Ht Hv Hxy Hq (Hok & Hf & Hc). split_and!; [done..|].
  eapply cleared_extend; [|exact Hc|]; [lia|].
  intros v Hv' _. destruct (Hq v) as [q ->]; [lia|].
  rewrite <- (cl_node _ _ _ _ _ Hc) in Ht by done.
  rewrite (lookup_at_app _ _ π _ t Ht) by done. simpl. by rewrite Hv.
Qed.

Lemma unmap_vpn0_spec i2 i1 t i0 s :
  idx_ok i2 → idx_ok i1 → 0 <= i0 <= 512 → start <= vpn_of i2 i1 i0 →
  node_at m0 root [i2; i1] = Some t →
  at_vpn (vpn_of i2 i1 i0) s →
  wp (Pgt.unmap_vpn0 (range i0 512) (table_va t) i2 i1 end_vpn) (λ d s',
    if (d : bool) then unmapped s'
    else at_vpn (vpn_of i2 i1 512) s' ∧ (i0 < 512 → vpn_of i2 i1 511 < end_vpn)) s.
Proof using Type.
  intros H2 H1' [Hlo Hhi] Hle Ht. revert s Hle.
  pattern i0. apply (range_ind _ i0 512 Hhi).
  { intros s _ Hs. rewrite range_nil by lia. simpl. wp_step. split; [done|lia]. }
  clear Hhi. intros i Hi IH s Hle Hs. assert (0 <= i < 512) as Hi0 by lia.
  clear i0 Hlo Hi. rename i into i0. rewrite range_cons by lia. simpl.
  assert (idx_ok i0) as Hio by (unfold idx_ok; lia).
  rewrite loop_vpn_eq by done.
  destruct (Z.leb_spec end_vpn (vpn_of i2 i1 i0)).
  { wp_step. by eapply at_vpn_done. }
  wp_step. apply wp_pte_set.
  assert (vpn_of i2 i1 (i0 + 1) = vpn_of i2 i1 i0 + 1) as E by (unfold vpn_of; lia).
  eapply wp_mono; [apply IH|].
  - lia.
  - rewrite E. destruct Hs as (Hok & Hf & Hc). split_and!.
    + by apply ps_upd_ok.
    + intros p. by rewrite ps_upd_free.
    + rewrite mem_of_upd, Z.min_l in * by lia. by apply cleared_store.
  - intros [] s'; simpl; [done|]. intros [Hat Hlt]. split; [done|]. intros _.
    destruct (decide (i0 + 1 < 512)); [by apply Hlt|].
    replace 511 with i0 by lia. lia.
Qed.

(** *** Slots of the upper tables *)

Lemma at_vpn_node x s q : at_vpn x s → path_ok q →
  node_at (mem_of s) root q = node_at m0 root q.
Proof using Type. intros (_ & _ & Hc). apply (cl_node _ _ _ _ _ Hc). Qed.

Lemma at_vpn_lookup v s : at_vpn v s → 0 <= v < 2 ^ 27 →
  lookup_at (mem_of s) root (vpn_path v) = lookup_at m0 root (vpn_path v).
Proof using Type.
  intros (_ & _ & Hc) Hv. rewrite (cl_lookup _ _ _ _ _ Hc) by done.
  by rewrite decide_False by lia.
Qed.

(** A valid slot on the way to the sentinel is a table. *)
Lemma at_vpn_slot x s π t k :
  at_vpn x s → path_ok (π ++ [k]) → node_at m0 root π = Some t →
  0 <= x < 2 ^ 27 → start <= x → (∃ i q, vpn_path x = π ++ k :: i :: q) →
  x < vpn_of j2 j1 0 ∨ is_Some (node_at m0 root (π ++ [k])) →
  PTE.is_valid (pte (mem_of s) t k) = true →
  PTE.is_leaf (pte (mem_of s) t k) = false ∧
  node_at m0 root (π ++ [k]) = Some (pte_ppn (pte (mem_of s) t k)).
Proof using Hsn.
  intros Hs Hp Ht Hx Hsx (i & q & Hq) Hor Hv.
  assert (node_at (mem_of s) root π = Some t) as Ht'
    by (rewrite (at_vpn_node x) by (done || by eapply path_ok_prefix); done).
  assert (PTE.is_leaf (pte (mem_of s) t k) = false) as Hleaf.
  { destruct (PTE.is_leaf (pte (mem_of s) t k)) eqn:Hl; [|done]. exfalso.
    destruct Hor as [Hlt|[u Hu]].
    - pose proof (at_vpn_lookup x s Hs Hx) as Hlk. rewrite Hq in Hlk.
      rewrite (lookup_at_app _ _ π _ t Ht') in Hlk by done.
      cbn [lookup_at] in Hlk. rewrite Hv, Hl in Hlk. symmetry in Hlk. rewrite <- Hq in Hlk.
      apply sn_pages in Hlk; [done..|lia].
    - rewrite <- (at_vpn_node x s) in Hu by done.
      rewrite node_at_app, Ht' in Hu. cbn [node_at] in Hu. by rewrite child_leaf in Hu. }
  split; [done|]. rewrite <- (at_vpn_node x s) by done.
  rewrite node_at_app, Ht'. simpl. unfold child. by rewrite Hv, Hleaf.
Qed.

Lemma invalid_slot_no_table x s π t k q :
  at_vpn x s → path_ok (π ++ k :: q) → node_at m0 root π = Some t →
  PTE.is_valid (pte (mem_of s) t k) = false → node_at m0 root (π ++ k :: q) = None.
Proof using Type.
  intros Hs Hp Ht Hv. rewrite <- (at_vpn_node x s) in * by (done || by eapply path_ok_prefix).
  rewrite node_at_app, Ht. simpl. by rewrite child_invalid.
Qed.

Lemma unmap_vpn1_spec i2 t1 i1 p0 s :
  idx_ok i2 → 0 <= i1 <= 512 → 0 <= p0 < 512 → (i1 = 512 → p0 = 0) →
  start <= vpn_of i2 i1 p0 → vpn_of i2 i1 0 <= vpn_of j2 j1 0 →
  node_at m0 root [i2] = Some t1 →
  at_vpn (vpn_of i2 i1 p0) s →
  wp (Pgt.unmap_vpn1 (range i1 512) p0 (table_va t1) i2 end_vpn) (λ '(d, p0') s',
    if (d : bool) then unmapped s'
    else p0' = 0 ∧ at_vpn (vpn_of i2 512 0) s' ∧ i2 < j2) s.
Proof using Hsn Hstart.
  intros H2 [Hlo Hhi] Hp0 Hend Hle Hslot Ht1. revert p0 s Hp0 Hend Hle Hslot.
  destruct (sn_idx Hsn) as [Hj2 Hj1]. pose proof (sn_table Hsn) as Htab.
  pattern i1. apply (range_ind _ i1 512 Hhi).
  { intros p0 s _ Hp0 _ Hslot Hs. rewrite range_nil by lia. simpl. wp_step.
    rewrite Hp0 in * by done. split_and!; [done..|]. unfold vpn_of, idx_ok in *. lia. }
  clear Hhi. intros i Hi IH p0 s Hp0 _ Hle Hslot Hs. assert (idx_ok i) as Hi1 by (unfold idx_ok; lia).
  clear i1 Hlo Hi. rename i into i1. rewrite range_cons by (unfold idx_ok in *; lia). simpl.
  assert ((i2, i1) = (j2, j1) ∨ vpn_of i2 (i1 + 1) 0 <= vpn_of j2 j1 0) as Hcase.
  { unfold vpn_of, idx_ok in *. destruct (decide (i2 = j2)), (decide (i1 = j1)); subst;
      [by left|right; lia..]. }
  assert (∀ p0 s, p0 = 0 → at_vpn (vpn_of i2 (i1 + 1) p0) s →
    vpn_of i2 (i1 + 1) 0 <= vpn_of j2 j1 0 → _) as IH'
    by (intros p0' s' -> Hs' Hslot'; refine (IH 0 s' _ _ _ Hslot' Hs');
        [lia|done|unfold vpn_of, idx_ok in *; lia]).
  clear IH. wp_step. apply wp_pte_get.
  destruct (PTE.is_valid (pte (mem_of s) t1 i1)) eqn:Hv; cbn [negb].
  - (* a table: clear its entries *)
    assert (path_ok ([i2] ++ [i1])) as Hpath by (by apply path2_ok).
    destruct (at_vpn_slot (vpn_of i2 i1 p0) s [i2] t1 i1) as [Hleaf Ht0]; try done.
    { unfold vpn_of, idx_ok in *. lia. }
    { exists p0, []. by rewrite vpn_path_of. }
    { destruct Hcase as [[= -> ->]|Hlt]; [by right|left; unfold vpn_of, idx_ok in *; lia]. }
    rewrite Hleaf. wp_step. apply wp_assert; [done|]. wp_step. apply wp_get_ppn.
    assert (pgt_wf (mem_of s) root) as Hwf by apply Hs.
    wp_step. apply wp_get_ptes_mut.
    { eapply (wf_ram _ _ Hwf); [exact Hpath|]. by rewrite (at_vpn_node _ _ _ Hs). }
    wp_step. eapply wp_mono; [by apply (unmap_vpn0_spec i2 i1); (done || lia)|].
    intros [] s'; cbv beta iota; [intros Hs'; by wp_step|].
    intros [Hs' Hlt]. apply IH'; [done| |].
    + by replace (vpn_of i2 (i1 + 1) 0) with (vpn_of i2 i1 512) by (unfold vpn_of; lia).
    + destruct Hcase as [[= -> ->]|?]; [|done]. pose proof (sn_end Hsn). lia.
  - (* nothing mapped behind this slot *)
    apply IH'; [done| |].
    + eapply (at_vpn_skip (vpn_of i2 i1 p0) _ _ [i2] t1 i1); try done.
      * by apply path1_ok.
      * unfold vpn_of. lia.
      * intros v Hvr. exists [v mod 512]. unfold vpn_path. unfold vpn_of, idx_ok in *.
        cbn [app]. f_equal; [zlia|]. f_equal. zlia.
    + destruct Hcase as [[= -> ->]|?]; [|done].
      pose proof (invalid_slot_no_table _ s [j2] t1 j1 [] Hs (path2_ok j2 j1 Hj2 Hj1) Ht1 Hv) as E.
      cbn [app] in E. rewrite E in Htab. by destruct Htab.
Qed.

Lemma unmap_vpn2_spec i2 p1 p0 s :
  0 <= i2 <= 512 → 0 <= p1 < 512 → 0 <= p0 < 512 →
  start <= vpn_of i2 p1 p0 → vpn_of i2 p1 0 <= vpn_of j2 j1 0 →
  at_vpn (vpn_of i2 p1 p0) s →
  wp (Pgt.unmap_vpn2 (range i2 512) p1 p0 (table_va root) end_vpn)
    (λ r s', r = Ok tt ∧ unmapped s') s.
Proof using Hsn Hstart.
  intros [Hlo Hhi] Hp1 Hp0 Hle Hslot. revert p1 p0 s Hp1 Hp0 Hle Hslot.
  destruct (sn_idx Hsn) as [Hj2 Hj1]. pose proof (sn_table Hsn) as Htab.
  assert (node_at m0 root [] = Some root) as Hroot by done.
  pattern i2. apply (range_ind _ i2 512 Hhi).
  { intros p1 p0 s Hp1 Hp0 _ Hslot _. exfalso. unfold vpn_of, idx_ok in *. lia. }
  clear Hhi. intros i Hi IH p1 p0 s Hp1 Hp0 Hle Hslot Hs.
  assert (idx_ok i) as H2 by (unfold idx_ok; lia). clear i2 Hlo Hi. rename i into i2.
  rewrite range_cons by (unfold idx_ok in *; lia). simpl. wp_step. apply wp_pte_get.
  assert (∀ s, at_vpn (vpn_of (i2 + 1) 0 0) s → i2 < j2 → _) as IH'
    by (intros s' Hs' Hlt; refine (IH 0 0 s' _ _ _ _ Hs'); unfold vpn_of, idx_ok in *; lia).
  clear IH. destruct (PTE.is_valid (pte (mem_of s) root i2)) eqn:Hv; cbn [negb].
  - assert (path_ok ([] ++ [i2])) as Hpath by (by apply path1_ok).
    destruct (at_vpn_slot (vpn_of i2 p1 p0) s [] root i2) as [Hleaf Ht1]; try done.
    { unfold vpn_of, idx_ok in *. lia. }
    { exists p1, [p0]. by rewrite vpn_path_of. }
    { destruct (decide (i2 = j2)) as [->|]; [right|left; unfold vpn_of, idx_ok in *; lia].
      change [j2; j1] with ([j2] ++ [j1]) in Htab. rewrite node_at_app in Htab.
      cbn [app]. destruct (node_at m0 root [j2]); [done|by destruct Htab]. }
    rewrite Hleaf. wp_step. apply wp_assert; [done|]. wp_step. apply wp_get_ppn.
    assert (pgt_wf (mem_of s) root) as Hwf by apply Hs.
    wp_step. apply wp_get_ptes_mut.
    { eapply (wf_ram _ _ Hwf); [exact Hpath|]. by rewrite (at_vpn_node _ _ _ Hs). }
    wp_step. eapply wp_mono; [apply (unmap_vpn1_spec i2 _ p1 p0 s); (done || lia)|].
    intros [[] p0'] s'; cbv beta iota; [intros Hs'; by wp_step|].
    intros (-> & Hs' & Hlt). apply IH'; [|done].
    by replace (vpn_of (i2 + 1) 0 0) with (vpn_of i2 512 0) by (unfold vpn_of; lia).
  - apply IH'.
    + eapply (at_vpn_skip (vpn_of i2 p1 p0) _ _ [] root i2); try done.
      * apply path_ok_nil.
      * unfold vpn_of. lia.
      * intros v Hvr. exists [v / 2 ^ 9 mod 512; v mod 512]. unfold vpn_path.
        unfold vpn_of, idx_ok in *. cbn [app]. f_equal. zlia.
    + destruct (decide (i2 = j2)) as [->|]; [|unfold vpn_of, idx_ok in *; lia].
      pose proof (invalid_slot_no_table _ s [] root j2 [j1] Hs (path2_ok j2 j1 Hj2 Hj1) Hroot Hv) as E.
      cbn [app] in E. rewrite E in Htab. by destruct Htab.
Qed.

Lemma unmap_wp :
  ps_ok s0 → pgt_wf m0 root → start < 2 ^ 27 → start < end_vpn →
  start <= vpn_of j2 j1 511 →
  wp (Pgt.unmap self start end_vpn) (λ r s', r = Ok tt ∧ unmapped s') s0.
Proof using Hsn Hstart.
  intros Hok Hwf Hlt Hne Hsj. unfold Pgt.unmap.
  destruct (Z.leb_spec end_vpn start); [lia|].
  rewrite parse_vpn_eq by lia. wp_step.
  apply wp_get_ptes_mut; [by apply (wf_root_ram m0)|].
  pose proof (vpn_of_path start ltac:(lia)) as Hso.
  destruct (sn_idx Hsn) as [Hj2 Hj1].
  destruct (vpn_path_idx start) as (Hs2 & H1' & H0').
  apply (unmap_vpn2_spec (start / 2 ^ 18 mod 512) (start / 2 ^ 9 mod 512) (start mod 512)).
  - unfold idx_ok in *. lia.
  - done.
  - done.
  - lia.
  - unfold vpn_of, idx_ok in *. lia.
  - rewrite <- Hso. split_and!; [done..|]. apply cleared_refl; [lia|done].
Qed.
End loops.
