(* ===== verification/Sv39Large.v ===== *)
(** * Specifications of the constructors and of large pages

    [RootPgt::new], [RootPgt::new_copy], [RootPgt::get_satp] and
    [RootPgt::map_create_large]. *)

From S2P Require Export Sv39Ops.

Section constructors.
Context {S : Type} `{PageSourceLaws S}.
Implicit Types s : S.

(** The tree below a zeroed page is that page. *)
Lemma node_at_zero_root m p q t :
  page_zero m p → path_ok q → node_at m p q = Some t → q = [] ∧ t = p.
Proof using Type.
  intros Hz Hq Hn. destruct q as [|i q]; [by injection Hn as <-|].
  rewrite node_at_zero in Hn; [done|done|]. by eapply (path_ok_idx []).
Qed.

(** A page just taken from the source *)
Definition took (p : Z) (s s' : S) : Prop :=
  ps_ok s' ∧ ps_free s p ∧ (∀ q, ps_free s' q ↔ ps_free s q ∧ q ≠ p) ∧
  ∀ q, q ≠ p → page_same q (mem_of s) (mem_of s').

Lemma new_wp s :
  ps_ok s →
  wp Pgt.new (λ r s',
    match r with
    | Ok self =>
        rp_pages self = [rp_ppn self] ∧ took (rp_ppn self) s s' ∧
        pgt_wf (mem_of s') (rp_ppn self) ∧ pgt_fresh s' (rp_ppn self) ∧
        (∀ q t, path_ok q → node_at (mem_of s') (rp_ppn self) q = Some t → q = []) ∧
        ∀ q, full_path q → lookup_at (mem_of s') (rp_ppn self) q = None
    | Err e => e = AcquirePageFailed ∧ s' = s ∧ ∀ p, ¬ ps_free s p
    end) s.
Proof using Type.
  intros Hok. unfold Pgt.new. wp_step.
  eapply wp_mono; [by apply ps_alloc_zeroed_page_law|].
  intros [p|] s1 (Hok1 & Hal); cbv beta iota in Hal |- *; wp_step; [|naive_solver].
  destruct Hal as (Hp & Hf & Hz & Hout). pose proof (ps_free_ram s p Hok Hp). simpl.
  split_and!; [done| |by apply pgt_wf_zero| | |].
  - split_and!; [done..|]. intros q Hq. by eapply page_same_outside.
  - intros q Hq q' Hq' Hn. destruct (node_at_zero_root _ _ _ _ Hz Hq' Hn) as [_ ->].
    apply Hf in Hq. tauto.
  - intros q t Hq Hn. by destruct (node_at_zero_root _ _ _ _ Hz Hq Hn).
  - intros q [Hq _]. by apply lookup_at_zero.
Qed.

(** The copy of the 512 entries *)
Lemma copy_entries_wp k p s :
  ps_ok s → k ≠ p →
  wp (for_each (range 0 512)
        (λ i, pte ← Pgt.pte_get (table_va k) i; Pgt.pte_set (table_va p) i pte))
    (λ _ s', ps_ok s' ∧ (∀ q, ps_free s' q ↔ ps_free s q) ∧
       (∀ i, idx_ok i → pte (mem_of s') p i = pte (mem_of s) k i) ∧
       ∀ q, q ≠ p → page_same q (mem_of s) (mem_of s')) s.
Proof using Type.
  intros Hok Hne. eapply wp_mono; [apply (wp_for_each _ _ (λ done s',
    ps_ok s' ∧ (∀ q, ps_free s' q ↔ ps_free s q) ∧
    (∀ i, i ∈ done → pte (mem_of s') p i = pte (mem_of s) k i) ∧
    ∀ q, q ≠ p → page_same q (mem_of s) (mem_of s')))|].
  - split_and!; [done..| |done]. by intros i ?%elem_of_nil.
  - intros don i todo s1 Hl (Hok1 & Hf & Hc & Hs).
    assert (∀ j, j ∈ don ++ [i] → idx_ok j) as Hidx.
    { intros j Hj. assert (j ∈ range 0 512) as Hr%elem_of_range; [|done].
      rewrite Hl. set_solver. }
    wp_step. apply wp_pte_get. apply wp_pte_set. rewrite mem_of_upd. split_and!.
    + by apply ps_upd_ok.
    + intros q. by rewrite ps_upd_free.
    + intros j Hj. rewrite pte_write_case by (eauto with kernel || apply Hidx; set_solver).
      assert (pte (mem_of s1) k i = pte (mem_of s) k i) as E
        by (apply page_same_pte; [by apply Hs|apply Hidx; set_solver]).
      case_decide as Ej; [by injection Ej as <-|]. apply Hc. set_solver.
    + intros q Hq. eapply page_same_trans; [by apply Hs|].
      apply page_same_write; [apply Hidx; set_solver|done].
  - intros [] s1 (Hok1 & Hf & Hc & Hs). split_and!; [done..| |done].
    intros i Hi. apply Hc. by apply elem_of_range.
Qed.

(** The copy shares every table below the root of the original. *)
Lemma new_copy_wp k s :
  ps_ok s → pgt_wf (mem_of s) k → pgt_fresh s k →
  wp (Pgt.new_copy (table_va k)) (λ r s',
    match r with
    | Ok self =>
        rp_pages self = [rp_ppn self] ∧ took (rp_ppn self) s s' ∧
        pgt_wf (mem_of s') (rp_ppn self) ∧ pgt_fresh s' (rp_ppn self) ∧
        (∀ i q, path_ok (i :: q) →
           node_at (mem_of s') (rp_ppn self) (i :: q) = node_at (mem_of s) k (i :: q)) ∧
        ∀ q, full_path q → lookup_at (mem_of s') (rp_ppn self) q = lookup_at (mem_of s) k q
    | Err e => e = AcquirePageFailed ∧ s' = s ∧ ∀ p, ¬ ps_free s p
    end) s.
Proof using Type.
  intros Hok Hwf Hfr. unfold Pgt.new_copy. wp_step.
  eapply wp_mono; [by apply ps_alloc_page_law|].
  intros [p|] s1 (Hok1 & Hm1 & Hal); cbv beta iota in Hal |- *;
    [|wp_step; naive_solver].
  destruct Hal as (Hp & Hf). pose proof (ps_free_ram s p Hok Hp).
  wp_step. apply wp_get_ptes_mut; [done|]. wp_step.
  assert (k ≠ p) as Hkp by (intros ->; by apply (Hfr p Hp [] path_ok_nil)).
  eapply wp_mono; [by apply (copy_entries_wp k p)|].
  intros [] s2 (Hok2 & Hf2 & Hcp & Hsame). rewrite Hm1 in *. wp_step. simpl.
  assert (∀ q t i, path_ok q → node_at (mem_of s) k q = Some t → idx_ok i →
            pte (mem_of s2) t i = pte (mem_of s) t i) as Htab.
  { intros q t i Hq Hn Hi. apply page_same_pte; [|done]. apply Hsame. intros ->.
    by apply (Hfr p Hp q Hq). }
  assert (∀ i q, path_ok (i :: q) →
            node_at (mem_of s2) p (i :: q) = node_at (mem_of s) k (i :: q)) as Hn.
  { intros i q Hq. rewrite <- (node_at_same_tables _ _ _ _ Htab Hq). simpl.
    assert (idx_ok i) by (by eapply (path_ok_idx [])).
    by rewrite Hcp, (Htab [] k i path_ok_nil eq_refl). }
  split_and!; [done| | | |done|].
  - split_and!; [done..| |done]. intros q. by rewrite Hf2.
  - split.
    + intros [|i q] t Hq; [by intros [= <-]|]. rewrite Hn by done. by apply (wf_ram _ _ Hwf).
    + intros q1 q2 t H1' H2' Hn1 Hn2.
      destruct q1 as [|i1 q1], q2 as [|i2 q2]; [done|..].
      * rewrite Hn in Hn2 by done. injection Hn1 as <-. by destruct (Hfr p Hp _ H2').
      * rewrite Hn in Hn1 by done. injection Hn2 as <-. by destruct (Hfr p Hp _ H1').
      * rewrite Hn in Hn1, Hn2 by done. by apply (wf_inj _ _ Hwf _ _ t).
    + intros q t i Hq Hnq. assert (path_ok q) as Hq' by (by eapply path_ok_prefix).
      assert (idx_ok i) as Hi by (by eapply path_ok_idx). destruct q as [|j q].
      * injection Hnq as <-. rewrite Hcp by done. by apply (wf_pointer _ _ Hwf []).
      * rewrite Hn in Hnq by done. rewrite (Htab _ t i Hq' Hnq Hi).
        by apply (wf_pointer _ _ Hwf (j :: q)).
  - intros u Hu q Hq Hnq. apply Hf2, Hf in Hu as [Hu Hne].
    destruct q as [|i q]; [by injection Hnq as <-|].
    rewrite Hn in Hnq by done. by apply (Hfr u Hu (i :: q)).
  - intros q [Hq Hl]. destruct q as [|i q]; [done|].
    rewrite <- (lookup_at_same_tables _ _ k (i :: q) Htab) by (done || simpl in *; lia).
    simpl. apply Forall_cons in Hq as [Hi _].
    by rewrite Hcp, (Htab [] k i path_ok_nil eq_refl).
Qed.
End constructors.

(** ** Large pages *)
Section large.
Context {S : Type} `{PageSourceLaws S}.
Implicit Types s : S.

(** The first page of the large page containing [v] *)
Definition large_base (v : Z) : Z := v - v mod 512.

Lemma parse_large_base vpn :
  0 <= vpn < 2 ^ 52 →
  parse_vpn (large_base vpn) = [0; vpn / 2 ^ 9 mod 512; vpn / 2 ^ 18 mod 512].
Proof using Type.
  intros Hv. unfold large_base. rewrite parse_vpn_eq by zlia.
  f_equal; [zlia|f_equal; [zlia|f_equal; zlia]].
Qed.

(** A canonical page number *)
Definition vpn_valid (vpn : Z) : Prop :=
  0 <= vpn < 2 ^ 26 ∨ 2 ^ 52 - 2 ^ 26 <= vpn < 2 ^ 52.

Lemma round_vpn_run vpn s :
  vpn_valid vpn →
  VPN.from_va (VPN.get_va vpn .& .~ (LARGE_PAGE_SIZE_BYTES ⊖ 1)) s = Ret (large_base vpn) s.
Proof using Type.
  unfold vpn_valid. intros Hv. rewrite get_va_eq by lia.
  change (LARGE_PAGE_SIZE_BYTES ⊖ 1) with (2 ^ 21 - 1).
  rewrite (land_not_mask _ 21) by (done || unfold is_usize, USIZE_MODULUS; lia).
  rewrite from_va_run by (unfold is_usize, USIZE_MODULUS; zlia).
  f_equal. unfold large_base. zlia.
Qed.

Lemma round_ppn_run ppn s :
  0 <= ppn < 2 ^ 44 →
  PPN.from_pa (PPN.get_pa ppn .& .~ (LARGE_PAGE_SIZE_BYTES ⊖ 1)) s = Ret (large_base ppn) s.
Proof using Type.
  intros Hp. rewrite get_pa_eq by lia.
  change (LARGE_PAGE_SIZE_BYTES ⊖ 1) with (2 ^ 21 - 1).
  rewrite (land_not_mask _ 21) by (done || unfold is_usize, USIZE_MODULUS; lia).
  rewrite from_pa_run by zlia. f_equal. unfold large_base. zlia.
Qed.

(** Writing a large-page leaf over an entry that is no table *)
Lemma pgt_step_large root s i2 i1 t e :
  ps_ok s → pgt_wf (mem_of s) root → pgt_fresh s root →
  idx_ok i2 → idx_ok i1 → node_at (mem_of s) root [i2] = Some t →
  node_at (mem_of s) root [i2; i1] = None → is_usize e → PTE.is_leaf e = true →
  let s' := upd_mem (λ m, pte_write m t i1 e) s in
  pgt_step root (λ p, p = t) [] s s' ∧
  (∀ q, path_ok q → node_at (mem_of s') root q = node_at (mem_of s) root q) ∧
  ∀ q, full_path q → lookup_at (mem_of s') root q =
    if decide ([i2; i1] `prefix_of` q) then Some (1%nat, e) else lookup_at (mem_of s) root q.
Proof using Type.
  intros Hok Hwf Hfr Hi2 Hi1 Ht Hnone He Hleaf s'.
  assert (path_ok [i2]) as Hπ by (split; [eauto using Forall|simpl; lia]).
  assert (child (pte (mem_of s) t i1) = None) as Hslot.
  { change [i2; i1] with ([i2] ++ [i1]) in Hnone. rewrite node_at_app, Ht in Hnone.
    cbn [node_at] in Hnone. by destruct (child (pte (mem_of s) t i1)). }
  assert (∀ q, path_ok q → node_at (mem_of s') root q = node_at (mem_of s) root q) as Hn.
  { intros q Hq. unfold s'. rewrite mem_of_upd.
    by apply (large_leaf_node _ _ Hwf [i2] i1 t e Hπ Hi1 Ht He). }
  split_and!; [|done|].
  - split.
    + by apply ps_upd_ok.
    + unfold s'. rewrite mem_of_upd. by apply (large_leaf_wf _ _ Hwf [i2] i1 t e Hπ Hi1 Ht He).
    + intros p. unfold s' at 1. rewrite ps_upd_free. intros Hp q Hq. rewrite Hn by done.
      by apply Hfr.
    + constructor.
    + set_solver.
    + intros p. unfold s'. rewrite ps_upd_free. set_solver.
    + intros q u Hq. by rewrite Hn.
    + intros q u Hq. rewrite Hn by done. tauto.
    + intros p _ Hp. unfold s'. rewrite mem_of_upd. by apply page_same_write.
  - intros q Hq. unfold s'. rewrite mem_of_upd.
    by apply (large_leaf_lookup _ _ Hwf [i2] i1 t e Hπ Hi1 Ht He).
Qed.

(** Everything [map_create_large] does where no last-level table is in its way *)
Lemma map_create_large_wp self vpn ppn flags s :
  ps_ok s → pgt_wf (mem_of s) (rp_ppn self) → pgt_fresh s (rp_ppn self) →
  vpn_valid vpn → 0 <= ppn < 2 ^ 44 → is_usize flags → PTE.is_leaf flags = true →
  let root := rp_ppn self in
  let i2 := vpn / 2 ^ 18 mod 512 in
  let i1 := vpn / 2 ^ 9 mod 512 in
  node_at (mem_of s) root [i2; i1] = None →
  wp (Pgt.map_create_large self vpn ppn flags) (λ '(r, self') s', ∃ new,
    self' = mk_RootPgt root (rp_pages self ++ new) ∧
    pgt_step root (on_path s root [i2]) new s s' ∧ grew_along root [i2] new s s' ∧
    match r with
    | Ok _ =>
        PTE.is_valid_flags flags = true ∧
        ∀ q, full_path q → lookup_at (mem_of s') root q =
          if decide ([i2; i1] `prefix_of` q)
          then Some (1%nat, mk_pte (large_base ppn) flags)
          else lookup_at (mem_of s) root q
    | Err e =>
        (∀ q, full_path q → lookup_at (mem_of s') root q = lookup_at (mem_of s) root q) ∧
        match e with
        | InvalidPteFlags f => f = flags ∧ PTE.is_valid_flags flags = false ∧ s' = s
        | AcquirePageFailed => PTE.is_valid_flags flags = true ∧ ∀ p, ¬ ps_free s' p
        | DoubleMapping v p =>
            PTE.is_valid_flags flags = true ∧ v = large_base vpn ∧ p = large_base ppn ∧
            is_Some (lookup_at (mem_of s) root (vpn_path vpn))
        end
    end) s.
Proof using Type.
  intros Hok Hwf Hfr Hv Hp Hu Hleaf root i2 i1 Hnone. unfold Pgt.map_create_large.
  destruct (vpn_path_idx vpn) as (Hi2 & Hi1 & Hi0). fold i2 in Hi2. fold i1 in Hi1.
  assert (0 <= vpn < 2 ^ 52) as Hv' by (unfold vpn_valid in Hv; lia).
  assert (0 <= large_base ppn < 2 ^ 44) as Hpb by (unfold large_base; zlia).
  wp_step. eapply wp_intro; [by apply round_vpn_run|].
  wp_step. eapply wp_intro; [by apply round_ppn_run|].
  rewrite parse_large_base by done. fold i1 i2.
  destruct (PTE.is_valid_flags flags) eqn:Hf.
  2:{ rewrite pte_new_err by done. wp_step. exists []. subst root. destruct self. simpl in *.
    rewrite app_nil_r. split_and!; [done|by apply pgt_step_refl|by apply grew_along_nil|done..]. }
  destruct (is_valid_flags_range flags Hu Hf) as [Hfl Hfv].
  rewrite pte_new_ok by done. cbn [parsed nth]. wp_step.
  apply wp_get_ptes_mut; [by apply (wf_root_ram (mem_of s))|]. wp_step.
  assert (node_at (mem_of s) root [] = Some root) as Hr0 by done.
  eapply wp_mono; [apply (ensure_table_spec self [] i2 root s); (done || simpl; lia || apply path_ok_nil)|].
  intros [r self1] s1 (new & -> & _ & [Hst Hlk] & Ha & Hr).
  fold root in Hst, Hlk, Ha, Hr |- *. cbn [app] in Ha.
  assert (pgt_step root (on_path s root [i2]) new s s1) as Hst1.
  { eapply pgt_step_weaken; [|exact Hst]. intros p ->. left. exists []. split; [by exists [i2]|done]. }
  destruct r as [[]|e].
  2:{ destruct Hr as (-> & -> & -> & ? & _). wp_step. exists []. by split_and!. }
  wp_step. apply wp_pte_get.
  assert (is_Some (lookup_at (mem_of s) root (vpn_path vpn)) ∨
          PTE.is_leaf (pte (mem_of s1) root i2) = false) as Hd2.
  { destruct (PTE.is_leaf (pte (mem_of s1) root i2)) eqn:Hl2; [left|by right].
    rewrite <- Hlk by apply vpn_path_full. unfold vpn_path. fold i2 i1.
    cbn [lookup_at]. rewrite Hr. cbn [negb]. rewrite Hl2. by eexists. }
  destruct (PTE.is_leaf (pte (mem_of s1) root i2)) eqn:Hl2.
  { wp_step. exists new. destruct Hd2; [by split_and!|done]. }
  clear Hd2. set (t := pte_ppn (pte (mem_of s1) root i2)).
  assert (path_ok [i2]) as Hπ by (split; [eauto using Forall|simpl; lia]).
  assert (node_at (mem_of s1) root [i2] = Some t) as Ht
    by (cbn [node_at]; unfold child; by rewrite Hr, Hl2).
  wp_step. apply wp_get_ppn. wp_step. apply wp_get_ptes_mut.
  { by apply (wf_ram _ _ (step_wf _ _ _ _ _ Hst1) [i2]). }
  fold t. wp_step. apply wp_pte_get.
  destruct (PTE.is_leaf (pte (mem_of s1) t i1)) eqn:Hl1.
  { wp_step. exists new. split_and!; [done..|]. rewrite <- Hlk by apply vpn_path_full.
    unfold vpn_path. fold i2 i1. change [i2; i1; vpn mod 512] with ([i2] ++ [i1; vpn mod 512]).
    rewrite (lookup_at_app _ _ _ _ _ Ht) by done. cbn [lookup_at].
    rewrite (leaf_valid _ Hl1). cbn [negb]. rewrite Hl1. by eexists. }
  assert (node_at (mem_of s1) root [i2; i1] = None) as Hnone1.
  { rewrite (proj1 Ha); [done|split; [eauto using Forall|simpl; lia]|].
    intros [z Hz]. by destruct z. }
  wp_step. apply wp_pte_set. wp_step. exists new.
  destruct (pgt_step_large root s1 i2 i1 t (mk_pte (large_base ppn) flags)) as (Hst2 & Hn2 & Hlk2);
    try done; try apply Hst1; [by apply mk_pte_usize|by rewrite mk_pte_leaf|].
  split_and!; [done| | |done|].
  - rewrite <- (app_nil_r new). eapply pgt_step_trans; [exact Hst1|].
    eapply pgt_step_weaken; [|exact Hst2]. intros p ->. left.
    destruct (step_node_inv _ _ _ _ _ Hst1 _ _ Hπ Ht); [left|by right]. by exists [i2].
  - by eapply grew_along_same_nodes.
  - intros q Hq. rewrite Hlk2 by done. case_decide; [done|]. by apply Hlk.
Qed.

(** A table below two slots is reached through the first. *)
Lemma node_at_two m root i2 i1 u :
  node_at m root [i2; i1] = Some u →
  ∃ t, node_at m root [i2] = Some t ∧ PTE.is_valid (pte m root i2) = true ∧
    PTE.is_leaf (pte m root i2) = false ∧ t = pte_ppn (pte m root i2) ∧
    PTE.is_leaf (pte m t i1) = false.
Proof using Type.
  cbn [node_at]. destruct (child (pte m root i2)) as [t|] eqn:E2; [|done].
  destruct (child (pte m t i1)) eqn:E1; [|done]. intros _. exists t.
  destruct (child_Some _ _ E2) as [Hv2 Hl2]. destruct (child_Some _ _ E1) as [_ Hl1].
  unfold child in E2. rewrite Hv2, Hl2 in E2. by injection E2 as <-.
Qed.

(** Everything [map_create_large] does where a last-level table is in its way: one
    store, over the pointer to the table *)
Lemma map_create_large_over self vpn ppn flags s u :
  ps_ok s → pgt_wf (mem_of s) (rp_ppn self) →
  vpn_valid vpn → 0 <= ppn < 2 ^ 44 → is_usize flags →
  PTE.is_valid_flags flags = true →
  let root := rp_ppn self in
  let i2 := vpn / 2 ^ 18 mod 512 in
  let i1 := vpn / 2 ^ 9 mod 512 in
  node_at (mem_of s) root [i2; i1] = Some u →
  ∃ t, node_at (mem_of s) root [i2] = Some t ∧
    Pgt.map_create_large self vpn ppn flags s =
      Ret (Ok tt, self) (upd_mem (λ m, pte_write m t i1 (mk_pte (large_base ppn) flags)) s).
Proof using Type.
  intros Hok Hwf Hv Hp Hu Hfl root i2 i1 Hn.
  destruct (node_at_two _ _ _ _ _ Hn) as (t & Ht & Hv2 & Hl2 & Et & Hl1).
  exists t. split; [done|].
  destruct (vpn_path_idx vpn) as (Hi2 & Hi1 & _). fold i2 in Hi2. fold i1 in Hi1.
  assert (0 <= vpn < 2 ^ 52) as Hv' by (unfold vpn_valid in Hv; lia).
  assert (0 <= large_base ppn < 2 ^ 44) as Hpb by (unfold large_base; zlia).
  assert (path_ok [i2]) as Hπ by (split; [eauto using Forall|simpl; lia]).
  enough (wp (Pgt.map_create_large self vpn ppn flags) (λ r s', r = (Ok tt, self) ∧
    s' = upd_mem (λ m, pte_write m t i1 (mk_pte (large_base ppn) flags)) s) s) as Hw.
  { destruct (wp_returns _ _ _ Hw) as (? & ? & -> & -> & ->). done. }
  unfold Pgt.map_create_large.
  wp_step. eapply wp_intro; [by apply round_vpn_run|].
  wp_step. eapply wp_intro; [by apply round_ppn_run|].
  rewrite parse_large_base by done. fold i1 i2.
  rewrite pte_new_ok by (done || by apply is_valid_flags_range).
  cbn [parsed nth]. wp_step.
  apply wp_get_ptes_mut; [by apply (wf_root_ram (mem_of s))|]. wp_step. fold root.
  unfold Pgt.ensure_table. wp_step. apply wp_pte_get. rewrite Hv2. cbn [negb]. wp_step.
  wp_step. apply wp_pte_get. rewrite Hl2. wp_step. apply wp_get_ppn. wp_step.
  rewrite <- Et. apply wp_get_ptes_mut; [by apply (wf_ram _ _ Hwf [i2])|].
  wp_step. apply wp_pte_get. rewrite Hl1. wp_step. apply wp_pte_set. by wp_step.
Qed.
End large.
