(* ===== verification/Sv39Mmu.v ===== *)
(** * The hardware view of a page table

    The translation the RISC-V privileged specification (Sv39) prescribes, which
    the kernel relies on but does not contain, and its agreement with the tree of
    [Sv39Tree] on well-formed tables. *)

From S2P Require Export Sv39Edit Sv39Ops.

(** [R] or [X] makes an entry a leaf; [W] without [R] is reserved. *)
Definition mmu_leaf (e : Z) : bool := negb (e .& (PTE.FLAG_R .| PTE.FLAG_X) =? 0).
Definition mmu_reserved (e : Z) : bool :=
  negb (e .& PTE.FLAG_W =? 0) && (e .& PTE.FLAG_R =? 0).

Fixpoint mmu_walk (m : mem) (t : Z) (q : list Z) : option (nat * Z) :=
  match q with
  | [] => None
  | i :: q =>
      let e := pte m t i in
      if negb (PTE.is_valid e) || mmu_reserved e then None
      else if mmu_leaf e then Some (length q, e)
      else mmu_walk m (pte_ppn e) q
  end.

(** The bytes a leaf of level [l] covers *)
Definition leaf_size (l : nat) : Z := 4096 * 512 ^ Z.of_nat l.

(** The physical address and the flags a virtual address translates to *)
Definition mmu_translate (m : mem) (root va : Z) : option (Z * Z) :=
  if negb (VPN.is_valid_va va) then None
  else
    match mmu_walk m root (vpn_path (va / 4096)) with
    | Some (l, e) =>
        if pte_ppn e * 4096 mod leaf_size l =? 0
        then Some (pte_ppn e * 4096 + va mod leaf_size l, e mod 1024)
        else None
    | None => None
    end.

(** ** Flags, by cases on the ten bits *)

Lemma flags_cases (P : Z → bool) f :
  0 <= f < 1024 → forallb P (seqZ 0 1024) = true → P f = true.
Proof.
  intros Hf H. rewrite forallb_forall in H. apply H. apply list_elem_of_In.
  apply elem_of_seqZ. lia.
Qed.

(** Flags the code accepts, with one of [R], [W], [X], are a hardware leaf. *)
Definition leaf_flags (f : Z) : Prop :=
  PTE.is_valid_flags f = true ∧ f .& (PTE.FLAG_R .| PTE.FLAG_W .| PTE.FLAG_X) ≠ 0.

Lemma leaf_flags_mmu f :
  is_usize f → leaf_flags f → mmu_leaf f = true ∧ mmu_reserved f = false.
Proof.
  intros Hu [Hv Hne]. destruct (is_valid_flags_range f Hu Hv) as [Hf _].
  pose proof (flags_cases (λ f, negb (PTE.is_valid_flags f)
    || (f .& (PTE.FLAG_R .| PTE.FLAG_W .| PTE.FLAG_X) =? 0)
    || (mmu_leaf f && negb (mmu_reserved f))) f Hf ltac:(vm_compute; reflexivity)) as H.
  cbv beta in H. rewrite Hv in H. apply Z.eqb_neq in Hne. rewrite Hne in H. simpl in H.
  by apply andb_true_iff in H as [? ?%negb_true_iff].
Qed.

Lemma mk_pte_mmu p f :
  mmu_leaf (mk_pte p f) = mmu_leaf f ∧ mmu_reserved (mk_pte p f) = mmu_reserved f.
Proof.
  unfold mmu_leaf, mmu_reserved, mk_pte. by rewrite !flag_mask_low by done.
Qed.

Lemma mk_pte_flags p f : 0 <= f < 1024 → mk_pte p f mod 1024 = f.
Proof. unfold mk_pte. intros. zlia. Qed.

(** ** Agreement *)

Lemma pointer_not_mmu_leaf e :
  PTE.is_valid e = true → PTE.is_leaf e = false → e .& PTE.FLAG_R = 0 →
  mmu_leaf e = false ∧ mmu_reserved e = false.
Proof.
  unfold PTE.is_leaf. intros -> Hl Hr. simpl in Hl. apply negb_false_iff, Z.eqb_eq in Hl.
  rewrite Z.land_lor_distr_r in Hl. apply Z.lor_eq_0_iff in Hl as [Hx Hw].
  unfold mmu_leaf, mmu_reserved. rewrite Z.land_lor_distr_r, Hr, Hx, Hw. done.
Qed.

(** What the hardware accepts as a leaf *)
Definition mmu_accepts (e : Z) : bool := mmu_leaf e && negb (mmu_reserved e).

Lemma kernel_leaf_mmu e :
  PTE.is_leaf e = true → mmu_reserved e = false → mmu_leaf e = true.
Proof.
  unfold PTE.is_leaf, mmu_reserved, mmu_leaf. intros Hl Hr.
  apply andb_true_iff in Hl as [_ Hl]. apply negb_true_iff, Z.eqb_neq in Hl.
  apply negb_true_iff, Z.eqb_neq. rewrite Z.land_lor_distr_r in Hl |- *.
  intros [E1 E2]%Z.lor_eq_0_iff. rewrite E2 in Hl. rewrite E1, Z.lor_0_l in *.
  apply andb_false_iff in Hr as [Hr|Hr]; [|done].
  apply negb_false_iff, Z.eqb_eq in Hr. done.
Qed.

Lemma mmu_walk_agree m root q0 t q :
  pgt_wf m root → node_at m root q0 = Some t → full_path (q0 ++ q) → q ≠ [] →
  mmu_walk m t q =
    match lookup_at m t q with
    | Some (l, e) => if mmu_accepts e then Some (l, e) else None
    | None => None
    end.
Proof.
  intros Hwf. revert q0 t. unfold mmu_accepts.
  induction q as [|i q IH]; intros q0 t Hn [Hf Hl] Hne; [done|]. cbn [mmu_walk lookup_at] in *.
  destruct (PTE.is_valid (pte m t i)) eqn:Hv; [|done]. cbn [negb orb].
  destruct q as [|j q].
  - cbn [mmu_walk length]. by destruct (mmu_reserved _), (mmu_leaf _).
  - destruct (PTE.is_leaf (pte m t i)) eqn:Hleaf.
    + destruct (mmu_reserved _) eqn:Hr; cbn [negb]; [by rewrite andb_false_r|].
      by rewrite (kernel_leaf_mmu _ Hleaf Hr).
    + assert (path_ok (q0 ++ [i])) as Hp.
      { rewrite length_app in Hl. simpl in Hl. apply Forall_app in Hf as [Hf0 Hf].
        apply Forall_cons in Hf as [Hi _]. split; [|rewrite length_app; simpl; lia].
        apply Forall_app. eauto using Forall. }
      destruct (pointer_not_mmu_leaf (pte m t i)) as [-> ->];
        [done|done|by apply (wf_pointer _ _ Hwf q0)|].
      apply (IH (q0 ++ [i])); [|by rewrite <- app_assoc|done].
      rewrite node_at_app, Hn. cbn [node_at]. unfold child. by rewrite Hv, Hleaf.
Qed.

(** The hardware finds what the kernel's view finds, if it accepts the entry. *)
Lemma mmu_walk_lookup m root q :
  pgt_wf m root → full_path q →
  mmu_walk m root q =
    match lookup_at m root q with
    | Some (l, e) => if mmu_accepts e then Some (l, e) else None
    | None => None
    end.
Proof.
  intros Hwf Hq. apply (mmu_walk_agree m root []); [done..|]. intros ->. by destruct Hq.
Qed.

(** Tables with the same mapping translate alike. *)
Lemma mmu_translate_ext m m' root root' va :
  pgt_wf m root → pgt_wf m' root' →
  lookup_at m' root' (vpn_path (va / 4096)) = lookup_at m root (vpn_path (va / 4096)) →
  mmu_translate m' root' va = mmu_translate m root va.
Proof.
  intros Hwf Hwf' E. unfold mmu_translate.
  rewrite !mmu_walk_lookup, E by (done || apply vpn_path_full). done.
Qed.

(** A page leaf of the kernel's making *)
Lemma mmu_translate_page m root va p f :
  pgt_wf m root → VPN.is_valid_va va = true → 0 <= p < 2 ^ 44 → is_usize f → leaf_flags f →
  lookup_at m root (vpn_path (va / 4096)) = Some (O, mk_pte p f) →
  mmu_translate m root va = Some (p * 4096 + va mod 4096, f).
Proof.
  intros Hwf Hva Hp Hu Hf El. unfold mmu_translate. rewrite Hva. cbn [negb].
  destruct (is_valid_flags_range f Hu (proj1 Hf)) as [Hfr _].
  destruct (leaf_flags_mmu f Hu Hf) as [E1 E2]. destruct (mk_pte_mmu p f) as [E3 E4].
  rewrite mmu_walk_lookup, El by (done || apply vpn_path_full).
  unfold mmu_accepts. rewrite E3, E4, E1, E2. cbn [andb negb].
  rewrite mk_pte_ppn, mk_pte_flags by done. change (leaf_size 0) with 4096.
  by rewrite Z.mod_mul.
Qed.

(** A large-page leaf of the kernel's making *)
Lemma mmu_translate_large m root va p f :
  pgt_wf m root → VPN.is_valid_va va = true → 0 <= p < 2 ^ 44 → p mod 512 = 0 →
  is_usize f → leaf_flags f →
  lookup_at m root (vpn_path (va / 4096)) = Some (1%nat, mk_pte p f) →
  mmu_translate m root va = Some (p * 4096 + va mod 2 ^ 21, f).
Proof.
  intros Hwf Hva Hp Hal Hu Hf El. unfold mmu_translate. rewrite Hva. cbn [negb].
  destruct (is_valid_flags_range f Hu (proj1 Hf)) as [Hfr _].
  destruct (leaf_flags_mmu f Hu Hf) as [E1 E2]. destruct (mk_pte_mmu p f) as [E3 E4].
  rewrite mmu_walk_lookup, El by (done || apply vpn_path_full).
  unfold mmu_accepts. rewrite E3, E4, E1, E2. cbn [andb negb].
  rewrite mk_pte_ppn, mk_pte_flags by done. change (leaf_size 1) with (2 ^ 21).
  destruct (Z.eqb_spec (p * 4096 mod 2 ^ 21) 0); [done|zlia].
Qed.
