(* ===== verification/Sv39Props.v ===== *)
(** * Correctness of the page-table operations

    The invariant of a [RootPgt] and its pages, and the properties of
    [src/os/src/mm/sv39.rs]: what the hardware translates after each operation,
    which pages an operation may write, and the errors and panics. *)

From S2P Require Export Sv39Unmap Sv39Large Sv39Mmu.
From S2P Require Import PageAlloc.

(** ** The invariant of a root page table *)

(** A path in the user half of the address space *)
Definition low_path (q : list Z) : Prop :=
  match q with [] => True | i :: _ => i < 256 end.

Section invariant.
Context {S : Type} `{PageSourceLaws S}.
Implicit Types (s : S) (self : RootPgt).

Record pgt_inv self s : Prop := {
  pi_ok : ps_ok s;
  pi_wf : pgt_wf (mem_of s) (rp_ppn self);
  pi_fresh : pgt_fresh s (rp_ppn self);
  pi_nodup : NoDup (rp_pages self);
  pi_owned p : p ∈ rp_pages self → ps_managed p ∧ ¬ ps_free s p;
  (** the tables of the user half are its own *)
  pi_low q t : path_ok q → low_path q →
    node_at (mem_of s) (rp_ppn self) q = Some t → t ∈ rp_pages self;
}.

Lemma pgt_inv_step self W new s s' :
  pgt_inv self s → pgt_step (rp_ppn self) W new s s' →
  pgt_inv (mk_RootPgt (rp_ppn self) (rp_pages self ++ new)) s'.
Proof.
  intros [Hok Hwf Hfr Hnd Hown Hlow] [Hok' Hwf' Hfr' Hnd' Hnew Hfree Hn Hni Hp].
  split; simpl; [done..| | |].
  - apply NoDup_app. split_and!; [done| |done]. intros p Hin Hp'.
    apply Hnew in Hp'. apply Hown in Hin. tauto.
  - intros p [Hin|Hin]%elem_of_app; rewrite Hfree.
    + apply Hown in Hin. tauto.
    + split; [|tauto]. by apply (ps_free_managed s), Hnew.
  - intros q t Hq Hl Ht. apply elem_of_app. destruct (Hni q t Hq Ht); [left|by right].
    by apply (Hlow q).
Qed.

Lemma pgt_inv_unmapped self s start end_vpn s' :
  pgt_inv self s → unmapped self s start end_vpn s' → pgt_inv self s'.
Proof.
  intros [Hok Hwf Hfr Hnd Hown Hlow] (Hok' & Hf & Hc).
  pose proof (cl_node _ _ _ _ _ Hc) as Hn. split; [done|apply Hc| |done| |].
  - intros p Hp q Hq. rewrite Hn by done. apply Hfr; [by apply Hf|done].
  - intros p Hp. rewrite Hf. by apply Hown.
  - intros q t Hq Hl. rewrite Hn by done. by apply Hlow.
Qed.

(** The last-level table of a user page belongs to the table. *)
Lemma vpn_tables_owned self s vpn p :
  pgt_inv self s → 0 <= vpn < 2 ^ 26 → vpn_tables s (rp_ppn self) vpn p → p ∈ rp_pages self.
Proof.
  intros Hi Hv (q & Hq & Hn). apply (pi_low _ _ Hi q); [| |done].
  - destruct Hq as [z Hz]. apply (path_ok_prefix q z). rewrite <- Hz. apply vpn_tables_path_ok.
  - destruct q as [|i q]; simpl; [done|]. destruct Hq as [z Hz]. injection Hz as <- _. zlia.
Qed.

Lemma vpn_path_valid_inj v1 v2 :
  vpn_valid v1 → vpn_valid v2 → vpn_path v1 = vpn_path v2 → v1 = v2.
Proof. unfold vpn_valid. intros H1' H2' E%vpn_path_inj. zlia. Qed.

Lemma vpn_valid_range v : vpn_valid v → 0 <= v < 2 ^ 52.
Proof. unfold vpn_valid. lia. Qed.

Lemma va_vpn_valid va : is_usize va → VPN.is_valid_va va = true → vpn_valid (va / 4096).
Proof.
  intros Hu Hv. rewrite is_valid_va_cases in Hv by done. unfold vpn_valid.
  unfold is_usize, USIZE_MODULUS in Hu. zlia.
Qed.
End invariant.

(** ** A small kernel page table, for examples: one last-level table, reached through
    slots 256 and 0, as the kernel's device mappings make it *)
Definition sample_tree (r : Z) (m : mem) : mem :=
  pte_write (pte_write m r 256 (table_pte (r + 1))) (r + 1) 0 (table_pte (r + 2)).
Definition sample_root (r : Z) : RootPgt := mk_RootPgt r [r; r + 1; r + 2].
Definition sample_pgt_mem : mem := sample_tree 0x80706 ∅.
Definition sample_pgt : RootPgt := mk_RootPgt 0x80706 [0x80706; 0x80707; 0x80708].
Definition sample_pgt_mm : MM :=
  mk_MM sample_pgt_mem (new (mk_PageAllocator 0x80710 LAST_PPN [])) 0.

Lemma sample_tree_low r m i : 0 <= i < 256 → pte (sample_tree r m) r i = pte m r i.
Proof.
  intros Hi. unfold sample_tree. rewrite !pte_write_ne; [done|unfold idx_ok; lia|unfold idx_ok; lia| |
    unfold idx_ok; lia|unfold idx_ok; lia|]; intros [=]; lia.
Qed.
Lemma empty_page_zero p : page_zero ∅ p.
Proof. intros a _. unfold read_u8. by rewrite lookup_empty. Qed.

Lemma sample_tree_tables r :
  0 <= r → r + 2 < 2 ^ 26 →
  pgt_wf (sample_tree r ∅) r ∧
  (∀ q t, path_ok q → node_at (sample_tree r ∅) r q = Some t →
     (q, t) ∈ [([], r); ([256], (r + 1)); ([256; 0], (r + 2))]) ∧
  (∀ q, full_path q → lookup_at (sample_tree r ∅) r q = None) ∧
  node_at (sample_tree r ∅) r [256; 0] = Some (r + 2).
Proof.
  intros Hr0 Hr2. set (m1 := pte_write ∅ r 256 (table_pte (r + 1))).
  assert (pgt_wf ∅ r) as Hwf0 by (apply pgt_wf_zero; [lia|apply empty_page_zero]).
  assert (∀ q t, path_ok q → node_at ∅ r q = Some t → q = [] ∧ t = r) as Hn0.
  { intros q t Hq Hn. apply (node_at_zero_root ∅); [apply empty_page_zero|done..]. }
  assert (not_table ∅ r (r + 1)) as Hf0 by (intros q Hq Hn; destruct (Hn0 q _ Hq Hn); lia).
  assert (idx_ok 256) as H256 by (unfold idx_ok; lia).
  assert (idx_ok 0) as H00 by (unfold idx_ok; lia).
  assert (∀ p, 0 <= p < 2 ^ 26 → is_usize (table_pte p)) as He
    by (intros; apply mk_pte_usize; lia).
  assert (0 <= (r + 1) < 2 ^ 26) as Hr7 by lia. assert (0 <= (r + 2) < 2 ^ 26) as Hr8 by lia.
  assert (PTE.is_valid (pte ∅ r 256) = false) as Hs0
    by (by rewrite pte_zero_page by (apply empty_page_zero || done)).
  assert (∀ q, path_ok q → node_at m1 r q =
    if decide (q = [256]) then Some (r + 1) else node_at ∅ r q) as Hn1.
  { intros q Hq. by apply (link_node ∅ _ Hwf0 [] 256 r _ path_ok_nil H256 eq_refl
      (He _ Hr7) _ Hr7 eq_refl ltac:(simpl; lia) Hs0 (empty_page_zero _) Hf0). }
  assert (pgt_wf m1 r) as Hwf1
    by (by apply (link_wf ∅ _ Hwf0 [] 256 r _ path_ok_nil H256 eq_refl
      (He _ Hr7) _ Hr7 eq_refl ltac:(simpl; lia) Hs0 (empty_page_zero _) Hf0)).
  assert (∀ p, p ≠ r → page_zero m1 p) as Hz1.
  { intros p Hp. eapply page_same_zero; [by apply page_same_write|apply empty_page_zero]. }
  assert (path_ok [256]) as Hp256 by (by apply path1_ok).
  assert (not_table m1 r (r + 2)) as Hf1.
  { intros q Hq. rewrite Hn1 by done. case_decide; [intros [= ?]; lia|].
    intros Hn. destruct (Hn0 q _ Hq Hn). lia. }
  assert (node_at m1 r [256] = Some (r + 1)) as Ht1 by (by rewrite Hn1).
  assert (PTE.is_valid (pte m1 (r + 1) 0) = false) as Hs1
    by (rewrite pte_zero_page; [done|apply Hz1; lia|done]).
  assert (∀ q, path_ok q → node_at (sample_tree r ∅) r q =
    if decide (q = [256; 0]) then Some (r + 2) else node_at m1 r q) as E.
  { intros q Hq. by apply (link_node m1 _ Hwf1 [256] 0 (r + 1) _ Hp256 H00 Ht1 (He _ Hr8) _ Hr8 eq_refl
      ltac:(simpl; lia) Hs1 (Hz1 (r + 2) ltac:(lia)) Hf1). }
  split_and!.
  - by apply (link_wf m1 _ Hwf1 [256] 0 (r + 1) _ Hp256 H00 Ht1 (He _ Hr8) _ Hr8 eq_refl
      ltac:(simpl; lia) Hs1 (Hz1 (r + 2) ltac:(lia)) Hf1).
  - intros q t Hq Hn. rewrite E, Hn1 in Hn by done.
    case_decide as E2; [rewrite E2; injection Hn as <-; do 2 right; left|].
    case_decide as E1; [rewrite E1; injection Hn as <-; right; left|].
    destruct (Hn0 q t Hq Hn) as [-> ->]. left.
  - intros q Hq.
    transitivity (lookup_at m1 r q).
    { by apply (link_lookup m1 _ Hwf1 [256] 0 (r + 1) _ Hp256 H00 Ht1 (He _ Hr8) _ Hr8 eq_refl
        ltac:(simpl; lia) Hs1 (Hz1 (r + 2) ltac:(lia)) Hf1). }
    transitivity (lookup_at ∅ r q).
    { by apply (link_lookup ∅ _ Hwf0 [] 256 r _ path_ok_nil H256 eq_refl
      (He _ Hr7) _ Hr7 eq_refl ltac:(simpl; lia) Hs0 (empty_page_zero _) Hf0). }
    destruct Hq as [Hq _]. apply lookup_at_zero; [apply empty_page_zero|done].
  - rewrite E by (by apply path2_ok). by rewrite decide_True.
Qed.

Lemma sample_pgt_tables :
  pgt_wf sample_pgt_mem 0x80706 ∧
  (∀ q t, path_ok q → node_at sample_pgt_mem 0x80706 q = Some t →
     (q, t) ∈ [([], 0x80706); ([256], 0x80707); ([256; 0], 0x80708)]) ∧
  (∀ q, full_path q → lookup_at sample_pgt_mem 0x80706 q = None).
Proof. destruct (sample_tree_tables 0x80706) as (? & ? & ? & _); [done..|]. by split_and!. Qed.

Lemma sample_pgt_ok : @pgt_inv MM _ _ (@page_source_laws_MM sample_symbols) sample_pgt sample_pgt_mm.
Proof.
  destruct sample_pgt_tables as (Hwf & Hn & _).
  assert (∀ p, @mm_free sample_pgt_mm p → 0x80710 <= p) as Hfree.
  { intros p [Hp|Hp]; [by apply elem_of_nil in Hp|]. simpl in Hp. lia. }
  split.
  - split; [done|]. split; simpl; [done|vm_compute; congruence|constructor|by intros ? ?%elem_of_nil].
  - exact Hwf.
  - intros p Hp q Hq Hnq. apply Hfree in Hp. apply (Hn q p Hq) in Hnq.
    rewrite !elem_of_cons, elem_of_nil in Hnq. destruct Hnq as [?|[?|[?|?]]]; simplify_eq; lia.
  - simpl. repeat (apply NoDup_cons_2; [set_solver|]). apply NoDup_nil_2.
  - intros p Hp. split.
    + simpl in *. assert (0x80706 <= p <= 0x80708) as Hpr by (set_unfold in Hp; lia).
      change (@managed sample_symbols p). unfold managed, LAST_PPN.
      change (@first_ppn sample_symbols) with 0x80706. lia.
    + intros Hf%Hfree. simpl in Hp. set_unfold in Hp. lia.
  - intros q t Hq _ Hnq. apply (Hn q t Hq) in Hnq.
    rewrite !elem_of_cons, elem_of_nil in Hnq. simpl.
    destruct Hnq as [?|[?|[?|?]]]; simplify_eq; set_solver.
Qed.

(** ** Mapping a page *)
Section map.
Context {S : Type} `{PageSourceLaws S}.
Implicit Types (s : S) (self : RootPgt).

(** The result of [map_create], with the invariant *)
Lemma map_create_inv self vpn ppn flags s :
  pgt_inv self s → vpn_valid vpn → 0 <= ppn < 2 ^ 44 → is_usize flags →
  wp (Pgt.map_create self vpn ppn flags) (λ '(r, self') s', ∃ new,
    self' = mk_RootPgt (rp_ppn self) (rp_pages self ++ new) ∧ (length new <= 2)%nat ∧
    pgt_inv self' s' ∧ pgt_step (rp_ppn self) (vpn_tables s (rp_ppn self) vpn) new s s' ∧
    grew_along (rp_ppn self) [vpn / 2 ^ 18 mod 512; vpn / 2 ^ 9 mod 512] new s s' ∧
    let before v := pgt_lookup (mem_of s) (rp_ppn self) v in
    let after v := pgt_lookup (mem_of s') (rp_ppn self) v in
    match r with
    | Ok _ =>
        PTE.is_valid_flags flags = true ∧ before vpn = None ∧
        after vpn = Some (O, mk_pte ppn flags) ∧
        ∀ v, vpn_valid v → v ≠ vpn → after v = before v
    | Err e =>
        (∀ v, after v = before v) ∧
        match e with
        | InvalidPteFlags f => f = flags ∧ PTE.is_valid_flags flags = false
        | AcquirePageFailed => before vpn = None ∧ ∀ p, ¬ ps_free s' p
        | DoubleMapping v p => v = vpn ∧ p = ppn ∧ is_Some (before vpn)
        end
    end) s.
Proof.
  intros Hi Hv Hp Hu. eapply wp_mono; [apply (map_create_wp self vpn ppn flags s);
    [apply Hi|apply Hi|apply Hi|by apply vpn_valid_range|done|done]|].
  intros [r self'] s' (new & -> & Hn & Hst & Ha & Hr). exists new. split; [done|]. split; [done|].
  split; [by eapply pgt_inv_step|]. split; [done|]. split; [done|]. unfold pgt_lookup.
  destruct r as [[]|e].
  - destruct Hr as (Hf & Hb & Hl). split_and!; [done..| |].
    + rewrite Hl by apply vpn_path_full. by rewrite decide_True.
    + intros v Hv' Hne. rewrite Hl by apply vpn_path_full.
      rewrite decide_False; [done|]. intros E. by apply vpn_path_valid_inj in E.
  - destruct Hr as [Hl He]. split; [intros v; apply Hl, vpn_path_full|].
    destruct e; naive_solver.
Qed.
End map.

(** C20: [map_create] returns for every page, frame and flags, keeps the page table
    well-formed with all its tables owned, and its result says what it did: [Ok]
    when the page was unmapped, and then exactly this page maps to the frame with
    the flags; [DoubleMapping] exactly when the page was mapped already,
    [InvalidPteFlags] for flags the hardware reserves, [AcquirePageFailed] when no
    page is left for a table; no error changes any mapping. *)
Theorem map_create_correct {S : Type} `{PageSourceLaws S} self vpn ppn flags (s : S) :
  pgt_inv self s → vpn_valid vpn → 0 <= ppn < 2 ^ 44 → is_usize flags →
  let root := rp_ppn self in
  ∃ r self' s',
    Pgt.map_create self vpn ppn flags s = Ret (r, self') s' ∧
    pgt_inv self' s' ∧ rp_ppn self' = root ∧
    match r with
    | Ok _ =>
        pgt_lookup (mem_of s) root vpn = None ∧
        pgt_lookup (mem_of s') root vpn = Some (O, mk_pte ppn flags) ∧
        ∀ v, vpn_valid v → v ≠ vpn →
          pgt_lookup (mem_of s') root v = pgt_lookup (mem_of s) root v
    | Err e =>
        (∀ v, pgt_lookup (mem_of s') root v = pgt_lookup (mem_of s) root v) ∧
        match e with
        | InvalidPteFlags f => f = flags ∧ PTE.is_valid_flags flags = false
        | AcquirePageFailed =>
            pgt_lookup (mem_of s) root vpn = None ∧ ∀ p, ¬ ps_free s' p
        | DoubleMapping v p =>
            v = vpn ∧ p = ppn ∧ is_Some (pgt_lookup (mem_of s) root vpn)
        end
    end.
Proof.
  intros Hi Hv Hp Hu root.
  destruct (wp_returns _ _ _ (map_create_inv self vpn ppn flags s Hi Hv Hp Hu))
    as ([r self'] & s' & Hrun & new & -> & _ & Hi' & _ & _ & Hr).
  exists r, (mk_RootPgt root (rp_pages self ++ new)), s'. split_and!; [done..|].
  destruct r; [by destruct Hr as (? & ? & ? & ?)|exact Hr].
Qed.

Lemma map_create_correct_witness :
  ∃ r self' s',
    Pgt.map_create sample_pgt 0x10 0x80700 0x1f sample_pgt_mm = Ret (r, self') s' ∧
    rp_ppn self' = 0x80706.
Proof.
  destruct (@map_create_correct MM _ _ (@page_source_laws_MM sample_symbols)
    sample_pgt 0x10 0x80700 0x1f sample_pgt_mm sample_pgt_ok) as (r & self' & s' & Hr & _ & Hp & _).
  - left. lia.
  - lia.
  - vm_compute. split; congruence.
  - exists r, self', s'. split; [exact Hr|exact Hp].
Defined.

(** The example allocator has pages to spare. *)
Lemma sample_pgt_spare n : (n <= 32)%nat →
  @spare MM _ _ (@page_source_laws_MM sample_symbols) n sample_pgt_mm.
Proof.
  intros Hn. exists (seqZ 0x80710 (Z.of_nat n)). split_and!.
  - apply NoDup_seqZ.
  - rewrite length_seqZ. lia.
  - intros p [Hp1 Hp2]%elem_of_seqZ. right. simpl. unfold LAST_PPN. lia.
Qed.

(** A mapped page, as the hardware sees it *)
Lemma map_create_mmu {S : Type} `{PageSourceLaws S} self vpn ppn flags (s : S) self' s' :
  pgt_inv self s → vpn_valid vpn → 0 <= ppn < 2 ^ 44 → is_usize flags → leaf_flags flags →
  Pgt.map_create self vpn ppn flags s = Ret (Ok tt, self') s' →
  ∀ va, is_usize va →
    mmu_translate (mem_of s') (rp_ppn self) va =
      if decide (va / 4096 = vpn ∧ VPN.is_valid_va va = true)
      then Some (ppn * 4096 + va mod 4096, flags)
      else mmu_translate (mem_of s) (rp_ppn self) va.
Proof.
  intros Hi Hv Hp Hu Hf Hrun va Hva.
  apply (wp_run _ _ _ _ _ (map_create_inv self vpn ppn flags s Hi Hv Hp Hu)) in Hrun
    as (new & -> & _ & Hi' & Hst & _ & Hfl & Hn & Hnew & Hold). pose proof (pi_wf _ _ Hi') as Hwf'.
  case_decide as E.
  - destruct E as [<- Hcan]. by apply mmu_translate_page.
  - destruct (VPN.is_valid_va va) eqn:Hcan; [|by unfold mmu_translate; rewrite Hcan].
    apply mmu_translate_ext; [apply Hi|done|].
    apply Hold; [by apply va_vpn_valid|tauto].
Qed.

(** C25: after a successful [map_create] the hardware translates every address of
    the page to the same offset in the frame, with the flags given, and every
    address outside the page as it did before. *)
Theorem map_create_translates {S : Type} `{PageSourceLaws S} self vpn ppn flags (s : S) self' s' :
  pgt_inv self s → vpn_valid vpn → 0 <= ppn < 2 ^ 44 → is_usize flags → leaf_flags flags →
  Pgt.map_create self vpn ppn flags s = Ret (Ok tt, self') s' →
  ∀ va, is_usize va →
    mmu_translate (mem_of s') (rp_ppn self) va =
      if decide (va / 4096 = vpn ∧ VPN.is_valid_va va = true)
      then Some (ppn * 4096 + va mod 4096, flags)
      else mmu_translate (mem_of s) (rp_ppn self) va.
Proof. apply map_create_mmu. Qed.

Lemma map_create_translates_witness :
  ∃ self' s',
    Pgt.map_create sample_pgt 0xffffffc000010 0x80700 0x1f sample_pgt_mm = Ret (Ok tt, self') s' ∧
    mmu_translate (mm_mem s') 0x80706 0xffffffc000010123 = Some (0x80700123, 0x1f).
Proof.
  destruct (ran_ok_inv (Pgt.map_create sample_pgt 0xffffffc000010 0x80700 0x1f sample_pgt_mm))
    as ([] & self' & s' & Hr); [vm_compute; reflexivity|].
  exists self', s'. split; [exact Hr|].
  assert (is_usize 0x1f) as Hu by (vm_compute; split; congruence).
  refine (@map_create_translates MM _ _ (@page_source_laws_MM sample_symbols)
    sample_pgt 0xffffffc000010 0x80700 0x1f sample_pgt_mm self' s' sample_pgt_ok
    _ _ Hu _ Hr 0xffffffc000010123 _).
  - right. lia.
  - lia.
  - split; [reflexivity|]. vm_compute. congruence.
  - vm_compute. split; congruence.
Defined.

(** ** Unmapping *)

(** C21: [unmap] of a user range succeeds when some last-level table reaches the end
    of the range - the kernel's device mappings, shared by every page table, always
    do - and no large page is in the way: afterwards no address of the range
    translates, every other address translates as before, no page is allocated or
    freed, and the page table stays well-formed. *)
Theorem unmap_correct {S : Type} `{PageSourceLaws S} self start end_vpn j2 j1 (s : S) :
  pgt_inv self s → 0 <= start < end_vpn → end_vpn <= 2 ^ 26 →
  sentinel self s start end_vpn j2 j1 →
  ∃ s', Pgt.unmap self start end_vpn s = Ret (Ok tt) s' ∧ pgt_inv self s' ∧
    (∀ p, ps_free s' p ↔ ps_free s p) ∧
    ∀ va, is_usize va →
      mmu_translate (mem_of s') (rp_ppn self) va =
        if decide (start <= va / 4096 < end_vpn) then None
        else mmu_translate (mem_of s) (rp_ppn self) va.
Proof.
  intros Hi Hse Hle Hsn. pose proof (sn_end _ _ _ _ _ _ Hsn).
  destruct (wp_returns _ _ _ (unmap_wp self s start end_vpn j2 j1 Hsn ltac:(lia)
    (pi_ok _ _ Hi) (pi_wf _ _ Hi) ltac:(lia) ltac:(lia) ltac:(lia))) as (r & s' & Hrun & -> & Hun).
  exists s'. pose proof (pgt_inv_unmapped _ _ _ _ _ Hi Hun) as Hi'.
  destruct Hun as (_ & Hf & Hc). split_and!; [done..|]. intros va Hva.
  destruct (VPN.is_valid_va va) eqn:Hcan.
  2:{ unfold mmu_translate. rewrite Hcan. by case_decide. }
  pose proof (va_vpn_valid va Hva Hcan) as Hv. unfold vpn_valid in Hv.
  assert (lookup_at (mem_of s') (rp_ppn self) (vpn_path (va / 4096)) =
    if decide (start <= va / 4096 < end_vpn) then None
    else lookup_at (mem_of s) (rp_ppn self) (vpn_path (va / 4096))) as Hl.
  { set (v := va / 4096) in *. assert (vpn_path v = vpn_path (v mod 2 ^ 27)) as E
      by (unfold vpn_path; f_equal; [zlia|f_equal; [zlia|f_equal; zlia]]).
    rewrite E, (cl_lookup _ _ _ _ _ Hc) by (by apply Z.mod_pos_bound).
    repeat case_decide; (done || zlia). }
  case_decide.
  - unfold mmu_translate. rewrite Hcan. cbn [negb].
    by rewrite mmu_walk_lookup, Hl by (apply Hi' || apply vpn_path_full).
  - apply mmu_translate_ext; [apply Hi|apply Hi'|exact Hl].
Qed.

Lemma unmap_correct_witness :
  ∃ s', Pgt.unmap sample_pgt 0x10 0x20 sample_pgt_mm = Ret (Ok tt) s' ∧
    mmu_translate (mm_mem s') 0x80706 0x10000 = None.
Proof.
  destruct (@unmap_correct MM _ _ (@page_source_laws_MM sample_symbols)
    sample_pgt 0x10 0x20 256 0 sample_pgt_mm sample_pgt_ok) as (s' & Hr & _ & _ & Hm).
  - lia.
  - lia.
  - split.
    + split; unfold idx_ok; lia.
    + vm_compute. by eexists.
    + unfold vpn_of. lia.
    + intros v l e _ Hl. destruct sample_pgt_tables as (_ & _ & Hnone).
      rewrite Hnone in Hl; [discriminate|apply vpn_path_full].
  - exists s'. split; [exact Hr|].
    etransitivity; [refine (Hm 0x10000 _)|reflexivity]. vm_compute. split; congruence.
Defined.

(** A table with no valid entry: the loops fall through to the final panic. *)
Lemma unmap_vpn2_empty {S : Type} `{PageSourceLaws S} l p1 p0 root end_vpn (s : S) :
  (∀ i, i ∈ l → PTE.is_valid (pte (mem_of s) root i) = false) →
  Pgt.unmap_vpn2 l p1 p0 (table_va root) end_vpn s = Panic "Code should not reach here.".
Proof.
  revert p1 p0. induction l as [|i l IH]; intros p1 p0 Hl; [done|]. simpl.
  unfold mbind, M_bind at 1. rewrite pte_get_run, Hl by left. cbn [negb].
  apply IH. intros j Hj. apply Hl. by right.
Qed.

(** without a last-level table past its end, [unmap] panics: on the empty table
    [RootPgt::new] makes, unmapping any nonempty range ends in the final
    [panic!] although there is nothing to unmap. *)
Theorem unmap_fresh_panics {S : Type} `{PageSourceLaws S} self start end_vpn (s s' : S) :
  ps_ok s → Pgt.new s = Ret (Ok self) s' → 0 <= start < end_vpn → start < 2 ^ 52 →
  Pgt.unmap self start end_vpn s' = Panic "Code should not reach here.".
Proof.
  intros Hok Hnew Hse Hv.
  apply (wp_run _ _ _ _ _ (new_wp s Hok)) in Hnew as (_ & _ & Hwf & _ & Hn & Hl).
  unfold Pgt.unmap. destruct (Z.leb_spec end_vpn start); [lia|].
  unfold mbind, M_bind at 1. rewrite get_ptes_mut_run by (by apply (wf_root_ram (mem_of s'))).
  apply unmap_vpn2_empty. intros i Hi. apply elem_of_range in Hi.
  rewrite parse_vpn_eq in Hi by lia. cbn [parsed nth] in Hi.
  assert (idx_ok i) as Hidx by (unfold idx_ok, PTES_PER_TABLE in *; zlia).
  destruct (PTE.is_valid (pte (mem_of s') (rp_ppn self) i)) eqn:Hvi; [exfalso|done].
  destruct (PTE.is_leaf (pte (mem_of s') (rp_ppn self) i)) eqn:Hleaf.
  - assert (full_path [i; 0; 0]) as Hfp
      by (split; [|done]; repeat (apply Forall_cons_2; [done || (unfold idx_ok; lia)|]); constructor).
    apply Hl in Hfp. cbn [lookup_at] in Hfp. by rewrite Hvi, Hleaf in Hfp.
  - assert (node_at (mem_of s') (rp_ppn self) [i] =
      Some (pte_ppn (pte (mem_of s') (rp_ppn self) i))) as Hni
      by (cbn [node_at]; unfold child; by rewrite Hvi, Hleaf).
    apply Hn in Hni; [done|by apply path1_ok].
Qed.

Lemma unmap_fresh_panics_witness :
  ∃ self s', Pgt.new sample_pgt_mm = Ret (Ok self) s' ∧
    Pgt.unmap self 0x10 0x20 s' = Panic "Code should not reach here.".
Proof.
  destruct (wp_returns _ _ _ (@new_wp MM _ _ (@page_source_laws_MM sample_symbols)
    sample_pgt_mm (pi_ok _ _ sample_pgt_ok))) as ([self|e] & s' & E & Hr).
  2:{ destruct (@spare_one MM _ _ (@page_source_laws_MM sample_symbols) _ _
      (sample_pgt_spare 1 ltac:(lia))) as [p Hp].
    destruct Hr as (_ & _ & Hnf). destruct (Hnf p Hp). }
  exists self, s'. split; [exact E|].
  refine (@unmap_fresh_panics MM _ _ (@page_source_laws_MM sample_symbols)
    self 0x10 0x20 sample_pgt_mm s' _ E _ _); [apply sample_pgt_ok|lia|lia].
Defined.

(** ** Inheriting the kernel's mappings *)

(** The result of [new_copy], with the invariant *)
Lemma new_copy_inv {S : Type} `{PageSourceLaws S} k (s : S) :
  ps_ok s → pgt_wf (mem_of s) k → pgt_fresh s k →
  (∀ i, 0 <= i < 256 → node_at (mem_of s) k [i] = None) →
  wp (Pgt.new_copy (table_va k)) (λ r s',
    match r with
    | Ok self =>
        pgt_inv self s' ∧ rp_pages self = [rp_ppn self] ∧ took (rp_ppn self) s s' ∧
        (∀ i q, path_ok (i :: q) →
           node_at (mem_of s') (rp_ppn self) (i :: q) = node_at (mem_of s) k (i :: q)) ∧
        ∀ q, full_path q → lookup_at (mem_of s') (rp_ppn self) q = lookup_at (mem_of s) k q
    | Err e => e = AcquirePageFailed ∧ s' = s ∧ ∀ p, ¬ ps_free s p
    end) s.
Proof.
  intros Hok Hwf Hfr Hlow. eapply wp_mono; [by apply (new_copy_wp k s Hok Hwf Hfr)|].
  intros [self|e] s'; [|done]. intros (Hpg & Htook & Hwf' & Hfr' & Hn & Hl).
  pose proof Htook as (Hok' & Hp & Hf & _).
  split; [|done]. split; [done..| | |].
  - rewrite Hpg. apply NoDup_singleton.
  - intros p Hin. rewrite Hpg in Hin. apply list_elem_of_singleton in Hin as ->.
    rewrite Hf. split; [by apply (ps_free_managed s)|tauto].
  - intros [|i q] t Hq Hlo Ht; [injection Ht as <-; rewrite Hpg; by left|exfalso].
    rewrite Hn in Ht by done.
    assert (0 <= i < 256) as Hi by (pose proof (path_ok_idx [] i q Hq) as [? _]; done).
    apply Hlow in Hi. change (i :: q) with ([i] ++ q) in Ht.
    by rewrite node_at_app, Hi in Ht.
Qed.

(** C26: [RootPgt::new_copy] of a kernel table with an empty user half gives a
    well-formed page table in a fresh page that translates every address as the
    kernel does and owns all the tables of its own user half; it fails only when no
    page is left, and then changes nothing. *)
Theorem new_copy_inherits {S : Type} `{PageSourceLaws S} k (s : S) :
  ps_ok s → pgt_wf (mem_of s) k → pgt_fresh s k →
  (∀ i, 0 <= i < 256 → node_at (mem_of s) k [i] = None) →
  ∃ r s', Pgt.new_copy (table_va k) s = Ret r s' ∧
    match r with
    | Ok self =>
        pgt_inv self s' ∧ ps_free s (rp_ppn self) ∧
        ∀ va, mmu_translate (mem_of s') (rp_ppn self) va = mmu_translate (mem_of s) k va
    | Err e => e = AcquirePageFailed ∧ s' = s ∧ ∀ p, ¬ ps_free s p
    end.
Proof.
  intros Hok Hwf Hfr Hlow.
  destruct (wp_returns _ _ _ (new_copy_inv k s Hok Hwf Hfr Hlow)) as (r & s' & Hrun & Hr).
  exists r, s'. split; [done|]. destruct r as [self|e]; [|done].
  destruct Hr as (Hi & _ & (_ & Hp & _) & _ & Hl). split_and!; [done..|].
  intros va. apply mmu_translate_ext; [done|apply Hi|]. apply Hl, vpn_path_full.
Qed.

Lemma new_copy_inherits_witness :
  ∃ r s', Pgt.new_copy (table_va 0x80706) sample_pgt_mm = Ret r s' ∧
    match r with Ok self => mm_free sample_pgt_mm (rp_ppn self) | Err _ => True end.
Proof.
  destruct (@new_copy_inherits MM _ _ (@page_source_laws_MM sample_symbols)
    0x80706 sample_pgt_mm) as (r & s' & Hr & H).
  - apply sample_pgt_ok.
  - apply (pi_wf _ _ sample_pgt_ok).
  - apply (pi_fresh _ _ sample_pgt_ok).
  - intros i Hi. destruct sample_pgt_tables as (_ & Hn & _).
    destruct (node_at sample_pgt_mem 0x80706 [i]) as [t|] eqn:E; [exfalso|exact E].
    assert (path_ok [i]) as Hp by (apply path1_ok; unfold idx_ok; lia).
    apply Hn in E; [|exact Hp]. rewrite !elem_of_cons, elem_of_nil in E.
    destruct E as [E|[E|[E|[]]]]; injection E; intros; lia || discriminate.
  - exists r, s'. split; [exact Hr|]. destruct r; [apply H|exact I].
Defined.

(** ** Isolation *)

(** C24: isolation of page tables: mapping a user page, whatever its result, writes only
    pages the page table owns afterwards, and each of them it owned before or was free;
    so no other page table whose tables are not among them - the kernel's, or that of
    another address space with which it shares the kernel half - translates any address
    differently. *)
Theorem map_create_isolated {S : Type} `{PageSourceLaws S} self vpn ppn flags (s : S) r self' s' :
  pgt_inv self s → 0 <= vpn < 2 ^ 26 → 0 <= ppn < 2 ^ 44 → is_usize flags →
  Pgt.map_create self vpn ppn flags s = Ret (r, self') s' →
  (∀ p, p ∉ rp_pages self' → page_same p (mem_of s) (mem_of s')) ∧
  (∀ p, p ∈ rp_pages self' → p ∈ rp_pages self ∨ ps_free s p) ∧
  ∀ other, pgt_wf (mem_of s) other → pgt_fresh s other →
    (∀ q t, path_ok q → node_at (mem_of s) other q = Some t → t ∉ rp_pages self) →
    ∀ va, mmu_translate (mem_of s') other va = mmu_translate (mem_of s) other va.
Proof.
  intros Hi Hv Hp Hu Hrun.
  apply (wp_run _ _ _ _ _ (map_create_inv self vpn ppn flags s Hi (or_introl Hv) Hp Hu)) in Hrun
    as (new & -> & _ & _ & Hst & _). simpl.
  assert (∀ p, p ∉ rp_pages self ++ new → page_same p (mem_of s) (mem_of s')) as Hsame.
  { intros p Hnin. rewrite elem_of_app in Hnin. apply (step_frame _ _ _ _ _ Hst); [tauto|].
    intros Hw. apply (vpn_tables_owned self) in Hw; tauto. }
  split_and!; [done| |].
  - intros p [?|Hin]%elem_of_app; [by left|right]. by apply (step_new _ _ _ _ _ Hst).
  - intros other Hwf Hfr Hav va.
    assert (∀ q t i, path_ok q → node_at (mem_of s) other q = Some t → idx_ok i →
      pte (mem_of s') t i = pte (mem_of s) t i) as Htab.
    { intros q t i Hq Hn Hidx. apply page_same_pte; [|done]. apply Hsame.
      intros [Hin|Hin]%elem_of_app; [by apply (Hav q t)|].
      apply (step_new _ _ _ _ _ Hst) in Hin. by apply (Hfr t Hin q). }
    apply mmu_translate_ext; [done|by apply (pgt_wf_same_tables _ _ _ Htab)|].
    destruct (vpn_path_full (va / 4096)).
    apply (lookup_at_same_tables _ _ _ _ Htab); [done|by apply Nat.eq_le_incl].
Qed.

(** A page table other than the new one is not touched by its creation. *)
Lemma took_other {S : Type} `{PageSourceLaws S} p k (s s' : S) :
  took p s s' → pgt_wf (mem_of s) k → pgt_fresh s k →
  pgt_wf (mem_of s') k ∧ pgt_fresh s' k ∧
  (∀ q t, path_ok q → node_at (mem_of s') k q = Some t → t ≠ p) ∧
  ∀ va, mmu_translate (mem_of s') k va = mmu_translate (mem_of s) k va.
Proof.
  intros (_ & Hp & Hf & Hsame) Hwf Hfr.
  assert (∀ q t i, path_ok q → node_at (mem_of s) k q = Some t → idx_ok i →
    pte (mem_of s') t i = pte (mem_of s) t i) as Htab.
  { intros q t i Hq Hn Hidx. apply page_same_pte; [|done]. apply Hsame. intros ->.
    by apply (Hfr p Hp q Hq). }
  assert (pgt_wf (mem_of s') k) as Hwf' by (by apply (pgt_wf_same_tables _ _ _ Htab)).
  assert (∀ q, path_ok q → node_at (mem_of s') k q = node_at (mem_of s) k q) as Hn
    by (intros q Hq; by apply (node_at_same_tables _ _ _ _ Htab)).
  split_and!; [done| | |].
  - intros u [Hu _]%Hf q Hq. rewrite Hn by done. by apply Hfr.
  - intros q t Hq. rewrite Hn by done. intros Hnq ->. by apply (Hfr p Hp q Hq).
  - intros va. apply mmu_translate_ext; [done..|]. destruct (vpn_path_full (va / 4096)).
    apply (lookup_at_same_tables _ _ _ _ Htab); [done|by apply Nat.eq_le_incl].
Qed.

(** The kernel maps a page of its own; a user table made from its table then maps a page:
    the kernel's page stays. *)
Lemma map_create_isolated_witness :
  ∃ k1 s1 u s2 r u' s3,
    Pgt.map_create sample_pgt 0xffffffc000012 0x80301 0x7 sample_pgt_mm = Ret (Ok tt, k1) s1 ∧
    Pgt.new_copy (table_va 0x80706) s1 = Ret (Ok u) s2 ∧
    Pgt.map_create u 0x10 0x80700 0x1f s2 = Ret (r, u') s3 ∧
    mmu_translate (mm_mem s3) 0x80706 0xffffffc000012000 = Some (0x80301000, 0x7).
Proof.
  set (laws := @page_source_laws_MM sample_symbols).
  destruct (ran_ok_inv (Pgt.map_create sample_pgt 0xffffffc000012 0x80301 0x7 sample_pgt_mm))
    as ([] & k1 & s1 & Hr1); [vm_compute; reflexivity|].
  assert (is_usize 0x7) as Hu by (vm_compute; split; congruence).
  assert (is_usize 0x1f) as Hu' by (vm_compute; split; congruence).
  destruct (@map_create_correct MM _ _ laws sample_pgt 0xffffffc000012 0x80301 0x7 sample_pgt_mm
    sample_pgt_ok ltac:(right; lia) ltac:(lia) Hu) as (r1 & k1' & s1' & Hr1' & Hk & Hroot & _).
  rewrite Hr1 in Hr1'. injection Hr1' as <- <- <-. simpl in Hroot.
  pose proof (pi_wf _ _ Hk) as Hwf. pose proof (pi_fresh _ _ Hk) as Hfr.
  rewrite Hroot in Hwf, Hfr.
  assert (match Pgt.map_create sample_pgt 0xffffffc000012 0x80301 0x7 sample_pgt_mm with
    | Ret _ s => bool_decide (mmu_translate (mm_mem s) 0x80706 0xffffffc000012000 = Some (0x80301000, 0x7)) &&
        forallb (λ i, bool_decide (node_at (mm_mem s) 0x80706 [i] = None)) (seqZ 0 256) &&
        match Pgt.new_copy (table_va 0x80706) s with Ret (Ok _) _ => true | _ => false end
    | _ => false end = true) as Hc by (vm_compute; reflexivity).
  rewrite Hr1 in Hc. apply andb_true_iff in Hc as [[Hm%bool_decide_eq_true Hlow]%andb_true_iff Hok].
  assert (∀ i, 0 <= i < 256 → node_at (mm_mem s1) 0x80706 [i] = None) as Hlow'.
  { intros i Hi. rewrite forallb_forall in Hlow. apply (bool_decide_eq_true (node_at _ _ _ = None)), Hlow.
    apply list_elem_of_In, elem_of_seqZ. lia. }
  destruct (wp_returns _ _ _ (@new_copy_inv MM _ _ laws 0x80706 s1 (pi_ok _ _ Hk) Hwf Hfr Hlow'))
    as (r2 & s2 & Hr2 & H2).
  rewrite Hr2 in Hok. destruct r2 as [u|e]; [|discriminate Hok].
  destruct H2 as (Hi2 & Hpages & Htook & _ & _).
  destruct (@took_other MM _ _ laws _ _ _ _ Htook Hwf Hfr) as (Hwf2 & Hfr2 & Hne & Htr).
  destruct (wp_returns _ _ _ (@map_create_inv MM _ _ laws u 0x10 0x80700 0x1f s2 Hi2
    ltac:(left; lia) ltac:(lia) Hu')) as ([r u'] & s3 & Hr3 & _).
  exists k1, s1, u, s2, r, u', s3. split; [exact Hr1|]. split; [exact Hr2|]. split; [exact Hr3|].
  destruct (@map_create_isolated MM _ _ laws u 0x10 0x80700 0x1f s2 r u' s3 Hi2) as (_ & _ & Hother).
  - lia.
  - lia.
  - exact Hu'.
  - exact Hr3.
  - etransitivity; [refine (Hother 0x80706 Hwf2 Hfr2 _ _)|].
    + intros q t Hq Hn Hin. apply (Hne q t Hq Hn). rewrite Hpages in Hin.
      apply list_elem_of_singleton in Hin. exact Hin.
    + etransitivity; [apply Htr|exact Hm].
Defined.

(** ** Large pages *)

Lemma large_prefix v vpn :
  vpn_valid v → vpn_valid vpn →
  [vpn / 2 ^ 18 mod 512; vpn / 2 ^ 9 mod 512] `prefix_of` vpn_path v ↔ v / 512 = vpn / 512.
Proof.
  unfold vpn_valid, vpn_path. intros Hv Hvpn. split.
  - intros [z [= E1 E2 _]]. zlia.
  - intros E. exists [v mod 512]. cbn [app]. f_equal; [zlia|]. f_equal. zlia.
Qed.

(** A large leaf, as the hardware sees it *)
Lemma large_leaf_mmu m m' root vpn ppn flags :
  pgt_wf m root → pgt_wf m' root → vpn_valid vpn → 0 <= ppn < 2 ^ 44 → is_usize flags →
  leaf_flags flags →
  (∀ q, full_path q → lookup_at m' root q =
     if decide ([vpn / 2 ^ 18 mod 512; vpn / 2 ^ 9 mod 512] `prefix_of` q)
     then Some (1%nat, mk_pte (large_base ppn) flags) else lookup_at m root q) →
  ∀ va, is_usize va →
    mmu_translate m' root va =
      if decide (va / 2 ^ 21 = vpn / 512 ∧ VPN.is_valid_va va = true)
      then Some (large_base ppn * 4096 + va mod 2 ^ 21, flags)
      else mmu_translate m root va.
Proof.
  intros Hwf Hwf' Hv Hp Hu Hf Hl va Hva. destruct (VPN.is_valid_va va) eqn:Hcan.
  2:{ rewrite decide_False by naive_solver. unfold mmu_translate. by rewrite Hcan. }
  pose proof (va_vpn_valid va Hva Hcan) as Hvv.
  pose proof (large_prefix (va / 4096) vpn Hvv Hv) as Hpre.
  assert (va / 4096 / 512 = va / 2 ^ 21) as Ediv by zlia. rewrite Ediv in Hpre.
  specialize (Hl (vpn_path (va / 4096)) (vpn_path_full _)).
  assert (0 <= large_base ppn < 2 ^ 44 ∧ large_base ppn mod 512 = 0) as [Hb1 Hb2]
    by (unfold large_base; zlia).
  case_decide as E.
  - rewrite decide_True by tauto. by apply mmu_translate_large.
  - rewrite decide_False by tauto. by apply mmu_translate_ext.
Qed.

(** A mapped large page, as the hardware sees it *)
Lemma map_create_large_mmu {S : Type} `{PageSourceLaws S}
    self vpn ppn flags (s : S) self' s' :
  pgt_inv self s → vpn_valid vpn → 0 <= ppn < 2 ^ 44 → is_usize flags →
  leaf_flags flags → PTE.is_leaf flags = true →
  node_at (mem_of s) (rp_ppn self) [vpn / 2 ^ 18 mod 512; vpn / 2 ^ 9 mod 512] = None →
  Pgt.map_create_large self vpn ppn flags s = Ret (Ok tt, self') s' →
  pgt_inv self' s' ∧
  (∀ q, path_ok q → length q = 2%nat →
     node_at (mem_of s') (rp_ppn self) q = node_at (mem_of s) (rp_ppn self) q) ∧
  ∀ va, is_usize va →
    mmu_translate (mem_of s') (rp_ppn self) va =
      if decide (va / 2 ^ 21 = vpn / 512 ∧ VPN.is_valid_va va = true)
      then Some (large_base ppn * 4096 + va mod 2 ^ 21, flags)
      else mmu_translate (mem_of s) (rp_ppn self) va.
Proof.
  intros Hi Hv Hp Hu Hf Hleaf Hnone Hrun.
  apply (wp_run _ _ _ _ _ (map_create_large_wp self vpn ppn flags s (pi_ok _ _ Hi)
    (pi_wf _ _ Hi) (pi_fresh _ _ Hi) Hv Hp Hu Hleaf Hnone)) in Hrun
    as (new & -> & Hst & Hnode & _ & Hl).
  pose proof (pgt_inv_step _ _ _ _ _ Hi Hst) as Hi'. split; [done|].
  split; [by intros q Hq Hlen; eapply grew_along_longer; [done..|]; rewrite Hlen; simpl; lia|].
  apply large_leaf_mmu; [apply Hi|apply (pi_wf _ _ Hi')|done..|exact Hl].
Qed.

(** C27: where no last-level table is in its way, a successful [map_create_large]
    makes the hardware translate the whole 2 MiB region of the page to the 2 MiB
    frame containing the frame given, and nothing else changes. *)
Theorem map_create_large_translates {S : Type} `{PageSourceLaws S}
    self vpn ppn flags (s : S) self' s' :
  pgt_inv self s → vpn_valid vpn → 0 <= ppn < 2 ^ 44 → is_usize flags →
  leaf_flags flags → PTE.is_leaf flags = true →
  node_at (mem_of s) (rp_ppn self) [vpn / 2 ^ 18 mod 512; vpn / 2 ^ 9 mod 512] = None →
  Pgt.map_create_large self vpn ppn flags s = Ret (Ok tt, self') s' →
  pgt_inv self' s' ∧
  ∀ va, is_usize va →
    mmu_translate (mem_of s') (rp_ppn self) va =
      if decide (va / 2 ^ 21 = vpn / 512 ∧ VPN.is_valid_va va = true)
      then Some (large_base ppn * 4096 + va mod 2 ^ 21, flags)
      else mmu_translate (mem_of s) (rp_ppn self) va.
Proof.
  intros Hi Hv Hp Hu Hf Hleaf Hnone Hrun.
  destruct (map_create_large_mmu self vpn ppn flags s self' s') as (? & _ & ?); done.
Qed.

Lemma map_create_large_translates_witness :
  ∃ self' s',
    Pgt.map_create_large sample_pgt 0xffffffc000212 0x80712 0x7 sample_pgt_mm = Ret (Ok tt, self') s' ∧
    mmu_translate (mm_mem s') 0x80706 0xffffffc000345678 = Some (0x80745678, 0x7).
Proof.
  destruct (ran_ok_inv (Pgt.map_create_large sample_pgt 0xffffffc000212 0x80712 0x7 sample_pgt_mm))
    as ([] & self' & s' & Hr); [vm_compute; reflexivity|].
  exists self', s'. split; [exact Hr|].
  destruct (@map_create_large_translates MM _ _ (@page_source_laws_MM sample_symbols)
    sample_pgt 0xffffffc000212 0x80712 0x7 sample_pgt_mm self' s' sample_pgt_ok) as [_ Hm].
  - right. lia.
  - lia.
  - vm_compute. split; congruence.
  - split; [reflexivity|]. vm_compute. congruence.
  - reflexivity.
  - vm_compute. reflexivity.
  - exact Hr.
  - etransitivity; [refine (Hm 0xffffffc000345678 _)|reflexivity]. vm_compute. split; congruence.
Defined.

(** C30: over an existing last-level table [map_create_large] returns [Ok] all the
    same: it only looks for a leaf, so the pointer to the table is overwritten.  Every
    address of the 2 MiB region - those mapped through the table included - silently
    translates to the new frame instead of the call failing with [DoubleMapping], every
    other address translates as before, and the table leaves the tree without its page
    being given back to the allocator or dropped from the pages of the page table. *)
Theorem map_create_large_overwrites {S : Type} `{PageSourceLaws S}
    self vpn ppn flags (s : S) u :
  pgt_inv self s → vpn_valid vpn → 0 <= ppn < 2 ^ 44 → is_usize flags →
  leaf_flags flags → PTE.is_leaf flags = true →
  node_at (mem_of s) (rp_ppn self) [vpn / 2 ^ 18 mod 512; vpn / 2 ^ 9 mod 512] = Some u →
  ∃ s',
    Pgt.map_create_large self vpn ppn flags s = Ret (Ok tt, self) s' ∧
    pgt_inv self s' ∧
    (∀ va, is_usize va →
       mmu_translate (mem_of s') (rp_ppn self) va =
         if decide (va / 2 ^ 21 = vpn / 512 ∧ VPN.is_valid_va va = true)
         then Some (large_base ppn * 4096 + va mod 2 ^ 21, flags)
         else mmu_translate (mem_of s) (rp_ppn self) va) ∧
    (∀ q, path_ok q → node_at (mem_of s') (rp_ppn self) q ≠ Some u) ∧
    (∀ p, ps_free s' p ↔ ps_free s p).
Proof.
  intros Hi Hv Hp Hu Hf Hleaf Hn. pose proof (pi_wf _ _ Hi) as Hwf.
  destruct (map_create_large_over self vpn ppn flags s u (pi_ok _ _ Hi) Hwf Hv Hp Hu (proj1 Hf) Hn)
    as (t & Ht & Hrun).
  set (i2 := vpn / 2 ^ 18 mod 512) in *. set (i1 := vpn / 2 ^ 9 mod 512) in *.
  set (e := mk_pte (large_base ppn) flags) in *.
  destruct (vpn_path_idx vpn) as (Hi2 & Hi1 & _). fold i2 in Hi2. fold i1 in Hi1.
  destruct (is_valid_flags_range flags Hu (proj1 Hf)) as [Hfr Hfv].
  assert (is_usize e) as He by (apply mk_pte_usize; unfold large_base; zlia).
  assert (PTE.is_leaf e = true) as Hle by (by unfold e; rewrite mk_pte_leaf).
  assert (path_ok [i2]) as Hπ by (split; [eauto using Forall|simpl; lia]).
  assert (path_ok [i2; i1]) as Hπ1 by (split; [eauto using Forall|simpl; lia]).
  eexists. split; [exact Hrun|].
  pose proof (leaf_over_sub _ _ Hwf [i2] i1 t e Hπ Hi1 Ht He Hle) as Hsub.
  pose proof (leaf_over_node _ _ Hwf [i2] i1 t e Hπ Hi1 Ht He Hle) as Hnode.
  pose proof (leaf_over_wf _ _ Hwf [i2] i1 t e Hπ Hi1 Ht He Hle) as Hwf'.
  rewrite !mem_of_upd. split_and!.
  - destruct Hi as [Hok _ Hfresh Hnd Hown Hlow]. split; rewrite ?mem_of_upd; [by apply ps_upd_ok|done| |done| |].
    + intros p. rewrite ps_upd_free, mem_of_upd. intros Hfp q Hq Hnq.
      by apply (Hfresh p Hfp q Hq), Hsub.
    + intros p Hin. rewrite ps_upd_free. by apply Hown.
    + intros q p Hq Hlq Hnq. apply (Hlow q p Hq Hlq), Hsub; done.
  - apply large_leaf_mmu; [done..|].
    exact (large_leaf_lookup _ _ Hwf [i2] i1 t e Hπ Hi1 Ht He eq_refl Hle).
  - intros q Hq Hnq. pose proof (Hsub q u Hq Hnq) as Hq0.
    assert (q = [i2; i1]) as -> by (by apply (wf_inj _ _ Hwf q [i2; i1] u)).
    rewrite Hnode in Hnq by done. by rewrite decide_True in Hnq by (by exists []).
  - intros p. apply ps_upd_free.
Qed.

Lemma map_create_large_overwrites_witness :
  ∃ p1 s1 s2,
    Pgt.map_create sample_pgt 0xffffffc000012 0x80301 0x7 sample_pgt_mm = Ret (Ok tt, p1) s1 ∧
    Pgt.map_create_large p1 0xffffffc000000 0x80400 0x7 s1 = Ret (Ok tt, p1) s2 ∧
    mmu_translate (mm_mem s1) 0x80706 0xffffffc000012000 = Some (0x80301000, 0x7) ∧
    mmu_translate (mm_mem s2) 0x80706 0xffffffc000012000 = Some (0x80412000, 0x7).
Proof.
  destruct (ran_ok_inv (Pgt.map_create sample_pgt 0xffffffc000012 0x80301 0x7 sample_pgt_mm))
    as ([] & p1 & s1 & Hr); [vm_compute; reflexivity|].
  exists p1, s1.
  assert (is_usize 0x7) as Hu by (vm_compute; split; congruence).
  assert (vpn_valid 0xffffffc000012) as Hv by (right; lia).
  destruct (@map_create_correct MM _ _ (@page_source_laws_MM sample_symbols)
    sample_pgt 0xffffffc000012 0x80301 0x7 sample_pgt_mm sample_pgt_ok Hv ltac:(lia) Hu)
    as (r & p & s & Hr' & Hi & Hp & _).
  rewrite Hr in Hr'. injection Hr' as <- <- <-.
  assert (Hn : match Pgt.map_create sample_pgt 0xffffffc000012 0x80301 0x7 sample_pgt_mm with
    | Ret (Ok _, p) s => bool_decide (node_at (mm_mem s) (rp_ppn p) [256; 0] = Some 0x80708) &&
        bool_decide (mmu_translate (mm_mem s) 0x80706 0xffffffc000012000 = Some (0x80301000, 0x7))
    | _ => false end = true) by (vm_compute; reflexivity).
  rewrite Hr in Hn. apply andb_true_iff in Hn as [Hn%bool_decide_eq_true Hm%bool_decide_eq_true].
  destruct (@map_create_large_overwrites MM _ _ (@page_source_laws_MM sample_symbols)
    p1 0xffffffc000000 0x80400 0x7 s1 0x80708 Hi) as (s2 & Hr2 & _ & Ht & _).
  - right. lia.
  - lia.
  - exact Hu.
  - split; [reflexivity|]. vm_compute. congruence.
  - reflexivity.
  - exact Hn.
  - exists s2. split; [exact Hr|]. split; [exact Hr2|]. split; [exact Hm|].
    simpl in Hp. rewrite Hp in Ht.
    etransitivity; [refine (Ht 0xffffffc000012000 _); vm_compute; split; congruence|reflexivity].
Defined.

(** ** Entries *)

(** C31: [PTE::new] accepts exactly the flags that fit in the ten low bits, have [V]
    set and are not the reserved write-without-read encodings, and then the entry
    holds the frame number and the flags in their fields. *)
Theorem pte_new_spec ppn flags :
  0 <= ppn < 2 ^ 44 → is_usize flags →
  match PTE.new ppn flags with
  | Ok e =>
      is_usize e ∧ e / 2 ^ 10 = ppn ∧ e mod 2 ^ 10 = flags ∧
      Z.testbit flags 0 = true ∧ (Z.testbit flags 2 = true → Z.testbit flags 1 = true)
  | Err e =>
      e = InvalidPteFlags flags ∧
      (2 ^ 10 <= flags ∨ Z.testbit flags 0 = false ∨
       (Z.testbit flags 2 = true ∧ Z.testbit flags 1 = false))
  end.
Proof.
  intros Hp Hu. destruct (decide (flags < 1024)) as [Hlt|].
  - assert (0 <= flags < 1024) as Hf by (unfold is_usize in Hu; lia).
    pose proof (flags_cases (λ f, eqb (PTE.is_valid_flags f)
      (Z.testbit f 0 && (negb (Z.testbit f 2) || Z.testbit f 1)))
      flags Hf ltac:(vm_compute; reflexivity)) as E.
    cbv beta in E. apply eqb_prop in E.
    destruct (PTE.is_valid_flags flags) eqn:Hv.
    + rewrite pte_new_ok by done. split_and!; [by apply mk_pte_usize|..].
      * unfold mk_pte. change (2 ^ 10) with 1024. zlia.
      * by apply mk_pte_flags.
      * by destruct (Z.testbit flags 0).
      * by destruct (Z.testbit flags 0), (Z.testbit flags 2), (Z.testbit flags 1).
    + rewrite pte_new_err by done. split; [done|right].
      destruct (Z.testbit flags 0), (Z.testbit flags 2), (Z.testbit flags 1); naive_solver.
  - destruct (PTE.is_valid_flags flags) eqn:Hv.
    + destruct (is_valid_flags_range flags Hu Hv). lia.
    + rewrite pte_new_err by done. split; [done|left]. lia.
Qed.

Lemma pte_new_spec_witness :
  match PTE.new 0x80700 0x1f with
  | Ok e => e / 2 ^ 10 = 0x80700
  | Err _ => False
  end.
Proof.
  assert (0 <= 0x80700 < 2 ^ 44) as Hp by lia.
  assert (is_usize 0x1f) as Hu by (vm_compute; split; congruence).
  pose proof (pte_new_spec 0x80700 0x1f Hp Hu) as H.
  destruct (PTE.new 0x80700 0x1f) eqn:E; [apply H|discriminate E].
Defined.

(** C32: [PTE::is_leaf] agrees with the hardware on every entry [PTE::new] makes but
    the read-only ones: those the hardware takes for leaves and the code for
    pointers to tables. *)
Theorem is_leaf_vs_hardware ppn flags e :
  0 <= ppn < 2 ^ 44 → is_usize flags → PTE.new ppn flags = Ok e →
  (PTE.is_leaf e = mmu_leaf e ↔
   ¬ (Z.testbit flags 1 = true ∧ Z.testbit flags 2 = false ∧ Z.testbit flags 3 = false)) ∧
  (PTE.is_leaf e = true → mmu_leaf e = true).
Proof.
  intros Hp Hu He. destruct (PTE.is_valid_flags flags) eqn:Hv.
  2:{ by rewrite pte_new_err in He. }
  destruct (is_valid_flags_range flags Hu Hv) as [Hf _].
  rewrite pte_new_ok in He by done. injection He as <-.
  rewrite mk_pte_leaf, (proj1 (mk_pte_mmu ppn flags)).
  pose proof (flags_cases (λ f, negb (PTE.is_valid_flags f) ||
    (eqb (eqb (PTE.is_leaf f) (mmu_leaf f))
       (negb (Z.testbit f 1 && negb (Z.testbit f 2) && negb (Z.testbit f 3)))
     && (negb (PTE.is_leaf f) || mmu_leaf f)))
    flags Hf ltac:(vm_compute; reflexivity)) as H.
  cbv beta in H. rewrite Hv in H. cbn [negb orb] in H.
  destruct (PTE.is_leaf flags), (mmu_leaf flags), (Z.testbit flags 1), (Z.testbit flags 2),
    (Z.testbit flags 3); naive_solver.
Qed.

Lemma is_leaf_vs_hardware_witness :
  PTE.is_leaf (mk_pte 0x80200 0x3) ≠ mmu_leaf (mk_pte 0x80200 0x3).
Proof.
  assert (0 <= 0x80200 < 2 ^ 44) as Hp by lia.
  assert (is_usize 0x3) as Hu by (vm_compute; split; congruence).
  intros E. apply (proj1 (is_leaf_vs_hardware 0x80200 0x3 (mk_pte 0x80200 0x3) Hp Hu
    (pte_new_ok 0x80200 0x3 Hp Hu eq_refl))) in E.
  apply E. split; [reflexivity|split; reflexivity].
Defined.
