(* ===== verification/VmSpace.v ===== *)
(** * Address spaces: [src/os/src/mm/vm.rs]

    [VMArea], [VMSpace] and their operations, over any page source.  A [Page] is its
    page number; where Rust drops one implicitly - an overwritten map entry, a
    local on an early return, a removed area - the drop is written out.  The ELF
    parser ([xmas_elf]) is a parameter. *)

From S2P Require Export Sv39.
From stdpp Require Import sorting list.
Open Scope Z_scope.

(** ** Permissions *)

Definition PERMISSION_R : Z := PTE.FLAG_R.
Definition PERMISSION_W : Z := PTE.FLAG_W.
Definition PERMISSION_X : Z := PTE.FLAG_X.
Definition PERMISSION_U : Z := PTE.FLAG_U.
Definition ALL_PERMISSION_FLAGS : Z :=
  ((PERMISSION_R .| PERMISSION_W) .| PERMISSION_X) .| PERMISSION_U.

(** [enum MapType] *)
Inductive MapType :=
  | Anonymous
  | KernelVaOffset.
#[export] Instance MapType_eq_dec : EqDecision MapType.
Proof. solve_decision. Defined.

(** [enum VMError] *)
Inductive VMError :=
  | CreateRootPgtFailed (e : PgtError)
  | VMPgtError (vpn : Z) (e : PgtError)
  | NoAreaContainVpn (vpn : Z)
  | InvalidPermissions (permissions : Z)
  | PermissionDenied (vpn permissions : Z)
  | ElfError (msg : string)
  | AlignDataFailed (align : Z)
  | VMAcquirePageFailed
  | AreaOverlapping (start_vpn end_vpn : Z)
  | EmptyArea (start_vpn end_vpn : Z).
#[export] Instance VMError_eq_dec : EqDecision VMError.
Proof. solve_decision. Defined.

Definition to_pte_flags (permissions : Z) : result Z VMError :=
  if negb (permissions .& .~ ALL_PERMISSION_FLAGS =? 0) then Err (InvalidPermissions permissions)
  else Ok ((permissions .& ALL_PERMISSION_FLAGS) .| PTE.FLAG_V).

(** ** [VMArea] *)
Record VMArea := mk_VMArea {
  start_vpn : Z;
  end_vpn : Z;
  map_type : MapType;
  permissions : Z;
  pages : gmap Z Z;
}.

Module Area.
Definition new (start_vpn end_vpn : Z) (map_type : MapType) (permissions : Z) : VMArea :=
  mk_VMArea start_vpn end_vpn map_type permissions ∅.
Definition contain_vpn (self : VMArea) (vpn : Z) : bool :=
  (start_vpn self <=? vpn) && (vpn <? end_vpn self).

Definition set_pages (self : VMArea) (p : gmap Z Z) : VMArea :=
  mk_VMArea (start_vpn self) (end_vpn self) (map_type self) (permissions self) p.
Definition set_start_vpn (self : VMArea) (v : Z) : VMArea :=
  mk_VMArea v (end_vpn self) (map_type self) (permissions self) (pages self).
Definition set_end_vpn (self : VMArea) (v : Z) : VMArea :=
  mk_VMArea (start_vpn self) v (map_type self) (permissions self) (pages self).
End Area.

(** ** [BTreeMap<VPN, Page>] *)

Definition key_le (x y : Z * Z) : Prop := x.1 <= y.1.
#[export] Instance key_le_dec x y : Decision (key_le x y).
Proof. unfold key_le. apply _. Defined.

(** The pages in key order, as the map drops them *)
Definition pages_in_order (m : gmap Z Z) : list Z := (merge_sort key_le (map_to_list m)).*2.
(** [m.split_off(&k)]: what stays and what is returned *)
Definition split_off (m : gmap Z Z) (k : Z) : gmap Z Z * gmap Z Z :=
  (filter (λ kv, kv.1 < k) m, filter (λ kv, k <= kv.1) m).

(** ** [VMSpace] *)
Record VMSpace := mk_VMSpace {
  root_pgt : RootPgt;
  areas : list VMArea;
  entry_addr : Z;
  u_stack_end : Z;
  k_stack_end : Z;
}.

(** Field updates *)
Module Sp.
Definition set_root_pgt (self : VMSpace) (r : RootPgt) : VMSpace :=
  mk_VMSpace r (areas self) (entry_addr self) (u_stack_end self) (k_stack_end self).
Definition set_areas (self : VMSpace) (l : list VMArea) : VMSpace :=
  mk_VMSpace (root_pgt self) l (entry_addr self) (u_stack_end self) (k_stack_end self).
Definition set_entry_addr (self : VMSpace) (a : Z) : VMSpace :=
  mk_VMSpace (root_pgt self) (areas self) a (u_stack_end self) (k_stack_end self).
Definition set_u_stack_end (self : VMSpace) (a : Z) : VMSpace :=
  mk_VMSpace (root_pgt self) (areas self) (entry_addr self) a (k_stack_end self).
Definition set_k_stack_end (self : VMSpace) (a : Z) : VMSpace :=
  mk_VMSpace (root_pgt self) (areas self) (entry_addr self) (u_stack_end self) a.
End Sp.

(** ** The ELF parser *)

(** What [vm.rs] uses of [xmas_elf] *)
Class XmasElf := {
  ElfFile : Type;
  ProgramHeader : Type;
  elf_new : list Z → result ElfFile string;
  elf_program_iter : ElfFile → list ProgramHeader;
  elf_entry_point : ElfFile → Z;
  (** [ph.get_type()]: whether it is [Type::Load] *)
  ph_is_load : ProgramHeader → result bool string;
  ph_align : ProgramHeader → Z;
  ph_offset : ProgramHeader → Z;
  ph_file_size : ProgramHeader → Z;
  ph_virtual_addr : ProgramHeader → Z;
  ph_mem_size : ProgramHeader → Z;
  ph_is_read : ProgramHeader → bool;
  ph_is_write : ProgramHeader → bool;
  ph_is_execute : ProgramHeader → bool;
}.

(** [static KERNEL_SATP] *)
Definition KERNEL_SATP : Type := Z.

Module Space.
Section ops.
Context {S : Type} `{PageSource S} `{!Has KERNEL_SATP S}.

Definition get_kernel_satp : M S Z := gets (λ s, (proj s : KERNEL_SATP)).
Definition get_kernel_satp_ppn : M S Z :=
  satp ← get_kernel_satp;
  PPN.from_pa ((satp .& 0xfffffffffff) .<< PAGE_SIZE_ORDER).

(** *** Drops *)

Definition drop_pages (l : list Z) : M S unit := for_each l ps_drop_page.
Definition drop_area (a : VMArea) : M S unit := drop_pages (pages_in_order (pages a)).
(** the fields in declaration order *)
Definition drop_space (self : VMSpace) : M S unit :=
  drop_pages (rp_pages (root_pgt self));;
  for_each (areas self) drop_area.
Definition drop_option (o : option Z) : M S unit :=
  match o with Some p => ps_drop_page p | None => mret tt end.

(** *** Faults *)

(** The index and the area [find_area_mut] borrows *)
Definition find_area_mut (self : VMSpace) (vpn : Z) : result (nat * VMArea) VMError :=
  ok_or (list_find (λ a, Area.contain_vpn a vpn = true) (areas self)) (NoAreaContainVpn vpn).

Definition map (self : VMSpace) (vpn min_permissions : Z) : M S (result unit VMError * VMSpace) :=
  match find_area_mut self vpn with
  | Err e => mret (Err e, self)
  | Ok (i, area) =>
      if negb (min_permissions .& permissions area =? min_permissions)
      then mret (Err (PermissionDenied vpn min_permissions), self)
      else
        assert_or (bool_decide (map_type area = Anonymous)) "Unexpected MapType";;
        page ← ps_alloc_zeroed_page;
        match page with
        | None => mret (Err VMAcquirePageFailed, self)
        | Some ppn =>
            (* [area.pages.insert(vpn, page)] drops the page it replaces *)
            let old := pages area !! vpn in
            let self := Sp.set_areas self
              (<[i := Area.set_pages area (<[vpn := ppn]> (pages area))]> (areas self)) in
            drop_option old;;
            match to_pte_flags (permissions area) with
            | Err e => mret (Err e, self)
            | Ok pte_flags =>
                '(result, r) ← Pgt.map_create (root_pgt self) vpn ppn pte_flags;
                let self := Sp.set_root_pgt self r in
                match map_err (VMPgtError vpn) result with
                | Ok _ => mret (Ok tt, self)
                | Err e =>
                    match find_area_mut self vpn with
                    | Err _ => panic "called `Result::unwrap()` on an `Err` value"
                    | Ok (i, area) =>
                        drop_option (pages area !! vpn);;
                        mret (Err e, Sp.set_areas self
                          (<[i := Area.set_pages area (delete vpn (pages area))]> (areas self)))
                    end
                end
            end
        end
  end.

Definition map_fault_page (self : VMSpace) (va min_permissions : Z)
    : M S (result unit VMError * VMSpace) :=
  vpn ← VPN.from_va va;
  map self vpn min_permissions.

(** *** [mmap] *)

Definition add_new_area (self : VMSpace) (start end_ : Z) (map_type : MapType)
    (permissions : Z) : result unit VMError * VMSpace :=
  if end_ <=? start then (Err (EmptyArea start end_), self)
  else if negb (permissions .& .~ ALL_PERMISSION_FLAGS =? 0)
  then (Err (InvalidPermissions permissions), self)
  else if forallb (λ a, (end_vpn a <=? start) || (end_ <=? start_vpn a)) (areas self)
  then
    let area := Area.new start end_ map_type permissions in
    (Ok tt, Sp.set_areas self (vec_push (areas self) area))
  else (Err (AreaOverlapping start end_), self).

(** *** [munmap] *)

(** [self.areas.swap_remove(i)]: the removed area is dropped by the caller *)
Definition swap_remove {A} (l : list A) (i : nat) : option (A * list A) :=
  match l !! i, last l with
  | Some a, Some z =>
      Some (a, take (length l - 1) (<[i := z]> l))
  | _, _ => None
  end.

(** The body of the loop, for the area at index [i] *)
Definition unmap_area (self : VMSpace) (i : nat) (start end_ : Z)
    : M S (result unit VMError * VMSpace) :=
  area ← expect (areas self !! i) "index out of bounds";
  let no_overlap := (end_vpn area <=? start) || (end_ <=? start_vpn area) in
  if no_overlap then mret (Ok tt, self)
  else
    let fail e := mret (Err (VMPgtError (start_vpn area) e), self) in
    if (start <=? start_vpn area) && (end_vpn area <=? end_) then
      r ← Pgt.unmap (root_pgt self) (start_vpn area) (end_vpn area);
      match r with
      | Err e => fail e
      | Ok _ =>
          removed ← expect (swap_remove (areas self) i) "swap_remove index out of bounds";
          let '(a, l) := removed in
          drop_area a;;
          mret (Ok tt, Sp.set_areas self l)
      end
    else if start <=? start_vpn area then
      r ← Pgt.unmap (root_pgt self) (start_vpn area) end_;
      match r with
      | Err e => fail e
      | Ok _ =>
          (* the assignment drops the pages below [end_] *)
          let '(below, rest) := split_off (pages area) end_ in
          drop_pages (pages_in_order below);;
          mret (Ok tt, Sp.set_areas self
            (<[i := Area.set_pages (Area.set_start_vpn area end_) rest]> (areas self)))
      end
    else if end_vpn area <=? end_ then
      r ← Pgt.unmap (root_pgt self) start (end_vpn area);
      match r with
      | Err e => fail e
      | Ok _ =>
          let '(kept, above) := split_off (pages area) start in
          drop_pages (pages_in_order above);;
          mret (Ok tt, Sp.set_areas self
            (<[i := Area.set_pages (Area.set_end_vpn area start) kept]> (areas self)))
      end
    else
      r ← Pgt.unmap (root_pgt self) start end_;
      match r with
      | Err e => fail e
      | Ok _ =>
          let '(kept, tail) := split_off (pages area) start in
          let '(middle, rest) := split_off tail end_ in
          drop_pages (pages_in_order middle);;
          let new_area :=
            mk_VMArea end_ (end_vpn area) (map_type area) (permissions area) rest in
          mret (Ok tt, Sp.set_areas self (vec_push
            (<[i := Area.set_pages (Area.set_end_vpn area start) kept]> (areas self)) new_area))
      end.

Definition unmap (self : VMSpace) (start end_ : Z) : M S (result unit VMError * VMSpace) :=
  try_for_each (rev (seq 0 (length (areas self))))
    (λ i self, unmap_area self i start end_) self.

(** *** [exec]: a new user space *)

Definition get_permissions_from_ph_flags `{XmasElf} (ph : ProgramHeader) : Z :=
  let result := PERMISSION_U in
  let result := if ph_is_read ph then result .| PERMISSION_R else result in
  let result := if ph_is_write ph then result .| PERMISSION_W else result in
  if ph_is_execute ph then result .| PERMISSION_X else result.

Definition create_area_from_ph `{XmasElf} (ph : ProgramHeader) : M S VMArea :=
  let va_start := ph_virtual_addr ph in
  let mem_size := ph_mem_size ph in
  start_vpn ← VPN.from_va va_start;
  end_vpn ← VPN.from_va (((va_start ⊕ mem_size) ⊕ PAGE_SIZE_BYTES) ⊖ 1);
  let permissions := get_permissions_from_ph_flags ph in
  mret (Area.new start_vpn end_vpn Anonymous permissions).

Definition copy_data (pa : Z) (data : list Z) : M S unit :=
  start ← get_pa_mut_ptr pa;
  for_each (range 0 (Z.min (Z.of_nat (length data)) PAGE_SIZE_BYTES))
    (λ offset, store_u8 (start + offset) (nth (Z.to_nat offset) data 0)).

(** [&elf_bytes[lo..hi]] *)
Definition slice (bytes : list Z) (lo hi : Z) : M S (list Z) :=
  assert_or ((lo <=? hi) && (hi <=? Z.of_nat (length bytes))) "slice index out of range";;
  mret (take (Z.to_nat (hi - lo)) (drop (Z.to_nat lo) bytes)).

(** The loop over the pages of a segment.  On an error the local [page], if any,
    and then [area] are dropped. *)
Fixpoint map_segment_pages (vpns : list Z) (self : VMSpace) (area : VMArea)
    (elf_bytes : list Z) (pte_flags data_start data_end : Z)
    : M S (result VMArea VMError * VMSpace) :=
  match vpns with
  | [] => mret (Ok area, self)
  | vpn :: vpns =>
      page ← ps_alloc_zeroed_page;
      match page with
      | None => drop_area area;; mret (Err VMAcquirePageFailed, self)
      | Some ppn =>
          data_start ←
            (if data_start <? data_end then
               data ← slice elf_bytes data_start
                 (Z.min (data_start ⊕ PAGE_SIZE_BYTES) data_end);
               copy_data (PPN.get_pa ppn) data;;
               mret (data_start ⊕ PAGE_SIZE_BYTES)
             else mret data_start);
          '(r, pgt) ← Pgt.map_create (root_pgt self) vpn ppn pte_flags;
          let self := Sp.set_root_pgt self pgt in
          match map_err (VMPgtError vpn) r with
          | Err e => ps_drop_page ppn;; drop_area area;; mret (Err e, self)
          | Ok _ =>
              let old := pages area !! vpn in
              let area := Area.set_pages area (<[vpn := ppn]> (pages area)) in
              drop_option old;;
              map_segment_pages vpns self area elf_bytes pte_flags data_start data_end
          end
      end
  end.

Definition map_user_elf_segment `{XmasElf} (self : VMSpace) (elf_bytes : list Z)
    (ph : ProgramHeader) : M S (result unit VMError * VMSpace) :=
  let align := ph_align ph in
  assert_or (negb (align =? 0)) "attempt to calculate the remainder with a divisor of zero";;
  if negb (PAGE_SIZE_BYTES mod align =? 0) then mret (Err (AlignDataFailed align), self)
  else
    area ← create_area_from_ph ph;
    match to_pte_flags (permissions area) with
    | Err e => drop_area area;; mret (Err e, self)
    | Ok pte_flags =>
        let data_start := ph_offset ph in
        let data_end := data_start ⊕ ph_file_size ph in
        '(r, self) ← map_segment_pages (range (start_vpn area) (end_vpn area)) self area
          elf_bytes pte_flags data_start data_end;
        match r with
        | Err e => mret (Err e, self)
        | Ok area => mret (Ok tt, Sp.set_areas self (vec_push (areas self) area))
        end
    end.

Definition map_user_elf `{XmasElf} (self : VMSpace) (elf_bytes : list Z)
    : M S (result unit VMError * VMSpace) :=
  match map_err ElfError (elf_new elf_bytes) with
  | Err e => mret (Err e, self)
  | Ok elf =>
      '(r, self) ← try_for_each (elf_program_iter elf) (λ ph self,
        match map_err ElfError (ph_is_load ph) with
        | Err e => mret (Err e, self)
        | Ok load =>
            if negb load then mret (Ok tt, self)
            else map_user_elf_segment self elf_bytes ph
        end) self;
      match r with
      | Err e => mret (Err e, self)
      | Ok _ => mret (Ok tt, Sp.set_entry_addr self (elf_entry_point elf))
      end
  end.

Definition add_user_stack_area (self : VMSpace) : M S (result unit VMError * VMSpace) :=
  let permissions := (PERMISSION_R .| PERMISSION_W) .| PERMISSION_U in
  match to_pte_flags permissions with
  | Err e => mret (Err e, self)
  | Ok pte_flags =>
      (* Map the first page *)
      page ← ps_alloc_zeroed_page;
      match page with
      | None => mret (Err VMAcquirePageFailed, self)
      | Some ppn =>
          vpn ← VPN.from_va (USER_SPACE_END ⊖ PAGE_SIZE_BYTES);
          '(r, pgt) ← Pgt.map_create (root_pgt self) vpn ppn pte_flags;
          let self := Sp.set_root_pgt self pgt in
          match map_err (VMPgtError vpn) r with
          | Err e => ps_drop_page ppn;; mret (Err e, self)
          | Ok _ =>
              (* Create and push the area *)
              end_vpn ← VPN.from_va USER_SPACE_END;
              start_vpn ← VPN.from_va (USER_SPACE_END ⊖ USER_STACK_MAX_SIZE_BYTES);
              let area := Area.new start_vpn end_vpn Anonymous permissions in
              let area := Area.set_pages area (<[vpn := ppn]> (pages area)) in
              let self := Sp.set_areas self (vec_push (areas self) area) in
              mret (Ok tt, Sp.set_u_stack_end self USER_SPACE_END)
          end
      end
  end.

Definition add_kernel_stack_area (self : VMSpace) : M S (result unit VMError * VMSpace) :=
  page ← ps_alloc_page;
  match page with
  | None => mret (Err VMAcquirePageFailed, self)
  | Some ppn =>
      let pa := PPN.get_pa ppn in
      start_vpn ← VPN.from_va (pa ⊕ KERNEL_VA_OFFSET);
      end_vpn ← VPN.from_va ((pa ⊕ KERNEL_VA_OFFSET) ⊕ PAGE_SIZE_BYTES);
      let permissions := PERMISSION_R .| PERMISSION_W in
      let area := Area.new start_vpn end_vpn KernelVaOffset permissions in
      let area := Area.set_pages area (<[start_vpn := ppn]> (pages area)) in
      let self := Sp.set_areas self (vec_push (areas self) area) in
      mret (Ok tt, Sp.set_k_stack_end self (VPN.get_va end_vpn))
  end.

Definition new_user `{XmasElf} (elf_bytes : list Z) : M S (result VMSpace VMError) :=
  ppn ← get_kernel_satp_ppn;
  entries ← Pgt.get_ptes_mut ppn;
  r ← Pgt.new_copy entries;
  match map_err CreateRootPgtFailed r with
  | Err e => mret (Err e)
  | Ok root_pgt =>
      let result := mk_VMSpace root_pgt [] 0 0 0 in
      (* [?]: an error drops [result] *)
      '(r, result) ← map_user_elf result elf_bytes;
      match r with
      | Err e => drop_space result;; mret (Err e)
      | Ok _ =>
          '(r, result) ← add_user_stack_area result;
          match r with
          | Err e => drop_space result;; mret (Err e)
          | Ok _ =>
              '(r, result) ← add_kernel_stack_area result;
              match r with
              | Err e => drop_space result;; mret (Err e)
              | Ok _ => mret (Ok result)
              end
          end
      end
  end.

(** *** Getters *)

Definition get_satp (self : VMSpace) : Z := Pgt.get_satp (root_pgt self).
Definition get_entry_addr (self : VMSpace) : Z := entry_addr self.
Definition get_u_stack_end (self : VMSpace) : Z := u_stack_end self.
Definition get_k_stack_end (self : VMSpace) : Z := k_stack_end self.
End ops.
End Space.
