(* ===== verification/VmInv.v ===== *)
(** * The invariant of an address space

    The abstract view of a [VMSpace] - which virtual page has which permissions and
    frame - and the invariant that ties it to the page table and the page source.
    [VmProps] proves that the operations keep it. *)

From S2P Require Export VmSpace Sv39Props.
From stdpp Require Import sorting list.
Open Scope Z_scope.

(** ** Pairwise relations on lists, up to permutation *)

Fixpoint pairwise {A} (R : A → A → Prop) (l : list A) : Prop :=
  match l with
  | [] => True
  | a :: l => Forall (R a) l ∧ pairwise R l
  end.

Lemma pairwise_app {A} (R : A → A → Prop) l1 l2 :
  pairwise R (l1 ++ l2) ↔
  pairwise R l1 ∧ pairwise R l2 ∧ ∀ a b, a ∈ l1 → b ∈ l2 → R a b.
Proof.
  induction l1 as [|a l1 IH]; simpl; [set_solver|]. rewrite Forall_app, IH.
  rewrite !Forall_forall. set_solver.
Qed.

#[export] Instance pairwise_perm {A} (R : A → A → Prop) `{!Symmetric R} :
  Proper ((≡ₚ) ==> iff) (pairwise R).
Proof.
  intros l1 l2 Hl. induction Hl as [|a l1 l2 Hl IH|a b l|l1 l2 l3 ? IH1 ? IH2]; simpl.
  - done.
  - by rewrite IH, Hl.
  - rewrite !Forall_cons. assert (R a b ↔ R b a) by (split; by symmetry). tauto.
  - by rewrite IH1.
Qed.

Lemma pairwise_lookup {A} (R : A → A → Prop) `{!Symmetric R} l i a :
  pairwise R l → l !! i = Some a → ∀ b, b ∈ delete i l → R a b.
Proof.
  intros Hl Hi b Hb. rewrite (delete_Permutation l i a Hi) in Hl.
  destruct Hl as [Hf _]. rewrite Forall_forall in Hf. by apply Hf.
Qed.

Lemma insert_delete_perm {A} (l : list A) i a b :
  l !! i = Some a → <[i := b]> l ≡ₚ b :: delete i l.
Proof.
  intros Hi. assert (<[i := b]> l !! i = Some b) as Hb
    by (apply list_lookup_insert_eq; by eapply lookup_lt_Some).
  rewrite (delete_Permutation _ _ _ Hb). f_equiv.
  by rewrite !delete_take_drop, take_insert_ge, drop_insert_lt by lia.
Qed.

(** ** The maps of pages *)

Lemma elem_of_pages_in_order (m : gmap Z Z) p : p ∈ pages_in_order m ↔ ∃ v, m !! v = Some p.
Proof.
  unfold pages_in_order. rewrite list_elem_of_fmap. split.
  - intros ([v q] & -> & Hin). rewrite merge_sort_Permutation in Hin.
    apply elem_of_map_to_list in Hin. by exists v.
  - intros [v Hv]. exists (v, p). split; [done|]. rewrite merge_sort_Permutation.
    by apply elem_of_map_to_list.
Qed.

Lemma pages_in_order_nodup (m : gmap Z Z) :
  (∀ v1 v2 p, m !! v1 = Some p → m !! v2 = Some p → v1 = v2) → NoDup (pages_in_order m).
Proof.
  intros Hinj. unfold pages_in_order.
  assert (NoDup (merge_sort key_le (map_to_list m))) as Hnd
    by (rewrite merge_sort_Permutation; apply NoDup_map_to_list).
  apply NoDup_fmap_2_strong; [|done]. intros [v1 p1] [v2 p2] H1 H2 E. simpl in E. subst p2.
  rewrite merge_sort_Permutation in H1, H2.
  apply elem_of_map_to_list in H1, H2. f_equal. by eapply Hinj.
Qed.

Lemma split_off_low m k v :
  (split_off m k).1 !! v = (if decide (v < k) then m !! v else None).
Proof.
  simpl. case_decide.
  - rewrite map_lookup_filter. destruct (m !! v); simpl; [|done].
    by rewrite option_guard_True.
  - apply map_lookup_filter_None. right. intros p _. simpl. lia.
Qed.
Lemma split_off_high m k v :
  (split_off m k).2 !! v = (if decide (k <= v) then m !! v else None).
Proof.
  simpl. case_decide.
  - rewrite map_lookup_filter. destruct (m !! v); simpl; [|done].
    by rewrite option_guard_True.
  - apply map_lookup_filter_None. right. intros p _. simpl. lia.
Qed.

(** ** What an area, and a list of areas, say about a page *)

Definition sees (a : VMArea) (v : Z) (t : MapType) (pm : Z) (o : option Z) : Prop :=
  start_vpn a <= v < end_vpn a ∧ map_type a = t ∧ permissions a = pm ∧ pages a !! v = o.
Definition has (l : list VMArea) (v : Z) (t : MapType) (pm : Z) (o : option Z) : Prop :=
  ∃ a, a ∈ l ∧ sees a v t pm o.

#[export] Instance has_perm : Proper ((≡ₚ) ==> eq ==> eq ==> eq ==> eq ==> iff) has.
Proof.
  intros l1 l2 Hl v ? <- t ? <- pm ? <- o ? <-. unfold has.
  split; intros (a & Ha & Hs); exists a; (split; [|done]); by rewrite ?Hl, <- ?Hl in *.
Qed.

Lemma has_app l1 l2 v t pm o : has (l1 ++ l2) v t pm o ↔ has l1 v t pm o ∨ has l2 v t pm o.
Proof. unfold has. setoid_rewrite elem_of_app. naive_solver. Qed.
Lemma has_cons a l v t pm o : has (a :: l) v t pm o ↔ sees a v t pm o ∨ has l v t pm o.
Proof. unfold has. setoid_rewrite elem_of_cons. naive_solver. Qed.
Lemma has_nil v t pm o : ¬ has [] v t pm o.
Proof. intros (a & Ha & _). by apply elem_of_nil in Ha. Qed.

(** ** Areas *)

(** The flags of the area's pages *)
Definition area_flags (pm : Z) : Z := pm + 1.

Lemma to_pte_flags_ok pm :
  is_usize pm → pm .& .~ ALL_PERMISSION_FLAGS = 0 →
  to_pte_flags pm = Ok (area_flags pm) ∧ 0 <= pm < 32 ∧ pm mod 2 = 0.
Proof.
  intros Hu H0.
  assert (0 <= pm < 32) as Hr.
  { assert (pm .& .~ 31 = 0) as H31.
    { assert (.~ 31 = .~ ALL_PERMISSION_FLAGS .& .~ 31) as -> by (vm_compute; reflexivity).
      by rewrite Z.land_assoc, H0, Z.land_0_l. }
    rewrite (land_not_mask pm 5) in H31 by (done || lia). unfold is_usize in Hu. zlia. }
  assert (forallb (λ pm, negb (pm .& .~ ALL_PERMISSION_FLAGS =? 0) ||
    (bool_decide (to_pte_flags pm = Ok (area_flags pm)) && (pm mod 2 =? 0)))
    (seqZ 0 32) = true) as Hall by (vm_compute; reflexivity).
  rewrite forallb_forall in Hall. specialize (Hall pm).
  rewrite <- list_elem_of_In in Hall. rewrite elem_of_seqZ in Hall. specialize (Hall ltac:(lia)).
  rewrite H0 in Hall. apply andb_true_iff in Hall as [E1%bool_decide_eq_true E2%Z.eqb_eq].
  done.
Qed.

Lemma area_flags_usize pm : 0 <= pm < 32 → is_usize (area_flags pm).
Proof. unfold area_flags, is_usize, USIZE_MODULUS. lia. Qed.

(** Nonempty, in the half of the address space of its type, with known permissions
    and its pages inside *)
Record area_ok (a : VMArea) : Prop := {
  ar_nonempty : start_vpn a < end_vpn a;
  ar_range :
    match map_type a with
    | Anonymous => 0 <= start_vpn a ∧ end_vpn a <= 2 ^ 26
    | KernelVaOffset => 2 ^ 52 - 2 ^ 26 <= start_vpn a
    end;
  ar_perm_usize : is_usize (permissions a);
  ar_perm : permissions a .& .~ ALL_PERMISSION_FLAGS = 0;
  ar_pages v p : pages a !! v = Some p → start_vpn a <= v < end_vpn a;
}.

Definition area_disjoint (a b : VMArea) : Prop :=
  end_vpn a <= start_vpn b ∨ end_vpn b <= start_vpn a.
#[export] Instance area_disjoint_sym : Symmetric area_disjoint.
Proof. intros a b. unfold area_disjoint. tauto. Qed.

Lemma sees_page a v p :
  area_ok a → pages a !! v = Some p → sees a v (map_type a) (permissions a) (Some p).
Proof. intros Ha Hp. split_and!; [by eapply ar_pages..|done|done|done]. Qed.

(** ** The invariant *)
Section invariant.
Context {S : Type} `{PageSourceLaws S}.
Implicit Types (s : S) (self : VMSpace).

Record vm_inv self s : Prop := {
  vi_pgt : pgt_inv (root_pgt self) s;
  vi_areas : Forall area_ok (areas self);
  vi_disjoint : pairwise area_disjoint (areas self);
  vi_owned v t pm p : has (areas self) v t pm (Some p) →
    ps_managed p ∧ ¬ ps_free s p ∧ p ∉ rp_pages (root_pgt self) ∧
    not_table (mem_of s) (rp_ppn (root_pgt self)) p;
  vi_flags v t pm p : has (areas self) v t pm (Some p) →
    PTE.is_valid_flags (area_flags pm) = true;
  vi_inj v1 v2 t1 t2 pm1 pm2 p :
    has (areas self) v1 t1 pm1 (Some p) → has (areas self) v2 t2 pm2 (Some p) → v1 = v2;
  (** the user half of the page table maps exactly the pages of the areas *)
  vi_agree v x : 0 <= v < 2 ^ 26 →
    pgt_lookup (mem_of s) (rp_ppn (root_pgt self)) v = Some x ↔
    ∃ t pm p, has (areas self) v t pm (Some p) ∧ x = (O, mk_pte p (area_flags pm));
  (** the last-level table of the device mappings *)
  vi_sentinel : is_Some (node_at (mem_of s) (rp_ppn (root_pgt self)) [256; 0]);
}.

Lemma vi_area self s a : vm_inv self s → a ∈ areas self → area_ok a.
Proof. intros Hi Ha. pose proof (vi_areas _ _ Hi) as Hf. rewrite Forall_forall in Hf. by apply Hf. Qed.

(** The permissions of a page are five bits, [V] not among them. *)
Lemma vi_perm self s v t pm o : vm_inv self s → has (areas self) v t pm o → 0 <= pm < 32 ∧ pm mod 2 = 0.
Proof.
  intros Hi (a & Ha & _ & _ & <- & _). apply (vi_area _ _ _ Hi) in Ha.
  by destruct (to_pte_flags_ok _ (ar_perm_usize _ Ha) (ar_perm _ Ha)) as (_ & ? & ?).
Qed.

Lemma vi_agree_none self s v :
  vm_inv self s → 0 <= v < 2 ^ 26 → (∀ t pm p, ¬ has (areas self) v t pm (Some p)) →
  pgt_lookup (mem_of s) (rp_ppn (root_pgt self)) v = None.
Proof.
  intros Hi Hv Hn. destruct (pgt_lookup _ _ _) as [x|] eqn:E; [|done].
  apply (vi_agree _ _ Hi) in E as (t & pm & p & Hh & _); [|done]. by apply Hn in Hh.
Qed.

(** What a running task relies on: its root table, entry point and stacks *)
Definition same_ends self self' : Prop :=
  rp_ppn (root_pgt self') = rp_ppn (root_pgt self) ∧ entry_addr self' = entry_addr self ∧
  u_stack_end self' = u_stack_end self ∧ k_stack_end self' = k_stack_end self.

(** ** What a space owns, and what an operation on it may touch *)

(** The pages of its page table and of its areas *)
Definition owns self (p : Z) : Prop :=
  p ∈ rp_pages (root_pgt self) ∨ ∃ v t pm, has (areas self) v t pm (Some p).
(** The tables the hardware may walk, those shared with the kernel included *)
Definition reaches self s (p : Z) : Prop :=
  ∃ q, path_ok q ∧ node_at (mem_of s) (rp_ppn (root_pgt self)) q = Some p.

(** The step from [self] in [s] to [self'] in [s'] writes, frees and takes over only
    pages that were its own or free. *)
Record local self s self' s' : Prop := {
  lc_same p : ¬ owns self p → ¬ ps_free s p → page_same p (mem_of s) (mem_of s');
  lc_free p : ps_free s' p → owns self p ∨ ps_free s p;
  lc_owns p : owns self' p → owns self p ∨ ps_free s p;
  lc_reach p : reaches self' s' p → reaches self s p ∨ owns self p ∨ ps_free s p;
}.

Lemma local_refl self s : local self s self s.
Proof. split; [done|tauto|tauto|tauto]. Qed.

Lemma vi_owns self s p : vm_inv self s → owns self p → ps_managed p ∧ ¬ ps_free s p.
Proof.
  intros Hi [Hp|(v & t & pm & Hh)]; [by apply (pi_owned _ _ (vi_pgt _ _ Hi))|].
  apply (vi_owned _ _ Hi) in Hh. tauto.
Qed.
Lemma vi_reaches self s p : vm_inv self s → reaches self s p → ¬ ps_free s p.
Proof.
  intros Hi (q & Hq & Hn) Hp. by apply (pi_fresh _ _ (vi_pgt _ _ Hi) p Hp q).
Qed.

Lemma local_trans self s self1 s1 self2 s2 :
  local self s self1 s1 → local self1 s1 self2 s2 → local self s self2 s2.
Proof.
  intros [Hs1 Hf1 Ho1 Hr1] [Hs2 Hf2 Ho2 Hr2]. split.
  - intros p Hn Hp. eapply page_same_trans; [by apply Hs1|]. apply Hs2.
    + intros Ho. destruct (Ho1 p Ho); tauto.
    + intros Hp1. destruct (Hf1 p Hp1); tauto.
  - intros p Hp. destruct (Hf2 p Hp) as [?|?]; [by apply Ho1|by apply Hf1].
  - intros p Hp. destruct (Ho2 p Hp) as [?|?]; [by apply Ho1|by apply Hf1].
  - intros p Hp. destruct (Hr2 p Hp) as [?|[?|Hp1]]; [by apply Hr1| |]; right.
    + by apply Ho1.
    + by apply Hf1.
Qed.

(** Two areas never see the same page. *)
Lemma has_unique self s v t1 t2 pm1 pm2 o1 o2 :
  vm_inv self s → has (areas self) v t1 pm1 o1 → has (areas self) v t2 pm2 o2 →
  t1 = t2 ∧ pm1 = pm2 ∧ o1 = o2.
Proof.
  intros Hi (a & Ha & Hr1 & <- & <- & <-) (b & Hb & Hr2 & <- & <- & <-).
  apply list_elem_of_lookup in Ha as [i Hi1]. apply list_elem_of_lookup in Hb as [j Hj].
  destruct (decide (i = j)) as [->|Hne]; [by simplify_eq|]. exfalso.
  pose proof (pairwise_lookup _ _ _ _ (vi_disjoint _ _ Hi) Hi1 b) as Hd.
  assert (b ∈ delete i (areas self)) as Hin.
  { apply list_elem_of_lookup. destruct (decide (j < i)%nat).
    - exists j. by rewrite list_lookup_delete_lt.
    - exists (Nat.pred j). rewrite list_lookup_delete_ge by lia. by replace (Datatypes.S (Nat.pred j)) with j by lia. }
  destruct (Hd Hin); lia.
Qed.
End invariant.
