(* ===== verification/VmFault.v ===== *)
(** * Growing an address space: [add_new_area] and page faults

    [mmap] only records an area; the first access to a page faults and
    [map_fault_page] maps a fresh zeroed page with the permissions of its area. *)

From S2P Require Export VmInv.
From stdpp Require Import list.
Open Scope Z_scope.

Section fault.
Context {S : Type} `{PageSourceLaws S}.
Implicit Types (s : S) (self : VMSpace).

(** ** Taking a page leaves page tables alone. *)
Lemma pgt_inv_zeroed (pgt : RootPgt) s s1 p :
  pgt_inv pgt s → ps_ok s1 → ps_free s p → (∀ q, ps_free s1 q ↔ ps_free s q ∧ q ≠ p) →
  same_outside_page p (mem_of s) (mem_of s1) →
  pgt_inv pgt s1 ∧
  (∀ v, pgt_lookup (mem_of s1) (rp_ppn pgt) v = pgt_lookup (mem_of s) (rp_ppn pgt) v) ∧
  (∀ q, path_ok q → node_at (mem_of s1) (rp_ppn pgt) q = node_at (mem_of s) (rp_ppn pgt) q).
Proof using Type.
  intros [Hok Hwf Hfr Hnd Hown Hlow] Hok1 Hp Hf Hout.
  pose proof (zeroed_page_same_tables _ _ _ _ Hfr Hp Hout) as Hsame.
  assert (∀ q, path_ok q → node_at (mem_of s1) (rp_ppn pgt) q = node_at (mem_of s) (rp_ppn pgt) q)
    as Hn by (intros; by apply (node_at_same_tables _ _ _ _ Hsame)).
  split_and!; [|intros v|done].
  - split; [done|by apply (pgt_wf_same_tables _ _ _ Hsame)| |done| |].
    + intros q Hq q' Hq'. rewrite Hn by done. apply Hf in Hq as [Hq _]. by apply Hfr.
    + intros q Hq. rewrite Hf. apply Hown in Hq. tauto.
    + intros q t Hq Hl. rewrite Hn by done. by apply Hlow.
  - destruct (vpn_path_full v).
    apply (lookup_at_same_tables _ _ _ _ Hsame); [done|by apply Nat.eq_le_incl].
Qed.

(** ** Finding the area of a page *)

Lemma contain_vpn_true a v : Area.contain_vpn a v = true ↔ start_vpn a <= v < end_vpn a.
Proof using Type. unfold Area.contain_vpn. rewrite andb_true_iff, Z.leb_le, Z.ltb_lt. tauto. Qed.

Lemma find_area_mut_ok self v i a :
  Space.find_area_mut self v = Ok (i, a) →
  areas self !! i = Some a ∧ start_vpn a <= v < end_vpn a.
Proof using Type.
  unfold Space.find_area_mut. destruct (list_find _ _) as [[j b]|] eqn:E; [|done].
  intros [= -> ->]. apply list_find_Some in E as (? & Hc & _). by rewrite contain_vpn_true in Hc.
Qed.

Lemma find_area_mut_err self v e :
  Space.find_area_mut self v = Err e → e = NoAreaContainVpn v ∧ ∀ t pm o, ¬ has (areas self) v t pm o.
Proof using Type.
  unfold Space.find_area_mut. destruct (list_find _ _) as [[j b]|] eqn:E; [done|].
  intros [= <-]. split; [done|]. intros t pm o (a & Ha & Hr & _).
  apply list_find_None in E. rewrite Forall_forall in E. apply (E a Ha).
  by apply contain_vpn_true.
Qed.

(** Changing the pages of the area found does not change what is found. *)
Lemma find_area_mut_update self self' v i a p :
  Space.find_area_mut self v = Ok (i, a) →
  areas self' = <[i := Area.set_pages a p]> (areas self) →
  Space.find_area_mut self' v = Ok (i, Area.set_pages a p).
Proof using Type.
  unfold Space.find_area_mut. intros E ->.
  destruct (list_find _ (areas self)) as [[j b]|] eqn:Ef; [|done].
  injection E as -> ->. apply list_find_Some in Ef as (Hi & Hc & Hfirst).
  assert (list_find (λ a, Area.contain_vpn a v = true) (<[i := Area.set_pages a p]> (areas self)) =
    Some (i, Area.set_pages a p)) as ->; [|done].
  apply list_find_Some. split_and!.
  - apply list_lookup_insert_eq. by eapply lookup_lt_Some.
  - done.
  - intros j y Hj Hlt. rewrite list_lookup_insert_ne in Hj by lia. by apply (Hfirst j y).
Qed.

(** ** What inserting a page does to the view *)
Lemma has_insert_page self s i a v p v' t pm o :
  vm_inv self s → areas self !! i = Some a → start_vpn a <= v < end_vpn a →
  has (<[i := Area.set_pages a (<[v := p]> (pages a))]> (areas self)) v' t pm o ↔
  (v' = v ∧ t = map_type a ∧ pm = permissions a ∧ o = Some p) ∨
  (v' ≠ v ∧ has (areas self) v' t pm o).
Proof using Type.
  intros Hi Ha Hv. rewrite (insert_delete_perm _ _ _ _ Ha), has_cons.
  assert (has (areas self) v' t pm o ↔ sees a v' t pm o ∨ has (delete i (areas self)) v' t pm o)
    as -> by (by rewrite <- has_cons, <- delete_Permutation).
  assert (∀ t pm o, ¬ has (delete i (areas self)) v t pm o) as Hno.
  { intros t' pm' o' (b & Hb & Hr & _).
    pose proof (pairwise_lookup _ _ _ _ (vi_disjoint _ _ Hi) Ha b Hb) as [?|?]; lia. }
  unfold sees. simpl. destruct (decide (v' = v)) as [->|Hne].
  - rewrite lookup_insert_eq. specialize (Hno t pm o). naive_solver.
  - rewrite lookup_insert_ne by done. naive_solver.
Qed.

Lemma area_ok_set_pages a v p :
  area_ok a → start_vpn a <= v < end_vpn a → area_ok (Area.set_pages a (<[v := p]> (pages a))).
Proof using Type.
  intros [???? Hp] Hv. split; simpl; [done..|]. intros v' p' Hl.
  destruct (decide (v = v')) as [<-|]; [done|]. rewrite lookup_insert_ne in Hl by done.
  by apply (Hp v' p').
Qed.

Lemma areas_set_pages self s i a v p :
  vm_inv self s → areas self !! i = Some a → start_vpn a <= v < end_vpn a →
  let l := <[i := Area.set_pages a (<[v := p]> (pages a))]> (areas self) in
  Forall area_ok l ∧ pairwise area_disjoint l.
Proof using Type.
  intros Hi Ha Hv. simpl. rewrite (insert_delete_perm _ _ _ _ Ha).
  pose proof (vi_areas _ _ Hi) as Hf. pose proof (vi_disjoint _ _ Hi) as Hd.
  rewrite (delete_Permutation _ _ _ Ha) in Hf, Hd. apply Forall_cons in Hf as [Hoka Hf].
  split; [apply Forall_cons; split; [by apply area_ok_set_pages|done]|].
  simpl in *. destruct Hd as [Hd ?]. split; [|done]. exact Hd.
Qed.

End fault.

(** ** A page taken and handed to [map_create] *)
Section mapping.
Context {S : Type} `{PageSourceLaws S}.
Context (self : VMSpace) (s s1 s2 : S) (v p : Z) (new : list Z).
Context (Hi : vm_inv self s) (Hv : 0 <= v < 2 ^ 26).
(** [p] was free, is taken in [s1], and is no table *)
Context (Hp : ps_free s p) (Hf1 : ∀ q, ps_free s1 q ↔ ps_free s q ∧ q ≠ p).
Context (Hout : same_outside_page p (mem_of s) (mem_of s1)).
Context (Hi1 : pgt_inv (root_pgt self) s1).
Let root := rp_ppn (root_pgt self).
Context (Hn1 : ∀ q, path_ok q → node_at (mem_of s1) root q = node_at (mem_of s) root q).
(** [map_create] ran from [s1] to [s2] *)
Context (Hst : pgt_step root (vpn_tables s1 root v) new s1 s2).
Let pgt2 := mk_RootPgt root (rp_pages (root_pgt self) ++ new).

Lemma mapping_free q : ps_free s2 q → ps_free s q ∧ q ≠ p ∧ q ∉ new.
Proof using All. intros Hq. apply (step_free _ _ _ _ _ Hst) in Hq as [Hq ?]. apply Hf1 in Hq. tauto. Qed.

Lemma mapping_new q : q ∈ new → ps_free s q ∧ q ≠ p.
Proof using All. intros Hq. apply (step_new _ _ _ _ _ Hst) in Hq. by apply Hf1. Qed.

Lemma mapping_page_new : p ∉ rp_pages pgt2.
Proof using All.
  simpl. rewrite elem_of_app. intros [Hq|Hq]; [|by apply mapping_new in Hq as [_ []]].
  by apply (pi_owned _ _ (vi_pgt _ _ Hi)) in Hq as [_ ?].
Qed.

Lemma mapping_not_table q :
  not_table (mem_of s) root q → q ∉ new → not_table (mem_of s2) root q.
Proof using All.
  intros Hq Hnew q' Hq' Hn. destruct (step_node_inv _ _ _ _ _ Hst _ _ Hq' Hn) as [Hn'|]; [|done].
  rewrite Hn1 in Hn' by done. by apply (Hq q').
Qed.

Lemma mapping_frame q : q ∉ rp_pages pgt2 → page_same q (mem_of s1) (mem_of s2).
Proof using All.
  simpl. rewrite elem_of_app. intros Hq. apply (step_frame _ _ _ _ _ Hst); [tauto|].
  intros Hw. apply (vpn_tables_owned (root_pgt self)) in Hw; [tauto|exact Hi1|done].
Qed.

(** The pages of the areas keep their owner and their bytes. *)
Lemma mapping_owned v' t pm q :
  has (areas self) v' t pm (Some q) →
  (ps_managed q ∧ ¬ ps_free s2 q ∧ q ∉ rp_pages pgt2 ∧ not_table (mem_of s2) root q) ∧
  q ≠ p ∧ page_same q (mem_of s) (mem_of s2).
Proof using All.
  intros Hh. destruct (vi_owned _ _ Hi _ _ _ _ Hh) as (? & Hnf & Hnp & Hnt).
  assert (q ∉ rp_pages pgt2) as Hq.
  { simpl. rewrite elem_of_app. intros [?|Hq]; [done|]. by apply mapping_new in Hq as [? _]. }
  assert (q ≠ p) as Hne by (by intros ->). split_and!; [done| |done| |done|].
  - intros Hf. by apply mapping_free in Hf as [? _].
  - apply mapping_not_table; [done|]. simpl in Hq. rewrite elem_of_app in Hq. tauto.
  - eapply page_same_trans; [by eapply page_same_outside|by apply mapping_frame].
Qed.

(** The step was local to the space. *)
Lemma mapping_local self' s3 :
  rp_ppn (root_pgt self') = root → rp_pages (root_pgt self') = rp_pages pgt2 →
  (∀ v' t pm q, has (areas self') v' t pm (Some q) →
     q = p ∨ has (areas self) v' t pm (Some q)) →
  mem_of s3 = mem_of s2 → (∀ q, ps_free s3 q → ps_free s2 q ∨ q = p) →
  local self s self' s3.
Proof using All.
  intros Er Ep Ea Hm3 Hf3. split.
  - intros q Ho Hq. assert (q ≠ p) as Hne by (by intros ->). rewrite Hm3.
    eapply page_same_trans; [by eapply page_same_outside|]. apply mapping_frame. simpl.
    rewrite elem_of_app. intros [?|Hn]; [apply Ho; by left|]. by apply mapping_new in Hn as [? _].
  - intros q [Hq| ->]%Hf3; right; [|done]. by apply mapping_free in Hq as [? _].
  - intros q [Hq|(v' & t & pm & Hh)].
    + rewrite Ep in Hq. simpl in Hq. apply elem_of_app in Hq as [?|Hq]; [by left; left|right].
      by apply mapping_new in Hq as [? _].
    + apply Ea in Hh as [->|Hh]; [by right|]. left. right. by exists v', t, pm.
  - intros q (π & Hπ & Hq). rewrite Er, Hm3 in Hq.
    destruct (step_node_inv _ _ _ _ _ Hst _ _ Hπ Hq) as [Hq'|Hq'].
    + left. exists π. by rewrite <- Hn1.
    + right. right. by apply mapping_new in Hq' as [? _].
Qed.

Lemma mapping_sentinel : is_Some (node_at (mem_of s2) root [256; 0]).
Proof using All.
  destruct (vi_sentinel _ _ Hi) as [t Ht]. exists t.
  assert (path_ok [256; 0]) as Hpo by (apply path2_ok; unfold idx_ok; lia).
  apply (step_node _ _ _ _ _ Hst); [done|]. by rewrite Hn1.
Qed.

(** [l'] are the areas with [p] as page [v]. *)
Lemma vm_inv_mapped self' ty pm0 :
  Forall area_ok (areas self') → pairwise area_disjoint (areas self') →
  (∀ v' t pm q, has (areas self') v' t pm (Some q) ↔
     (v' = v ∧ t = ty ∧ pm = pm0 ∧ q = p) ∨ (v' ≠ v ∧ has (areas self) v' t pm (Some q))) →
  pgt_inv pgt2 s2 → root_pgt self' = pgt2 →
  PTE.is_valid_flags (area_flags pm0) = true →
  pgt_lookup (mem_of s2) root v = Some (O, mk_pte p (area_flags pm0)) →
  (∀ v', vpn_valid v' → v' ≠ v →
     pgt_lookup (mem_of s2) root v' = pgt_lookup (mem_of s) root v') →
  vm_inv self' s2.
Proof using All.
  intros Hfa Hpa Hview Hi2 Er Hflags Hafter Hold.
  split; rewrite ?Er; [done|exact Hfa|exact Hpa| | | | |apply mapping_sentinel].
  - intros v' t pm q. rewrite Hview.
    intros [(-> & _ & _ & ->)|[_ Hh]]; [|by destruct (mapping_owned _ _ _ _ Hh)].
    split_and!; [|intros Hq; by apply mapping_free in Hq as (_ & [] & _)
                 |apply mapping_page_new|apply mapping_not_table].
    + apply (ps_free_managed s); [apply (vi_pgt _ _ Hi)|done].
    + by apply (pi_fresh _ _ (vi_pgt _ _ Hi)).
    + intros Hq. by apply mapping_new in Hq as [_ []].
  - intros v' t pm q. rewrite Hview. intros [(_ & _ & -> & _)|[_ Hh]]; [done|].
    by apply (vi_flags _ _ Hi) in Hh.
  - intros v1 v2 t1 t2 pm1 pm2 q. rewrite !Hview.
    intros [(-> & _ & _ & Hq1)|[_ Hq1]] [(-> & _ & _ & Hq2)|[_ Hq2]]; [done|..].
    + subst q. by destruct (mapping_owned _ _ _ _ Hq2) as (_ & [] & _).
    + subst q. by destruct (mapping_owned _ _ _ _ Hq1) as (_ & [] & _).
    + by eapply (vi_inj _ _ Hi).
  - intros v' x Hv'. setoid_rewrite Hview. cbn [rp_ppn pgt2]. destruct (decide (v' = v)) as [->|Hne].
    + rewrite Hafter. split; [intros [= <-]|].
      * exists ty, pm0, p. split; [by left|done].
      * intros (t & pm & q & [(_ & -> & -> & ->)|[? _]] & ->); done.
    + rewrite Hold by (done || by left).
      pose proof (vi_agree _ _ Hi v' x Hv') as Hag. fold root in Hag. rewrite Hag. naive_solver.
Qed.

(** [map_create] failed and the page was given back. *)
Lemma vm_inv_not_mapped self' s3 :
  pgt_inv pgt2 s2 → root_pgt self' = pgt2 → areas self' = areas self →
  ps_ok s3 → mem_of s3 = mem_of s2 → (∀ q, ps_free s3 q ↔ ps_free s2 q ∨ q = p) →
  (∀ v', pgt_lookup (mem_of s2) root v' = pgt_lookup (mem_of s) root v') →
  vm_inv self' s3.
Proof using All.
  intros [? ? Hfr2 ? Hown2 ?] Er Ea Hok3 Hm3 Hf3 Hsame.
  assert (not_table (mem_of s2) root p) as Hnt.
  { apply mapping_not_table; [by apply (pi_fresh _ _ (vi_pgt _ _ Hi))|].
    intros Hq. by apply mapping_new in Hq as [_ []]. }
  split; rewrite ?Er, ?Ea, ?Hm3; [|apply Hi|apply Hi| |apply (vi_flags _ _ Hi)|apply (vi_inj _ _ Hi)| |apply mapping_sentinel].
  - split; rewrite ?Hm3; [done..| |done| |done].
    + intros q Hq. rewrite Hm3. apply Hf3 in Hq as [Hq| ->]; [by apply Hfr2|done].
    + intros q Hq. destruct (Hown2 q Hq) as [? Hnf]. split; [done|].
      rewrite Hf3. intros [?| ->]; [done|by apply mapping_page_new].
  - intros v' t pm q Hh. destruct (mapping_owned _ _ _ _ Hh) as [(? & Hnf & ? & ?) [? _]].
    split_and!; [done| |done..]. rewrite Hf3. tauto.
  - intros v' x Hv'. rewrite Hsame. by apply (vi_agree _ _ Hi).
Qed.
End mapping.

(** ** A fault on a page that is not mapped yet, or not mapped with the permissions asked *)
Section map.
Context {S : Type} `{PageSourceLaws S}.
Implicit Types (s : S) (self : VMSpace).

(** What the result of [map] says; [s] is the state before, [s'] after *)
Definition map_post self (v min : Z) s (r : result unit VMError) self' s' : Prop :=
  match r with
  | Ok _ =>
      ∃ pm p, has (areas self) v Anonymous pm None ∧ min .& pm = min ∧
        PTE.is_valid_flags (area_flags pm) = true ∧
        ps_free s p ∧ page_zero (mem_of s') p ∧
        ∀ v' t pm' o, has (areas self') v' t pm' o ↔
          (v' = v ∧ t = Anonymous ∧ pm' = pm ∧ o = Some p) ∨
          (v' ≠ v ∧ has (areas self) v' t pm' o)
  | Err e =>
      areas self' = areas self ∧
      match e with
      | NoAreaContainVpn v' => v' = v ∧ ∀ t pm o, ¬ has (areas self) v t pm o
      | PermissionDenied v' min' =>
          v' = v ∧ min' = min ∧ ∃ pm o, has (areas self) v Anonymous pm o ∧ min .& pm ≠ min
      | VMAcquirePageFailed => mem_of s' = mem_of s ∧ ∀ p, ¬ ps_free s p ∧ ¬ ps_free s' p
      | VMPgtError v' AcquirePageFailed => v' = v ∧ ∃ p, ∀ q, ps_free s' q → q = p
      | VMPgtError v' (InvalidPteFlags f) =>
          v' = v ∧ PTE.is_valid_flags f = false ∧
          ∃ pm, has (areas self) v Anonymous pm None ∧ f = area_flags pm
      | _ => False
      end
  end.

(** The frame and the new tables are all a mapping takes. *)
Lemma mapping_took root W new p s s1 s2 s3 :
  (length new <= 2)%nat → (∀ q, ps_free s1 q ↔ ps_free s q ∧ q ≠ p) →
  pgt_step root W new s1 s2 → (∀ q, ps_free s2 q → ps_free s3 q) →
  took_at_most 3 s s3.
Proof using Type.
  intros Hn Hf1 Hst Hf3. exists (p :: new). split; [simpl; lia|]. intros q Hq.
  destruct (decide (q = p)) as [->|Hne]; [right; by left|].
  destruct (decide (q ∈ new)); [right; by right|left]. apply Hf3.
  apply (step_free _ _ _ _ _ Hst). rewrite Hf1. done.
Qed.

(** The area of a user page is anonymous. *)
Lemma area_anonymous self s i a v :
  vm_inv self s → areas self !! i = Some a → start_vpn a <= v < end_vpn a → 0 <= v < 2 ^ 26 →
  area_ok a ∧ map_type a = Anonymous ∧
  has (areas self) v Anonymous (permissions a) (pages a !! v).
Proof using Type.
  intros Hi Ha Hav Hv.
  assert (area_ok a) as Hoka by (eapply vi_area; [done|]; by eapply list_elem_of_lookup_2).
  assert (map_type a = Anonymous) as Hty.
  { pose proof (ar_range _ Hoka) as Hr. destruct (map_type a); [done|lia]. }
  split_and!; [done..|]. exists a. split; [by eapply list_elem_of_lookup_2|].
  split; [done|by split_and!].
Qed.

Lemma map_wp self v min s :
  vm_inv self s → 0 <= v < 2 ^ 26 →
  (∀ t pm p, has (areas self) v t pm (Some p) → min .& pm ≠ min) →
  wp (Space.map self v min) (λ '(r, self') s',
    vm_inv self' s' ∧ same_ends self self' ∧
    (∀ v t pm p, has (areas self) v t pm (Some p) → page_same p (mem_of s) (mem_of s')) ∧
    local self s self' s' ∧ took_at_most 3 s s' ∧ map_post self v min s r self' s') s.
Proof using Type.
  intros Hi Hv Hun. unfold Space.map.
  destruct (Space.find_area_mut self v) as [[i a]|e] eqn:Hfind.
  2:{ apply find_area_mut_err in Hfind as [-> Hno]. wp_step.
    split_and!; [done|done|done|apply local_refl|by apply took_at_most_refl|done]. }
  destruct (find_area_mut_ok _ _ _ _ Hfind) as [Ha Hav].
  destruct (area_anonymous self s i a v Hi Ha Hav Hv) as (Hoka & Hty & Hhas).
  destruct (Z.eqb_spec (min .& permissions a) min) as [Hmin|Hmin]; cbn [negb].
  2:{ wp_step. split_and!; [done|done|done|apply local_refl|by apply took_at_most_refl|].
    split_and!; [done..|]. by eauto 6. }
  assert (pages a !! v = None) as Hnone.
  { destruct (pages a !! v) as [p|]; [by apply Hun in Hhas|done]. }
  rewrite Hnone in Hhas.
  wp_step. apply wp_assert; [by apply bool_decide_eq_true|].
  wp_step. eapply wp_mono; [apply ps_alloc_zeroed_page_law; apply Hi|].
  intros [p|] s1 (Hok1 & Hal); cbv beta iota in Hal |- *.
  2:{ destruct Hal as [-> Hnf]. wp_step.
    split_and!; [done|done|done|apply local_refl|by apply took_at_most_refl|by split_and!]. }
  destruct Hal as (Hp & Hf1 & Hz & Hout). rewrite Hnone. cbn [Space.drop_option].
  destruct (pgt_inv_zeroed _ s s1 p (vi_pgt _ _ Hi) Hok1 Hp Hf1 Hout) as (Hi1 & Hl1 & Hn1).
  pose proof (ps_free_ram s p (pi_ok _ _ (vi_pgt _ _ Hi)) Hp) as Hpr.
  destruct (to_pte_flags_ok _ (ar_perm_usize _ Hoka) (ar_perm _ Hoka)) as (-> & Hpmr & _).
  wp_step. wp_step. wp_step.
  eapply wp_mono; [apply (map_create_inv (root_pgt self) v p (area_flags (permissions a)) s1);
    [done|by left|lia|by apply area_flags_usize]|].
  intros [r r1] s2 (new & -> & Hlen & Hi2 & Hst & _ & Hr). cbv zeta in Hr. rewrite !Hl1 in Hr.
  pose proof (mapping_owned self s s1 s2 v p new Hi Hv Hp Hf1 Hout Hi1 Hn1 Hst) as Hown.
  destruct r as [[]|e]; cbn [map_err].
  - wp_step. destruct Hr as (Hfl & Hbefore & Hafter & Hold).
    split_and!; [|done|intros; by eapply Hown| |by eapply mapping_took|].
    + destruct (areas_set_pages self s i a v p Hi Ha Hav) as [Hfa Hpa].
      eapply (vm_inv_mapped self s s1 s2 v p new Hi Hv Hp Hf1 Hout Hi1 Hn1 Hst _ (map_type a) (permissions a));
        try done.
      { intros v' t pm q. cbn [areas Sp.set_areas Sp.set_root_pgt].
        rewrite (has_insert_page self s) by done. naive_solver. }
      intros. rewrite Hold by done. apply Hl1.
    + eapply (mapping_local self s s1 s2 v p new); try done; [|by left].
      intros v' t pm q Hq. apply (has_insert_page self s) in Hq; [|done..].
      destruct Hq as [(_ & _ & _ & [= ->])|[_ ?]]; [by left|by right].
    + exists (permissions a), p. split_and!; [done..| |].
      * eapply page_same_zero; [|exact Hz]. eapply (mapping_frame self s s1 s2 v p new); try done.
        by eapply (mapping_page_new self s s1 s2 v p new).
      * intros v' t pm' o. rewrite <- Hty. by apply (has_insert_page self s).
  - (* the page is taken back *)
    destruct Hr as [Hsame He].
    rewrite (find_area_mut_update self _ v i a (<[v := p]> (pages a)) Hfind) by done.
    cbn [pages Area.set_pages]. rewrite lookup_insert_eq. cbn [Space.drop_option].
    wp_step. eapply wp_mono; [apply ps_drop_page_law; [apply Hi2| |]|].
    { apply (ps_free_managed s); [apply (vi_pgt _ _ Hi)|done]. }
    { intros Hq. eapply (mapping_free self s s1 s2 v p new) in Hq as (_ & [] & _); done. }
    intros [] s3 (Hok3 & Hm3 & Hf3). cbv beta. wp_step.
    assert (<[i := Area.set_pages (Area.set_pages a (<[v := p]> (pages a)))
                     (delete v (<[v := p]> (pages a)))]>
      (<[i := Area.set_pages a (<[v := p]> (pages a))]> (areas self)) = areas self) as Eareas.
    { rewrite list_insert_insert_eq. apply list_insert_id. rewrite Ha. f_equal.
      rewrite delete_insert_id by done. by destruct a. }
    split_and!; [|done|intros ????; rewrite Hm3; intros; by eapply Hown|
      |eapply mapping_took; [done..|]; intros; apply Hf3; by left|split; [exact Eareas|]].
    + eapply (vm_inv_not_mapped self s s1 s2 v p new); try done.
      intros. rewrite Hsame. apply Hl1.
    + eapply (mapping_local self s s1 s2 v p new); try done.
      * intros v' t pm q Hq. right. cbn [areas Sp.set_areas Sp.set_root_pgt] in Hq.
        by rewrite Eareas in Hq.
      * intros q. apply Hf3.
    + destruct e as [|f|v' p'].
      * split; [done|]. exists p. intros q Hq. apply Hf3 in Hq as [Hq| ->]; [|done].
        by destruct (proj2 He q).
      * destruct He as [-> ?]. split_and!; [done..|]. by exists (permissions a).
      * destruct He as (_ & _ & [x Hx]). apply (vi_agree _ _ Hi) in Hx as (t & pm & q & Hh & _); [|done].
        by destruct (has_unique _ _ _ _ _ _ _ _ _ Hi Hh Hhas) as (_ & _ & ?).
Qed.
End map.
