(* ===== verification/VmUnmap.v ===== *)
(** * Shrinking an address space: [VMSpace::unmap]

    Every area is cut by the range, in one of four ways; on the abstract view the
    whole loop just removes the range. *)

From S2P Require Export VmFault.
From stdpp Require Import list.
Open Scope Z_scope.

Section cut.
Context {S : Type} `{PageSourceLaws S}.
Implicit Types (s : S) (self : VMSpace).

(** The pages in [[x, y)] are gone and given back, the rest is untouched. *)
Record vm_cut self s (x y : Z) self' s' : Prop := {
  cut_inv : vm_inv self' s';
  cut_root : root_pgt self' = root_pgt self;
  cut_ends : same_ends self self';
  cut_has v t pm o :
    has (areas self') v t pm o ↔ has (areas self) v t pm o ∧ ¬ (x <= v < y);
  cut_free p :
    ps_free s' p ↔ ps_free s p ∨ ∃ v t pm, x <= v < y ∧ has (areas self) v t pm (Some p);
  cut_frame p : p ∉ rp_pages (root_pgt self) → page_same p (mem_of s) (mem_of s');
  cut_node q : path_ok q →
    node_at (mem_of s') (rp_ppn (root_pgt self)) q =
    node_at (mem_of s) (rp_ppn (root_pgt self)) q;
}.

Lemma cut_pages self s x y self' s' v t pm p :
  vm_inv self s → vm_cut self s x y self' s' →
  has (areas self') v t pm (Some p) → page_same p (mem_of s) (mem_of s').
Proof using Type.
  intros Hi Hc [Hh _]%(cut_has _ _ _ _ _ _ Hc). apply (cut_frame _ _ _ _ _ _ Hc).
  by apply (vi_owned _ _ Hi) in Hh as (_ & _ & ? & _).
Qed.

Lemma cut_local self s x y self' s' : vm_cut self s x y self' s' → local self s self' s'.
Proof using Type.
  intros [_ Hroot _ Hhas Hfree Hfr Hn]. split.
  - intros p Ho _. apply Hfr. intros ?. apply Ho. by left.
  - intros p [?|(v & t & pm & _ & Hh)]%Hfree; [by right|]. left. right. by exists v, t, pm.
  - intros p [Hp|(v & t & pm & Hh)]; left; [left; by rewrite Hroot in Hp|].
    apply Hhas in Hh as [Hh _]. right. by exists v, t, pm.
  - intros p (q & Hq & Hp). left. exists q. rewrite Hroot, Hn in Hp by done. done.
Qed.

Lemma vm_cut_empty self s x y :
  vm_inv self s → (∀ v t pm o, has (areas self) v t pm o → ¬ (x <= v < y)) →
  vm_cut self s x y self s.
Proof using Type.
  intros Hi Hno. split; [done|done|done|naive_solver| |done|done].
  intros p. split; [by left|]. intros [?|(v & t & pm & Hv & Hh)]; [done|]. by apply Hno in Hh.
Qed.

Lemma vm_cut_trans self s x1 y1 self1 s1 x y self2 s2 :
  x <= x1 → y1 <= y →
  vm_cut self s x1 y1 self1 s1 → vm_cut self1 s1 x y self2 s2 → vm_cut self s x y self2 s2.
Proof using Type.
  intros Hx Hy [Hi1 Hr1 He1 Hh1 Hf1 Hp1 Hn1] [Hi2 Hr2 He2 Hh2 Hf2 Hp2 Hn2]. rewrite Hr1 in Hp2, Hn2.
  split; [done|congruence|unfold same_ends in *; intuition congruence| | | |].
  - intros v t pm o. rewrite Hh2, Hh1. split; [tauto|]. intros [? Hn]. split_and!; [done| |done].
    intros ?. apply Hn. lia.
  - intros p. rewrite Hf2, Hf1. split.
    + intros [[?|(v & t & pm & Hv & Hh)]|(v & t & pm & Hv & Hh)]; [by left|..]; right.
      * exists v, t, pm. split; [lia|done].
      * apply Hh1 in Hh as [Hh _]. by exists v, t, pm.
    + intros [?|(v & t & pm & Hv & Hh)]; [by left; left|].
      destruct (decide (x1 <= v < y1)); [left; right|right]; exists v, t, pm.
      * done.
      * split; [done|]. by apply Hh1.
  - intros p Hp. eapply page_same_trans; [by apply Hp1|by apply Hp2].
  - intros q Hq. rewrite Hn2 by done. by apply Hn1.
Qed.

(** ** Unmapping the page table *)

Lemma vm_sentinel self s x y :
  vm_inv self s → 0 <= x → y <= 2 ^ 26 → sentinel (root_pgt self) s x y 256 0.
Proof using Type.
  intros Hi Hx Hy. split.
  - split; unfold idx_ok; lia.
  - apply Hi.
  - unfold vpn_of. lia.
  - intros v l e Hv Hl. unfold vpn_of in Hv.
    apply (vi_agree _ _ Hi) in Hl as (t & pm & p & _ & [= -> _]); [done|lia].
Qed.

Lemma pgt_unmap_wp self s x y :
  vm_inv self s → 0 <= x <= y → y <= 2 ^ 26 →
  wp (Pgt.unmap (root_pgt self) x y) (λ r s1, r = Ok tt ∧ unmapped (root_pgt self) s x y s1) s.
Proof using Type.
  intros Hi Hxy Hy. destruct (decide (x = y)) as [->|].
  - unfold Pgt.unmap. rewrite Z.leb_refl. wp_step. split; [done|].
    split_and!; [apply Hi|done|]. apply cleared_refl; [lia|apply Hi].
  - apply (unmap_wp _ s x y 256 0); [apply vm_sentinel; (done || lia)|lia|apply Hi|apply Hi|lia|lia|].
    unfold vpn_of. lia.
Qed.

(** ** Replacing an area by pieces of it *)

(** [P] is what remains of [a] without [[x, y)]. *)
Record pieces (a : VMArea) (x y : Z) (P : list VMArea) : Prop := {
  pc_ok : Forall area_ok P;
  pc_disjoint : pairwise area_disjoint P;
  pc_has v t pm o : has P v t pm o ↔ sees a v t pm o ∧ ¬ (x <= v < y);
}.

Lemma pieces_within a x y P b :
  pieces a x y P → b ∈ P → start_vpn a <= start_vpn b ∧ end_vpn b <= end_vpn a.
Proof using Type.
  intros [Hok _ Hh] Hb. rewrite Forall_forall in Hok. pose proof (ar_nonempty _ (Hok _ Hb)).
  assert (∀ v, start_vpn b <= v < end_vpn b → start_vpn a <= v < end_vpn a) as Hin.
  { intros v Hv. assert (has P v (map_type b) (permissions b) (pages b !! v)) as [Hs _]%Hh.
    { exists b. split; [done|]. split; [done|by split_and!]. }
    by destruct Hs. }
  pose proof (Hin (start_vpn b)). pose proof (Hin (end_vpn b - 1)). lia.
Qed.

Section replace.
Context (self : VMSpace) (s s1 : S) (i : nat) (a : VMArea) (x y : Z) (P l2 : list VMArea).
Context (Hi : vm_inv self s) (Ha : areas self !! i = Some a).
Context (Hx : start_vpn a <= x) (Hy : y <= end_vpn a) (Hlo : 0 <= x) (Hhi : y <= 2 ^ 26).
Context (Hun : unmapped (root_pgt self) s x y s1).
Context (HP : pieces a x y P) (Hl2 : l2 ≡ₚ P ++ delete i (areas self)).

Lemma replace_rest b : b ∈ delete i (areas self) → area_disjoint a b.
Proof using Hi Ha. intros Hb. by apply (pairwise_lookup _ _ _ _ (vi_disjoint _ _ Hi) Ha). Qed.

Lemma replace_has v t pm o : has l2 v t pm o ↔ has (areas self) v t pm o ∧ ¬ (x <= v < y).
Proof using Hi Ha Hx Hy HP Hl2.
  rewrite Hl2, has_app, (pc_has _ _ _ _ HP).
  assert (has (areas self) v t pm o ↔ sees a v t pm o ∨ has (delete i (areas self)) v t pm o)
    as -> by (by rewrite <- has_cons, <- delete_Permutation).
  split; [|tauto]. intros [?|Hr]; [tauto|]. split; [tauto|]. intros Hv.
  destruct Hr as (b & Hb & Hbv & _). destruct (replace_rest b Hb); lia.
Qed.

Lemma replace_areas : Forall area_ok l2 ∧ pairwise area_disjoint l2.
Proof using Hi Ha HP Hl2.
  rewrite Hl2. pose proof (vi_areas _ _ Hi) as Hok. pose proof (vi_disjoint _ _ Hi) as Hd.
  rewrite (delete_Permutation _ _ _ Ha) in Hok, Hd. apply Forall_cons in Hok as [_ Hok].
  destruct Hd as [_ Hd]. destruct HP as [HPok HPd _]. split; [by apply Forall_app|].
  apply pairwise_app. split_and!; [done..|]. intros b c Hb Hc.
  destruct (pieces_within _ _ _ _ b HP Hb). pose proof (replace_rest c Hc). unfold area_disjoint in *. lia.
Qed.

(** The pages of the range *)
Lemma replace_dropped (m : gmap Z Z) :
  (∀ v, m !! v = if decide (x <= v < y) then pages a !! v else None) →
  NoDup (pages_in_order m) ∧
  ∀ p, p ∈ pages_in_order m ↔ ∃ v t pm, x <= v < y ∧ has (areas self) v t pm (Some p).
Proof using Hi Ha Hx Hy.
  intros Hm.
  assert (∀ v p, m !! v = Some p →
    x <= v < y ∧ has (areas self) v (map_type a) (permissions a) (Some p)) as Hin.
  { intros v p Hp. rewrite Hm in Hp. case_decide; [|done]. split; [done|].
    exists a. split; [by eapply list_elem_of_lookup_2|]. split; [lia|by split_and!]. }
  split.
  - apply pages_in_order_nodup. intros v1 v2 p Hp1%Hin Hp2%Hin.
    destruct Hp1 as [_ Hp1], Hp2 as [_ Hp2]. by eapply (vi_inj _ _ Hi).
  - intros p. rewrite elem_of_pages_in_order. split.
    + intros [v Hp%Hin]. by exists v, (map_type a), (permissions a).
    + intros (v & t & pm & Hv & b & Hb & Hbv & _ & _ & Hp). exists v. rewrite Hm, decide_True by done.
      rewrite (delete_Permutation _ _ _ Ha), elem_of_cons in Hb. destruct Hb as [->|Hb]; [done|].
      destruct (replace_rest b Hb); lia.
Qed.

Lemma replace_wp (m : gmap Z Z) :
  (∀ v, m !! v = if decide (x <= v < y) then pages a !! v else None) →
  wp (Space.drop_pages (pages_in_order m))
    (λ _ s2, vm_cut self s x y (Sp.set_areas self l2) s2) s1.
Proof using All.
  intros Hm. destruct (replace_dropped m Hm) as [Hnd Hin].
  destruct Hun as (Hok1 & Hf1 & Hc). pose proof (pgt_inv_unmapped _ _ _ _ _ (vi_pgt _ _ Hi) Hun) as Hpi.
  eapply wp_mono; [apply ps_drop_pages_law; [done|done|]|].
  { intros p Hp%Hin. destruct Hp as (v & t & pm & _ & Hh).
    apply (vi_owned _ _ Hi) in Hh. rewrite Hf1. tauto. }
  intros [] s2 (Hok2 & Hm2 & Hf2). cbv beta.
  assert (∀ p, ps_free s2 p ↔ ps_free s p ∨ p ∈ pages_in_order m) as Hfree
    by (intros; by rewrite Hf2, Hf1).
  pose proof (cl_node _ _ _ _ _ Hc) as Hn.
  assert (∀ q, not_table (mem_of s) (rp_ppn (root_pgt self)) q →
    not_table (mem_of s2) (rp_ppn (root_pgt self)) q) as Hnt.
  { intros q Hq q' Hq'. rewrite Hm2, Hn by done. by apply Hq. }
  assert (∀ v t pm p, has l2 v t pm (Some p) →
    has (areas self) v t pm (Some p) ∧ p ∉ pages_in_order m) as Hkept.
  { intros v t pm p Hh. apply replace_has in Hh as [Hh Hv]. split; [done|].
    intros (v' & t' & pm' & Hv' & Hh')%Hin. apply Hv.
    by rewrite (vi_inj _ _ Hi _ _ _ _ _ _ _ Hh Hh'). }
  split; cbn [areas Sp.set_areas root_pgt]; [|done|done|apply replace_has| | |].
  - destruct replace_areas as [Hoka Hdis]. split; cbn [areas Sp.set_areas root_pgt]; [|done..| | | | |].
    + destruct Hpi as [_ Hwf Hfr Hndp Hown Hlow]. split; rewrite ?Hm2; [done..| |done| |done].
      * intros p [Hp|Hp]%Hfree q Hq; rewrite Hm2; [by apply Hfr; [apply Hf1|]|].
        apply Hin in Hp as (v & t & pm & _ & Hh). rewrite Hn by done.
        apply (vi_owned _ _ Hi) in Hh as (_ & _ & _ & Hno). by apply Hno.
      * intros p Hp. destruct (Hown p Hp) as [? Hnf]. split; [done|].
        intros [?|Hd]%Hf2; [done|]. apply Hin in Hd as (v & t & pm & _ & Hh).
        by apply (vi_owned _ _ Hi) in Hh as (_ & _ & ? & _).
    + intros v t pm p Hh. apply Hkept in Hh as [Hh Hd].
      destruct (vi_owned _ _ Hi _ _ _ _ Hh) as (? & ? & ? & ?).
      split_and!; [done| |done|by apply Hnt]. rewrite Hfree. tauto.
    + intros v t pm p Hh. apply Hkept in Hh as [Hh _]. by apply (vi_flags _ _ Hi) in Hh.
    + intros v1 v2 t1 t2 pm1 pm2 p Hh1 Hh2. apply Hkept in Hh1 as [? _], Hh2 as [? _].
      by eapply (vi_inj _ _ Hi).
    + intros v o Hv. setoid_rewrite replace_has. rewrite Hm2.
      unfold pgt_lookup. rewrite (cl_lookup _ _ _ _ _ Hc) by lia.
      pose proof (vi_agree _ _ Hi v o Hv) as Hag. unfold pgt_lookup in Hag.
      case_decide; [|rewrite Hag]; naive_solver.
    + destruct (vi_sentinel _ _ Hi) as [t Ht]. exists t. rewrite Hm2, Hn; [done|].
      apply path2_ok; unfold idx_ok; lia.
  - intros p. rewrite Hfree. by rewrite Hin.
  - intros p Hp. rewrite Hm2. apply (cl_frame _ _ _ _ _ Hc).
    intros (v' & Hv' & Hn'). apply Hp.
    apply (pi_low _ _ (vi_pgt _ _ Hi) _ _ (vpn_tables_path_ok v')); [simpl; zlia|exact Hn'].
  - intros q Hq. rewrite Hm2. by apply Hn.
Qed.
End replace.
End cut.

(** ** One iteration of the loop *)
Section unmap.
Context {S : Type} `{PageSourceLaws S}.
Implicit Types (s : S) (self : VMSpace).

Definition clear_of (start end_ : Z) (b : VMArea) : Prop :=
  end_vpn b <= start ∨ end_ <= start_vpn b.
(** The areas from index [i] on are clear of the range. *)
Definition clear_from (start end_ : Z) (i : nat) (l : list VMArea) : Prop :=
  ∀ j b, (i <= j)%nat → l !! j = Some b → clear_of start end_ b.

Lemma pieces_single (a b : VMArea) x y :
  area_ok b → (∀ v t pm o, sees b v t pm o ↔ sees a v t pm o ∧ ¬ (x <= v < y)) →
  pieces a x y [b].
Proof using Type.
  intros Hb Hs. split; [by constructor|done|]. intros v t pm o. rewrite has_cons, Hs.
  pose proof (has_nil v t pm o). tauto.
Qed.

Lemma swap_remove_spec {A} (l : list A) i a :
  l !! i = Some a →
  ∃ l', Space.swap_remove l i = Some (a, l') ∧ l' ≡ₚ delete i l ∧
    length l' = pred (length l) ∧
    ∀ j b, l' !! j = Some b → (i <= j)%nat → ∃ j', (i < j')%nat ∧ l !! j' = Some b.
Proof using Type.
  intros Hi. pose proof (lookup_lt_Some _ _ _ Hi) as Hlt. unfold Space.swap_remove. rewrite Hi.
  destruct (last l) as [z|] eqn:Hz; [|apply last_None in Hz; by subst].
  eexists. split; [done|]. apply last_Some in Hz as [k ->].
  rewrite length_app in *. simpl in *.
  replace (length k + 1 - 1)%nat with (length k) by lia.
  destruct (decide (i = length k)) as [->|Hne].
  - rewrite insert_app_r_alt, Nat.sub_diag by lia. simpl.
    rewrite take_app_length. split_and!; [|lia|].
    + rewrite delete_take_drop, take_app_length, drop_app_ge by lia.
      by rewrite Nat.sub_succ_l, Nat.sub_diag, app_nil_r by lia.
    + intros j b Hj Hji. apply lookup_lt_Some in Hj. lia.
  - assert (i < length k)%nat as Hik by lia. rewrite lookup_app_l in Hi by done.
    rewrite insert_app_l, take_app_length' by (rewrite ?length_insert; lia). split_and!.
    + rewrite (insert_delete_perm _ _ _ _ Hi), !delete_take_drop.
      rewrite take_app_le, drop_app_le by lia. rewrite app_assoc. by rewrite Permutation_cons_append.
    + rewrite length_insert. lia.
    + intros j b Hj Hji. destruct (decide (j = i)) as [->|].
      * rewrite list_lookup_insert_eq in Hj by done. injection Hj as <-.
        exists (length k). split; [done|]. by rewrite lookup_app_r, Nat.sub_diag by lia.
      * rewrite list_lookup_insert_ne in Hj by lia. exists j. split; [lia|].
        by apply lookup_app_l_Some.
Qed.

(** A part of an area *)
Lemma area_part (a : VMArea) lo hi (m : gmap Z Z) :
  area_ok a → start_vpn a <= lo → lo < hi → hi <= end_vpn a →
  (∀ v, m !! v = if decide (lo <= v < hi) then pages a !! v else None) →
  let b := mk_VMArea lo hi (map_type a) (permissions a) m in
  area_ok b ∧ ∀ v t pm o, sees b v t pm o ↔ sees a v t pm o ∧ lo <= v < hi.
Proof using Type.
  intros [? Hr ? ? Hp] Hlo Hlt Hhi Hm b. split.
  - split; simpl; [done| |done..|].
    + destruct (map_type a); lia.
    + intros v p Hv. rewrite Hm in Hv. by case_decide.
  - intros v t pm o. unfold sees. simpl. rewrite Hm. case_decide; [|tauto].
    intuition lia.
Qed.

(** Splitting the pages of an area *)
Lemma split_off_spec m k l h :
  split_off m k = (l, h) →
  (∀ v, l !! v = if decide (v < k) then m !! v else None) ∧
  (∀ v, h !! v = if decide (k <= v) then m !! v else None).
Proof using Type.
  intros E. pose proof (split_off_low m k) as Hl. pose proof (split_off_high m k) as Hh.
  by rewrite E in Hl, Hh.
Qed.

Lemma area_pages_none (a : VMArea) v :
  area_ok a → ¬ (start_vpn a <= v < end_vpn a) → pages a !! v = None.
Proof using Type.
  intros Ha Hv. destruct (pages a !! v) as [p|] eqn:E; [|done]. by apply (ar_pages _ Ha) in E.
Qed.


(** Keeping one side [[lo, hi)] of the area and dropping the other, [[x, y)] *)
Lemma keep_side_wp self s s1 i a x y lo hi (kept gone : gmap Z Z) :
  vm_inv self s → areas self !! i = Some a → area_ok a → 0 <= x → y <= 2 ^ 26 →
  unmapped (root_pgt self) s x y s1 → lo < hi →
  (lo = start_vpn a ∧ hi = x ∧ y = end_vpn a) ∨ (x = start_vpn a ∧ y = lo ∧ hi = end_vpn a) →
  x <= y →
  (∀ v, kept !! v = if decide (lo <= v < hi) then pages a !! v else None) →
  (∀ v, gone !! v = if decide (x <= v < y) then pages a !! v else None) →
  wp (Space.drop_pages (pages_in_order gone)) (λ _ s2,
    vm_cut self s x y (Sp.set_areas self
      (<[i := mk_VMArea lo hi (map_type a) (permissions a) kept]> (areas self))) s2) s1.
Proof using Type.
  intros Hi Ha Hoka Hx Hy Hun Hlt Hside Hxy Hkept Hgone.
  destruct (area_part a lo hi kept) as [Hokb Hsees]; [done|lia|done|lia|done|].
  apply (replace_wp self s s1 i a x y [mk_VMArea lo hi (map_type a) (permissions a) kept]);
    [done|done|lia|lia|lia|lia|done| | |done].
  - apply pieces_single; [exact Hokb|]. intros v t pm o. rewrite Hsees. unfold sees. intuition lia.
  - by eapply insert_delete_perm.
Qed.

(** Cutting the middle [[x, y)] out of the area *)
Lemma keep_ends_wp self s s1 i a x y (kept gone rest : gmap Z Z) :
  vm_inv self s → areas self !! i = Some a → area_ok a → 0 <= x → y <= 2 ^ 26 →
  unmapped (root_pgt self) s x y s1 → start_vpn a < x → x <= y → y < end_vpn a →
  (∀ v, kept !! v = if decide (v < x) then pages a !! v else None) →
  (∀ v, gone !! v = if decide (x <= v < y) then pages a !! v else None) →
  (∀ v, rest !! v = if decide (y <= v) then pages a !! v else None) →
  wp (Space.drop_pages (pages_in_order gone)) (λ _ s2,
    vm_cut self s x y (Sp.set_areas self (vec_push
      (<[i := mk_VMArea (start_vpn a) x (map_type a) (permissions a) kept]> (areas self))
      (mk_VMArea y (end_vpn a) (map_type a) (permissions a) rest))) s2) s1.
Proof using Type.
  intros Hi Ha Hoka Hx Hy Hun Hlo Hxy Hhi Hkept Hgone Hrest.
  destruct (area_part a (start_vpn a) x kept) as [Hokb Hb]; [done|lia|done|lia| |].
  { intros v. rewrite Hkept. repeat case_decide; try done; try lia. apply area_pages_none; [done|lia]. }
  destruct (area_part a y (end_vpn a) rest) as [Hokc Hc]; [done|lia|done|lia| |].
  { intros v. rewrite Hrest. repeat case_decide; try done; try lia. apply area_pages_none; [done|lia]. }
  apply (replace_wp self s s1 i a x y
    [mk_VMArea (start_vpn a) x (map_type a) (permissions a) kept;
     mk_VMArea y (end_vpn a) (map_type a) (permissions a) rest]); [done|done|lia|lia|lia|lia|done| | |done].
  - split.
    + apply Forall_cons_2; [exact Hokb|]. apply Forall_cons_2; [exact Hokc|constructor].
    + split; [apply Forall_singleton; left; simpl; lia|done].
    + intros v t pm o. rewrite !has_cons, Hb, Hc. pose proof (has_nil v t pm o).
      unfold sees. split; [intuition lia|]. intros [(? & ?) ?].
      destruct (decide (v < x)); [left|right; left]; intuition lia.
  - unfold vec_push. rewrite (insert_delete_perm _ _ _ _ Ha). simpl. f_equiv.
    by rewrite Permutation_app_comm.
Qed.

Lemma unmap_area_wp self s i a start end_ :
  vm_inv self s → 0 <= start <= end_ → end_ <= 2 ^ 26 →
  areas self !! i = Some a → clear_from start end_ (Datatypes.S i) (areas self) →
  wp (Space.unmap_area self i start end_) (λ '(r, self') s',
    r = Ok tt ∧ clear_from start end_ i (areas self') ∧ (i <= length (areas self'))%nat ∧
    ∃ x y, start <= x ∧ y <= end_ ∧ vm_cut self s x y self' s') s.
Proof using Type.
  intros Hi Hse Hend Ha Hclear.
  pose proof (lookup_lt_Some _ _ _ Ha) as Hlt.
  assert (area_ok a) as Hoka by (eapply vi_area; [done|]; by eapply list_elem_of_lookup_2).
  assert (∀ b j, (i <= j)%nat → areas self !! j = Some b → j ≠ i → clear_of start end_ b) as Hcl'
    by (intros b j Hj Hb Hne; apply (Hclear j b); [lia|done]).
  unfold Space.unmap_area. wp_step. apply (wp_expect _ _ _ _ a); [done|].
  destruct ((end_vpn a <=? start) || (end_ <=? start_vpn a)) eqn:Eno.
  { wp_step. split_and!; [done| |lia|].
    - intros j b Hj Hb. destruct (decide (j = i)) as [->|]; [|by eapply Hcl'].
      simplify_eq. unfold clear_of. apply orb_true_iff in Eno as [?%Z.leb_le|?%Z.leb_le]; lia.
    - exists start, start. split_and!; [lia|lia|]. apply vm_cut_empty; [done|lia]. }
  reflect_bools. pose proof (ar_nonempty _ Hoka).
  assert (0 <= start_vpn a ∧ end_vpn a <= 2 ^ 26) as [Hlo Hhi].
  { pose proof (ar_range _ Hoka) as Hr. destruct (map_type a); lia. }
  (* the areas left after an update at [i], maybe with one more *)
  assert (∀ b tail, clear_of start end_ b → Forall (clear_of start end_) tail →
    clear_from start end_ i (<[i := b]> (areas self) ++ tail)) as Hupd.
  { intros b tail Hb Htail j c Hj Hc. apply lookup_app_Some in Hc as [Hc|[_ Hc]].
    - destruct (decide (j = i)) as [->|]; [|rewrite list_lookup_insert_ne in Hc by done; by eapply Hcl'].
      rewrite list_lookup_insert_eq in Hc by done. by simplify_eq.
    - rewrite Forall_lookup in Htail. by eapply Htail. }
  destruct ((start <=? start_vpn a) && (end_vpn a <=? end_)) eqn:E1; [|destruct (start <=? start_vpn a) eqn:E2;
    [|destruct (end_vpn a <=? end_) eqn:E3]].
  - (* the whole area *)
    reflect_bools. wp_step. eapply wp_mono; [apply (pgt_unmap_wp self s); (done || lia)|].
    intros r s1 [-> Hun]. wp_step.
    destruct (swap_remove_spec _ _ _ Ha) as (l' & Hsw & Hl' & Hlen & Hlook).
    apply (wp_expect _ _ _ _ _ Hsw). wp_step.
    unfold Space.drop_area. eapply wp_mono; [apply (replace_wp self s s1 i a (start_vpn a) (end_vpn a) [] l'); try done|].
    { split; [constructor|done|]. intros v t pm o. pose proof (has_nil v t pm o).
      unfold sees. tauto. }
    { intros v. case_decide; [done|]. destruct (pages a !! v) as [p|] eqn:Ep; [|done].
      by apply (ar_pages _ Hoka) in Ep. }
    intros [] s2 Hcut. wp_step. split_and!; [done| |cbn [areas Sp.set_areas]; lia|].
    + intros j b Hj Hb. destruct (Hlook j b Hb Hj) as (j' & Hj' & Hb').
      apply (Hcl' b j'); [lia|done|lia].
    + exists (start_vpn a), (end_vpn a). split_and!; [lia|lia|done].
  - (* its lower part *)
    reflect_bools. wp_step. eapply wp_mono; [apply (pgt_unmap_wp self s); (done || lia)|].
    intros r s1 [-> Hun]. destruct (split_off (pages a) end_) as [below rest] eqn:Es.
    destruct (split_off_spec _ _ _ _ Es) as [Hbelow Hrest]. wp_step. eapply wp_mono.
    { apply (keep_side_wp self s s1 i a (start_vpn a) end_ end_ (end_vpn a) rest below);
        try done; try lia; intros v; rewrite ?Hrest, ?Hbelow;
        repeat case_decide; try done; try lia; apply area_pages_none; (done || lia). }
    intros [] s2 Hcut. wp_step. split_and!; [done| | |].
    + rewrite <- (app_nil_r (<[_ := _]> _)). apply Hupd; [right; simpl; lia|constructor].
    + cbn [areas Sp.set_areas]. rewrite length_insert. lia.
    + exists (start_vpn a), end_. split_and!; [lia|lia|exact Hcut].
  - (* its upper part *)
    reflect_bools. wp_step. eapply wp_mono; [apply (pgt_unmap_wp self s); (done || lia)|].
    intros r s1 [-> Hun]. destruct (split_off (pages a) start) as [kept above] eqn:Es.
    destruct (split_off_spec _ _ _ _ Es) as [Hkept Habove]. wp_step. eapply wp_mono.
    { apply (keep_side_wp self s s1 i a start (end_vpn a) (start_vpn a) start kept above);
        try done; try lia; intros v; rewrite ?Hkept, ?Habove;
        repeat case_decide; try done; try lia; apply area_pages_none; (done || lia). }
    intros [] s2 Hcut. wp_step. split_and!; [done| | |].
    + rewrite <- (app_nil_r (<[_ := _]> _)). apply Hupd; [left; simpl; lia|constructor].
    + cbn [areas Sp.set_areas]. rewrite length_insert. lia.
    + exists start, (end_vpn a). split_and!; [lia|lia|exact Hcut].
  - (* its middle *)
    reflect_bools. wp_step. eapply wp_mono; [apply (pgt_unmap_wp self s); (done || lia)|].
    intros r s1 [-> Hun]. destruct (split_off (pages a) start) as [kept tail] eqn:Es.
    destruct (split_off_spec _ _ _ _ Es) as [Hkept Htail].
    destruct (split_off tail end_) as [middle rest] eqn:Et.
    destruct (split_off_spec _ _ _ _ Et) as [Hmiddle Hrest]. wp_step. eapply wp_mono.
    { apply (keep_ends_wp self s s1 i a start end_ kept middle rest); try done; try lia;
        intros v; rewrite ?Hrest, ?Hmiddle, ?Htail; repeat case_decide; (done || lia). }
    intros [] s2 Hcut. wp_step. split_and!; [done| | |].
    + apply Hupd; [left; simpl; lia|]. apply Forall_singleton. right. simpl. lia.
    + cbn [areas Sp.set_areas]. unfold vec_push. rewrite length_app, length_insert. lia.
    + exists start, end_. split_and!; [lia|lia|exact Hcut].
Qed.

(** ** The loop *)
Lemma unmap_loop_wp n self s start end_ :
  vm_inv self s → 0 <= start <= end_ → end_ <= 2 ^ 26 →
  (n <= length (areas self))%nat → clear_from start end_ n (areas self) →
  wp (try_for_each (rev (seq 0 n)) (λ i self, Space.unmap_area self i start end_) self)
    (λ '(r, self') s', r = Ok tt ∧ vm_cut self s start end_ self' s') s.
Proof using Type.
  revert self s. induction n as [|n IH]; intros self s Hi Hse Hend Hn Hcl.
  - simpl. wp_step. split; [done|]. apply vm_cut_empty; [done|].
    intros v t pm o (a & Ha & Hav & _) Hv. apply list_elem_of_lookup in Ha as [j Hj].
    destruct (Hcl j a); [lia|done|lia|lia].
  - rewrite seq_S, rev_app_distr. simpl.
    destruct (lookup_lt_is_Some_2 (areas self) n ltac:(lia)) as [a Ha].
    wp_step. eapply wp_mono; [by apply (unmap_area_wp self s n a)|].
    intros [r self1] s1 (-> & Hcl1 & Hn1 & x & y & Hx & Hy & Hcut).
    eapply wp_mono; [apply (IH self1 s1); [apply Hcut|done..]|].
    intros [r self2] s2 (-> & Hcut2). split; [done|].
    by eapply (vm_cut_trans self s x y self1 s1).
Qed.

Lemma space_unmap_wp self s start end_ :
  vm_inv self s → 0 <= start <= end_ → end_ <= 2 ^ 26 →
  wp (Space.unmap self start end_)
    (λ '(r, self') s', r = Ok tt ∧ vm_cut self s start end_ self' s') s.
Proof using Type.
  intros. apply unmap_loop_wp; [done..|]. intros j b Hj Hb. apply lookup_lt_Some in Hb. lia.
Qed.
End unmap.
