(* ===== verification/VmProps.v ===== *)
(** * Correctness of address spaces

    The properties of [src/os/src/mm/vm.rs] that its clients - the trap handlers and
    the memory system calls - rely on, for any page source. *)

From S2P Require Export VmUnmap.
From S2P Require Import PageAlloc.
From stdpp Require Import list.
Open Scope Z_scope.

(** ** An example space: one area of 16 pages, nothing mapped yet *)
Definition sample_area : VMArea := mk_VMArea 0x10 0x20 Anonymous 0x16 ∅.
Definition sample_space : VMSpace := mk_VMSpace sample_pgt [sample_area] 0 0 0.

Lemma sample_area_unmapped v t pm p : ¬ has [sample_area] v t pm (Some p).
Proof.
  intros (a & Ha & _ & _ & _ & Hp). apply list_elem_of_singleton in Ha as ->.
  simpl in Hp. by rewrite lookup_empty in Hp.
Qed.

Lemma sample_area_denied v min t pm p : has [sample_area] v t pm (Some p) → min .& pm ≠ min.
Proof. by intros ?%sample_area_unmapped. Qed.

Lemma sample_space_ok :
  @vm_inv MM _ _ (@page_source_laws_MM sample_symbols) sample_space sample_pgt_mm.
Proof.
  destruct sample_pgt_tables as (_ & _ & Hnone). split.
  - apply sample_pgt_ok.
  - apply Forall_singleton. split; simpl; [lia|lia|vm_compute; split; congruence|done|].
    intros v p Hp. by rewrite lookup_empty in Hp.
  - done.
  - intros v t pm p Hh. by apply sample_area_unmapped in Hh.
  - intros v t pm p Hh. by apply sample_area_unmapped in Hh.
  - intros v1 v2 t1 t2 pm1 pm2 p Hh. by apply sample_area_unmapped in Hh.
  - intros v x _. cbn [root_pgt sample_space sample_pgt rp_ppn].
    unfold pgt_lookup. change (mem_of sample_pgt_mm) with sample_pgt_mem.
    rewrite Hnone by apply vpn_path_full. split; [done|].
    intros (t & pm & p & Hh & _). by apply sample_area_unmapped in Hh.
  - vm_compute. by eexists.
Qed.

(** A fault on it that asks for no more than the area allows succeeds. *)
Lemma sample_map_run v min :
  0x10 <= v < 0x20 → min .& 0x16 = min →
  ∃ self' s', Space.map sample_space v min sample_pgt_mm = Ret (Ok tt, self') s' ∧
    @took_at_most MM _ _ (@page_source_laws_MM sample_symbols) 3 sample_pgt_mm s'.
Proof.
  intros Hv Hmin.
  assert (∀ t pm o, has (areas sample_space) v t pm o → pm = 0x16) as Hpm.
  { intros t pm o (a & Ha & _ & _ & <- & _). by apply list_elem_of_singleton in Ha as ->. }
  destruct (wp_returns _ _ _ (@map_wp MM _ _ (@page_source_laws_MM sample_symbols)
    sample_space v min sample_pgt_mm sample_space_ok ltac:(lia) (sample_area_denied v min)))
    as ([[[]|e] self'] & s' & Hrun & _ & _ & _ & _ & Htook & Hpost); [by exists self', s'|exfalso].
  pose proof (@spare_left MM _ _ (@page_source_laws_MM sample_symbols) _ _ _ _
    (sample_pgt_spare 5 ltac:(lia)) Htook) as Hspare.
  destruct Hpost as [_ Hpost]. destruct e as [|? [|f|]| | | | | | | |]; try done.
  - destruct Hpost as (_ & p & Hall).
    destruct (@spare_two MM _ _ (@page_source_laws_MM sample_symbols) _ _ p Hspare) as (q & Hq & []). by apply Hall.
  - destruct Hpost as (_ & Hf & pm & Hh & ->). by rewrite (Hpm _ _ _ Hh) in Hf.
  - destruct Hpost as [_ Hno]. destruct (Hno Anonymous 0x16 None).
    exists sample_area. split; [by apply list_elem_of_singleton|]. split; [simpl; lia|].
    split; [done|]. split; [done|apply lookup_empty].
  - destruct Hpost as (_ & _ & pm & o & Hh & Hne). by rewrite (Hpm _ _ _ Hh) in Hne.
  - destruct Hpost as [_ Hnf].
    by destruct (@spare_one MM _ _ (@page_source_laws_MM sample_symbols) _ _
      (sample_pgt_spare 1 ltac:(lia))) as [p []%Hnf].
Qed.

(** ** Translations of user addresses *)
Section translate.
Context {S : Type} `{PageSourceLaws S}.
Implicit Types (s : S) (self : VMSpace).

(** Two views that agree on a page translate it alike. *)
Lemma user_translate_same self s self' s' va :
  vm_inv self s → vm_inv self' s' → 0 <= va < 2 ^ 38 →
  (∀ t pm p, has (areas self') (va / 4096) t pm (Some p) ↔
             has (areas self) (va / 4096) t pm (Some p)) →
  mmu_translate (mem_of s') (rp_ppn (root_pgt self')) va =
    mmu_translate (mem_of s) (rp_ppn (root_pgt self)) va.
Proof.
  intros Hi Hi' Hva Heq. apply mmu_translate_ext; [apply Hi|apply Hi'|].
  assert (0 <= va / 4096 < 2 ^ 26) as Hv by zlia.
  pose proof (λ x, vi_agree _ _ Hi (va / 4096) x Hv) as Ha.
  pose proof (λ x, vi_agree _ _ Hi' (va / 4096) x Hv) as Ha'. cbv beta in Ha, Ha'.
  fold (pgt_lookup (mem_of s') (rp_ppn (root_pgt self')) (va / 4096)).
  fold (pgt_lookup (mem_of s) (rp_ppn (root_pgt self)) (va / 4096)).
  apply option_eq. intros x. rewrite Ha, Ha'. by setoid_rewrite Heq.
Qed.

Lemma user_va_valid va : 0 <= va < 2 ^ 38 → is_usize va ∧ VPN.is_valid_va va = true.
Proof.
  intros Hva. assert (is_usize va) as Hu by (unfold is_usize, USIZE_MODULUS; lia).
  split; [done|]. apply is_valid_va_cases; [done|lia].
Qed.

Lemma user_translate_none self s va :
  vm_inv self s → 0 <= va < 2 ^ 38 → (∀ t pm p, ¬ has (areas self) (va / 4096) t pm (Some p)) →
  mmu_translate (mem_of s) (rp_ppn (root_pgt self)) va = None.
Proof.
  intros Hi Hva Hno. unfold mmu_translate.
  destruct (user_va_valid va Hva) as [_ ->]. cbn [negb].
  rewrite mmu_walk_lookup by (apply Hi || apply vpn_path_full).
  fold (pgt_lookup (mem_of s) (rp_ppn (root_pgt self)) (va / 4096)).
  by rewrite (vi_agree_none _ _ _ Hi) by (zlia || done).
Qed.

(** Every valid translation of a user address comes from an area. *)
Lemma user_translate_inv self s va pa f :
  vm_inv self s → 0 <= va < 2 ^ 38 →
  mmu_translate (mem_of s) (rp_ppn (root_pgt self)) va = Some (pa, f) →
  ∃ t pm p, has (areas self) (va / 4096) t pm (Some p) ∧
    pa = p * 4096 + va mod 4096 ∧ f = area_flags pm.
Proof.
  intros Hi Hva. unfold mmu_translate. destruct (user_va_valid va Hva) as [_ ->]. cbn [negb].
  rewrite mmu_walk_lookup by (apply Hi || apply vpn_path_full).
  destruct (lookup_at _ _ _) as [[l e]|] eqn:El; [|done].
  apply (vi_agree _ _ Hi) in El as (t & pm & p & Hh & [= -> ->]); [|zlia].
  destruct (vi_owned _ _ Hi _ _ _ _ Hh) as (Hm & _).
  apply ps_managed_ram in Hm.
  destruct (vi_perm _ _ _ _ _ _ Hi Hh) as [Hpm _].
  destruct (mmu_accepts _); [|done]. change (leaf_size 0) with 4096.
  rewrite mk_pte_ppn by (unfold area_flags; lia).
  rewrite mk_pte_flags by (unfold area_flags; lia). rewrite Z.mod_mul by done.
  intros [= <- <-]. by exists t, pm, p.
Qed.
End translate.

(** ** New areas *)

Lemma areas_overlap t l start end_ :
  forallb (λ a, (end_vpn a <=? start) || (end_ <=? start_vpn a)) l = true ↔
  Forall (area_disjoint (mk_VMArea start end_ t 0 ∅)) l.
Proof.
  rewrite forallb_forall, Forall_forall. unfold area_disjoint. simpl.
  split; intros Hl a Ha.
  - apply list_elem_of_In, Hl in Ha. apply orb_true_iff in Ha. rewrite !Z.leb_le in Ha. lia.
  - apply list_elem_of_In, Hl in Ha. apply orb_true_iff. rewrite !Z.leb_le. lia.
Qed.

(** [add_new_area] accepts a range exactly when it is nonempty, asks for known
    permissions only and overlaps no area; it then adds the pages of the range,
    unmapped, to the view of the space and changes no translation.  Refused, it
    changes nothing and names the reason. *)
Theorem add_new_area_correct {S : Type} `{PageSourceLaws S} self (s : S) start end_ pm :
  vm_inv self s → 0 <= start → end_ <= 2 ^ 26 → is_usize pm →
  match Space.add_new_area self start end_ Anonymous pm with
  | (Ok _, self') =>
      vm_inv self' s ∧ start < end_ ∧ pm .& .~ ALL_PERMISSION_FLAGS = 0 ∧
      root_pgt self' = root_pgt self ∧
      (∀ v t pm' o, start <= v < end_ → ¬ has (areas self) v t pm' o) ∧
      ∀ v t pm' o, has (areas self') v t pm' o ↔
        has (areas self) v t pm' o ∨
        (start <= v < end_ ∧ t = Anonymous ∧ pm' = pm ∧ o = None)
  | (Err e, self') =>
      self' = self ∧
      ((e = EmptyArea start end_ ∧ end_ <= start) ∨
       (e = InvalidPermissions pm ∧ pm .& .~ ALL_PERMISSION_FLAGS ≠ 0) ∨
       (e = AreaOverlapping start end_ ∧
        ∃ v t pm' o, start <= v < end_ ∧ has (areas self) v t pm' o))
  end.
Proof.
  intros Hi Hlo Hhi Hu. unfold Space.add_new_area.
  destruct (Z.leb_spec end_ start) as [|Hlt]; [split; [done|by left]|].
  destruct (Z.eqb_spec (pm .& .~ ALL_PERMISSION_FLAGS) 0) as [Hpm|Hpm]; cbn [negb];
    [|split; [done|by right; left]].
  destruct (forallb _ _) eqn:E.
  - set (a := Area.new start end_ Anonymous pm).
    apply (areas_overlap Anonymous) in E.
    assert (Forall (area_disjoint a) (areas self)) as Hdis by exact E.
    assert (∀ v t pm' o, has (vec_push (areas self) a) v t pm' o ↔
      has (areas self) v t pm' o ∨ (start <= v < end_ ∧ t = Anonymous ∧ pm' = pm ∧ o = None))
      as Hview.
    { intros v t pm' o. unfold vec_push. rewrite has_app, has_cons. pose proof (has_nil v t pm' o).
      unfold sees. simpl. rewrite lookup_empty. naive_solver. }
    split_and!; [|done|done|done| |exact Hview].
    + split; cbn [areas Sp.set_areas root_pgt].
      * apply Hi.
      * unfold vec_push. apply Forall_app. split; [apply Hi|]. apply Forall_singleton.
        split; simpl; [done|lia|done|done|]. intros v p Hp. by rewrite lookup_empty in Hp.
      * unfold vec_push. rewrite Permutation_app_comm. simpl. split; [done|apply Hi].
      * intros v t pm' p [Hh|(_ & _ & _ & ?)]%Hview; [by apply (vi_owned _ _ Hi) in Hh|done].
      * intros v t pm' p [Hh|(_ & _ & _ & ?)]%Hview; [by apply (vi_flags _ _ Hi) in Hh|done].
      * intros v1 v2 t1 t2 pm1 pm2 p [Hh1|(_ & _ & _ & ?)]%Hview [Hh2|(_ & _ & _ & ?)]%Hview;
          [|done..]. by eapply (vi_inj _ _ Hi).
      * intros v x Hv. setoid_rewrite Hview. rewrite (vi_agree _ _ Hi) by done. naive_solver.
      * apply Hi.
    + intros v t pm' o Hv (b & Hb & Hbv & _). rewrite Forall_forall in Hdis.
      destruct (Hdis b Hb) as [?|?]; simpl in *; lia.
  - split; [done|right; right]. split; [done|].
    apply not_true_iff_false in E. rewrite (areas_overlap Anonymous) in E.
    apply not_Forall_Exists in E; [|intros b; unfold area_disjoint; apply _].
    apply Exists_exists in E as (b & Hb & Hnd). unfold area_disjoint in Hnd. simpl in Hnd.
    pose proof (ar_nonempty _ (vi_area _ _ _ Hi Hb)).
    exists (Z.max start (start_vpn b)), (map_type b), (permissions b),
      (pages b !! (Z.max start (start_vpn b))).
    split; [lia|]. exists b. split; [done|]. split; [lia|done].
Qed.

Lemma add_new_area_correct_witness :
  ∃ self', Space.add_new_area sample_space 0x20 0x30 Anonymous 0x16 = (Ok tt, self') ∧
    @vm_inv MM _ _ (@page_source_laws_MM sample_symbols) self' sample_pgt_mm.
Proof.
  eexists. split; [reflexivity|].
  refine (proj1 (@add_new_area_correct MM _ _ (@page_source_laws_MM sample_symbols)
    sample_space sample_pgt_mm 0x20 0x30 0x16 sample_space_ok _ _ _)); [lia|lia|].
  vm_compute. split; congruence.
Defined.

(** ** Page faults *)

Lemma map_fault_wp {S : Type} `{PageSourceLaws S} self va min (s : S) :
  vm_inv self s → 0 <= va < 2 ^ 38 →
  (∀ t pm p, has (areas self) (va / 4096) t pm (Some p) → min .& pm ≠ min) →
  wp (Space.map_fault_page self va min) (λ '(r, self') s',
    vm_inv self' s' ∧ same_ends self self' ∧
    (∀ v t pm p, has (areas self) v t pm (Some p) → page_same p (mem_of s) (mem_of s')) ∧
    local self s self' s' ∧ took_at_most 3 s s' ∧ map_post self (va / 4096) min s r self' s') s.
Proof.
  intros Hi Hva Hun. destruct (user_va_valid va Hva) as [Hu _]. apply wp_bind.
  eapply wp_intro; [apply from_va_run; (done || lia)|]. apply map_wp; [done|zlia|done].
Qed.

(** C18: [map_fault_page] returns for every fault on a user page that is not mapped
    yet, or is mapped without the permissions asked for; it takes at most three pages,
    keeps the invariant and the bytes of every mapped page, and touches only free pages
    and the space's own; [Ok] means the page now holds a fresh zeroed frame, an error leaves all areas as they were and
    says why: no area, a permission the area lacks, no page left, or permissions
    the hardware has no encoding for. *)
Theorem map_fault_page_correct {S : Type} `{PageSourceLaws S} self va min (s : S) :
  vm_inv self s → 0 <= va < 2 ^ 38 →
  (∀ t pm p, has (areas self) (va / 4096) t pm (Some p) → min .& pm ≠ min) →
  ∃ r self' s', Space.map_fault_page self va min s = Ret (r, self') s' ∧
    vm_inv self' s' ∧ same_ends self self' ∧
    (∀ v t pm p, has (areas self) v t pm (Some p) → page_same p (mem_of s) (mem_of s')) ∧
    local self s self' s' ∧ took_at_most 3 s s' ∧ map_post self (va / 4096) min s r self' s'.
Proof.
  intros Hi Hva Hun.
  destruct (wp_returns _ _ _ (map_fault_wp self va min s Hi Hva Hun)) as ([r self'] & s' & ? & ?).
  by exists r, self', s'.
Qed.

Lemma map_fault_page_correct_witness :
  ∃ r self' s', Space.map_fault_page sample_space 0x12345 0x4 sample_pgt_mm = Ret (r, self') s' ∧
    @vm_inv MM _ _ (@page_source_laws_MM sample_symbols) self' s'.
Proof.
  destruct (@map_fault_page_correct MM _ _ (@page_source_laws_MM sample_symbols)
    sample_space 0x12345 0x4 sample_pgt_mm sample_space_ok) as (r & self' & s' & Hr & Hi & _).
  - lia.
  - intros t pm p. apply sample_area_denied.
  - exists r, self', s'. split; [exact Hr|exact Hi].
Defined.

(** Flags of an area that allows some access are a hardware leaf. *)
Lemma area_leaf_flags min pm :
  0 <= pm < 32 → pm mod 2 = 0 → PTE.is_valid_flags (area_flags pm) = true →
  min .& pm = min → min .& ((PERMISSION_R .| PERMISSION_W) .| PERMISSION_X) ≠ 0 →
  leaf_flags (area_flags pm).
Proof.
  intros Hpm Hev Hv Hmp Hmin. split; [done|]. intros E.
  assert (forallb (λ pm, negb (pm mod 2 =? 0) ||
    (area_flags pm .& (PTE.FLAG_R .| PTE.FLAG_W .| PTE.FLAG_X) =?
     pm .& ((PERMISSION_R .| PERMISSION_W) .| PERMISSION_X))) (seqZ 0 32) = true) as Hall
    by (vm_compute; reflexivity).
  rewrite forallb_forall in Hall. specialize (Hall pm).
  rewrite <- list_elem_of_In, elem_of_seqZ, Hev in Hall. specialize (Hall ltac:(lia)).
  apply Z.eqb_eq in Hall. rewrite E in Hall.
  apply Hmin. rewrite <- Hmp, <- Z.land_assoc, <- Hall. apply Z.land_0_r.
Qed.

(** What the view says of a resolved fault, the hardware does. *)
Lemma map_post_translate {S : Type} `{PageSourceLaws S} self va min (s : S) self' s' :
  vm_inv self s → vm_inv self' s' → 0 <= va < 2 ^ 38 →
  min .& ((PERMISSION_R .| PERMISSION_W) .| PERMISSION_X) ≠ 0 →
  map_post self (va / 4096) min s (Ok tt) self' s' →
  ∃ pm p, min .& pm = min ∧ ps_free s p ∧ page_zero (mem_of s') p ∧
    ∀ va', 0 <= va' < 2 ^ 38 →
      mmu_translate (mem_of s') (rp_ppn (root_pgt self')) va' =
        if decide (va' / 4096 = va / 4096) then Some (p * 4096 + va' mod 4096, area_flags pm)
        else mmu_translate (mem_of s) (rp_ppn (root_pgt self)) va'.
Proof.
  intros Hi Hi' Hva Hmin (pm & p & Hbefore & Hmp & Hfl & Hp & Hz & Hview).
  exists pm, p. split_and!; [done..|]. intros va' Hva'. case_decide as E.
  - destruct (user_va_valid va' Hva') as [Hu' Hcan].
    assert (has (areas self') (va' / 4096) Anonymous pm (Some p)) as Hh
      by (apply Hview; left; done).
    destruct (vi_perm _ _ _ _ _ _ Hi Hbefore) as [Hpm Hev].
    apply mmu_translate_page; [apply Hi'|done| |by apply area_flags_usize| |].
    + pose proof (ps_free_ram s p (pi_ok _ _ (vi_pgt _ _ Hi)) Hp). lia.
    + by apply (area_leaf_flags min).
    + apply (vi_agree _ _ Hi'); [zlia|]. by exists Anonymous, pm, p.
  - apply user_translate_same; [done..|]. intros t pm' q. rewrite Hview. naive_solver.
Qed.

(** C19: a fault that [map_fault_page] resolves is resolved for the hardware: the
    faulting page translates to a page that was free and reads 0, with the
    permissions of its area, which include the ones asked for; every other user
    address translates as before. *)
Theorem fault_resolved {S : Type} `{PageSourceLaws S} self va min (s : S) self' s' :
  vm_inv self s → 0 <= va < 2 ^ 38 →
  (∀ t pm p, has (areas self) (va / 4096) t pm (Some p) → min .& pm ≠ min) →
  min .& ((PERMISSION_R .| PERMISSION_W) .| PERMISSION_X) ≠ 0 →
  Space.map_fault_page self va min s = Ret (Ok tt, self') s' →
  ∃ pm p, min .& pm = min ∧ ps_free s p ∧ page_zero (mem_of s') p ∧
    ∀ va', 0 <= va' < 2 ^ 38 →
      mmu_translate (mem_of s') (rp_ppn (root_pgt self')) va' =
        if decide (va' / 4096 = va / 4096) then Some (p * 4096 + va' mod 4096, area_flags pm)
        else mmu_translate (mem_of s) (rp_ppn (root_pgt self)) va'.
Proof.
  intros Hi Hva Hun Hmin Hrun.
  apply (wp_run _ _ _ _ _ (map_fault_wp self va min s Hi Hva Hun)) in Hrun
    as (Hi' & _ & _ & _ & _ & Hpost).
  by apply map_post_translate.
Qed.

Lemma fault_resolved_witness :
  ∃ self' s', Space.map_fault_page sample_space 0x12345 0x4 sample_pgt_mm = Ret (Ok tt, self') s' ∧
    ∃ p f, mmu_translate (mm_mem s') (rp_ppn (root_pgt self')) 0x12345 = Some (p * 4096 + 0x345, f).
Proof.
  destruct (sample_map_run 0x12 0x4 ltac:(lia) eq_refl) as (self' & s' & Hr & _).
  exists self', s'. split; [exact Hr|].
  destruct (@fault_resolved MM _ _ (@page_source_laws_MM sample_symbols)
    sample_space 0x12345 0x4 sample_pgt_mm self' s' sample_space_ok)
    as (pm & p & _ & _ & _ & Hm).
  - lia.
  - intros t pm p. apply sample_area_denied.
  - vm_compute. congruence.
  - exact Hr.
  - exists p, (area_flags pm). pose proof (Hm 0x12345 ltac:(lia)) as E.
    rewrite decide_True in E by reflexivity. exact E.
Defined.

(** ** Unmapping *)

(** C17: [unmap] of a user range always succeeds and removes exactly the range from
    the view, whatever areas it cuts: pages outside keep their area, frame and
    bytes, the frames of the range - and no others - go back to the page source, only
    the space's own pages are touched, no
    address of the range translates afterwards, and every other user address
    translates as before. *)
Theorem unmap_is_difference {S : Type} `{PageSourceLaws S} self (s : S) start end_ :
  vm_inv self s → 0 <= start <= end_ → end_ <= 2 ^ 26 →
  ∃ self' s', Space.unmap self start end_ s = Ret (Ok tt, self') s' ∧ vm_inv self' s' ∧
    same_ends self self' ∧
    (∀ v t pm o, has (areas self') v t pm o ↔ has (areas self) v t pm o ∧ ¬ (start <= v < end_)) ∧
    (∀ p, ps_free s' p ↔
       ps_free s p ∨ ∃ v t pm, start <= v < end_ ∧ has (areas self) v t pm (Some p)) ∧
    (∀ v t pm p, has (areas self') v t pm (Some p) → page_same p (mem_of s) (mem_of s')) ∧
    local self s self' s' ∧
    ∀ va, 0 <= va < 2 ^ 38 →
      mmu_translate (mem_of s') (rp_ppn (root_pgt self')) va =
        if decide (start <= va / 4096 < end_) then None
        else mmu_translate (mem_of s) (rp_ppn (root_pgt self)) va.
Proof.
  intros Hi Hse Hend.
  destruct (wp_returns _ _ _ (space_unmap_wp self s start end_ Hi Hse Hend))
    as ([r self'] & s' & Hrun & -> & Hcut). pose proof (λ v t pm p, cut_pages _ _ _ _ _ _ v t pm p Hi Hcut) as Hpages.
  pose proof (cut_local _ _ _ _ _ _ Hcut) as Hlocal.
  destruct Hcut as [Hi' _ Hends Hhas Hfree _ _].
  exists self', s'. split_and!; [done..| |done|]; [intros; by eapply Hpages|].
  intros va Hva. case_decide as E.
  - apply user_translate_none; [done..|]. intros t pm p [_ Hn]%Hhas. by apply Hn.
  - apply user_translate_same; [done..|]. intros t pm p. rewrite Hhas. tauto.
Qed.

Lemma unmap_is_difference_witness :
  ∃ self' s', Space.unmap sample_space 0x14 0x18 sample_pgt_mm = Ret (Ok tt, self') s' ∧
    (∀ pm o, ¬ has (areas self') 0x15 Anonymous pm o) ∧ has (areas self') 0x13 Anonymous 0x16 None.
Proof.
  destruct (@unmap_is_difference MM _ _ (@page_source_laws_MM sample_symbols)
    sample_space sample_pgt_mm 0x14 0x18 sample_space_ok) as (self' & s' & Hr & _ & _ & Hh & _).
  - lia.
  - lia.
  - exists self', s'. split; [exact Hr|]. split.
    + intros pm o Hx. apply Hh in Hx as [_ Hn]. apply Hn. lia.
    + apply Hh. split; [|lia]. exists sample_area. split; [left|]. split; [simpl; lia|].
      split; [reflexivity|]. split; [reflexivity|]. reflexivity.
Defined.

(** ** A fault on a page that is mapped already *)

(** C29: a fault on a page that is already mapped corrupts the space: [map] first
    overwrites the page in its area, which frees the old frame, then fails with
    [DoubleMapping] and frees the new one as well - while the page table keeps
    translating the page to the old frame, which the next allocation may hand to
    anybody. *)
Theorem double_fault_frees_mapped_page {S : Type} `{PageSourceLaws S} self v min (s : S) t pm p0 :
  vm_inv self s → 0 <= v < 2 ^ 26 → has (areas self) v t pm (Some p0) → min .& pm = min →
  PTE.is_valid_flags (area_flags pm) = true → (∃ p, ps_free s p) →
  ∃ self' s' p,
    Space.map self v min s = Ret (Err (VMPgtError v (DoubleMapping v p)), self') s' ∧
    ps_free s' p0 ∧
    pgt_lookup (mem_of s') (rp_ppn (root_pgt self')) v = Some (O, mk_pte p0 (area_flags pm)).
Proof.
  intros Hi Hv Hh Hmin Hfl [pf Hpf].
  cut (wp (Space.map self v min) (λ '(r, self') s', ∃ p,
    r = Err (VMPgtError v (DoubleMapping v p)) ∧ ps_free s' p0 ∧
    pgt_lookup (mem_of s') (rp_ppn (root_pgt self')) v = Some (O, mk_pte p0 (area_flags pm))) s).
  { intros Hwp. destruct (wp_returns _ _ _ Hwp) as ([r self'] & s' & Hrun & p & -> & ? & ?).
    by exists self', s', p. }
  unfold Space.map. destruct (Space.find_area_mut self v) as [[i a]|e] eqn:Hfind.
  2:{ apply find_area_mut_err in Hfind as [_ Hno]. by apply Hno in Hh. }
  destruct (find_area_mut_ok _ _ _ _ Hfind) as [Ha Hav].
  destruct (area_anonymous self s i a v Hi Ha Hav Hv) as (Hoka & Hty & Hhas).
  destruct (has_unique _ _ _ _ _ _ _ _ _ Hi Hh Hhas) as (-> & -> & Hp0). clear Hhas.
  rewrite (proj2 (Z.eqb_eq _ _) Hmin). cbn [negb].
  wp_step. apply wp_assert; [by apply bool_decide_eq_true|].
  wp_step. eapply wp_mono; [apply ps_alloc_zeroed_page_law; apply Hi|].
  intros [p|] s1 (Hok1 & Hal); cbv beta iota in Hal |- *; [|by destruct (proj2 Hal pf)].
  destruct Hal as (Hp & Hf1 & Hz & Hout). rewrite <- Hp0. cbn [Space.drop_option].
  destruct (pgt_inv_zeroed _ s s1 p (vi_pgt _ _ Hi) Hok1 Hp Hf1 Hout) as (Hi1 & Hl1 & _).
  destruct (vi_owned _ _ Hi _ _ _ _ Hh) as (Hm0 & Hnf0 & _).
  assert (p ≠ p0) as Hne by (by intros ->).
  pose proof (ps_free_ram s p (pi_ok _ _ (vi_pgt _ _ Hi)) Hp) as Hpr.
  pose proof (ps_free_managed s p (pi_ok _ _ (vi_pgt _ _ Hi)) Hp) as Hpm.
  (* the old frame is freed *)
  wp_step. eapply wp_mono; [apply ps_drop_page_law; [done|done|rewrite Hf1; tauto]|].
  intros [] s2 (Hok2 & Hm2 & Hf2). cbv beta.
  destruct (to_pte_flags_ok _ (ar_perm_usize _ Hoka) (ar_perm _ Hoka)) as (-> & Hpmr & _).
  assert (pgt_lookup (mem_of s2) (rp_ppn (root_pgt self)) v =
    Some (O, mk_pte p0 (area_flags (permissions a)))) as Hlk.
  { rewrite Hm2, Hl1. apply (vi_agree _ _ Hi); [done|]. by exists Anonymous, (permissions a), p0. }
  wp_step. eapply wp_mono; [apply (map_create_mapped_wp (root_pgt self) v p (area_flags (permissions a))
      (mk_pte p0 (area_flags (permissions a))) s2);
    [rewrite Hm2; apply Hi1|lia|lia|by apply area_flags_usize|done|exact Hlk]|].
  intros [r pgt] s3 (-> & -> & ->). cbn [map_err].
  rewrite (find_area_mut_update self _ v i a (<[v := p]> (pages a)) Hfind) by done.
  cbn [pages Area.set_pages]. rewrite lookup_insert_eq. cbn [Space.drop_option].
  (* and the new one too *)
  wp_step. eapply wp_mono; [apply ps_drop_page_law; [done|done|]|].
  { intros [Hq| ->]%Hf2; [|done]. apply Hf1 in Hq as [_ []]. done. }
  intros [] s4 (_ & Hm4 & Hf4). cbv beta. wp_step. exists p. split_and!; [done| |].
  - apply Hf4. left. apply Hf2. by right.
  - rewrite Hm4. exact Hlk.
Qed.

Lemma double_fault_frees_mapped_page_witness :
  ∃ self s self' s' p0 p,
    Space.map sample_space 0x12 0x4 sample_pgt_mm = Ret (Ok tt, self) s ∧
    Space.map self 0x12 0x4 s = Ret (Err (VMPgtError 0x12 (DoubleMapping 0x12 p)), self') s' ∧
    mm_free s' p0 ∧
    pgt_lookup (mm_mem s') (rp_ppn (root_pgt self')) 0x12 = Some (O, mk_pte p0 0x17).
Proof.
  destruct (sample_map_run 0x12 0x4 ltac:(lia) eq_refl) as (self & s & Hr & Htook).
  pose proof (wp_run _ _ _ _ _ (@map_wp MM _ _ (@page_source_laws_MM sample_symbols)
    sample_space 0x12 0x4 sample_pgt_mm sample_space_ok ltac:(lia)
    (sample_area_denied 0x12 0x4)) Hr) as (Hi & _ & _ & _ & _ & pm & p0 & Hb & Hmin & Hfl & _ & _ & Hview).
  assert (pm = 0x16) as ->.
  { destruct Hb as (a & Ha & _ & _ & <- & _). apply list_elem_of_singleton in Ha as ->. reflexivity. }
  assert (has (areas self) 0x12 Anonymous 0x16 (Some p0)) as Hh
    by (apply Hview; left; split_and!; reflexivity).
  destruct (@double_fault_frees_mapped_page MM _ _ (@page_source_laws_MM sample_symbols)
    self 0x12 0x4 s Anonymous 0x16 p0 Hi ltac:(lia) Hh eq_refl eq_refl) as (self' & s' & p & Hr' & Hf & Hl).
  - apply (@spare_one MM _ _ (@page_source_laws_MM sample_symbols) 4 s).
    exact (@spare_left MM _ _ (@page_source_laws_MM sample_symbols) 8 3 _ _
      (sample_pgt_spare 8 ltac:(lia)) Htook).
  - exists self, s, self', s', p0, p. split_and!; [exact Hr|exact Hr'|exact Hf|exact Hl].
Defined.
