(* ===== verification/VmFrame.v ===== *)
(** * Separation of address spaces

    An operation on one space touches only its own pages and free ones, so it leaves
    every other space alone: its invariant, its translations and its bytes.  Dropping a
    space gives back exactly what it owns. *)

From S2P Require Export VmProps.
From stdpp Require Import list.
Open Scope Z_scope.

Section frame.
Context {S : Type} `{PageSourceLaws S}.
Implicit Types (s : S) (self other : VMSpace).

(** No page of [self] is a page or a table of [other]. *)
Definition apart self other s : Prop :=
  ∀ p, owns self p → ¬ owns other p ∧ ¬ reaches other s p.

(** [other] is as good as before. *)
Record undisturbed other s s' : Prop := {
  ud_inv : vm_inv other s';
  ud_translate va :
    mmu_translate (mem_of s') (rp_ppn (root_pgt other)) va =
    mmu_translate (mem_of s) (rp_ppn (root_pgt other)) va;
  ud_pages p : owns other p → page_same p (mem_of s) (mem_of s');
  ud_reach p : reaches other s' p ↔ reaches other s p;
}.

Lemma undisturbed_trans other s1 s2 s3 :
  undisturbed other s1 s2 → undisturbed other s2 s3 → undisturbed other s1 s3.
Proof using Type.
  intros [_ Ht1 Hp1 Hr1] [Hi Ht2 Hp2 Hr2]. split; [done|..].
  - intros va. by rewrite Ht2, Ht1.
  - intros p Hp. eapply page_same_trans; [by apply Hp1|by apply Hp2].
  - intros p. by rewrite Hr2, Hr1.
Qed.

(** Pages that are no table of [other] may change as they like. *)
Lemma vm_inv_tables other s s' :
  vm_inv other s → ps_ok s' →
  (∀ p, reaches other s p → page_same p (mem_of s) (mem_of s')) →
  (∀ p, owns other p ∨ reaches other s p → ¬ ps_free s' p) →
  vm_inv other s' ∧
  (∀ va, mmu_translate (mem_of s') (rp_ppn (root_pgt other)) va =
     mmu_translate (mem_of s) (rp_ppn (root_pgt other)) va) ∧
  ∀ p, reaches other s' p ↔ reaches other s p.
Proof using Type.
  intros Hi Hok Hsame Hfree. set (root := rp_ppn (root_pgt other)).
  assert (∀ q t i, path_ok q → node_at (mem_of s) root q = Some t → idx_ok i →
    pte (mem_of s') t i = pte (mem_of s) t i) as Ht.
  { intros q t i Hq Hn Hix. apply page_same_pte; [|done].
    apply Hsame. by exists q. }
  assert (∀ q, path_ok q → node_at (mem_of s') root q = node_at (mem_of s) root q) as Hn
    by (intros; by apply (node_at_same_tables _ _ _ _ Ht)).
  assert (∀ v, pgt_lookup (mem_of s') root v = pgt_lookup (mem_of s) root v) as Hl.
  { intros v. destruct (vpn_path_full v).
    apply (lookup_at_same_tables _ _ _ _ Ht); [done|by apply Nat.eq_le_incl]. }
  destruct Hi as [[Hok0 Hwf Hfr Hnd Hown Hlow] Har Hdis Howned Hflags Hinj Hag [t Hsen]].
  assert (pgt_wf (mem_of s') root) as Hwf' by (by apply (pgt_wf_same_tables _ _ _ Ht)).
  split_and!.
  - split; fold root; [split; fold root|..].
    + done.
    + done.
    + intros p Hp q Hq Hnq. rewrite Hn in Hnq by done.
      apply (Hfree p); [right; by exists q|done].
    + done.
    + intros p Hp. split; [by apply Hown|]. apply Hfree. left. by left.
    + intros q t' Hq Hlq. rewrite Hn by done. by apply Hlow.
    + done.
    + done.
    + intros v ty pm p Hh. destruct (Howned _ _ _ _ Hh) as (? & _ & ? & Hnt).
      split_and!; [done| |done|].
      * apply Hfree. left. right. by exists v, ty, pm.
      * intros q Hq. rewrite Hn by done. by apply Hnt.
    + done.
    + done.
    + intros v x Hv. rewrite Hl. by apply Hag.
    + exists t. rewrite Hn; [done|]. apply path2_ok; unfold idx_ok; lia.
  - intros va. by apply mmu_translate_ext; [..|apply Hl].
  - intros p. unfold reaches. fold root.
    split; intros (q & Hq & Hp); exists q; rewrite Hn in *; done.
Qed.

(** Pages that are no table and no page of [other] do not matter to it at all. *)
Lemma vm_inv_frame other s s' :
  vm_inv other s → ps_ok s' →
  (∀ p, owns other p ∨ reaches other s p →
     page_same p (mem_of s) (mem_of s') ∧ ¬ ps_free s' p) →
  undisturbed other s s'.
Proof using Type.
  intros Hi Hok Hsame. destruct (vm_inv_tables other s s') as (Hi' & Ht & Hr).
  - done.
  - done.
  - intros p Hp. apply Hsame. by right.
  - intros p Hp. by apply Hsame.
  - split; [done..| |done]. intros p Hp. apply Hsame. by left.
Qed.

(** A local step of a space that is apart *)
Lemma undisturbed_local self s self' s' other :
  vm_inv other s → ps_ok s' → local self s self' s' → apart self other s →
  undisturbed other s s'.
Proof using Type.
  intros Hi Hok [Hsame Hfree _ _] Hap. apply vm_inv_frame; [done..|]. intros p Hp.
  assert (¬ ps_free s p) as Hnf.
  { destruct Hp as [Hp|Hp]; [by apply (vi_owns _ _ _ Hi)|by apply (vi_reaches _ _ _ Hi)]. }
  assert (¬ owns self p) as Hno by (intros Ho; destruct (Hap p Ho); naive_solver).
  split; [by apply Hsame|]. intros Hf. destruct (Hfree p Hf); done.
Qed.

Lemma apart_local self s self' s' other :
  vm_inv other s → ps_ok s' → local self s self' s' → apart self other s → apart other self s →
  apart self' other s' ∧ apart other self' s'.
Proof using Type.
  intros Hi Hok Hloc Hap Hap'.
  pose proof (ud_reach _ _ _ (undisturbed_local _ _ _ _ _ Hi Hok Hloc Hap)) as Hreach.
  destruct Hloc as [_ _ Howns Hr]. split; intros p Hp.
  - rewrite Hreach. destruct (Howns p Hp) as [Ho|Hf]; [by apply Hap|].
    split; [intros Ho; by apply (vi_owns _ _ _ Hi) in Ho as [_ ?]|
            intros Ho; by apply (vi_reaches _ _ _ Hi) in Ho].
  - destruct (vi_owns _ _ _ Hi Hp) as [_ Hnf]. destruct (Hap' p Hp) as [Hno Hnr].
    split; [intros Ho; by destruct (Howns p Ho)|]. intros Ho. destruct (Hr p Ho) as [?|[?|?]]; done.
Qed.
End frame.

(** ** Dropping a space *)
Section drop.
Context {S : Type} `{PageSourceLaws S}.
Implicit Types (s : S) (self : VMSpace).

Lemma for_each_app {A} (l1 l2 : list A) (f : A → M S unit) s :
  for_each (l1 ++ l2) f s = (for_each l1 f ;; for_each l2 f) s.
Proof using Type.
  revert s. induction l1 as [|x l1 IH]; intros s; [done|]. simpl. unfold mbind, M_bind.
  destruct (f x s) as [[] s1| |]; [|done..]. by rewrite IH.
Qed.

Lemma for_each_concat {A B} (l : list A) (g : A → list B) (f : B → M S unit) s :
  for_each l (λ a, for_each (g a) f) s = for_each (mjoin (g <$> l)) f s.
Proof using Type.
  revert s. induction l as [|x l IH]; intros s; [done|]. simpl. rewrite for_each_app.
  unfold mbind, M_bind. destruct (for_each (g x) f s) as [[] s1| |]; [|done..]. by rewrite IH.
Qed.

(** All pages of the areas, in the order of the drops *)
Definition area_pages (l : list VMArea) : list Z := mjoin ((λ a, pages_in_order (pages a)) <$> l).

Lemma elem_of_area_pages l p :
  Forall area_ok l → p ∈ area_pages l ↔ ∃ v t pm, has l v t pm (Some p).
Proof using Type.
  intros Hl. unfold area_pages. rewrite list_elem_of_join. setoid_rewrite list_elem_of_fmap. split.
  - intros (x & Hp & a & -> & Ha). apply elem_of_pages_in_order in Hp as [v Hv].
    rewrite Forall_forall in Hl. exists v, (map_type a), (permissions a), a.
    split; [done|]. by apply sees_page; [apply Hl|].
  - intros (v & t & pm & a & Ha & _ & _ & _ & Hv). exists (pages_in_order (pages a)).
    split; [|by exists a]. apply elem_of_pages_in_order. by exists v.
Qed.

Lemma NoDup_area_pages l :
  Forall area_ok l → pairwise area_disjoint l →
  (∀ v1 v2 t1 t2 pm1 pm2 p, has l v1 t1 pm1 (Some p) → has l v2 t2 pm2 (Some p) → v1 = v2) →
  NoDup (area_pages l).
Proof using Type.
  induction l as [|a l IH]; intros Hok Hdis Hinj; [constructor|].
  apply Forall_cons in Hok as [Ha Hok]. destruct Hdis as [Hda Hdis].
  change (area_pages (a :: l)) with (pages_in_order (pages a) ++ area_pages l).
  apply NoDup_app. split_and!.
  - apply pages_in_order_nodup. intros v1 v2 p Hp1 Hp2.
    eapply Hinj; apply has_cons; left; by apply sees_page.
  - intros p Hp Hp'. apply elem_of_pages_in_order in Hp as [v Hv].
    apply elem_of_area_pages in Hp' as (v' & t & pm & Hh); [|done].
    assert (v = v') as <-.
    { eapply Hinj; apply has_cons; [left; by apply sees_page|by right]. }
    destruct Hh as (b & Hb & Hbv & _). rewrite Forall_forall in Hda.
    apply (ar_pages _ Ha) in Hv. destruct (Hda b Hb); lia.
  - apply IH; [done..|]. intros v1 v2 t1 t2 pm1 pm2 p Hp1 Hp2.
    eapply Hinj; apply has_cons; right; eassumption.
Qed.

(** All pages of a space, in the order of the drops *)
Definition space_pages (self : VMSpace) : list Z :=
  rp_pages (root_pgt self) ++ area_pages (areas self).

Lemma space_pages_owns self p :
  Forall area_ok (areas self) → p ∈ space_pages self ↔ owns self p.
Proof using Type. intros Har. unfold space_pages. by rewrite elem_of_app, elem_of_area_pages. Qed.

Lemma space_pages_nodup self s : vm_inv self s → NoDup (space_pages self).
Proof using Type.
  intros Hi. pose proof (vi_areas _ _ Hi) as Har. apply NoDup_app. split_and!; [apply Hi| |].
  - intros p Hp Hp'. apply elem_of_area_pages in Hp' as (v & t & pm & Hh); [|done].
    by apply (vi_owned _ _ Hi) in Hh as (_ & _ & ? & _).
  - apply NoDup_area_pages; [done|apply Hi|]. intros. by eapply (vi_inj _ _ Hi).
Qed.

Lemma drop_space_run self s :
  Space.drop_space self s = for_each (space_pages self) ps_drop_page s.
Proof using Type.
  unfold space_pages. rewrite for_each_app. unfold Space.drop_space, mbind, M_bind, Space.drop_pages.
  destruct (for_each _ ps_drop_page s) as [[] s1| |]; [|done..].
  apply (for_each_concat (areas self) (λ a, pages_in_order (pages a)) ps_drop_page s1).
Qed.

Lemma drop_space_pages_wp self s :
  ps_ok s → NoDup (space_pages self) →
  (∀ p, p ∈ space_pages self → ps_managed p ∧ ¬ ps_free s p) →
  wp (Space.drop_space self) (λ _ s', ps_ok s' ∧ mem_of s' = mem_of s ∧
    ∀ p, ps_free s' p ↔ ps_free s p ∨ p ∈ space_pages self) s.
Proof using Type.
  intros Hok Hnd Hp. eapply wp_ext; [apply drop_space_run|]. by apply ps_drop_pages_law.
Qed.

(** The space gives back its pages and nothing else. *)
Lemma drop_space_wp self s :
  vm_inv self s →
  wp (Space.drop_space self) (λ _ s', ps_ok s' ∧ mem_of s' = mem_of s ∧
    ∀ p, ps_free s' p ↔ ps_free s p ∨ owns self p) s.
Proof using Type.
  intros Hi. pose proof (vi_areas _ _ Hi) as Har.
  eapply wp_mono; [apply drop_space_pages_wp; [apply Hi|by eapply space_pages_nodup|]|].
  - intros p Hp%space_pages_owns; [|done]. by apply (vi_owns _ _ _ Hi).
  - intros [] s' (? & ? & Hf). split_and!; [done..|]. intros p. by rewrite Hf, space_pages_owns.
Qed.

(** The empty space that is left *)
Definition gone (self : VMSpace) : VMSpace :=
  mk_VMSpace (mk_RootPgt (rp_ppn (root_pgt self)) []) [] 0 0 0.

Lemma drop_space_local self s s' :
  mem_of s' = mem_of s → (∀ p, ps_free s' p ↔ ps_free s p ∨ owns self p) →
  local self s (gone self) s'.
Proof using Type.
  intros Hm Hf. split.
  - intros p _ _. by rewrite Hm.
  - intros p [?|?]%Hf; [by right|by left].
  - intros p [Hp|(v & t & pm & Hh)]; [by apply elem_of_nil in Hp|by apply has_nil in Hh].
  - intros p (q & Hq & Hp). rewrite Hm in Hp. left. by exists q.
Qed.
End drop.
