(* ===== verification/VmGrow.v ===== *)
(** * Building an address space

    A new space takes free pages, one mapping after the other, and gives all of them
    back when a step fails.  [grown] and [spent] say what it holds in between, relative
    to the state it was started from. *)

From S2P Require Export VmFrame.
From stdpp Require Import list.
Open Scope Z_scope.

Section grow.
Context {S : Type} `{PageSourceLaws S}.
Implicit Types (s : S) (self : VMSpace).
(** the state before the first step *)
Context (s0 : S).

(** ** Giving back *)

(** The pages [l] are still to be given back. *)
Record spent (l : list Z) s : Prop := {
  sp_ok : ps_ok s;
  sp_nodup : NoDup l;
  sp_pages p : p ∈ l → ps_managed p ∧ ¬ ps_free s p;
  sp_took p : ps_free s0 p ↔ ps_free s p ∨ p ∈ l;
  sp_frame p : ¬ ps_free s0 p → page_same p (mem_of s0) (mem_of s);
}.

Lemma spent_perm l l' s : l ≡ₚ l' → spent l s → spent l' s.
Proof using Type.
  intros Hl [Hok Hnd Hp Ht Hf]. split; [done|by rewrite <- Hl| | |done].
  - intros p Hin. apply Hp. by rewrite Hl.
  - intros p. by rewrite Ht, Hl.
Qed.

Lemma spent_drop l1 l2 s :
  spent (l1 ++ l2) s → wp (Space.drop_pages l2) (λ _ s', spent l1 s') s.
Proof using Type.
  intros [Hok Hnd Hp Ht Hf]. apply NoDup_app in Hnd as (Hnd1 & Hdis & Hnd2).
  eapply wp_mono; [apply ps_drop_pages_law; [done..|]|].
  { intros p Hin. apply Hp, elem_of_app. by right. }
  intros [] s' (Hok' & Hm' & Hf'). split; [done|done| | |by rewrite Hm'].
  - intros p Hin. rewrite Hf'. destruct (Hp p) as [? ?]; [apply elem_of_app; by left|].
    split; [done|]. intros [?|Hin2]; [done|]. by apply (Hdis p).
  - intros p. rewrite Ht, Hf', elem_of_app. tauto.
Qed.

(** Everything is as it was before. *)
Definition undone s : Prop :=
  ps_ok s ∧ (∀ p, ps_free s p ↔ ps_free s0 p) ∧
  ∀ p, ¬ ps_free s0 p → page_same p (mem_of s0) (mem_of s).

Lemma spent_drop_space self s :
  spent (space_pages self) s → wp (Space.drop_space self) (λ _ s', undone s') s.
Proof using Type.
  intros [Hok Hnd Hp Ht Hf]. eapply wp_mono; [by apply drop_space_pages_wp|].
  intros [] s' (Hok' & Hm & Hf'). split; [done|]. rewrite Hm. split; [|done].
  intros p. by rewrite Hf', Ht.
Qed.
(** ** Taking *)

(** the tables the space shares with the kernel *)
Context (shared : Z → Prop).

(** The space was built from at most [n] free pages, and nothing else changed. *)
Record grown (n : nat) self s : Prop := {
  gr_inv : vm_inv self s;
  gr_took p : ps_free s0 p ↔ ps_free s p ∨ owns self p;
  gr_frame p : ¬ ps_free s0 p → page_same p (mem_of s0) (mem_of s);
  gr_reach p : reaches self s p → ps_free s0 p ∨ shared p;
  gr_count : took_at_most n s0 s;
}.

Lemma grown_free n self s p : grown n self s → ps_free s p → ps_free s0 p.
Proof using Type. intros Hg Hp. apply (gr_took _ _ _ Hg). by left. Qed.

Lemma grown_step n k self s self' s' :
  grown n self s → vm_inv self' s' → local self s self' s' →
  (∀ p, ps_free s p ∨ owns self p → ps_free s' p ∨ owns self' p) →
  took_at_most k s s' → grown (n + k) self' s'.
Proof using Type.
  intros [Hi Ht Hf Hr Hc] Hi' [Ls Lf Lo Lr] Hno Hk. split.
  - done.
  - intros p. rewrite Ht. split; [apply Hno|]. intros [Hp|Hp].
    + destruct (Lf p Hp); tauto.
    + destruct (Lo p Hp); tauto.
  - intros p Hp. eapply page_same_trans; [by apply Hf|]. rewrite Ht in Hp. apply Ls; tauto.
  - intros p Hp. destruct (Lr p Hp) as [?|Hp']; [by apply Hr|]. left. apply Ht. tauto.
  - by eapply took_at_most_trans.
Qed.

Lemma grown_le n k self s : (n <= k)%nat → grown n self s → grown k self s.
Proof using Type.
  intros Hn [? ? ? ? (l & Hl & Hf)]. split; [done..|]. exists l. split; [lia|done].
Qed.

(** Only the page table and the areas matter. *)
Lemma vm_inv_fields self self' s :
  root_pgt self' = root_pgt self → areas self' = areas self → vm_inv self s → vm_inv self' s.
Proof using Type. intros Er Ea [? ? ? ? ? ? ? ?]. by split; rewrite ?Er, ?Ea. Qed.

Lemma grown_same n self self' s :
  root_pgt self' = root_pgt self → areas self' = areas self →
  grown n self s → grown n self' s.
Proof using Type.
  intros Er Ea [Hi Ht Hf Hr Hc]. split; [by apply (vm_inv_fields self)| |done| |done].
  - intros p. rewrite Ht. unfold owns. by rewrite Er, Ea.
  - intros p. unfold reaches. rewrite Er. apply Hr.
Qed.

Lemma grown_spent n self s : grown n self s → spent (space_pages self) s.
Proof using Type.
  intros [Hi Ht Hf Hr Hc]. pose proof (vi_areas _ _ Hi) as Har. split.
  - apply Hi.
  - by eapply space_pages_nodup.
  - intros p Hp%space_pages_owns; [|done]. by apply (vi_owns _ _ _ Hi).
  - intros p. by rewrite Ht, space_pages_owns.
  - done.
Qed.


(** ** One more page *)

(** The areas of [self'] are those of [self] with [p] as page [v]. *)
Record extends self (v : Z) (t : MapType) (pm p : Z) self' : Prop := {
  ex_areas : Forall area_ok (areas self');
  ex_disjoint : pairwise area_disjoint (areas self');
  ex_view v' t' pm' q : has (areas self') v' t' pm' (Some q) ↔
    (v' = v ∧ t' = t ∧ pm' = pm ∧ q = p) ∨ (v' ≠ v ∧ has (areas self) v' t' pm' (Some q));
}.

(** Why [map_create] failed, when the frame it was given has been given back *)
Definition extend_error n self (v pm p : Z) (e : PgtError) : Prop :=
  match e with
  | AcquirePageFailed => scarce (n + 3) s0
  | InvalidPteFlags f => f = area_flags pm ∧ PTE.is_valid_flags f = false
  | DoubleMapping v' p' => v' = v ∧ p' = p ∧ ∃ t pm' q, has (areas self) v t pm' (Some q)
  end.

Lemma extend_wp n self s s1 v p pm :
  grown n self s → 0 <= v < 2 ^ 26 → 0 <= pm < 32 →
  ps_free s p → ps_ok s1 → (∀ q, ps_free s1 q ↔ ps_free s q ∧ q ≠ p) →
  same_outside_page p (mem_of s) (mem_of s1) →
  wp (Pgt.map_create (root_pgt self) v p (area_flags pm)) (λ '(r, pgt) s2,
    rp_ppn pgt = rp_ppn (root_pgt self) ∧
    (∀ v' t pm' q, has (areas self) v' t pm' (Some q) → page_same q (mem_of s) (mem_of s2)) ∧
    match r with
    | Ok _ =>
        PTE.is_valid_flags (area_flags pm) = true ∧ page_same p (mem_of s1) (mem_of s2) ∧
        (∀ t pm' q, ¬ has (areas self) v t pm' (Some q)) ∧
        ∀ t self', root_pgt self' = pgt → extends self v t pm p self' → grown (n + 3) self' s2
    | Err e =>
        wp (ps_drop_page p) (λ _ s3, mem_of s3 = mem_of s2 ∧
          grown (n + 3) (Sp.set_root_pgt self pgt) s3 ∧ extend_error n self v pm p e) s2
    end) s1.
Proof using All.
  intros Hg Hv Hpm Hp Hok1 Hf1 Hout. pose proof (gr_inv _ _ _ Hg) as Hi.
  destruct (pgt_inv_zeroed _ s s1 p (vi_pgt _ _ Hi) Hok1 Hp Hf1 Hout) as (Hi1 & Hl1 & Hn1).
  pose proof (ps_free_ram s p (pi_ok _ _ (vi_pgt _ _ Hi)) Hp) as Hpr.
  eapply wp_mono; [apply (map_create_inv (root_pgt self) v p (area_flags pm) s1);
    [done|by left|lia|by apply area_flags_usize]|].
  intros [r pgt] s2 (new & -> & Hlen & Hi2 & Hst & _ & Hr). cbv zeta in Hr. rewrite !Hl1 in Hr.
  pose proof (mapping_owned self s s1 s2 v p new Hi Hv Hp Hf1 Hout Hi1 Hn1 Hst) as Hown.
  assert (∀ q, ps_free s q → q = p ∨ q ∈ new ∨ ps_free s2 q) as Hkept.
  { intros q Hq. rewrite (step_free _ _ _ _ _ Hst), Hf1.
    destruct (decide (q = p)), (decide (q ∈ new)); tauto. }
  split; [done|]. split; [intros; by eapply Hown|]. destruct r as [[]|e].
  - destruct Hr as (Hfl & Hbefore & Hafter & Hold). split; [done|].
    assert (∀ t pm' q, ¬ has (areas self) v t pm' (Some q)) as Hnone.
    { intros t pm' q Hh. assert (pgt_lookup (mem_of s) (rp_ppn (root_pgt self)) v =
        Some (O, mk_pte q (area_flags pm'))) as E
        by (apply (vi_agree _ _ Hi); [done|]; by exists t, pm', q). congruence. }
    split_and!; [|done|].
    + eapply (mapping_frame self s s1 s2 v p new); try done.
      by eapply (mapping_page_new self s s1 s2 v p new).
    + intros t self' Er [Hfa Hpa Hview]. eapply (grown_step n 3 self s); [done|..].
      * eapply (vm_inv_mapped self s s1 s2 v p new Hi Hv Hp Hf1 Hout Hi1 Hn1 Hst _ t pm); try done.
        intros. rewrite Hold by done. apply Hl1.
      * eapply (mapping_local self s s1 s2 v p new); try done; [by rewrite Er..| |by left].
        intros v' t' pm' q Hq. apply Hview in Hq. tauto.
      * intros q [Hq|[Hq|(v' & t' & pm' & Hh)]].
        -- apply Hkept in Hq as [->|[Hq|Hq]]; [| |by left]; right.
           2:{ left. rewrite Er. apply elem_of_app. by right. }
           right. exists v, t, pm. apply Hview. by left.
        -- right. left. rewrite Er. apply elem_of_app. by left.
        -- right. right. exists v', t', pm'. apply Hview. right. split; [|done].
           intros ->. by apply Hnone in Hh.
      * by eapply mapping_took.
  - destruct Hr as [Hsame He]. eapply wp_mono; [apply ps_drop_page_law; [apply Hi2| |]|].
    { by apply (ps_free_managed s); [apply (vi_pgt _ _ Hi)|]. }
    { intros Hq. eapply (mapping_free self s s1 s2 v p new) in Hq as (_ & [] & _); done. }
    intros [] s3 (Hok3 & Hm3 & Hf3). split; [done|]. split.
    + eapply (grown_step n 3 self s); [done|..].
      * eapply (vm_inv_not_mapped self s s1 s2 v p new); try done. intros. rewrite Hsame. apply Hl1.
      * eapply (mapping_local self s s1 s2 v p new); try done; [tauto|]. intros q. apply Hf3.
      * intros q [Hq|[Hq|Hq]]; [|right; left; apply elem_of_app; left; exact Hq|right; right; exact Hq].
        apply Hkept in Hq as [->|[Hq|Hq]]; [left; apply Hf3; by right| |left; apply Hf3; by left].
        right. left. apply elem_of_app. by right.
      * eapply mapping_took; [done..|]. intros. apply Hf3. by left.
    + destruct e as [|f|v' p']; cbn [extend_error].
      * rewrite <- (Nat.add_0_r (n + 3)). apply (took_scarce _ _ _ s2); [|apply scarce_none, He].
        eapply took_at_most_trans; [apply Hg|]. by eapply mapping_took.
      * by destruct He as [-> ?].
      * destruct He as (-> & -> & [x Hx]). split; [done|]. split; [done|].
        apply (vi_agree _ _ Hi) in Hx as (t & pm' & q & Hh & _); [|done]. by exists t, pm', q.
Qed.

(** A kernel stack page is a free page seen through the direct map: no mapping is made. *)
Lemma grown_kernel_page n self s s1 p self' :
  grown n self s → ps_free s p → ps_ok s1 → mem_of s1 = mem_of s →
  (∀ q, ps_free s1 q ↔ ps_free s q ∧ q ≠ p) →
  root_pgt self' = root_pgt self → Forall area_ok (areas self') →
  pairwise area_disjoint (areas self') →
  (∀ v t pm q, has (areas self') v t pm (Some q) ↔
    (v = p + KERNEL_VA_OFFSET / 4096 ∧ t = KernelVaOffset ∧ pm = PERMISSION_R .| PERMISSION_W ∧ q = p) ∨
    has (areas self) v t pm (Some q)) →
  grown (n + 1) self' s1.
Proof using All.
  intros Hg Hp Hok1 Hm Hf1 Er Hfa Hpa Hview. pose proof (gr_inv _ _ _ Hg) as Hi.
  assert (same_outside_page p (mem_of s) (mem_of s1)) as Hout by (by intros a _; rewrite Hm).
  destruct (pgt_inv_zeroed _ s s1 p (vi_pgt _ _ Hi) Hok1 Hp Hf1 Hout) as (Hi1 & _ & _).
  pose proof (ps_free_managed s p (pi_ok _ _ (vi_pgt _ _ Hi)) Hp) as Hman.
  pose proof (ps_managed_ram p Hman) as Hpr.
  assert (∀ v t pm, ¬ has (areas self) v t pm (Some p)) as Hnew.
  { intros v t pm Hh. by apply (vi_owned _ _ Hi) in Hh as (_ & [] & _). }
  assert (vm_inv self' s1) as Hi'.
  { split; rewrite ?Er, ?Hm; [done..| | | | |apply Hi].
    - intros v t pm q [(_ & _ & _ & ->)|Hh]%Hview.
      + split_and!; [done|rewrite Hf1; tauto| |by apply (pi_fresh _ _ (vi_pgt _ _ Hi))].
        intros Hq. by apply (pi_owned _ _ (vi_pgt _ _ Hi)) in Hq as [_ ?].
      + destruct (vi_owned _ _ Hi _ _ _ _ Hh) as (? & ? & ? & ?). split_and!; [done| |done..].
        rewrite Hf1. tauto.
    - intros v t pm q [(_ & _ & -> & _)|Hh]%Hview; [done|]. by apply (vi_flags _ _ Hi) in Hh.
    - intros v1 v2 t1 t2 pm1 pm2 q Hh1 Hh2. apply Hview in Hh1, Hh2.
      destruct Hh1 as [(-> & _ & _ & ->)|Hh1], Hh2 as [(-> & _ & _ & E)|Hh2]; subst; try done.
      + by apply Hnew in Hh2.
      + by apply Hnew in Hh1.
      + by eapply (vi_inj _ _ Hi).
    - intros v x Hv. rewrite (vi_agree _ _ Hi) by done. setoid_rewrite Hview.
      assert (v ≠ p + KERNEL_VA_OFFSET / 4096) by (change (KERNEL_VA_OFFSET / 4096) with (2 ^ 52 - 2 ^ 26); lia).
      split; intros (t & pm & q & Hh & ->); exists t, pm, q; (split; [|done]); [by right|].
      by destruct Hh as [(? & _)|Hh]. }
  apply (grown_step n 1 self s); [done..| | |].
  - split.
    + intros q _ _. by rewrite Hm.
    + intros q [? _]%Hf1. by right.
    + intros q [Hq|(v & t & pm & [(_ & _ & _ & ->)|Hh]%Hview)]; [|by right|].
      * left. left. by rewrite <- Er.
      * left. right. by exists v, t, pm.
    + intros q (π & Hπ & Hq). left. exists π. by rewrite <- Hm, <- Er.
  - intros q [Hq|[Hq|(v & t & pm & Hh)]].
    + destruct (decide (q = p)) as [->|]; [|left; by apply Hf1]. right. right.
      eexists _, _, _. apply Hview. by left.
    + right. left. by rewrite Er.
    + right. right. exists v, t, pm. apply Hview. by right.
  - exists [p]. split; [done|]. intros q Hq. rewrite Hf1, list_elem_of_singleton.
    destruct (decide (q = p)); tauto.
Qed.

(** ** Writing a page of the space *)
Lemma grown_write n self s s1 v t pm p :
  grown n self s → has (areas self) v t pm (Some p) → ps_ok s1 → (∀ q, ps_free s1 q ↔ ps_free s q) →
  same_outside_page p (mem_of s) (mem_of s1) → grown n self s1.
Proof using All.
  intros [Hi Ht Hf Hr Hc] Hh Hok Hf1 Hout.
  destruct (vi_owned _ _ Hi _ _ _ _ Hh) as (_ & _ & _ & Hnt).
  destruct (vm_inv_tables self s s1) as (Hi1 & _ & Hr1); [done|done| | |].
  - intros q (π & Hπ & Hn). apply (page_same_outside p); [done|]. intros ->. by apply (Hnt π).
  - intros q Hq. rewrite Hf1. destruct Hq as [Hq|Hq]; [by apply (vi_owns _ _ _ Hi)|by apply (vi_reaches _ _ _ Hi)].
  - split; [done| | | |].
    + intros q. by rewrite Ht, Hf1.
    + intros q Hq. eapply page_same_trans; [by apply Hf|]. apply (page_same_outside p); [done|].
      intros ->. apply Hq, Ht. right. right. by exists v, t, pm.
    + intros q. rewrite Hr1. apply Hr.
    + destruct Hc as (l & Hl & Hc). exists l. split; [done|]. intros q Hq. rewrite Hf1. by apply Hc.
Qed.

(** ** Other spaces *)

Lemma grown_undisturbed other n self s :
  vm_inv other s0 → grown n self s → undisturbed other s0 s.
Proof using Type.
  intros Ho Hg. apply vm_inv_frame; [done|apply (gr_inv _ _ _ Hg)|]. intros p Hp.
  assert (¬ ps_free s0 p) as Hnf.
  { destruct Hp as [Hp|Hp]; [by apply (vi_owns _ _ _ Ho)|by apply (vi_reaches _ _ _ Ho)]. }
  split; [by apply (gr_frame _ _ _ Hg)|]. intros Hf. apply Hnf, (gr_took _ _ _ Hg). by left.
Qed.

Lemma grown_apart other n self s :
  vm_inv other s0 → (∀ p, owns other p → ¬ shared p) → grown n self s →
  apart self other s ∧ apart other self s.
Proof using Type.
  intros Ho Hsh Hg. pose proof (ud_reach _ _ _ (grown_undisturbed _ _ _ _ Ho Hg)) as Hr.
  assert (∀ p, owns self p → ps_free s0 p) as Hown by (intros p Hp; apply (gr_took _ _ _ Hg); by right).
  split; intros p Hp.
  - apply Hown in Hp. rewrite Hr. split; intros Hq; [by apply (vi_owns _ _ _ Ho) in Hq as [_ ?]|].
    by apply (vi_reaches _ _ _ Ho) in Hq.
  - destruct (vi_owns _ _ _ Ho Hp) as [_ Hnf]. split; [intros Hq; by apply Hown in Hq|].
    intros Hq. destruct (gr_reach _ _ _ Hg p Hq); [done|by apply (Hsh p)].
Qed.
End grow.
