(* ===== verification/VmNew.v ===== *)
(** * Loading a segment: [VMSpace::map_user_elf_segment]

    A [Load] segment of an ELF file becomes an area whose pages are all mapped and hold
    the bytes of the file.  A failure gives back the frames of the area. *)

From S2P Require Export VmGrow.
From stdpp Require Import list.
Open Scope Z_scope.

(** ** What a program file asks for *)
Section image.
Context `{XmasElf}.
Implicit Types (ph : ProgramHeader) (bytes : list Z).

Definition segment_start ph : Z := ph_virtual_addr ph / 4096.
Definition segment_end ph : Z := (ph_virtual_addr ph + ph_mem_size ph + 4095) / 4096.
Definition segment_perm ph : Z := Space.get_permissions_from_ph_flags ph.

(** The byte at offset [k] of the pages of the segment *)
Definition segment_byte bytes ph (k : Z) : Z :=
  if k <? ph_file_size ph then nth (Z.to_nat (ph_offset ph + k)) bytes 0 else 0.

(** The segments that are loaded *)
Definition loads (l : list ProgramHeader) : list ProgramHeader :=
  filter (λ ph, ph_is_load ph = Ok true) l.

(** A segment in the file and in the user half, below the stack *)
Record segment_ok bytes ph : Prop := {
  sg_align : ph_align ph ≠ 0;
  sg_va : 0 <= ph_virtual_addr ph;
  sg_mem : 0 < ph_mem_size ph;
  sg_end : ph_virtual_addr ph + ph_mem_size ph <= USER_SPACE_END - USER_STACK_MAX_SIZE_BYTES;
  sg_offset : 0 <= ph_offset ph;
  sg_size : 0 <= ph_file_size ph;
  sg_file : ph_offset ph + ph_file_size ph <= Z.of_nat (length bytes);
}.

(** A slice of bytes whose segments are in order *)
Record file_ok bytes : Prop := {
  fl_length : Z.of_nat (length bytes) < 2 ^ 63;
  fl_bytes : Forall (λ b, 0 <= b < 256) bytes;
  fl_segments elf : elf_new bytes = Ok elf → Forall (segment_ok bytes) (loads (elf_program_iter elf));
  fl_entry elf : elf_new bytes = Ok elf → is_usize (elf_entry_point elf);
}.

Lemma loads_snoc l ph :
  loads (l ++ [ph]) = loads l ++ (if bool_decide (ph_is_load ph = Ok true) then [ph] else []).
Proof.
  unfold loads. rewrite filter_app. f_equal.
  case_bool_decide; [by rewrite filter_cons_True|by rewrite filter_cons_False].
Qed.

Lemma segment_perm_ok ph :
  0 <= segment_perm ph < 32 ∧ is_usize (segment_perm ph) ∧
  segment_perm ph .& .~ ALL_PERMISSION_FLAGS = 0 ∧
  to_pte_flags (segment_perm ph) = Ok (area_flags (segment_perm ph)).
Proof.
  unfold segment_perm, Space.get_permissions_from_ph_flags.
  destruct (ph_is_read ph), (ph_is_write ph), (ph_is_execute ph);
    split_and!; first [done|vm_compute; split; congruence].
Qed.

Lemma segment_range bytes ph :
  segment_ok bytes ph →
  0 <= segment_start ph < segment_end ph ∧
  segment_end ph <= (USER_SPACE_END - USER_STACK_MAX_SIZE_BYTES) / 4096.
Proof.
  intros [_ ? ? He _ _ _]. unfold segment_start, segment_end.
  change (USER_SPACE_END - USER_STACK_MAX_SIZE_BYTES) with (4096 * 67106815) in *. zlia.
Qed.
End image.

(** ** Bytes of a page *)
Section bytes.
Context {S : Type} `{PageSourceLaws S}.
Implicit Types (s : S).

Definition page_holds s (p : Z) (f : Z → Z) : Prop :=
  ∀ b, 0 <= b < 4096 → read_u8 (mem_of s) (page_start p + b) = f b.

Lemma page_holds_same s s' p f :
  page_same p (mem_of s) (mem_of s') → page_holds s p f → page_holds s' p f.
Proof.
  intros Hs Hp b Hb. rewrite Hs; [by apply Hp|]. unfold page_start, page_end. lia.
Qed.

(** A step of the memory alone, within the page [p] *)
Definition wrote_page (p : Z) s s' : Prop :=
  ps_ok s' ∧ (∀ q, ps_free s' q ↔ ps_free s q) ∧ same_outside_page p (mem_of s) (mem_of s').

Lemma copy_data_wp p data s :
  0 <= p < 2 ^ 26 → ps_ok s →
  wp (Space.copy_data (PPN.get_pa p) data) (λ _ s', wrote_page p s s' ∧
    page_holds s' p (λ b, if b <? Z.of_nat (length data) then nth (Z.to_nat b) data 0 mod 256
                          else read_u8 (mem_of s) (page_start p + b))) s.
Proof.
  intros Hp Hok. unfold Space.copy_data, get_pa_mut_ptr. rewrite get_pa_eq by lia. wp_step.
  eapply wp_intro; [apply get_va_from_pa_run; lia|]. cbv beta.
  eapply wp_mono.
  - apply wp_for_each with (I := λ don s', wrote_page p s s' ∧
      page_holds s' p (λ b, if b <? Z.of_nat (length don) then nth (Z.to_nat b) data 0 mod 256
                            else read_u8 (mem_of s) (page_start p + b))).
    + split; [split_and!; [done..|apply same_outside_refl]|].
      intros b Hb. by destruct (Z.ltb_spec b (Z.of_nat (length (@nil Z)))); [simpl in *; lia|].
    + intros don i todo s1 Hl [(Hok1 & Hf1 & Hout) Hb].
      assert (i = Z.of_nat (length don) ∧ Z.of_nat (length don) < 4096) as [-> Hlt].
      { assert (range 0 (Z.min (Z.of_nat (length data)) PAGE_SIZE_BYTES) !! length don = Some i) as Hi
          by (rewrite Hl; by apply list_lookup_middle).
        apply lookup_seqZ in Hi. rewrite page_size_eq in Hi. lia. }
      apply wp_modify. split; [split_and!|].
      * by apply ps_upd_ok.
      * intros q. by rewrite ps_upd_free.
      * rewrite mem_of_upd. eapply same_outside_trans; [exact Hout|]. apply same_outside_write_u8.
        unfold page_start, page_end. lia.
      * intros b Hbr. rewrite mem_of_upd, length_app. cbn [length].
        replace (p * 4096 + KERNEL_VA_OFFSET + Z.of_nat (length don) - KERNEL_VA_OFFSET)
          with (page_start p + Z.of_nat (length don)) by (unfold page_start; lia).
        destruct (decide (b = Z.of_nat (length don))) as [->|Hne].
        -- rewrite read_u8_write_same. by rewrite (proj2 (Z.ltb_lt _ _)) by lia.
        -- rewrite read_u8_write_ne by lia. rewrite (Hb b Hbr).
           destruct (Z.ltb_spec b (Z.of_nat (length don))), (Z.ltb_spec b (Z.of_nat (length don + 1)));
             done || lia.
  - intros [] s' [Hw Hb]. split; [done|]. intros b Hbr. rewrite (Hb b Hbr).
    unfold range. rewrite length_seqZ, page_size_eq.
    destruct (Z.ltb_spec b (Z.of_nat (Z.to_nat (Z.min (Z.of_nat (length data)) 4096 - 0)))),
      (Z.ltb_spec b (Z.of_nat (length data))); done || lia.
Qed.
End bytes.

(** ** Loading a segment *)
Section segment.
Context {S : Type} `{PageSourceLaws S} `{XmasElf}.
Implicit Types (s : S) (self : VMSpace) (area : VMArea).
Context (bytes : list Z) (ph : ProgramHeader) (Hfile : file_ok bytes) (Hseg : segment_ok bytes ph).

Lemma file_sum : ph_offset ph ⊕ ph_file_size ph = ph_offset ph + ph_file_size ph.
Proof using Hfile Hseg.
  destruct Hseg, Hfile. apply uadd_small. unfold USIZE_MODULUS. lia.
Qed.

(** Where the data of page [i] starts; past the end, the value no longer matters. *)
Definition data_at (data_start i : Z) : Prop :=
  data_start = ph_offset ph + 4096 * i ∨
  ph_offset ph + ph_file_size ph <= data_start ∧ ph_file_size ph <= 4096 * i.

(** The copy of one page of data *)
Lemma load_page_wp data_start p i s :
  data_at data_start i → 0 <= i → 0 <= p < 2 ^ 26 → ps_ok s → page_zero (mem_of s) p →
  wp (if data_start <? ph_offset ph ⊕ ph_file_size ph then
        data ← Space.slice bytes data_start
          (Z.min (data_start ⊕ PAGE_SIZE_BYTES) (ph_offset ph ⊕ ph_file_size ph));
        Space.copy_data (PPN.get_pa p) data;;
        mret (data_start ⊕ PAGE_SIZE_BYTES)
      else mret data_start) (λ data_start' s',
    data_at data_start' (i + 1) ∧ wrote_page p s s' ∧
    page_holds s' p (λ b, segment_byte bytes ph (4096 * i + b))) s.
Proof using Hfile Hseg.
  intros Hds Hi Hp Hok Hz. pose proof Hseg as [_ _ _ _ Hoff Hsz Hlen]. pose proof (fl_length _ Hfile) as Hl.
  assert (∀ b, 0 <= b < 4096 → read_u8 (mem_of s) (page_start p + b) = 0) as Hz0.
  { intros b Hb. apply Hz. unfold page_start, page_end. lia. }
  rewrite file_sum. destruct (Z.ltb_spec data_start (ph_offset ph + ph_file_size ph)) as [Hlt|Hge].
  - destruct Hds as [->|[? _]]; [|lia]. rewrite page_size_eq.
    rewrite uadd_small by (unfold USIZE_MODULUS; lia).
    set (lo := ph_offset ph + 4096 * i) in *. set (hi := Z.min (lo + 4096) (ph_offset ph + ph_file_size ph)).
    unfold Space.slice. wp_step. wp_step. apply wp_assert; [lia|]. wp_step. wp_step.
    set (data := take _ _). assert (Z.of_nat (length data) = hi - lo) as Hdata.
    { unfold data. rewrite length_take, length_drop. lia. }
    eapply wp_mono; [by apply copy_data_wp|]. intros [] s' [Hw Hb]. wp_step.
    split; [left; lia|]. split; [done|]. intros b Hbr. rewrite (Hb b Hbr), Hdata. unfold segment_byte.
    destruct (Z.ltb_spec b (hi - lo)), (Z.ltb_spec (4096 * i + b) (ph_file_size ph)); try lia.
    + unfold data. rewrite !nth_lookup, lookup_take_lt, lookup_drop by lia.
      replace (Z.to_nat lo + Z.to_nat b)%nat with (Z.to_nat (ph_offset ph + (4096 * i + b))) by lia.
      destruct (bytes !! Z.to_nat (ph_offset ph + (4096 * i + b))) as [x|] eqn:Hx; [|done]. simpl.
      pose proof (fl_bytes _ Hfile) as Hbytes. rewrite Forall_lookup in Hbytes.
      by apply Z.mod_small, (Hbytes _ _ Hx).
    + by apply Hz0.
  - wp_step. assert (ph_file_size ph <= 4096 * i) as Hpast by (destruct Hds; lia).
    split; [right; lia|]. split; [split_and!; [done..|apply same_outside_refl]|].
    intros b Hbr. rewrite Hz0 by done. unfold segment_byte.
    destruct (Z.ltb_spec (4096 * i + b) (ph_file_size ph)); [lia|done].
Qed.

(** ** The areas while the segment is loaded *)

(** The area of the segment with its pages below [v] *)
Record filling area (v : Z) s : Prop := {
  fi_start : start_vpn area = segment_start ph;
  fi_end : end_vpn area = segment_end ph;
  fi_type : map_type area = Anonymous;
  fi_perm : permissions area = segment_perm ph;
  fi_pages v' : is_Some (pages area !! v') ↔ segment_start ph <= v' < v;
  fi_bytes v' p : pages area !! v' = Some p →
    page_holds s p (λ b, segment_byte bytes ph (4096 * (v' - segment_start ph) + b));
}.

(** The areas with the part that is already there *)
Definition with_part self area (v : Z) : VMSpace :=
  if decide (start_vpn area < v) then Sp.set_areas self (areas self ++ [Area.set_end_vpn area v])
  else self.

Lemma with_part_root self area v : root_pgt (with_part self area v) = root_pgt self.
Proof using Type. unfold with_part. by case_decide. Qed.

Lemma with_part_has self area v s v' t pm p :
  filling area v s →
  has (areas (with_part self area v)) v' t pm (Some p) ↔
    has (areas self) v' t pm (Some p) ∨
    (t = Anonymous ∧ pm = segment_perm ph ∧ pages area !! v' = Some p).
Proof using Type.
  intros [Es Ee Et Ep Hp _]. unfold with_part. case_decide as Hd.
  - cbn [areas Sp.set_areas]. rewrite has_app, has_cons. unfold sees.
    cbn [start_vpn end_vpn map_type permissions pages Area.set_end_vpn]. rewrite Et, Ep, Es. split.
    + intros [?|[(_ & <- & <- & ?)|[]%has_nil]]; [by left|by right].
    + intros [?|(-> & -> & Hv)]; [by left|]. right. left. split_and!; try done; by apply Hp; eexists.
  - split; [by left|]. intros [?|(_ & _ & Hv)]; [done|].
    destruct (proj1 (Hp v')) as [? ?]; [by eexists|]. lia.
Qed.

Lemma with_part_pages self area v s :
  filling area v s → space_pages (with_part self area v) ≡ₚ space_pages self ++ pages_in_order (pages area).
Proof using Type.
  intros [Es _ _ _ Hp _]. unfold with_part, space_pages. case_decide as Hd.
  - cbn [areas root_pgt Sp.set_areas]. unfold area_pages. rewrite fmap_app, join_app. cbn.
    by rewrite app_nil_r, app_assoc.
  - assert (pages area = ∅) as ->; [|by rewrite app_nil_r].
    apply map_eq. intros v'. rewrite lookup_empty. apply eq_None_not_Some. rewrite Hp. lia.
Qed.

Lemma with_part_set_root self area v pgt :
  Sp.set_root_pgt (with_part self area v) pgt = with_part (Sp.set_root_pgt self pgt) area v.
Proof using Type. unfold with_part. by case_decide. Qed.

(** Every page of every area is mapped. *)
Definition eager self : Prop := ∀ v t pm o, has (areas self) v t pm o → is_Some o.

Definition add_page area (v p : Z) : VMArea := Area.set_pages area (<[v := p]> (pages area)).

Lemma filling_add area v p s s' :
  filling area v s → segment_start ph <= v →
  (∀ v' q, pages area !! v' = Some q → page_same q (mem_of s) (mem_of s')) →
  page_holds s' p (λ b, segment_byte bytes ph (4096 * (v - segment_start ph) + b)) →
  filling (add_page area v p) (v + 1) s'.
Proof using Type.
  intros [Es Ee Et Ep Hp Hb] Hv Hsame Hnew. split; cbn; [done..| |].
  - intros v'. destruct (decide (v = v')) as [<-|Hne].
    + rewrite lookup_insert_eq. split; [lia|by eexists].
    + rewrite lookup_insert_ne, Hp by done. lia.
  - intros v' q. destruct (decide (v = v')) as [<-|Hne].
    + rewrite lookup_insert_eq. by intros [= <-].
    + rewrite lookup_insert_ne by done. intros Hq. eapply page_holds_same; [by eapply Hsame|by apply Hb].
Qed.

(** The areas are still in order with one page more. *)
Lemma extends_part self area v p s s' pgt :
  filling area v s → segment_start ph <= v < segment_end ph → eager self → vm_inv (with_part self area v) s' →
  (∀ t pm q, ¬ has (areas (with_part self area v)) v t pm (Some q)) →
  extends (with_part self area v) v Anonymous (segment_perm ph) p
    (with_part (Sp.set_root_pgt self pgt) (add_page area v p) (v + 1)).
Proof using Hseg.
  intros Hfi Hv Heager Hi Hno. pose proof (segment_range bytes ph Hseg) as [Hr Hend].
  change ((USER_SPACE_END - USER_STACK_MAX_SIZE_BYTES) / 4096) with 67106815 in Hend.
  pose proof Hfi as [Es Ee Et Ep Hp _].
  assert (∀ t pm q, ¬ has (areas self) v t pm (Some q)) as Hno'.
  { intros t pm q Hh. apply (Hno t pm q). eapply with_part_has; [done|by left]. }
  assert (with_part (Sp.set_root_pgt self pgt) (add_page area v p) (v + 1) =
    Sp.set_areas (Sp.set_root_pgt self pgt)
      (areas self ++ [Area.set_end_vpn (add_page area v p) (v + 1)])) as ->.
  { unfold with_part. cbn [start_vpn add_page Area.set_pages]. by rewrite decide_True by lia. }
  assert (Forall area_ok (areas self) ∧ pairwise area_disjoint (areas self) ∧
    ∀ a, a ∈ areas self → end_vpn a <= segment_start ph ∨ v <= start_vpn a ∨ v = segment_start ph) as (Hfa & Hpa & Hda).
  { pose proof (vi_areas _ _ Hi) as Hfa. pose proof (vi_disjoint _ _ Hi) as Hpa. unfold with_part in Hfa, Hpa.
    case_decide as Hd; cbn [areas Sp.set_areas] in *.
    - apply Forall_app in Hfa as [Hfa _]. apply pairwise_app in Hpa as (Hpa & _ & Hda).
      split_and!; [done..|]. intros a Ha. specialize (Hda a (Area.set_end_vpn area v) Ha).
      rewrite list_elem_of_singleton in Hda. specialize (Hda eq_refl). unfold area_disjoint in Hda.
      cbn in Hda. lia.
    - split_and!; [done..|]. intros a _. right. right. lia. }
  destruct (segment_perm_ok ph) as (_ & Hpu & Hpm & _). split; cbn [areas Sp.set_areas].
  - apply Forall_app. split; [done|]. apply Forall_singleton. split; cbn; rewrite ?Et, ?Ep; try done; try lia.
    intros v' q Hq. destruct (decide (v = v')) as [<-|Hne]; [lia|]. rewrite lookup_insert_ne in Hq by done.
    rewrite Es. apply mk_is_Some, Hp in Hq. lia.
  - apply pairwise_app. split_and!; [done|by split|]. intros a b Ha ->%list_elem_of_singleton.
    unfold area_disjoint. cbn. rewrite Es.
    assert (¬ (start_vpn a <= v < end_vpn a)) as Hout.
    { intros Hin. assert (has (areas self) v (map_type a) (permissions a) (pages a !! v)) as Hh
        by (exists a; split; [done|split; [exact Hin|by split_and!]]).
      destruct (Heager _ _ _ _ Hh) as [q Hq]. rewrite Hq in Hh. by apply Hno' in Hh. }
    rewrite Forall_forall in Hfa. pose proof (ar_nonempty _ (Hfa a Ha)). destruct (Hda a Ha) as [?|[?|?]]; lia.
  - intros v' t pm q. rewrite (with_part_has self area v s) by done. rewrite has_app, has_cons. unfold sees. cbn.
    rewrite Et, Ep, Es. split.
    + intros [Hh|[(Hr' & <- & <- & Hq)|[]%has_nil]].
      * right. split; [|by left]. intros ->. by apply Hno' in Hh.
      * destruct (decide (v = v')) as [<-|Hne].
        -- left. rewrite lookup_insert_eq in Hq. by injection Hq as ->.
        -- right. rewrite lookup_insert_ne in Hq by done. split; [done|]. right. by split_and!.
    + intros [(-> & -> & -> & ->)|(Hne & [Hh|(-> & -> & Hq)])]; [right; left|by left|right; left].
      * rewrite lookup_insert_eq. split_and!; done || lia.
      * rewrite lookup_insert_ne by done. split_and!; try done; apply mk_is_Some, Hp in Hq; lia.
Qed.
(** ** The loop over the pages *)

Context (s0 : S) (shared : Z → Prop).

(** Why the segment could not be loaded, having taken at most [n] pages *)
Definition segment_error (n : nat) self (e : VMError) : Prop :=
  match e with
  | VMAcquirePageFailed => scarce n s0
  | VMPgtError v e =>
      segment_start ph <= v < segment_end ph ∧
      match e with
      | AcquirePageFailed => scarce n s0
      | InvalidPteFlags f =>
          f = area_flags (segment_perm ph) ∧ PTE.is_valid_flags (area_flags (segment_perm ph)) = false
      | DoubleMapping v' _ => v' = v ∧ ∃ t pm q, has (areas self) v t pm (Some q)
      end
  | _ => False
  end.

Lemma segment_error_le n k self e : (n <= k)%nat → segment_error n self e → segment_error k self e.
Proof using Type.
  intros Hn. destruct e as [|v [| |]| | | | | | | |]; try done; cbn.
  - intros [? ?]. split; [done|by eapply scarce_le].
  - by apply scarce_le.
Qed.

(** What the loop leaves *)
Definition segment_post (n : nat) self s (r : result VMArea VMError) self' s' : Prop :=
  (∃ pgt, self' = Sp.set_root_pgt self pgt) ∧
  match r with
  | Ok area =>
      (∀ v t pm q, has (areas self) v t pm (Some q) → page_same q (mem_of s) (mem_of s')) ∧
      filling area (segment_end ph) s' ∧ grown s0 shared n (with_part self' area (segment_end ph)) s'
  | Err e => spent s0 (space_pages self') s' ∧ segment_error n self e
  end.

(** The frames of the area are given back after a failure. *)
Lemma drop_part_wp n self pgt area v s s1 s2 e :
  filling area v s → grown s0 shared n (with_part (Sp.set_root_pgt self pgt) area v) s2 →
  segment_error n self e →
  wp (Space.drop_area area;; mret (@Err VMArea VMError e, Sp.set_root_pgt self pgt)) (λ '(r, self') s',
    segment_post n self s1 r self' s') s2.
Proof using All.
  intros Hfi Hg He. wp_step.
  eapply wp_mono; [apply (spent_drop s0 (space_pages (Sp.set_root_pgt self pgt)))|].
  { eapply spent_perm; [by eapply with_part_pages|by eapply grown_spent]. }
  intros [] s3 Hsp. wp_step. split; [by exists pgt|by split].
Qed.

Lemma map_segment_pages_wp n k v self area data_start s :
  Z.of_nat n = segment_end ph - v → segment_start ph <= v → filling area v s → eager self →
  data_at data_start (v - segment_start ph) → grown s0 shared k (with_part self area v) s →
  wp (Space.map_segment_pages (range v (segment_end ph)) self area bytes
        (area_flags (segment_perm ph)) data_start (ph_offset ph ⊕ ph_file_size ph))
     (λ '(r, self') s', segment_post (k + 3 * n) self s r self' s') s.
Proof using All.
  revert k v self area data_start s.
  induction n as [|n IH]; intros k v self area data_start s Hn Hv Hfi Heager Hds Hg.
  - rewrite range_nil by lia. cbn [Space.map_segment_pages]. wp_step. assert (v = segment_end ph) as -> by lia.
    split; [exists (root_pgt self); by destruct self|]. split; [done|]. split; [done|].
    by eapply grown_le; [|exact Hg]; lia.
  - rewrite range_cons by lia. cbn [Space.map_segment_pages]. wp_step.
    pose proof (gr_inv _ _ _ _ _ Hg) as Hi. pose proof (pi_ok _ _ (vi_pgt _ _ Hi)) as Hok.
    eapply wp_mono; [by apply ps_alloc_zeroed_page_law|].
    intros [p|] s1 (Hok1 & Hal); cbv beta iota in Hal |- *.
    2:{ destruct Hal as [-> Hnf]. assert (self = Sp.set_root_pgt self (root_pgt self)) as E by (by destruct self).
      pose proof (drop_part_wp (k + 3 * Datatypes.S n) self (root_pgt self) area v s s s VMAcquirePageFailed Hfi) as Hd.
      rewrite <- E in Hd. apply Hd; [eapply grown_le; [|exact Hg]; lia|].
      cbn. eapply (scarce_le (k + 0)); [lia|]. apply (took_scarce _ _ _ s); [apply Hg|by apply scarce_none]. }
    destruct Hal as (Hp & Hf1 & Hz & Hout). pose proof (ps_free_ram s p Hok Hp) as Hpr.
    wp_step. eapply wp_mono; [by eapply load_page_wp; [exact Hds|lia|..]|].
    intros ds' s2 (Hds' & (Hok2 & Hf2 & Hout2) & Hcontent). cbv beta. wp_step.
    pose proof (segment_range bytes ph Hseg) as [Hr Hend].
    change ((USER_SPACE_END - USER_STACK_MAX_SIZE_BYTES) / 4096) with 67106815 in Hend.
    destruct (segment_perm_ok ph) as (Hpm & _).
    rewrite <- (with_part_root self area v). eapply wp_mono.
    { apply (extend_wp s0 shared k (with_part self area v) s s2 v p (segment_perm ph)); [done|lia|done|done|done| |].
      - intros q. by rewrite Hf2, Hf1.
      - eapply same_outside_trans; [exact Hout|exact Hout2]. }
    intros [r pgt] s3 (_ & Hsame & Hres). cbv beta iota.
    assert (∀ v' q, pages area !! v' = Some q → page_same q (mem_of s) (mem_of s3)) as Hsame_area.
    { intros v' q Hq. eapply (Hsame v' Anonymous (segment_perm ph)). eapply with_part_has; [exact Hfi|]. by right. }
    assert (∀ v' t pm q, has (areas self) v' t pm (Some q) → page_same q (mem_of s) (mem_of s3)) as Hsame_areas.
    { intros v' t pm q Hq. eapply (Hsame v' t pm). eapply with_part_has; [exact Hfi|]. by left. }
    assert (pages area !! v = None) as Hnone.
    { apply eq_None_not_Some. rewrite (fi_pages _ _ _ Hfi). lia. }
    destruct r as [[]|e]; cbn [map_err].
    + destruct Hres as (_ & Hpp & Hno & Hgrow). rewrite Hnone. cbn [Space.drop_option].
      wp_step. wp_step. fold (add_page area v p).
      eapply wp_mono; [apply (IH (k + 3)%nat (v + 1) (Sp.set_root_pgt self pgt) (add_page area v p) ds' s3)|].
      * lia.
      * lia.
      * eapply filling_add; [done|done|done|]. by eapply page_holds_same.
      * done.
      * by replace (v + 1 - segment_start ph) with (v - segment_start ph + 1) by lia.
      * apply (Hgrow Anonymous); [by rewrite with_part_root|]. eapply extends_part; try done; lia.
      * intros [r self'] s4 [[pgt' ->] Hpost]. split; [by exists pgt'|].
        replace (k + 3 * Datatypes.S n)%nat with (k + 3 + 3 * n)%nat by lia.
        destruct r as [area'|e]; [|done]. destruct Hpost as (Hs4 & ? & ?). split_and!; [|done|done].
        intros v' t pm q Hq. eapply page_same_trans; [by eapply Hsame_areas|by eapply Hs4].
    + wp_step. eapply wp_mono; [exact Hres|]. intros [] s4 (_ & Hg4 & He).
      rewrite with_part_set_root in Hg4. eapply drop_part_wp; [exact Hfi|eapply grown_le; [|exact Hg4]; lia|].
      split; [lia|]. destruct e as [|f|v' p']; cbn in He.
      * by eapply scarce_le; [|exact He]; lia.
      * by destruct He as [-> ?].
      * destruct He as (-> & _ & t & pm & q & Hh). split; [done|]. exists t, pm, q.
        eapply with_part_has in Hh; [|exact Hfi]. destruct Hh as [?|(_ & _ & Hq)]; [done|congruence].
Qed.
End segment.
