(* ===== verification/UserView.v ===== *)
(** * What a task sees of its memory

    The byte a task reads at a user address, whether the page is mapped yet or not: a page
    an area reserves reads 0 until it is written.  Demand paging does not change this
    view; it only changes what the hardware refuses. *)

From S2P Require Export VmFrame.
From stdpp Require Import list.
Open Scope Z_scope.

(** The hardware refuses user mode the access [need] at [va]. *)
Definition denied {S} `{Has mem S} (s : S) (self : VMSpace) (va need : Z) : Prop :=
  match mmu_translate (mem_of s) (rp_ppn (root_pgt self)) va with
  | Some (_, flags) => flags .& (PERMISSION_U .| need) ≠ PERMISSION_U .| need
  | None => True
  end.

(** The accesses a user page may be asked for *)
Definition is_access (need : Z) : Prop := need = PERMISSION_R ∨ need = PERMISSION_W.

(** The flags of a leaf answer the access as the permissions of the area do. *)
Lemma access_bits need pm :
  is_access need → 0 <= pm < 32 → pm mod 2 = 0 →
  (area_flags pm .& need = need ↔ need .& pm = need) ∧
  ((PERMISSION_U .| need) .& pm = PERMISSION_U .| need ↔
     PERMISSION_U .& pm = PERMISSION_U ∧ need .& pm = need) ∧
  ((PERMISSION_U .| need) .& pm = PERMISSION_U .| need →
     area_flags pm .& (PERMISSION_U .| need) = PERMISSION_U .| need).
Proof.
  intros Hn Hpm Hev.
  assert (forallb (λ pm, forallb (λ need, negb (pm mod 2 =? 0) ||
    (eqb (area_flags pm .& need =? need) (need .& pm =? need) &&
     eqb ((PERMISSION_U .| need) .& pm =? PERMISSION_U .| need)
       ((PERMISSION_U .& pm =? PERMISSION_U) && (need .& pm =? need)) &&
     (negb ((PERMISSION_U .| need) .& pm =? PERMISSION_U .| need) ||
      (area_flags pm .& (PERMISSION_U .| need) =? PERMISSION_U .| need))))
    [PERMISSION_R; PERMISSION_W]) (seqZ 0 32) = true) as Hall by (vm_compute; reflexivity).
  rewrite forallb_forall in Hall. specialize (Hall pm).
  rewrite <- list_elem_of_In, elem_of_seqZ in Hall. specialize (Hall ltac:(lia)).
  rewrite forallb_forall in Hall. specialize (Hall need).
  rewrite <- list_elem_of_In, Hev in Hall. specialize (Hall ltac:(destruct Hn as [->| ->]; set_solver)).
  change (negb (0 =? 0)) with false in Hall. rewrite orb_false_l in Hall.
  rewrite !andb_true_iff, orb_true_iff, !eqb_true_iff in Hall. rewrite <- !Z.eqb_eq.
  destruct (area_flags pm .& need =? need), (need .& pm =? need),
    ((PERMISSION_U .| need) .& pm =? PERMISSION_U .| need), (PERMISSION_U .& pm =? PERMISSION_U),
    (area_flags pm .& (PERMISSION_U .| need) =? PERMISSION_U .| need); naive_solver.
Qed.
Lemma access_flags need pm :
  is_access need → 0 <= pm < 32 → pm mod 2 = 0 →
  (PERMISSION_U .| need) .& pm = PERMISSION_U .| need →
  area_flags pm .& (PERMISSION_U .| need) = PERMISSION_U .| need.
Proof. intros Hn Hpm Hev. by destruct (access_bits need pm Hn Hpm Hev) as (_ & _ & ?). Qed.

Section denied.
Context {S : Type} `{PageSourceLaws S}.
Implicit Types (s : S) (self : VMSpace).

Lemma access_min need :
  is_access need →
  (PERMISSION_U .| need) .& ((PERMISSION_R .| PERMISSION_W) .| PERMISSION_X) ≠ 0.
Proof. intros [->| ->]; vm_compute; congruence. Qed.

(** A mapped page, for the hardware *)
Lemma user_translate_page self s va min t pm p :
  vm_inv self s → 0 <= va < 2 ^ 38 → has (areas self) (va / 4096) t pm (Some p) →
  min .& pm = min → min .& ((PERMISSION_R .| PERMISSION_W) .| PERMISSION_X) ≠ 0 →
  mmu_translate (mem_of s) (rp_ppn (root_pgt self)) va = Some (p * 4096 + va mod 4096, area_flags pm).
Proof.
  intros Hi Hva Hh Hm Hmin. destruct (user_va_valid va Hva) as [Hu Hcan].
  destruct (vi_perm _ _ _ _ _ _ Hi Hh) as [Hpm Hev].
  destruct (vi_owned _ _ Hi _ _ _ _ Hh) as (Hman & _). apply ps_managed_ram in Hman.
  apply mmu_translate_page; [apply Hi|done|lia|by apply area_flags_usize| |].
  - apply (area_leaf_flags min); [done|done| |done|done]. by apply (vi_flags _ _ Hi) in Hh.
  - apply (vi_agree _ _ Hi); [zlia|]. by exists t, pm, p.
Qed.

(** A fault the hardware raises never meets a page mapped with the permission. *)
Lemma denied_areas self s va need :
  vm_inv self s → 0 <= va < 2 ^ 38 → is_access need → denied s self va need →
  ∀ t pm p, has (areas self) (va / 4096) t pm (Some p) →
    (PERMISSION_U .| need) .& pm ≠ PERMISSION_U .| need.
Proof.
  intros Hi Hva Hn Hden t pm p Hh Hm. destruct (vi_perm _ _ _ _ _ _ Hi Hh) as [Hpm Hev].
  unfold denied in Hden.
  rewrite (user_translate_page _ _ _ _ _ _ _ Hi Hva Hh Hm (access_min need Hn)) in Hden.
  apply Hden. by apply access_flags.
Qed.
End denied.


(** ** The view *)
Section view.
Context {S : Type} `{PageSourceLaws S}.
Implicit Types (s : S) (self : VMSpace).

(** The byte at [va] for the access [need], if the page [va] lies in has permissions
    [pm] and the frame [o] *)
Definition page_byte s (pm : Z) (o : option Z) (need va : Z) : option Z :=
  match o with
  | Some p =>
      if need .& pm =? need then Some (read_u8 (mem_of s) (page_start p + va mod 4096)) else None
  | None =>
      if ((PERMISSION_U .| need) .& pm =? PERMISSION_U .| need) &&
         PTE.is_valid_flags (area_flags pm)
      then Some 0 else None
  end.
Definition user_byte s self (need va : Z) : option Z :=
  match Space.find_area_mut self (va / 4096) with
  | Ok (_, a) => page_byte s (permissions a) (pages a !! (va / 4096)) need va
  | Err _ => None
  end.

(** At most one page is left. *)
Definition nearly_full s : Prop := ∃ p, ∀ q, ps_free s q → q = p.

(** The same memory, for the task *)
Definition same_view s self s' self' : Prop :=
  ∀ need va, is_access need → 0 <= va < 2 ^ 38 → user_byte s' self' need va = user_byte s self need va.

Lemma same_view_refl s self : same_view s self s self.
Proof using Type. done. Qed.
Lemma same_view_trans s1 v1 s2 v2 s3 v3 :
  same_view s1 v1 s2 v2 → same_view s2 v2 s3 v3 → same_view s1 v1 s3 v3.
Proof using Type. intros H12 H23 need va Hn Hva. rewrite H23, H12; done. Qed.

Lemma user_byte_has s self t pm o need va :
  vm_inv self s → has (areas self) (va / 4096) t pm o → user_byte s self need va = page_byte s pm o need va.
Proof using Type.
  intros Hi Hh. unfold user_byte. destruct (Space.find_area_mut self (va / 4096)) as [[i a]|e] eqn:Hf.
  2:{ apply find_area_mut_err in Hf as [_ Hno]. by apply Hno in Hh. }
  destruct (find_area_mut_ok _ _ _ _ Hf) as [Ha Hav].
  assert (has (areas self) (va / 4096) (map_type a) (permissions a) (pages a !! (va / 4096))) as Hh'.
  { exists a. split; [by eapply list_elem_of_lookup_2|split; [done|by split_and!]]. }
  by destruct (has_unique _ _ _ _ _ _ _ _ _ Hi Hh Hh') as (_ & -> & ->).
Qed.
Lemma user_byte_none s self need va :
  (∀ t pm o, ¬ has (areas self) (va / 4096) t pm o) → user_byte s self need va = None.
Proof using Type.
  intros Hno. unfold user_byte. destruct (Space.find_area_mut self (va / 4096)) as [[i a]|e] eqn:Hf; [|done].
  destruct (find_area_mut_ok _ _ _ _ Hf) as [Ha Hav]. exfalso.
  apply (Hno (map_type a) (permissions a) (pages a !! (va / 4096))). exists a.
  split; [by eapply list_elem_of_lookup_2|split; [done|by split_and!]].
Qed.
(** Either an area says what the page is, or none covers it. *)
Lemma has_dec self v : (∃ t pm o, has (areas self) v t pm o) ∨ ∀ t pm o, ¬ has (areas self) v t pm o.
Proof using Type.
  destruct (Space.find_area_mut self v) as [[i a]|e] eqn:Hf.
  - left. destruct (find_area_mut_ok _ _ _ _ Hf) as [Ha Hav].
    exists (map_type a), (permissions a), (pages a !! v), a.
    split; [by eapply list_elem_of_lookup_2|split; [done|by split_and!]].
  - right. by apply find_area_mut_err in Hf as [_ Hno].
Qed.

Lemma user_page_byte s s' self p pm t v need va :
  has (areas self) v t pm (Some p) → page_same p (mem_of s) (mem_of s') →
  page_byte s' pm (Some p) need va = page_byte s pm (Some p) need va.
Proof using Type.
  intros _ Hs. simpl. rewrite Hs; [done|].
  pose proof (Z.mod_pos_bound va 4096 ltac:(lia)). unfold page_start, page_end. lia.
Qed.

(** What the hardware lets the kernel read or write is what the task sees. *)
Lemma user_byte_translate s self need va pa f :
  vm_inv self s → 0 <= va < 2 ^ 38 → is_access need →
  mmu_translate (mem_of s) (rp_ppn (root_pgt self)) va = Some (pa, f) → f .& need = need →
  user_byte s self need va = Some (read_u8 (mem_of s) pa) ∧
  ∃ t pm p, has (areas self) (va / 4096) t pm (Some p) ∧ pa = page_start p + va mod 4096 ∧
    need .& pm = need.
Proof using Type.
  intros Hi Hva Hn Ht Hf.
  destruct (user_translate_inv _ _ _ _ _ Hi Hva Ht) as (t & pm & p & Hh & Hpa & ->).
  destruct (vi_perm _ _ _ _ _ _ Hi Hh) as [Hpm Hev].
  apply (access_bits need pm Hn Hpm Hev) in Hf.
  split; [|by exists t, pm, p]. rewrite (user_byte_has _ _ _ _ _ _ _ Hi Hh). simpl.
  rewrite (proj2 (Z.eqb_eq _ _) Hf). by subst pa.
Qed.

(** A page the hardware refuses although mapped lacks the permission. *)
Lemma refused_areas s self need va :
  vm_inv self s → 0 <= va < 2 ^ 38 → is_access need →
  (∀ pa f, mmu_translate (mem_of s) (rp_ppn (root_pgt self)) va = Some (pa, f) → f .& need ≠ need) →
  denied s self va need ∧
  ∀ t pm p, has (areas self) (va / 4096) t pm (Some p) → need .& pm ≠ need.
Proof using Type.
  intros Hi Hva Hn Href. split.
  - unfold denied. destruct (mmu_translate _ _ _) as [[pa f]|] eqn:E; [|done].
    intros Hd. apply (Href pa f eq_refl).
    assert (need = (PERMISSION_U .| need) .& need) as E' by (by destruct Hn as [->| ->]).
    rewrite E' at 1. by rewrite Z.land_assoc, Hd, <- E'.
  - intros t pm p Hh Hm. destruct (vi_perm _ _ _ _ _ _ Hi Hh) as [Hpm Hev].
    destruct (access_bits need pm Hn Hpm Hev) as [[_ Hf] _].
    apply (Href (p * 4096 + va mod 4096) (area_flags pm)); [|by apply Hf].
    apply (user_translate_page _ _ _ need t); [done..|]. destruct Hn as [->| ->]; vm_compute; congruence.
Qed.

(** The permissions a resolved fault asked for are those of the access. *)
Lemma resolved_allows s self need va pm p :
  vm_inv self s → is_access need → 0 <= va < 2 ^ 38 →
  mmu_translate (mem_of s) (rp_ppn (root_pgt self)) va = Some (p * 4096 + va mod 4096, area_flags pm) →
  (PERMISSION_U .| need) .& pm = PERMISSION_U .| need → ¬ denied s self va need.
Proof using Type.
  intros Hi Hn Hva E Hm. unfold denied. rewrite E. intros Hd. apply Hd.
  apply (user_translate_inv _ _ _ _ _ Hi Hva) in E as (t & pm' & q & Hh & _ & E).
  assert (pm' = pm) as -> by (unfold area_flags in E; lia).
  destruct (vi_perm _ _ _ _ _ _ Hi Hh). by apply access_flags.
Qed.

(** Demand paging keeps the view. *)
Lemma map_post_view self need0 va0 s r self' s' :
  vm_inv self s → vm_inv self' s' → is_access need0 →
  (∀ u t pm p, has (areas self) u t pm (Some p) → page_same p (mem_of s) (mem_of s')) →
  map_post self (va0 / 4096) (PERMISSION_U .| need0) s r self' s' →
  same_view s self s' self'.
Proof using Type.
  intros Hi Hi' Hn0 Hsame Hpost need va Hn Hva.
  assert (∀ t pm o, has (areas self) (va / 4096) t pm o → has (areas self') (va / 4096) t pm o →
    user_byte s' self' need va = user_byte s self need va) as Hkeep.
  { intros t pm o Hh Hh'. rewrite (user_byte_has _ _ _ _ _ _ _ Hi Hh), (user_byte_has _ _ _ _ _ _ _ Hi' Hh').
    destruct o as [p|]; [|done]. eapply user_page_byte; [exact Hh|by eapply Hsame]. }
  destruct r as [[]|e]; simpl in Hpost.
  - destruct Hpost as (pm & p & Hh & Hmin & Hval & _ & Hz & Hview).
    destruct (decide (va / 4096 = va0 / 4096)) as [E|Hne].
    + rewrite <- E in Hh.
      assert (has (areas self') (va / 4096) Anonymous pm (Some p)) as Hh' by (apply Hview; left; by split_and!).
      rewrite (user_byte_has _ _ _ _ _ _ _ Hi Hh), (user_byte_has _ _ _ _ _ _ _ Hi' Hh'). simpl.
      destruct (vi_perm _ _ _ _ _ _ Hi Hh) as [Hpm Hev].
      destruct (access_bits need0 pm Hn0 Hpm Hev) as (_ & Hmin0 & _). apply Hmin0 in Hmin as [Hu _].
      destruct (access_bits need pm Hn Hpm Hev) as (_ & Hb & _).
      rewrite Hval, andb_true_r. pose proof (Z.mod_pos_bound va 4096 ltac:(lia)).
      destruct (Z.eqb_spec (need .& pm) need), (Z.eqb_spec ((PERMISSION_U .| need) .& pm) (PERMISSION_U .| need));
        [|tauto..|done]. rewrite Hz; [done|]. unfold page_start, page_end. lia.
    + destruct (has_dec self (va / 4096)) as [(t & pm' & o & Hh')|Hno].
      * apply (Hkeep t pm' o Hh'), Hview. by right.
      * rewrite !user_byte_none; [done|done|]. intros t pm' o [[E _]|[_ Hh']]%Hview; [done|].
        by apply Hno in Hh'.
  - destruct Hpost as [Har _].
    destruct (has_dec self (va / 4096)) as [(t & pm' & o & Hh')|Hno].
    + apply (Hkeep t pm' o Hh'). by rewrite Har.
    + rewrite !user_byte_none; [done|done|]. by rewrite Har.
Qed.

(** Who is undisturbed sees what it saw. *)
Lemma undisturbed_view self s s' : vm_inv self s → undisturbed self s s' → same_view s self s' self.
Proof using Type.
  intros Hi [Hi' _ Hp _] need va Hn Hva.
  destruct (has_dec self (va / 4096)) as [(t & pm & o & Hh)|Hno].
  - rewrite (user_byte_has _ _ _ _ _ _ _ Hi Hh), (user_byte_has _ _ _ _ _ _ _ Hi' Hh).
    destruct o as [p|]; [|done]. eapply user_page_byte; [exact Hh|]. apply Hp. right.
    by exists (va / 4096), t, pm.
  - by rewrite !user_byte_none.
Qed.

(** A fault that fails was an access the task may not make, or memory is used up. *)
Lemma map_post_failed self need va s e self' s' :
  vm_inv self s → is_access need →
  (∀ t pm p, has (areas self) (va / 4096) t pm (Some p) → need .& pm ≠ need) →
  map_post self (va / 4096) (PERMISSION_U .| need) s (Err e) self' s' →
  user_byte s self need va = None ∨ nearly_full s'.
Proof using Type.
  intros Hi Hn Href [_ Hpost]. destruct e as [|v [|f|]|v| |v min| | | | |]; try done.
  - right. by destruct Hpost as [_ Hp].
  - left. destruct Hpost as (_ & Hf & pm & Hh & ->).
    rewrite (user_byte_has _ _ _ _ _ _ _ Hi Hh). simpl. by rewrite Hf, andb_false_r.
  - left. by apply user_byte_none, Hpost.
  - left. destruct Hpost as (_ & _ & pm & o & Hh & Hne).
    rewrite (user_byte_has _ _ _ _ _ _ _ Hi Hh). destruct o as [p|]; simpl.
    + by rewrite (proj2 (Z.eqb_neq _ _) (Href _ _ _ Hh)).
    + by rewrite (proj2 (Z.eqb_neq _ _) Hne).
  - right. exists 0. intros q Hq. by destruct (proj2 Hpost q).
Qed.

(** An area of the task allows user mode the access. *)
Definition entitled self (need va : Z) : Prop :=
  ∃ t pm o, has (areas self) (va / 4096) t pm o ∧
    (PERMISSION_U .| need) .& pm = PERMISSION_U .| need ∧ PTE.is_valid_flags (area_flags pm) = true.

Lemma map_post_unentitled self need va s e self' s' :
  vm_inv self s →
  map_post self (va / 4096) (PERMISSION_U .| need) s (Err e) self' s' →
  ¬ entitled self need va ∨ nearly_full s'.
Proof using Type.
  intros Hi [_ Hpost]. destruct e as [|v [|f|]|v| |v min| | | | |]; try done.
  - right. by destruct Hpost as [_ Hp].
  - left. destruct Hpost as (_ & Hf & pm & Hh & ->). intros (t & pm' & o & Hh' & _ & Hv).
    destruct (has_unique _ _ _ _ _ _ _ _ _ Hi Hh Hh') as (_ & <- & _). congruence.
  - left. intros (t & pm & o & Hh & _). by apply (proj2 Hpost t pm o).
  - left. destruct Hpost as (_ & _ & pm & o & Hh & Hne). intros (t & pm' & o' & Hh' & Hm & _).
    by destruct (has_unique _ _ _ _ _ _ _ _ _ Hi Hh Hh') as (_ & <- & _).
  - right. exists 0. intros q Hq. by destruct (proj2 Hpost q).
Qed.
End view.
