(* ===== verification/KernelTree.v ===== *)
(** * How a page table grows while a range is mapped

    [map_create] and [map_create_large] add tables only along the paths of the pages they
    are asked for.  [map_step] collects what a run of them does to the tree, whatever it
    returns: it composes over a whole range and over several ranges, which is how
    [KernelMap] and [KernelTable] use it. *)

From S2P Require Export Sv39Props.
From stdpp Require Import list.
Open Scope Z_scope.

(** [q] leads to one of the pages in [V]. *)
Definition along (V : Z → Prop) (q : list Z) : Prop := ∃ v, V v ∧ q `prefix_of` vpn_path v.

Lemma along_weaken (V V' : Z → Prop) q : (∀ v, V v → V' v) → along V q → along V' q.
Proof. intros HV (v & Hv & Hq). exists v. auto. Qed.

(** The path of the tables of a page *)
Lemma along_tables (V : Z → Prop) v q :
  V v → q `prefix_of` [v / 2 ^ 18 mod 512; v / 2 ^ 9 mod 512] → along V q.
Proof. intros Hv Hq. exists v. split; [done|]. etrans; [done|]. by exists [v mod 512]. Qed.

Section tree.
Context {S : Type} `{PageSourceLaws S}.
Implicit Types s : S.

(** From [s] to [s'] the pages [new] became tables along the paths of [V], nothing else was
    mapped, and no page was written but the tables. *)
Record map_step (root : Z) (V : Z → Prop) (new : list Z) s s' : Prop := {
  mp_new p : p ∈ new → ps_free s p;
  mp_free p : ps_free s' p ↔ ps_free s p ∧ p ∉ new;
  mp_keep q t : path_ok q →
    node_at (mem_of s) root q = Some t → node_at (mem_of s') root q = Some t;
  mp_node q t : path_ok q → node_at (mem_of s') root q = Some t →
    node_at (mem_of s) root q = Some t ∨ t ∈ new ∧ along V q;
  mp_made p : p ∈ new → ∃ q, path_ok q ∧ along V q ∧ node_at (mem_of s') root q = Some p;
  mp_lookup q : full_path q → is_Some (lookup_at (mem_of s') root q) →
    is_Some (lookup_at (mem_of s) root q) ∨ along V q;
  mp_frame p : not_table (mem_of s') root p → page_same p (mem_of s) (mem_of s');
}.

Lemma map_step_refl root V s : map_step root V [] s s.
Proof. split; [set_solver|set_solver|done|by left|set_solver|by left|done]. Qed.

Lemma map_step_weaken root (V V' : Z → Prop) new s s' :
  (∀ v, V v → V' v) → map_step root V new s s' → map_step root V' new s s'.
Proof.
  intros HV [Hn Hf Hk Hno Hm Hl Hfr]. split; [done|done|done| | | |done].
  - intros q t Hq Ht. destruct (Hno q t Hq Ht) as [?|[? ?]]; [by left|right].
    split; [done|by eapply along_weaken].
  - intros p Hp. destruct (Hm p Hp) as (q & ? & ? & ?). exists q.
    split; [done|]. split; [by eapply along_weaken|done].
  - intros q Hq Hs. destruct (Hl q Hq Hs); [by left|right; by eapply along_weaken].
Qed.

Lemma map_step_trans root V new1 new2 s1 s2 s3 :
  map_step root V new1 s1 s2 → map_step root V new2 s2 s3 →
  map_step root V (new1 ++ new2) s1 s3.
Proof.
  intros [Hn1 Hf1 Hk1 Hno1 Hm1 Hl1 Hfr1] [Hn2 Hf2 Hk2 Hno2 Hm2 Hl2 Hfr2].
  assert (∀ p, not_table (mem_of s3) root p → not_table (mem_of s2) root p) as Hnt.
  { intros p Hp q Hq Ht. by apply (Hp q Hq), Hk2. }
  split.
  - intros p [?|Hp]%elem_of_app; [by apply Hn1|]. apply Hn2, Hf1 in Hp. tauto.
  - intros p. rewrite Hf2, Hf1, elem_of_app. tauto.
  - eauto.
  - intros q t Hq Ht. rewrite elem_of_app.
    destruct (Hno2 q t Hq Ht) as [Ht2|[? ?]]; [|tauto]. destruct (Hno1 q t Hq Ht2); tauto.
  - intros p [Hp|Hp]%elem_of_app; [|by apply Hm2]. destruct (Hm1 p Hp) as (q & ? & ? & ?).
    exists q. auto.
  - intros q Hq Hs. destruct (Hl2 q Hq Hs) as [Hs2|]; [|by right]. auto.
  - intros p Hp. eapply page_same_trans; [apply Hfr1|apply Hfr2]; auto.
Qed.

(** A step of the page table that grew along the path of one page *)
Lemma map_step_grew root V q0 v new s s' :
  pgt_step root (on_path s root q0) new s s' → grew_along root q0 new s s' →
  V v → q0 `prefix_of` [v / 2 ^ 18 mod 512; v / 2 ^ 9 mod 512] →
  (∀ q, full_path q → is_Some (lookup_at (mem_of s') root q) →
    is_Some (lookup_at (mem_of s) root q) ∨ along V q) →
  map_step root V new s s'.
Proof.
  intros [_ _ _ _ Hnew Hfree Hkeep Hinv Hfr] [Hsame Hmade] Hv Hq0 Hl.
  assert (path_ok q0) as Hok0 by (eapply path_ok_prefix_of; [apply (vpn_tables_path_ok v)|done]).
  assert (∀ q, q `prefix_of` q0 → along V q) as Hal
    by (intros q Hq; apply (along_tables V v); [done|by etrans]).
  split; [done|done|done| | |done|].
  - intros q t Hq Ht. destruct (Hinv q t Hq Ht) as [?|Ht']; [by left|].
    destruct (decide (q `prefix_of` q0)) as [Hp|Hnp]; [right; auto|left].
    by rewrite <- Hsame.
  - intros p Hp. destruct (Hmade p Hp) as (q & Hq & Ht). exists q.
    split; [by eapply path_ok_prefix_of|]. auto.
  - intros p Hp. apply Hfr.
    + intros Hin. destruct (Hmade p Hin) as (q & Hq & Ht).
      apply (Hp q); [by eapply path_ok_prefix_of|done].
    + intros (q & Hq & Ht). assert (path_ok q) by (by eapply path_ok_prefix_of).
      by apply (Hp q), Hkeep.
Qed.

(** Whatever [map_create] returns, it only grew along the path of its page. *)
Lemma map_create_step pgt vpn ppn flags s r pgt' s' :
  pgt_inv pgt s → vpn_valid vpn → 0 <= ppn < 2 ^ 44 → is_usize flags →
  Pgt.map_create pgt vpn ppn flags s = Ret (r, pgt') s' →
  ∃ new, pgt' = mk_RootPgt (rp_ppn pgt) (rp_pages pgt ++ new) ∧
    map_step (rp_ppn pgt) (λ v, v = vpn) new s s'.
Proof.
  intros Hi Hv Hp Hu Hrun.
  apply (wp_run _ _ _ _ _ (map_create_wp pgt vpn ppn flags s (pi_ok _ _ Hi) (pi_wf _ _ Hi)
    (pi_fresh _ _ Hi) (vpn_valid_range _ Hv) Hp Hu)) in Hrun
    as (new & -> & _ & Hst & Hgrew & Hr).
  exists new. split; [done|]. eapply (map_step_grew _ _ _ vpn); [exact Hst|exact Hgrew|done|done|].
  intros q Hq Hs. destruct r as [[]|e].
  - destruct Hr as (_ & _ & Hl). rewrite Hl in Hs by done. case_decide as E; [right|by left].
    exists vpn. by rewrite E.
  - destruct Hr as [Hl _]. left. by rewrite <- Hl.
Qed.

(** The pages of the 2 MiB region of [vpn] *)
Definition region (vpn v : Z) : Prop := vpn_valid v ∧ v / 512 = vpn / 512.

Lemma region_path vpn q :
  vpn_valid vpn → full_path q → [vpn / 2 ^ 18 mod 512; vpn / 2 ^ 9 mod 512] `prefix_of` q →
  along (region vpn) q.
Proof.
  intros Hv [Hf Hlen] [z ->]. apply Forall_app in Hf as [_ Hz].
  destruct z as [|i [|]]; [simpl in Hlen; lia| |simpl in Hlen; lia].
  apply Forall_cons in Hz as [Hz _]. unfold idx_ok in Hz.
  assert (vpn_valid (vpn / 512 * 512 + i)) as Hv'.
  { pose proof (Z.div_mod vpn 512 ltac:(lia)). pose proof (Z.mod_pos_bound vpn 512 ltac:(lia)).
    destruct Hv as [Hv|Hv]; [left|right]; lia. }
  exists (vpn / 512 * 512 + i). split; [split; [done|zlia]|].
  exists []. rewrite app_nil_r. cbn [app]. unfold vpn_path. clear Hlen. unfold vpn_valid in *.
  f_equal; [zlia|]. f_equal; [zlia|]. f_equal. zlia.
Qed.

(** The same for [map_create_large] where no last-level table is in its way *)
Lemma map_create_large_step pgt vpn ppn flags s r pgt' s' :
  pgt_inv pgt s → vpn_valid vpn → 0 <= ppn < 2 ^ 44 → is_usize flags →
  PTE.is_leaf flags = true →
  node_at (mem_of s) (rp_ppn pgt) [vpn / 2 ^ 18 mod 512; vpn / 2 ^ 9 mod 512] = None →
  Pgt.map_create_large pgt vpn ppn flags s = Ret (r, pgt') s' →
  ∃ new, pgt' = mk_RootPgt (rp_ppn pgt) (rp_pages pgt ++ new) ∧
    map_step (rp_ppn pgt) (region vpn) new s s'.
Proof.
  intros Hi Hv Hp Hu Hleaf Hnone Hrun.
  apply (wp_run _ _ _ _ _ (map_create_large_wp pgt vpn ppn flags s (pi_ok _ _ Hi) (pi_wf _ _ Hi)
    (pi_fresh _ _ Hi) Hv Hp Hu Hleaf Hnone)) in Hrun as (new & -> & Hst & Hgrew & Hr).
  exists new. split; [done|].
  eapply (map_step_grew _ _ _ vpn); [exact Hst|exact Hgrew|by split|by exists [vpn / 2 ^ 9 mod 512]|].
  intros q Hq Hs. destruct r as [[]|e].
  - destruct Hr as [_ Hl]. rewrite Hl in Hs by done.
    case_decide as E; [right; by apply region_path|by left].
  - destruct Hr as [Hl _]. left. by rewrite <- Hl.
Qed.
End tree.
