(* ===== verification/KernelMap.v ===== *)
(** * The kernel's own address space: the first half of [src/os/src/mm/vm.rs]

    [init_kernel_satp] builds the kernel page table range by range: the devices, the
    sections of the image and the rest of physical memory, the latter with large
    pages where they fit. *)

From S2P Require Export VmSpace KernelTree.
From S2P Require Import PageAlloc.
From stdpp Require Import list.
Open Scope Z_scope.

Module Kernel.
Section ops.
Context {S : Type} `{PageSource S} `{!Has KERNEL_SATP S} `{LinkerSymbols}.

(** A step that may fail: [f(root_pgt)?; g(root_pgt)] *)
Definition and_then (m : M S (result unit VMError * RootPgt))
    (f : RootPgt → M S (result unit VMError * RootPgt)) : M S (result unit VMError * RootPgt) :=
  '(r, root_pgt) ← m;
  match r with
  | Err e => mret (Err e, root_pgt)
  | Ok _ => f root_pgt
  end.

(** [(VPN::from_va(va), PPN::from_pa(get_pa_from_va(va)))] *)
Definition direct_pair (va : Z) : M S (Z * Z) :=
  vpn ← VPN.from_va va;
  pa ← get_pa_from_va va;
  ppn ← PPN.from_pa pa;
  mret (vpn, ppn).

Definition map_kernel_range (root_pgt : RootPgt) (start_va end_va permissions : Z)
    : M S (result unit VMError * RootPgt) :=
  match to_pte_flags permissions with
  | Err e => mret (Err e, root_pgt)
  | Ok pte_flags =>
      try_for_each (range_step start_va end_va PAGE_SIZE_BYTES) (λ va root_pgt,
        '(vpn, ppn) ← direct_pair va;
        '(r, root_pgt) ← Pgt.map_create root_pgt vpn ppn pte_flags;
        mret (map_err (VMPgtError vpn) r, root_pgt)) root_pgt
  end.

Definition map_kernel_range_large (root_pgt : RootPgt) (start_va end_va permissions : Z)
    : M S (result unit VMError * RootPgt) :=
  assert_or (0 =? start_va .& (LARGE_PAGE_SIZE_BYTES ⊖ 1))
    "start_va must be aligned to the large page size";;
  assert_or (0 =? end_va .& (LARGE_PAGE_SIZE_BYTES ⊖ 1))
    "end_va must be aligned to the large page size";;
  match to_pte_flags permissions with
  | Err e => mret (Err e, root_pgt)
  | Ok pte_flags =>
      try_for_each (range_step start_va end_va LARGE_PAGE_SIZE_BYTES) (λ va root_pgt,
        '(vpn, ppn) ← direct_pair va;
        '(r, root_pgt) ← Pgt.map_create_large root_pgt vpn ppn pte_flags;
        mret (map_err (VMPgtError vpn) r, root_pgt)) root_pgt
  end.

Definition map_virt_mmio (root_pgt : RootPgt) : M S (result unit VMError * RootPgt) :=
  try_for_each QEMU_VIRT_MMIO (λ '(start_pa, size) root_pgt,
    start_va ← get_va_from_pa start_pa;
    end_va ← get_va_from_pa (start_pa ⊕ size);
    map_kernel_range root_pgt start_va end_va (PERMISSION_R .| PERMISSION_W)) root_pgt.

Definition map_kernel_text (root_pgt : RootPgt) : M S (result unit VMError * RootPgt) :=
  map_kernel_range root_pgt text_start text_end (PERMISSION_R .| PERMISSION_X).
Definition map_kernel_stack (root_pgt : RootPgt) : M S (result unit VMError * RootPgt) :=
  map_kernel_range root_pgt kernel_stack_start kernel_stack_end (PERMISSION_R .| PERMISSION_W).
Definition map_kernel_rodata (root_pgt : RootPgt) : M S (result unit VMError * RootPgt) :=
  map_kernel_range root_pgt rodata_start rodata_end PERMISSION_R.
Definition map_kernel_data (root_pgt : RootPgt) : M S (result unit VMError * RootPgt) :=
  map_kernel_range root_pgt data_start data_end (PERMISSION_R .| PERMISSION_W).
Definition map_kernel_bss (root_pgt : RootPgt) : M S (result unit VMError * RootPgt) :=
  map_kernel_range root_pgt bss_start bss_end (PERMISSION_R .| PERMISSION_W).

Definition compute_phy_mem_page_start (kernel_end : Z) : Z :=
  if kernel_end .& (PAGE_SIZE_BYTES ⊖ 1) =? 0 then kernel_end
  else (kernel_end ⊖ (kernel_end .& (PAGE_SIZE_BYTES ⊖ 1))) ⊕ PAGE_SIZE_BYTES.
Definition compute_phy_mem_large_page_start (kernel_end : Z) : Z :=
  if kernel_end .& (LARGE_PAGE_SIZE_BYTES ⊖ 1) =? 0 then kernel_end
  else (kernel_end ⊖ (kernel_end .& (LARGE_PAGE_SIZE_BYTES ⊖ 1))) ⊕ LARGE_PAGE_SIZE_BYTES.
Definition compute_phy_mem_large_page_end (phy_mem_end : Z) : Z :=
  if phy_mem_end .& (LARGE_PAGE_SIZE_BYTES ⊖ 1) =? 0 then phy_mem_end
  else phy_mem_end ⊖ (phy_mem_end .& (LARGE_PAGE_SIZE_BYTES ⊖ 1)).

Definition map_phys_mem (root_pgt : RootPgt) : M S (result unit VMError * RootPgt) :=
  let permissions := PERMISSION_R .| PERMISSION_W in
  let start_va := compute_phy_mem_page_start kernel_end in
  end_va ← get_va_from_pa (MEM_START_PA ⊕ MEM_SIZE_BYTES);
  let large_start_va := compute_phy_mem_large_page_start start_va in
  let large_end_va := compute_phy_mem_large_page_end end_va in
  if large_end_va <=? large_start_va then
    map_kernel_range root_pgt start_va end_va permissions
  else
    and_then (map_kernel_range root_pgt start_va large_start_va permissions) (λ root_pgt,
    and_then (map_kernel_range_large root_pgt large_start_va large_end_va permissions) (λ root_pgt,
    map_kernel_range root_pgt large_end_va end_va permissions)).

(** On an error the root table is dropped with all its pages. *)
Definition init_kernel_satp : M S (result unit VMError) :=
  r ← Pgt.new;
  match map_err CreateRootPgtFailed r with
  | Err e => mret (Err e)
  | Ok root_pgt =>
      '(r, root_pgt) ← and_then (map_virt_mmio root_pgt) (λ root_pgt,
        and_then (map_kernel_text root_pgt) (λ root_pgt,
        and_then (map_kernel_stack root_pgt) (λ root_pgt,
        and_then (map_kernel_rodata root_pgt) (λ root_pgt,
        and_then (map_kernel_data root_pgt) (λ root_pgt,
        and_then (map_kernel_bss root_pgt) map_phys_mem)))));
      match r with
      | Err e => Space.drop_pages (rp_pages root_pgt);; mret (Err e)
      | Ok _ =>
          let satp := Pgt.get_satp root_pgt in
          modify (upd (satp : KERNEL_SATP));;
          Pgt.forget_self root_pgt;;
          mret (Ok tt)
      end
  end.

(** [csrw satp, ..; sfence.vma] *)
Definition activate_kernel_space `{!Has csrs S} : M S unit :=
  satp ← Space.get_kernel_satp;
  lift (csrw 0x180 satp).
End ops.
End Kernel.

(** ** Rounding *)

Lemma page_mask_eq x : x .& (PAGE_SIZE_BYTES ⊖ 1) = x mod 4096.
Proof. change (PAGE_SIZE_BYTES ⊖ 1) with (2 ^ 12 - 1). by rewrite (land_mask x 12). Qed.
Lemma large_mask_eq x : x .& (LARGE_PAGE_SIZE_BYTES ⊖ 1) = x mod 2 ^ 21.
Proof. change (LARGE_PAGE_SIZE_BYTES ⊖ 1) with (2 ^ 21 - 1). by rewrite (land_mask x 21). Qed.

Lemma page_start_aligned x : x mod 4096 = 0 → Kernel.compute_phy_mem_page_start x = x.
Proof. intros Hx. unfold Kernel.compute_phy_mem_page_start. by rewrite page_mask_eq, Hx. Qed.

Lemma large_bounds x :
  0 <= x <= USIZE_MAX - 2 ^ 21 →
  let lo := Kernel.compute_phy_mem_large_page_start x in lo mod 2 ^ 21 = 0 ∧ x <= lo < x + 2 ^ 21.
Proof.
  intros Hx. unfold Kernel.compute_phy_mem_large_page_start. rewrite large_mask_eq, large_page_size_eq.
  unfold USIZE_MAX in Hx. case_match; reflect_bools; [zlia|].
  rewrite usub_small by (unfold USIZE_MODULUS; zlia).
  rewrite uadd_small by (unfold USIZE_MODULUS; zlia). zlia.
Qed.

(** C33: the three bounds of the physical-memory mapping: the page start rounds the
    end of the kernel up to 4 KiB, the large start rounds up to 2 MiB and the large
    end rounds down, each by less than one page, and none of them wraps around. *)
Theorem phys_mem_bounds x :
  0 <= x <= USIZE_MAX - 2 ^ 21 →
  let page := Kernel.compute_phy_mem_page_start x in
  let lo := Kernel.compute_phy_mem_large_page_start x in
  let hi := Kernel.compute_phy_mem_large_page_end x in
  (page mod 2 ^ 12 = 0 ∧ x <= page < x + 2 ^ 12) ∧
  (lo mod 2 ^ 21 = 0 ∧ x <= lo < x + 2 ^ 21) ∧
  (hi mod 2 ^ 21 = 0 ∧ x - 2 ^ 21 < hi <= x).
Proof.
  unfold USIZE_MAX. intros Hx. unfold Kernel.compute_phy_mem_page_start,
    Kernel.compute_phy_mem_large_page_start, Kernel.compute_phy_mem_large_page_end.
  rewrite page_mask_eq, large_mask_eq, page_size_eq, large_page_size_eq.
  rewrite !(usub_small x) by (unfold USIZE_MODULUS; zlia).
  rewrite !uadd_small by (unfold USIZE_MODULUS; zlia).
  split_and!; repeat case_match; reflect_bools; zlia.
Qed.

Lemma phys_mem_bounds_witness :
  Kernel.compute_phy_mem_large_page_start 0xffffffc080706000 mod 2 ^ 21 = 0.
Proof.
  assert (0 <= 0xffffffc080706000 <= USIZE_MAX - 2 ^ 21) as H by (unfold USIZE_MAX; lia).
  apply (phys_mem_bounds 0xffffffc080706000 H).
Defined.

(** ** Ranges *)
Section range.
Context {S : Type} `{PageSourceLaws S}.
Implicit Types (s : S) (root_pgt : RootPgt).

(** An address of the kernel half below the end of the direct map *)
Definition direct_va (va : Z) : Prop := KERNEL_VA_OFFSET <= va < USIZE_MODULUS.

Lemma direct_pair_run va s :
  direct_va va → Kernel.direct_pair va s = Ret (va / 4096, (va - KERNEL_VA_OFFSET) / 4096) s.
Proof using Type.
  unfold direct_va, KERNEL_VA_OFFSET, USIZE_MODULUS. intros Hva.
  unfold Kernel.direct_pair, mbind, M_bind.
  rewrite from_va_run by (unfold is_usize, USIZE_MODULUS; lia).
  unfold get_pa_from_va, checked_sub, KERNEL_VA_OFFSET.
  destruct (Z.leb_spec 0xffffffc000000000 va); [|lia]. cbn [expect].
  unfold mret, M_ret. rewrite from_pa_run by lia. done.
Qed.

(** The direct map of the addresses in [l], over what the table was *)
Definition direct_mapped (l : list Z) (size : Z) (flags : Z) (root : Z) s s' : Prop :=
  ∀ va, is_usize va →
    mmu_translate (mem_of s') root va =
      if decide (va - va mod size ∈ l) then Some (va - KERNEL_VA_OFFSET, flags)
      else mmu_translate (mem_of s) root va.

(** The page table [pgt] of [s'] has grown from [root_pgt] along the paths of [V]. *)
Definition ranged (V : Z → Prop) root_pgt s pgt s' : Prop := ∃ new,
  pgt = mk_RootPgt (rp_ppn root_pgt) (rp_pages root_pgt ++ new) ∧
  pgt_inv pgt s' ∧ map_step (rp_ppn root_pgt) V new s s'.

Lemma ranged_refl V root_pgt s : pgt_inv root_pgt s → ranged V root_pgt s root_pgt s.
Proof.
  intros Hi. exists []. destruct root_pgt. simpl in *. rewrite app_nil_r.
  split_and!; [done|done|apply map_step_refl].
Qed.

Lemma ranged_weaken (V V' : Z → Prop) root_pgt s pgt s' :
  (∀ v, V v → V' v) → ranged V root_pgt s pgt s' → ranged V' root_pgt s pgt s'.
Proof.
  intros HV (new & ? & ? & ?). exists new. split_and!; [done..|]. by eapply map_step_weaken.
Qed.

Lemma ranged_trans V root_pgt s pgt1 s1 pgt2 s2 :
  ranged V root_pgt s pgt1 s1 → ranged V pgt1 s1 pgt2 s2 → ranged V root_pgt s pgt2 s2.
Proof.
  intros (new1 & -> & _ & Hs1) (new2 & -> & Hi & Hs2). exists (new1 ++ new2). simpl in *.
  rewrite app_assoc. split_and!; [done|done|by eapply map_step_trans].
Qed.

(** The pages of the addresses in [l], mapped by the page and by the region *)
Definition pages_of (l : list Z) (v : Z) : Prop := ∃ va, va ∈ l ∧ v = va / 4096.
Definition regions_of (l : list Z) (v : Z) : Prop := ∃ va, va ∈ l ∧ region (va / 4096) v.
Definition in_range (start_va end_va v : Z) : Prop := start_va / 4096 <= v ∧ v * 4096 < end_va.

Lemma in_range_page start_va end_va va :
  start_va <= va < end_va → in_range start_va end_va (va / 4096).
Proof using Type.
  intros Hva. split; [apply Z.div_le_mono; lia|]. pose proof (Z.mul_div_le va 4096). lia.
Qed.

(** Why a range is not mapped: no page is left, or a page of it was mapped before. *)
Definition range_error (start_va end_va root : Z) s (e : VMError) s' : Prop :=
  ∃ vpn, in_range start_va end_va vpn ∧
    ((e = VMPgtError vpn AcquirePageFailed ∧ ∀ p, ¬ ps_free s' p) ∨
     ∃ ppn, e = VMPgtError vpn (DoubleMapping vpn ppn) ∧
       is_Some (pgt_lookup (mem_of s) root vpn)).

(** The next address of a range that has been handled up to [done] *)
Lemma range_step_next start_va end_va size done va todo :
  0 < size → start_va mod size = 0 → range_step start_va end_va size = done ++ va :: todo →
  (∀ x, x ∈ done ++ [va] → start_va <= x < end_va ∧ x mod size = 0) ∧ va ∉ done.
Proof using Type.
  intros Hsize Hal Hl. split.
  - intros x Hx. assert (x ∈ range_step start_va end_va size) as [? Hm]%elem_of_range_step
      by (rewrite ?Hl, ?elem_of_app, ?elem_of_cons in *; set_solver || done); [|done].
    split; [done|]. replace x with ((x - start_va) + start_va) by lia.
    by rewrite Z.add_mod, Hm, Hal by lia.
  - pose proof (NoDup_range_step start_va end_va size Hsize) as Hnd. rewrite Hl in Hnd.
    apply NoDup_app in Hnd as (_ & Hnd & _). intros Hva. apply (Hnd va Hva). by left.
Qed.

(** The loop of [map_kernel_range]: [done] is mapped. *)
Definition mapped_pages root_pgt flags s (done : list Z) pgt s' : Prop :=
  ranged (pages_of done) root_pgt s pgt s' ∧
  direct_mapped done 4096 flags (rp_ppn root_pgt) s s'.

(** A page not yet reached is mapped only if it was before. *)
Lemma unreached (V : Z → Prop) root_pgt s pgt s' v :
  ranged V root_pgt s pgt s' → vpn_valid v → (∀ v', V v' → vpn_valid v' ∧ v' ≠ v) →
  is_Some (pgt_lookup (mem_of s') (rp_ppn root_pgt) v) →
  is_Some (pgt_lookup (mem_of s) (rp_ppn root_pgt) v).
Proof.
  intros (new & _ & _ & Hst) Hv Hne Hs. destruct (mp_lookup _ _ _ _ _ Hst _ (vpn_path_full v) Hs)
    as [?|(v' & Hv' & Hp)]; [done|].
  destruct (Hne v' Hv') as [Hvv' Hn]. destruct Hp as [z Hz]. exfalso. apply Hn.
  symmetry. apply vpn_path_valid_inj; [done..|].
  apply (f_equal length) in Hz as Hlen. rewrite length_app in Hlen. simpl in Hlen.
  destruct z; [|simpl in Hlen; lia]. by rewrite app_nil_r in Hz.
Qed.

(** A page-aligned address of a range of the kernel half *)
Lemma direct_page start_va end_va va :
  KERNEL_VA_OFFSET <= start_va → end_va <= USIZE_MODULUS → start_va <= va < end_va →
  vpn_valid (va / 4096) ∧ 0 <= (va - KERNEL_VA_OFFSET) / 4096 < 2 ^ 44.
Proof using Type.
  unfold vpn_valid, KERNEL_VA_OFFSET, USIZE_MODULUS. intros. split; [right; zlia|zlia].
Qed.

Lemma mapped_pages_step root_pgt start_va end_va flags done va todo s pgt s1 r pgt' s2 :
  start_va mod 4096 = 0 → KERNEL_VA_OFFSET <= start_va → end_va <= USIZE_MODULUS →
  is_usize flags → leaf_flags flags →
  range_step start_va end_va 4096 = done ++ va :: todo →
  mapped_pages root_pgt flags s done pgt s1 →
  Pgt.map_create pgt (va / 4096) ((va - KERNEL_VA_OFFSET) / 4096) flags s1 = Ret (r, pgt') s2 →
  match r with
  | Ok _ => mapped_pages root_pgt flags s (done ++ [va]) pgt' s2
  | Err e => ranged (in_range start_va end_va) root_pgt s pgt' s2 ∧
      range_error start_va end_va (rp_ppn root_pgt) s (VMPgtError (va / 4096) e) s2
  end.
Proof using Type.
  intros Hal Hlo Hhi Hu Hf Hl [Hr Hd] Hrun.
  destruct (range_step_next _ _ 4096 _ _ _ ltac:(done) Hal Hl) as [Hin Hnew].
  destruct (Hin va) as [Hva Hva0]; [set_solver|].
  destruct (direct_page start_va end_va va Hlo Hhi Hva) as [Hv Hp].
  pose proof Hr as (new1 & -> & Hi1 & Hst1).
  destruct (map_create_step _ _ _ _ _ _ _ _ Hi1 Hv Hp Hu Hrun) as (new2 & -> & Hst2).
  pose proof (wp_run _ _ _ _ _ (map_create_inv _ _ _ _ _ Hi1 Hv Hp Hu) Hrun)
    as (new & Enew & _ & Hi2 & _ & _ & Hres). simpl in *.
  assert (ranged (pages_of (done ++ [va])) root_pgt s
    (mk_RootPgt (rp_ppn root_pgt) ((rp_pages root_pgt ++ new1) ++ new2)) s2) as Hr2.
  { eapply ranged_trans; [eapply ranged_weaken; [|exact Hr]|].
    - intros v (x & Hx & ->). exists x. split; [set_solver|done].
    - exists new2. simpl. split_and!; [done|done|]. eapply map_step_weaken; [|exact Hst2].
      intros v ->. exists va. split; [set_solver|done]. }
  destruct r as [[]|e].
  - split; [done|]. intros va' Hva'.
    pose proof (map_create_mmu _ _ _ _ _ _ _ Hi1 Hv Hp Hu Hf Hrun va' Hva') as Hm.
    simpl in Hm. rewrite Hm, (Hd va' Hva').
    destruct (decide (va' / 4096 = va / 4096 ∧ VPN.is_valid_va va' = true)) as [[E _]|Hne].
    + rewrite decide_True by (rewrite elem_of_app, list_elem_of_singleton; right; zlia).
      f_equal. f_equal. unfold KERNEL_VA_OFFSET. zlia.
    + assert (va' - va' mod 4096 ≠ va) as Hne'.
      { intros E. apply Hne. split; [zlia|]. apply is_valid_va_cases; [done|].
        unfold KERNEL_VA_OFFSET in *. zlia. }
      assert (va' - va' mod 4096 ∈ done ++ [va] ↔ va' - va' mod 4096 ∈ done)
        by (rewrite elem_of_app, list_elem_of_singleton; tauto).
      repeat case_decide; tauto.
  - split.
    { eapply ranged_weaken; [|exact Hr2]. intros v (x & Hx & ->). destruct (Hin x Hx).
      by apply in_range_page. }
    exists (va / 4096). split; [by apply in_range_page|].
    destruct Hres as [_ Hres]. destruct e as [|f|v p].
    + left. split; [done|]. apply Hres.
    + destruct Hres as [_ Hres]. by destruct Hf as [Hf _]; rewrite Hf in Hres.
    + right. destruct Hres as (-> & -> & Hs). eexists. split; [done|].
      eapply (unreached _ _ _ _ _ _ Hr Hv); [|exact Hs]. intros v' (x & Hx & ->).
      destruct (Hin x) as [Hx1 Hx0]; [set_solver|].
      destruct (direct_page start_va end_va x Hlo Hhi Hx1) as [? _]. split; [done|].
      intros E. apply Hnew. by replace va with x by zlia.
Qed.

Lemma map_kernel_range_wp root_pgt start_va end_va pm flags s :
  pgt_inv root_pgt s → start_va mod 4096 = 0 →
  KERNEL_VA_OFFSET <= start_va → end_va <= USIZE_MODULUS →
  to_pte_flags pm = Ok flags → is_usize flags → leaf_flags flags →
  wp (Kernel.map_kernel_range root_pgt start_va end_va pm) (λ '(r, pgt) s',
    ranged (in_range start_va end_va) root_pgt s pgt s' ∧
    match r with
    | Ok _ =>
        direct_mapped (range_step start_va end_va 4096) 4096 flags (rp_ppn root_pgt) s s'
    | Err e => range_error start_va end_va (rp_ppn root_pgt) s e s'
    end) s.
Proof using Type.
  intros Hi Hal Hlo Hhi Hpm Hu Hf. unfold Kernel.map_kernel_range. rewrite Hpm, page_size_eq.
  eapply wp_mono; [apply (wp_try_for_each _ _ (mapped_pages root_pgt flags s)
    (λ e pgt s', ranged (in_range start_va end_va) root_pgt s pgt s' ∧
       range_error start_va end_va (rp_ppn root_pgt) s e s'))|].
  - split; [by apply ranged_refl|]. intros va _. by rewrite decide_False by set_solver.
  - intros done va todo pgt s1 Hl Hm.
    assert (va ∈ range_step start_va end_va 4096) as [Hva Hvm]%elem_of_range_step
      by (rewrite ?Hl; set_solver || done); [|done].
    wp_step. eapply wp_intro; [apply direct_pair_run; unfold direct_va; lia|]. cbv beta iota. wp_step.
    destruct (direct_page start_va end_va va Hlo Hhi Hva) as [Hv Hp].
    pose proof Hm as [(new & Epgt & Hi1 & _) _].
    destruct (wp_returns _ _ _ (map_create_inv pgt _ _ flags s1 Hi1 Hv Hp Hu))
      as ([r pgt'] & s2 & Hrun & _).
    pose proof (mapped_pages_step _ _ _ _ _ _ _ _ _ _ _ _ _ Hal Hlo Hhi Hu Hf Hl Hm Hrun) as Hstep.
    eapply wp_intro; [exact Hrun|]. cbv beta iota. wp_step. by destruct r as [[]|e].
  - intros [[[]|e] pgt] s' [Hr Hd]; (split; [|done]); [|done].
    eapply ranged_weaken; [|exact Hr]. intros v (va & Hva & ->).
    apply elem_of_range_step in Hva as [? ?]; [|done]. by apply in_range_page.
Qed.

(** The loop of [map_kernel_range_large] *)
Definition mapped_regions root_pgt flags s (done : list Z) pgt s' : Prop :=
  ranged (regions_of done) root_pgt s pgt s' ∧
  (∀ q, path_ok q → length q = 2%nat →
     node_at (mem_of s') (rp_ppn root_pgt) q = node_at (mem_of s) (rp_ppn root_pgt) q) ∧
  direct_mapped done (2 ^ 21) flags (rp_ppn root_pgt) s s'.

(** No last-level table is in the way of the range. *)
Definition no_tables (start_va end_va root : Z) s : Prop :=
  ∀ va, start_va <= va < end_va →
    node_at (mem_of s) root [va / 4096 / 2 ^ 18 mod 512; va / 4096 / 2 ^ 9 mod 512] = None.

(** The pages of a 2 MiB region that starts in an aligned range *)
Lemma region_in_range start_va end_va va v :
  start_va mod 2 ^ 21 = 0 → end_va mod 2 ^ 21 = 0 → KERNEL_VA_OFFSET <= start_va →
  start_va <= va < end_va → va mod 2 ^ 21 = 0 → region (va / 4096) v → in_range start_va end_va v.
Proof using Type.
  intros Hs He Hlo Hva Hm [_ Hr]. unfold in_range, KERNEL_VA_OFFSET in *. split; [zlia|].
  assert (va + 2 ^ 21 <= end_va) by zlia. zlia.
Qed.

Lemma mapped_regions_step root_pgt start_va end_va flags done va todo s pgt s1 r pgt' s2 :
  start_va mod 2 ^ 21 = 0 → end_va mod 2 ^ 21 = 0 →
  KERNEL_VA_OFFSET <= start_va → end_va <= USIZE_MODULUS →
  is_usize flags → leaf_flags flags → PTE.is_leaf flags = true →
  no_tables start_va end_va (rp_ppn root_pgt) s →
  range_step start_va end_va (2 ^ 21) = done ++ va :: todo →
  mapped_regions root_pgt flags s done pgt s1 →
  Pgt.map_create_large pgt (va / 4096) ((va - KERNEL_VA_OFFSET) / 4096) flags s1 =
    Ret (r, pgt') s2 →
  match r with
  | Ok _ => mapped_regions root_pgt flags s (done ++ [va]) pgt' s2
  | Err e => ranged (in_range start_va end_va) root_pgt s pgt' s2 ∧
      range_error start_va end_va (rp_ppn root_pgt) s (VMPgtError (va / 4096) e) s2
  end.
Proof using Type.
  intros Hal Hal2 Hlo Hhi Hu Hf Hleaf Hno Hl (Hr & Hnode & Hd) Hrun.
  destruct (range_step_next _ _ (2 ^ 21) _ _ _ ltac:(done) Hal Hl) as [Hin Hnew].
  destruct (Hin va) as [Hva Hva0]; [set_solver|].
  destruct (direct_page start_va end_va va Hlo Hhi Hva) as [Hv Hp].
  pose proof Hr as (new1 & -> & Hi1 & Hst1).
  set (pgt := mk_RootPgt (rp_ppn root_pgt) (rp_pages root_pgt ++ new1)) in *.
  assert (node_at (mem_of s1) (rp_ppn pgt)
    [va / 4096 / 2 ^ 18 mod 512; va / 4096 / 2 ^ 9 mod 512] = None) as Hnone.
  { cbn [rp_ppn pgt]. rewrite Hnode by (done || apply vpn_tables_path_ok). by apply Hno. }
  destruct (map_create_large_step _ _ _ _ _ _ _ _ Hi1 Hv Hp Hu Hleaf Hnone Hrun)
    as (new2 & -> & Hst2).
  pose proof (wp_run _ _ _ _ _ (map_create_large_wp pgt _ _ flags s1 (pi_ok _ _ Hi1) (pi_wf _ _ Hi1)
    (pi_fresh _ _ Hi1) Hv Hp Hu Hleaf Hnone) Hrun) as (new & Enew & Hpst & Hgrew & Hres).
  pose proof (pgt_inv_step _ _ _ _ _ Hi1 Hpst) as Hi2. injection Enew as Enew.
  apply (app_inv_head (rp_pages pgt)) in Enew as <-.
  assert (ranged (regions_of (done ++ [va])) root_pgt s
    (mk_RootPgt (rp_ppn root_pgt) ((rp_pages root_pgt ++ new1) ++ new2)) s2) as Hr2.
  { eapply ranged_trans; [eapply ranged_weaken; [|exact Hr]|].
    - intros v (x & Hx & ?). exists x. split; [set_solver|done].
    - exists new2. simpl. split_and!; [done|done|]. eapply map_step_weaken; [|exact Hst2].
      intros v ?. exists va. split; [set_solver|done]. }
  destruct r as [[]|e].
  - destruct (map_create_large_mmu _ _ _ _ _ _ _ Hi1 Hv Hp Hu Hf Hleaf Hnone Hrun)
      as (_ & Hnode2 & Hm). cbn [rp_ppn pgt] in Hnode2, Hm.
    split; [done|]. split; [intros q Hq Hlen; by rewrite Hnode2, Hnode|].
    intros va' Hva'. rewrite Hm, Hd by done.
    set (ppn := (va - KERNEL_VA_OFFSET) / 4096) in *.
    assert (large_base ppn * 4096 = va - KERNEL_VA_OFFSET) as Ebase
      by (unfold large_base, ppn, KERNEL_VA_OFFSET in *; zlia).
    destruct (decide (va' / 2 ^ 21 = va / 4096 / 512 ∧ VPN.is_valid_va va' = true))
      as [[E _]|Hne].
    + rewrite decide_True by (rewrite elem_of_app, list_elem_of_singleton; right; zlia).
      rewrite Ebase. f_equal. f_equal. zlia.
    + assert (va' - va' mod 2 ^ 21 ≠ va) as Hne'.
      { intros E. apply Hne. split; [zlia|]. apply is_valid_va_cases; [done|].
        unfold KERNEL_VA_OFFSET in *. zlia. }
      assert (va' - va' mod 2 ^ 21 ∈ done ++ [va] ↔ va' - va' mod 2 ^ 21 ∈ done)
        by (rewrite elem_of_app, list_elem_of_singleton; tauto).
      repeat case_decide; tauto.
  - split.
    { eapply ranged_weaken; [|exact Hr2]. intros v (x & Hx & Hxv). destruct (Hin x Hx).
      by eapply (region_in_range _ _ x). }
    exists (va / 4096). split; [by apply in_range_page|].
    destruct Hres as [_ Hres]. destruct e as [|f|v p].
    + left. split; [done|]. apply Hres.
    + destruct Hres as (_ & Hres & _). by destruct Hf as [Hf _]; rewrite Hf in Hres.
    + right. destruct Hres as (_ & -> & -> & Hs). eexists. split.
      { do 2 f_equal. unfold large_base. zlia. }
      eapply (unreached _ _ _ _ _ _ Hr Hv); [|exact Hs]. intros v' (x & Hx & Hvv & Hxv).
      destruct (Hin x) as [Hx1 Hx0]; [set_solver|]. split; [done|].
      intros ->. apply Hnew. by replace va with x by zlia.
Qed.

Lemma map_kernel_range_large_wp root_pgt start_va end_va pm flags s :
  pgt_inv root_pgt s → start_va mod 2 ^ 21 = 0 → end_va mod 2 ^ 21 = 0 →
  KERNEL_VA_OFFSET <= start_va → end_va <= USIZE_MODULUS →
  to_pte_flags pm = Ok flags → is_usize flags → leaf_flags flags → PTE.is_leaf flags = true →
  no_tables start_va end_va (rp_ppn root_pgt) s →
  wp (Kernel.map_kernel_range_large root_pgt start_va end_va pm) (λ '(r, pgt) s',
    ranged (in_range start_va end_va) root_pgt s pgt s' ∧
    match r with
    | Ok _ =>
        direct_mapped (range_step start_va end_va (2 ^ 21)) (2 ^ 21) flags (rp_ppn root_pgt) s s'
    | Err e => range_error start_va end_va (rp_ppn root_pgt) s e s'
    end) s.
Proof using Type.
  intros Hi Hal Hal2 Hlo Hhi Hpm Hu Hf Hleaf Hno. unfold Kernel.map_kernel_range_large.
  rewrite !large_mask_eq, Hal, Hal2, Hpm. wp_step. apply wp_assert; [done|].
  wp_step. apply wp_assert; [done|]. rewrite large_page_size_eq. change 2097152 with (2 ^ 21).
  eapply wp_mono; [apply (wp_try_for_each _ _ (mapped_regions root_pgt flags s)
    (λ e pgt s', ranged (in_range start_va end_va) root_pgt s pgt s' ∧
       range_error start_va end_va (rp_ppn root_pgt) s e s'))|].
  - split; [by apply ranged_refl|]. split; [done|]. intros va _. by rewrite decide_False by set_solver.
  - intros done va todo pgt s1 Hl Hm.
    destruct (range_step_next _ _ (2 ^ 21) _ _ _ ltac:(done) Hal Hl) as [Hin _].
    destruct (Hin va) as [Hva Hva0]; [set_solver|].
    wp_step. eapply wp_intro; [apply direct_pair_run; unfold direct_va; lia|]. cbv beta iota. wp_step.
    destruct (direct_page start_va end_va va Hlo Hhi Hva) as [Hv Hp].
    pose proof Hm as [(new & -> & Hi1 & _) [Hnode _]].
    set (pgt := mk_RootPgt (rp_ppn root_pgt) (rp_pages root_pgt ++ new)) in *.
    assert (node_at (mem_of s1) (rp_ppn pgt)
      [va / 4096 / 2 ^ 18 mod 512; va / 4096 / 2 ^ 9 mod 512] = None) as Hnone.
    { cbn [rp_ppn pgt]. rewrite Hnode by (done || apply vpn_tables_path_ok). by apply Hno. }
    destruct (wp_returns _ _ _ (map_create_large_wp pgt _ _ flags s1 (pi_ok _ _ Hi1) (pi_wf _ _ Hi1)
      (pi_fresh _ _ Hi1) Hv Hp Hu Hleaf Hnone)) as ([r pgt'] & s2 & Hrun & _).
    pose proof (mapped_regions_step _ _ _ _ _ _ _ _ _ _ _ _ _ Hal Hal2 Hlo Hhi Hu Hf Hleaf Hno Hl Hm
      Hrun) as Hstep.
    eapply wp_intro; [exact Hrun|]. cbv beta iota. wp_step. by destruct r as [[]|e].
  - intros [[[]|e] pgt] s' H'; [destruct H' as (Hr & _ & Hd)|done]. split; [|done].
    eapply ranged_weaken; [|exact Hr]. intros v (va & Hva & Hv).
    apply elem_of_range_step in Hva as [? ?]; [|done].
    eapply (region_in_range _ _ va); [done..| |done]. zlia.
Qed.
End range.

(** [map_kernel_range] direct-maps a page-aligned range: on success the hardware
    translates every address of every page the range touches to the address minus
    [KERNEL_VA_OFFSET] with the permissions given and leaves every other address
    alone; it fails only at a page of the range, because that page is mapped already
    or no page is left for a table. *)
Theorem map_kernel_range_correct {S : Type} `{PageSourceLaws S}
    root_pgt start_va end_va pm flags (s : S) :
  pgt_inv root_pgt s → start_va mod 4096 = 0 →
  KERNEL_VA_OFFSET <= start_va → end_va <= USIZE_MODULUS →
  to_pte_flags pm = Ok flags → is_usize flags → leaf_flags flags →
  ∃ r root_pgt' s', Kernel.map_kernel_range root_pgt start_va end_va pm s = Ret (r, root_pgt') s' ∧
    pgt_inv root_pgt' s' ∧ rp_ppn root_pgt' = rp_ppn root_pgt ∧
    match r with
    | Ok _ => ∀ va, is_usize va →
        mmu_translate (mem_of s') (rp_ppn root_pgt) va =
          if decide (start_va <= va - va mod 4096 < end_va)
          then Some (va - KERNEL_VA_OFFSET, flags)
          else mmu_translate (mem_of s) (rp_ppn root_pgt) va
    | Err e => range_error start_va end_va (rp_ppn root_pgt) s e s'
    end.
Proof.
  intros Hi Hal Hlo Hhi Hpm Hu Hf.
  destruct (wp_returns _ _ _ (map_kernel_range_wp root_pgt start_va end_va pm flags s
    Hi Hal Hlo Hhi Hpm Hu Hf)) as ([r pgt] & s' & Hrun & (new & -> & Hi' & _) & Hr).
  exists r, (mk_RootPgt (rp_ppn root_pgt) (rp_pages root_pgt ++ new)), s'.
  split_and!; [done..|]. destruct r as [[]|e]; [|done].
  intros va Hva. rewrite Hr by done. apply decide_ext. rewrite elem_of_range_step by done.
  split; [tauto|]. intros ?. split; [done|zlia].
Qed.

Lemma map_kernel_range_correct_witness :
  ∃ root_pgt' s',
    Kernel.map_kernel_range sample_pgt 0xffffffc000100000 0xffffffc000102000 0xa sample_pgt_mm =
      Ret (Ok tt, root_pgt') s' ∧
    mmu_translate (mm_mem s') 0x80706 0xffffffc000101234 = Some (0x101234, 0xb).
Proof.
  destruct (ran_ok_inv (Kernel.map_kernel_range sample_pgt 0xffffffc000100000
    0xffffffc000102000 0xa sample_pgt_mm)) as ([] & p & s' & Hr); [vm_compute; reflexivity|].
  exists p, s'. split; [exact Hr|].
  destruct (@map_kernel_range_correct MM _ _ (@page_source_laws_MM sample_symbols)
    sample_pgt 0xffffffc000100000 0xffffffc000102000 0xa 0xb sample_pgt_mm sample_pgt_ok)
    as (r & p' & s2 & Hr' & _ & _ & Hm).
  - reflexivity.
  - unfold KERNEL_VA_OFFSET. lia.
  - unfold USIZE_MODULUS. lia.
  - reflexivity.
  - vm_compute. split; congruence.
  - split; [reflexivity|]. vm_compute. congruence.
  - rewrite Hr in Hr'. injection Hr' as <- <- <-.
    etransitivity; [refine (Hm 0xffffffc000101234 _)|reflexivity]. vm_compute. split; congruence.
Defined.

(** [map_kernel_range_large] does the same with 2 MiB pages, for a range aligned
    to them where no last-level table exists yet. *)
Theorem map_kernel_range_large_correct {S : Type} `{PageSourceLaws S}
    root_pgt start_va end_va pm flags (s : S) :
  pgt_inv root_pgt s → start_va mod 2 ^ 21 = 0 → end_va mod 2 ^ 21 = 0 →
  KERNEL_VA_OFFSET <= start_va → end_va <= USIZE_MODULUS →
  to_pte_flags pm = Ok flags → is_usize flags → leaf_flags flags → PTE.is_leaf flags = true →
  no_tables start_va end_va (rp_ppn root_pgt) s →
  ∃ r root_pgt' s',
    Kernel.map_kernel_range_large root_pgt start_va end_va pm s = Ret (r, root_pgt') s' ∧
    pgt_inv root_pgt' s' ∧
    match r with
    | Ok _ => ∀ va, is_usize va →
        mmu_translate (mem_of s') (rp_ppn root_pgt) va =
          if decide (start_va <= va < end_va) then Some (va - KERNEL_VA_OFFSET, flags)
          else mmu_translate (mem_of s) (rp_ppn root_pgt) va
    | Err e => range_error start_va end_va (rp_ppn root_pgt) s e s'
    end.
Proof.
  intros Hi Hal Hal2 Hlo Hhi Hpm Hu Hf Hleaf Hno.
  destruct (wp_returns _ _ _ (map_kernel_range_large_wp root_pgt start_va end_va pm flags s
    Hi Hal Hal2 Hlo Hhi Hpm Hu Hf Hleaf Hno)) as ([r pgt] & s' & Hrun & (new & -> & Hi' & _) & Hr).
  eexists r, _, s'. split_and!; [done..|]. destruct r as [[]|e]; [|done].
  intros va Hva. rewrite Hr by done. apply decide_ext. rewrite elem_of_range_step by done.
  split; [intros [? ?]; zlia|]. intros ?. split; zlia.
Qed.

Lemma map_kernel_range_large_correct_witness :
  ∃ root_pgt' s',
    Kernel.map_kernel_range_large sample_pgt 0xffffffc000800000 0xffffffc000c00000 0x6
      sample_pgt_mm = Ret (Ok tt, root_pgt') s' ∧
    mmu_translate (mm_mem s') 0x80706 0xffffffc000a01234 = Some (0xa01234, 0x7).
Proof.
  destruct (ran_ok_inv (Kernel.map_kernel_range_large sample_pgt 0xffffffc000800000
    0xffffffc000c00000 0x6 sample_pgt_mm)) as ([] & p & s' & Hr); [vm_compute; reflexivity|].
  exists p, s'. split; [exact Hr|].
  destruct (@map_kernel_range_large_correct MM _ _ (@page_source_laws_MM sample_symbols)
    sample_pgt 0xffffffc000800000 0xffffffc000c00000 0x6 0x7 sample_pgt_mm sample_pgt_ok)
    as (r & p' & s2 & Hr' & _ & Hm).
  - reflexivity.
  - reflexivity.
  - unfold KERNEL_VA_OFFSET. lia.
  - unfold USIZE_MODULUS. lia.
  - reflexivity.
  - vm_compute. split; congruence.
  - split; [reflexivity|]. vm_compute. congruence.
  - vm_compute. reflexivity.
  - intros va Hva. destruct sample_pgt_tables as (_ & Hn & _).
    destruct (node_at sample_pgt_mem 0x80706 [va / 4096 / 2 ^ 18 mod 512; va / 4096 / 2 ^ 9 mod 512])
      as [t|] eqn:E; [exfalso|exact E].
    apply Hn in E; [|apply vpn_tables_path_ok]. rewrite !elem_of_cons, elem_of_nil in E.
    destruct E as [E|[E|[E|[]]]]; [discriminate E|discriminate E|].
    injection E as _ E2 _. clear Hn Hr. rewrite !Z.div_div in E2 by lia.
    assert (0x7fffffe0004 <= va / 2 ^ 21 < 0x7fffffe0006) as Hb
      by (split; [apply Z.div_le_lower_bound|apply Z.div_lt_upper_bound]; lia).
    change (4096 * 2 ^ 9) with (2 ^ 21) in E2. clear Hva. zlia.
  - rewrite Hr in Hr'. injection Hr' as <- <- <-.
    etransitivity; [refine (Hm 0xffffffc000a01234 _)|reflexivity]. vm_compute. split; congruence.
Defined.

(** ** The kernel's [satp] *)

#[export] Instance has_kernel_satp_MM : Has KERNEL_SATP MM.
Proof.
  refine {| proj := (kernel_satp : MM → KERNEL_SATP);
            upd k s := mk_MM (mm_mem s) (page_allocator s) k |};
    by intros; repeat match goal with s : MM |- _ => destruct s end.
Defined.

(** the root table survives its trip through [KERNEL_SATP]: storing
    [RootPgt::get_satp] and reading it back with [get_kernel_satp_ppn] gives the page
    number of the root table, and activating it selects Sv39 mode. *)
Theorem kernel_satp_roundtrip {S : Type} `{!Has KERNEL_SATP S} (root_pgt : RootPgt) (s : S) :
  0 <= rp_ppn root_pgt < 2 ^ 44 - 1 →
  let s' := upd (Pgt.get_satp root_pgt : KERNEL_SATP) s in
  Space.get_kernel_satp_ppn s' = Ret (rp_ppn root_pgt) s' ∧
  satp_mode (Pgt.get_satp root_pgt) = 8.
Proof.
  intros Hp s'. unfold Pgt.get_satp, PPN.get_raw.
  assert (Satp.compute_value (rp_ppn root_pgt) Satp.Sv39 = 8 * 2 ^ 60 + rp_ppn root_pgt) as E.
  { rewrite compute_value_eq. cbn [Satp.get_mode_value]. rewrite Z.mod_small by lia. reflexivity. }
  split.
  - unfold Space.get_kernel_satp_ppn, Space.get_kernel_satp, mbind, M_bind, gets. unfold s'.
    rewrite proj_upd. unfold Pgt.get_satp, PPN.get_raw. rewrite E.
    rewrite (land_mask _ 44) by done.
    assert ((8 * 2 ^ 60 + rp_ppn root_pgt) mod 2 ^ 44 = rp_ppn root_pgt) as -> by zlia.
    unfold PAGE_SIZE_ORDER. rewrite ushl_mul by (unfold USIZE_MODULUS; lia).
    rewrite from_pa_run by lia. f_equal. zlia.
  - rewrite E. unfold satp_mode. zlia.
Qed.

Lemma kernel_satp_roundtrip_witness :
  let s' := upd (Pgt.get_satp sample_pgt : KERNEL_SATP) sample_pgt_mm in
  Space.get_kernel_satp_ppn s' = Ret 0x80706 s' ∧ satp_mode (Pgt.get_satp sample_pgt) = 8.
Proof. apply (kernel_satp_roundtrip sample_pgt sample_pgt_mm). vm_compute. split; congruence. Defined.
