(* ===== verification/KernelRegions.v ===== *)
(** * The regions of the kernel's page table

    [init_kernel_satp] maps the devices, the sections of the image and the memory behind it
    range by range ([vm.rs]).  The ranges come in increasing order, so each is mapped over an
    unmapped part of the table.  [KernelTable] has the whole function. *)

From S2P Require Export KernelMap.
From stdpp Require Import list.
Open Scope Z_scope.

(** ** Regions *)

(** The pages of [[start, end_)] are direct-mapped with [flags]. *)
Record region_of := mk_region { rg_start : Z; rg_end : Z; rg_flags : Z }.

Definition in_region (g : region_of) (va : Z) : Prop :=
  rg_start g <= va - va mod 4096 < rg_end g.
#[export] Instance in_region_dec g va : Decision (in_region g va) := _.

(** The table translates every address of a region directly and nothing else. *)
Record maps_regions (l : list region_of) (root : Z) (m : mem) : Prop := {
  mr_in g va : is_usize va → g ∈ l → in_region g va →
    mmu_translate m root va = Some (va - KERNEL_VA_OFFSET, rg_flags g);
  mr_out va : is_usize va → (∀ g, g ∈ l → ¬ in_region g va) → mmu_translate m root va = None;
}.

Definition covers (l : list region_of) (v : Z) : Prop :=
  ∃ g, g ∈ l ∧ in_range (rg_start g) (rg_end g) v.

Lemma covers_mono l l' v : (∀ g, g ∈ l → g ∈ l') → covers l v → covers l' v.
Proof. intros Hl (g & Hg & Hv). exists g. auto. Qed.

(** Regions of the kernel half, in increasing order, that end by [hi] *)
Definition region_ok (g : region_of) : Prop :=
  rg_start g mod 4096 = 0 ∧ KERNEL_VA_OFFSET <= rg_start g <= rg_end g ∧ rg_end g <= USIZE_MODULUS.
Definition below (hi : Z) (l : list region_of) : Prop :=
  ∀ g, g ∈ l → region_ok g ∧ rg_end g <= hi.

Lemma below_snoc hi l g : below hi l → region_ok g → hi <= rg_start g → below (rg_end g) (l ++ [g]).
Proof.
  intros Hl Hg Hhi g' [Hg'| ->%list_elem_of_singleton]%elem_of_app; [|split; [done|lia]].
  destruct (Hl g' Hg'). split; [done|]. destruct Hg as (_ & ? & _). lia.
Qed.

Lemma covers_valid hi l v : below hi l → covers l v → vpn_valid v ∧ v * 4096 < hi.
Proof.
  intros Hl (g & Hg & Hs & He). destruct (Hl g Hg) as [(Ha & Hlo & Hhi) Hend].
  split; [right|lia]. unfold KERNEL_VA_OFFSET, USIZE_MODULUS in *. zlia.
Qed.

(** A region behind all others *)
Lemma maps_regions_snoc hi l g root (m m' : mem) :
  below hi l → region_ok g → hi <= rg_start g → maps_regions l root m →
  (∀ va, is_usize va → mmu_translate m' root va =
     if decide (in_region g va) then Some (va - KERNEL_VA_OFFSET, rg_flags g)
     else mmu_translate m root va) →
  maps_regions (l ++ [g]) root m'.
Proof.
  intros Hl Hg Hhi [Hin Hout] Hm. split.
  - intros g' va Hva [Hg'| ->%list_elem_of_singleton]%elem_of_app Hr; rewrite Hm by done.
    + rewrite decide_False; [by apply Hin|]. destruct (Hl g' Hg'). unfold in_region in *. lia.
    + by rewrite decide_True.
  - intros va Hva Hno. rewrite Hm by done. rewrite decide_False by (apply Hno; set_solver).
    apply Hout; [done|]. intros g' Hg'. apply Hno. set_solver.
Qed.

(** Two adjacent regions with the same permissions are one. *)
Lemma maps_regions_merge l a b c flags root m :
  a <= b <= c →
  maps_regions (l ++ [mk_region a b flags; mk_region b c flags]) root m →
  maps_regions (l ++ [mk_region a c flags]) root m.
Proof.
  intros Hb [Hin Hout]. split.
  - intros g va Hva [Hg| ->%list_elem_of_singleton]%elem_of_app Hr.
    { apply Hin; [done|set_solver|done]. }
    unfold in_region in *. simpl in *. destruct (decide (va - va mod 4096 < b)).
    + apply (Hin (mk_region a b flags)); [done|set_solver|split; simpl; lia].
    + apply (Hin (mk_region b c flags)); [done|set_solver|split; simpl; lia].
  - intros va Hva Hno. apply Hout; [done|]. intros g Hg Hr.
    assert (g ∈ l ∨ g = mk_region a b flags ∨ g = mk_region b c flags) as [?|[-> | ->]] by set_solver.
    + by apply (Hno g); [set_solver|].
    + apply (Hno (mk_region a c flags)); [set_solver|]. unfold in_region in *. simpl in *. lia.
    + apply (Hno (mk_region a c flags)); [set_solver|]. unfold in_region in *. simpl in *. lia.
Qed.

(** ** The layout *)

(** What [src/os/src/linker.ld] promises of its symbols: the sections follow each other
    page by page from [KERNEL_BASE_VA] on; the image fits in memory. *)
Class KernelLayout `{LinkerSymbols} : Prop := {
  ly_start : text_start = 0x80200000 + KERNEL_VA_OFFSET;
  ly_text : text_start <= text_end ∧ text_end mod 4096 = 0;
  ly_boot_pgt : boot_pgt = text_end;
  ly_stack : kernel_stack_start = boot_pgt + 4096 ∧ kernel_stack_end = kernel_stack_start + 16384;
  ly_rodata : rodata_start = kernel_stack_end ∧ rodata_start <= rodata_end ∧ rodata_end mod 4096 = 0;
  ly_data : data_start = rodata_end ∧ data_start <= data_end ∧ data_end mod 4096 = 0;
  ly_bss : bss_start = data_end ∧ bss_start <= bss_end ∧ bss_end mod 4096 = 0;
  ly_end : kernel_end = bss_end ∧ kernel_end <= 0x88000000 + KERNEL_VA_OFFSET;
}.

Definition device (d : Z * Z) : region_of :=
  mk_region (d.1 + KERNEL_VA_OFFSET) (d.1 + d.2 + KERNEL_VA_OFFSET) 7.
Definition devices : list region_of := device <$> QEMU_VIRT_MMIO.
Definition sections `{LinkerSymbols} : list region_of := [
  mk_region text_start text_end 0xb;
  mk_region kernel_stack_start kernel_stack_end 7;
  mk_region rodata_start rodata_end 3;
  mk_region data_start data_end 7;
  mk_region bss_start bss_end 7].
Definition phys_mem `{LinkerSymbols} : region_of :=
  mk_region kernel_end (0x88000000 + KERNEL_VA_OFFSET) 7.

(** The kernel half: devices read-write, text executable, read-only data read-only, stack,
    data, bss and the memory behind the image read-write *)
Definition kernel_regions `{LinkerSymbols} : list region_of := devices ++ sections ++ [phys_mem].

Section layout.
Context `{KernelLayout}.

Lemma kernel_end_aligned : kernel_end mod 4096 = 0.
Proof using Type*. destruct ly_end as [-> _]. apply ly_bss. Qed.

Lemma layout_order :
  0x80200000 + KERNEL_VA_OFFSET = text_start ∧ text_start <= text_end <= kernel_stack_start ∧
  kernel_stack_start < kernel_stack_end ∧ kernel_stack_end = rodata_start ∧
  rodata_start <= rodata_end ∧ rodata_end = data_start ∧ data_start <= data_end ∧
  data_end = bss_start ∧ bss_start <= bss_end ∧ bss_end = kernel_end ∧
  kernel_end <= 0x88000000 + KERNEL_VA_OFFSET.
Proof using Type*.
  destruct ly_text, ly_stack, ly_rodata as (? & ? & ?), ly_data as (? & ? & ?),
    ly_bss as (? & ? & ?), ly_end. pose proof ly_start. pose proof ly_boot_pgt.
  repeat split; lia.
Qed.

Lemma layout_aligned :
  text_start mod 4096 = 0 ∧ kernel_stack_start mod 4096 = 0 ∧ rodata_start mod 4096 = 0 ∧
  data_start mod 4096 = 0 ∧ bss_start mod 4096 = 0.
Proof using Type*.
  destruct ly_text, ly_stack, ly_rodata as (? & ? & ?), ly_data as (? & ? & ?),
    ly_bss as (? & ? & ?). pose proof ly_start. pose proof ly_boot_pgt.
  unfold KERNEL_VA_OFFSET in *. repeat split; zlia.
Qed.
End layout.

(** ** The build *)

(** The permissions of a region as [map_kernel_range] and the page table see them *)
Definition grants (pm flags : Z) : Prop :=
  to_pte_flags pm = Ok flags ∧ is_usize flags ∧ leaf_flags flags.

Lemma grants_rw : grants (PERMISSION_R .| PERMISSION_W) 7.
Proof. split; [done|]. split; [vm_compute; split; congruence|]. split; [done|]. vm_compute. congruence. Qed.
Lemma grants_rx : grants (PERMISSION_R .| PERMISSION_X) 0xb.
Proof. split; [done|]. split; [vm_compute; split; congruence|]. split; [done|]. vm_compute. congruence. Qed.
Lemma grants_r : grants PERMISSION_R 3.
Proof. split; [done|]. split; [vm_compute; split; congruence|]. split; [done|]. vm_compute. congruence. Qed.

Section build.
Context {S : Type} `{PageSourceLaws S} `{LinkerSymbols}.
Implicit Types (s : S) (pgt : RootPgt).

(** The table [pgt0] of [s0] is empty; [V] are the pages it may come to map. *)
Context (pgt0 : RootPgt) (s0 : S) (V : Z → Prop).
Context (Hempty : ∀ q, full_path q → lookup_at (mem_of s0) (rp_ppn pgt0) q = None).
Context (Hroot : ∀ q t, path_ok q → node_at (mem_of s0) (rp_ppn pgt0) q = Some t → q = []).

Record built (hi : Z) (l : list region_of) pgt s : Prop := {
  bu_below : below hi l;
  bu_within v : covers l v → V v;
  bu_ranged : ranged (covers l) pgt0 s0 pgt s;
  bu_maps : maps_regions l (rp_ppn pgt0) (mem_of s);
}.

(** No page was left for a table. *)
Definition exhausted (e : VMError) pgt s : Prop :=
  ranged V pgt0 s0 pgt s ∧ (∃ vpn, e = VMPgtError vpn AcquirePageFailed) ∧ ∀ p, ¬ ps_free s p.

Definition stage (hi : Z) (l : list region_of) : result unit VMError * RootPgt → S → Prop :=
  λ '(r, pgt) s, match r with Ok _ => built hi l pgt s | Err e => exhausted e pgt s end.

Lemma wp_and_then hi l hi' l' (m : M S (result unit VMError * RootPgt)) f s :
  wp m (stage hi l) s →
  (∀ pgt s', built hi l pgt s' → wp (f pgt) (stage hi' l') s') →
  wp (Kernel.and_then m f) (stage hi' l') s.
Proof using Type.
  intros Hm Hf. unfold Kernel.and_then. wp_step. eapply wp_mono; [exact Hm|].
  intros [[[]|e] pgt] s' Hs; [by apply Hf|by wp_step].
Qed.

Lemma ranged_root (W : Z → Prop) pgt s : ranged W pgt0 s0 pgt s → rp_ppn pgt = rp_ppn pgt0.
Proof using Type. by intros (new & -> & _). Qed.
Lemma ranged_inv (W : Z → Prop) pgt s : ranged W pgt0 s0 pgt s → pgt_inv pgt s.
Proof using Type. by intros (new & _ & Hi & _). Qed.

Lemma covers_snoc l g v : covers (l ++ [g]) v ↔ covers l v ∨ in_range (rg_start g) (rg_end g) v.
Proof using Type.
  unfold covers. setoid_rewrite elem_of_app. setoid_rewrite list_elem_of_singleton. split.
  - intros (g' & [?| ->] & ?); [left; by exists g'|by right].
  - intros [(g' & ? & ?)|?]; [exists g'; auto|exists g; auto].
Qed.

(** A page in front of the next region is not mapped yet. *)
Lemma built_fresh hi l pgt s v :
  built hi l pgt s → vpn_valid v → hi <= v * 4096 →
  pgt_lookup (mem_of s) (rp_ppn pgt0) v = None.
Proof using Hempty.
  intros [Hb _ Hr _] Hv Hhi.
  destruct (pgt_lookup (mem_of s) (rp_ppn pgt0) v) as [x|] eqn:E; [exfalso|done].
  assert (is_Some (pgt_lookup (mem_of s0) (rp_ppn pgt0) v)) as [y Hy].
  { eapply (unreached _ _ _ _ _ _ Hr Hv); [|by rewrite E].
    intros v' Hv'. destruct (covers_valid _ _ _ Hb Hv'). split; [done|lia]. }
  unfold pgt_lookup in Hy. by rewrite Hempty in Hy by apply vpn_path_full.
Qed.

(** What the three callers of a range mapping share: the range behind the last region *)
Lemma built_snoc hi l g pgt s pgt' (r : result unit VMError) s' :
  built hi l pgt s → region_ok g → hi <= rg_start g →
  (∀ v, in_range (rg_start g) (rg_end g) v → V v) →
  ranged (in_range (rg_start g) (rg_end g)) pgt s pgt' s' →
  match r with
  | Ok _ => ∀ va, is_usize va → mmu_translate (mem_of s') (rp_ppn pgt0) va =
      if decide (in_region g va) then Some (va - KERNEL_VA_OFFSET, rg_flags g)
      else mmu_translate (mem_of s) (rp_ppn pgt0) va
  | Err e => range_error (rg_start g) (rg_end g) (rp_ppn pgt0) s e s'
  end →
  stage (rg_end g) (l ++ [g]) (r, pgt') s'.
Proof using Hempty.
  intros Hb Hg Hhi HV Hr Hres. pose proof Hb as [Hbl Hw Hr0 Hm].
  assert (ranged (covers (l ++ [g])) pgt0 s0 pgt' s') as Hr'.
  { eapply ranged_trans; (eapply ranged_weaken; [|done]); intros v Hv; rewrite covers_snoc; auto. }
  destruct r as [[]|e]; cbn [stage].
  - split; [by eapply below_snoc| |done|by eapply maps_regions_snoc].
    intros v [?|?]%covers_snoc; auto.
  - split.
    { eapply ranged_weaken; [|exact Hr']. intros v [?|?]%covers_snoc; auto. }
    destruct Hres as (vpn & Hvpn & [[-> Hno]|(ppn & -> & Hs)]).
    + split; [by eexists|done].
    + exfalso. rewrite (built_fresh _ _ _ _ _ Hb) in Hs; [by destruct Hs| |].
      * destruct Hg as (Ha & Hlo & Hend). unfold in_range, KERNEL_VA_OFFSET, USIZE_MODULUS in *.
        right. zlia.
      * destruct Hg as (Ha & Hlo & Hend), Hvpn as [Hs1 Hs2]. zlia.
Qed.

Lemma add_region hi l g pm pgt s :
  built hi l pgt s → region_ok g → hi <= rg_start g → grants pm (rg_flags g) →
  (∀ v, in_range (rg_start g) (rg_end g) v → V v) →
  wp (Kernel.map_kernel_range pgt (rg_start g) (rg_end g) pm) (stage (rg_end g) (l ++ [g])) s.
Proof using Hempty.
  intros Hb Hg Hhi (Hpm & Hu & Hf) HV. pose proof (bu_ranged _ _ _ _ Hb) as Hr0.
  pose proof Hg as (Ha & Hlo & Hend). pose proof (ranged_root _ _ _ Hr0) as Eroot.
  eapply wp_mono; [apply (map_kernel_range_wp pgt _ _ pm (rg_flags g)); try done; try lia;
    by eapply ranged_inv|].
  intros [r pgt'] s' [Hr Hres]. rewrite Eroot in Hres. eapply built_snoc; [done..|].
  destruct r as [[]|e]; [|done]. intros va Hva. rewrite Hres by done.
  apply decide_ext. rewrite elem_of_range_step by done. unfold in_region.
  split; [tauto|]. intros ?. split; [done|zlia].
Qed.

(** Behind the last region no last-level table is in the way of a 2 MiB page. *)
Lemma built_no_tables hi l pgt s a b :
  built hi l pgt s → hi <= a → a mod 2 ^ 21 = 0 → KERNEL_VA_OFFSET <= a → b <= USIZE_MODULUS →
  no_tables a b (rp_ppn pgt0) s.
Proof using Hroot.
  intros [Hb _ (new & -> & _ & Hst) _] Hhi Ha Hlo Hhi2 va Hva.
  destruct (node_at (mem_of s) (rp_ppn pgt0) _) as [t|] eqn:E; [exfalso|done].
  pose proof (vpn_tables_path_ok (va / 4096)) as Hpok.
  destruct (mp_node _ _ _ _ _ Hst _ _ Hpok E) as [E0|[_ (v & Hv & Hp)]].
  { by apply (Hroot _ _ Hpok) in E0. }
  destruct (covers_valid _ _ _ Hb Hv) as [Hvv Hlt].
  destruct (direct_page a b va Hlo Hhi2 Hva) as [Hvva _].
  apply large_prefix in Hp; [|done|done]. zlia.
Qed.

Lemma add_large_region hi l g pm pgt s :
  built hi l pgt s → region_ok g → hi <= rg_start g → grants pm (rg_flags g) →
  PTE.is_leaf (rg_flags g) = true → rg_start g mod 2 ^ 21 = 0 → rg_end g mod 2 ^ 21 = 0 →
  (∀ v, in_range (rg_start g) (rg_end g) v → V v) →
  wp (Kernel.map_kernel_range_large pgt (rg_start g) (rg_end g) pm)
    (stage (rg_end g) (l ++ [g])) s.
Proof using Hempty Hroot.
  intros Hb Hg Hhi (Hpm & Hu & Hf) Hleaf Ha Hz HV. pose proof (bu_ranged _ _ _ _ Hb) as Hr0.
  pose proof Hg as (_ & Hlo & Hend). pose proof (ranged_root _ _ _ Hr0) as Eroot.
  eapply wp_mono; [apply (map_kernel_range_large_wp pgt _ _ pm (rg_flags g)); try done; try lia|].
  { by eapply ranged_inv. }
  { rewrite Eroot. eapply built_no_tables; [done..|lia|done]. }
  intros [r pgt'] s' [Hr Hres]. rewrite Eroot in Hres. eapply built_snoc; [done..|].
  destruct r as [[]|e]; [|done]. intros va Hva. rewrite Hres by done.
  apply decide_ext. rewrite elem_of_range_step by done. unfold in_region.
  split; [intros [? ?]; zlia|]. intros ?. split; zlia.
Qed.
(** *** The devices *)

(** In increasing order, behind [hi], page-aligned *)
Fixpoint ascending (hi : Z) (l : list (Z * Z)) : Prop :=
  match l with
  | [] => True
  | d :: l => hi <= d.1 + KERNEL_VA_OFFSET ∧ 0 <= d.1 ∧ d.1 mod 4096 = 0 ∧
      0 <= d.2 ∧ d.1 + d.2 < 2 ^ 38 ∧ ascending (d.1 + d.2 + KERNEL_VA_OFFSET) l
  end.
Definition last_end (hi : Z) (l : list (Z * Z)) : Z :=
  foldl (λ _ d, d.1 + d.2 + KERNEL_VA_OFFSET) hi l.

Lemma map_devices_wp devs hi l pgt s :
  built hi l pgt s → ascending hi devs → (∀ v, covers (device <$> devs) v → V v) →
  wp (try_for_each devs (λ '(start_pa, size) root_pgt,
      start_va ← get_va_from_pa start_pa;
      end_va ← get_va_from_pa (start_pa ⊕ size);
      Kernel.map_kernel_range root_pgt start_va end_va (PERMISSION_R .| PERMISSION_W)) pgt)
    (stage (last_end hi devs) (l ++ (device <$> devs))) s.
Proof using Hempty.
  revert hi l pgt s. induction devs as [|[a n] devs IH]; intros hi l pgt s Hb Hasc HV.
  { simpl. wp_step. cbn [fmap list_fmap]. by rewrite app_nil_r. }
  destruct Hasc as (Hhi & Ha & Ham & Hn & Hend & Hasc). cbn [fst snd] in *.
  cbn [try_for_each]. wp_step. wp_step. eapply wp_intro; [by apply get_va_from_pa_run; lia|].
  wp_step. rewrite uadd_small by (unfold USIZE_MODULUS; lia).
  eapply wp_intro; [by apply get_va_from_pa_run|].
  eapply wp_mono; [apply (add_region hi l (device (a, n)) _ pgt s Hb)|].
  - unfold region_ok, device, KERNEL_VA_OFFSET, USIZE_MODULUS. simpl. split; [zlia|lia].
  - done.
  - apply grants_rw.
  - intros v Hv. apply HV. exists (device (a, n)). split; [by left|done].
  - intros [[[]|e] pgt'] s' Hs; [|by wp_step].
    eapply wp_mono; [apply (IH _ _ _ _ Hs Hasc)|].
    + intros v Hv. apply HV. eapply covers_mono; [|exact Hv]. intros g ?. by right.
    + intros [r pgt2] s2 Hs2. by rewrite <- app_assoc in Hs2.
Qed.

Lemma map_virt_mmio_wp pgt s :
  built KERNEL_VA_OFFSET [] pgt s → (∀ v, covers devices v → V v) →
  wp (Kernel.map_virt_mmio pgt) (stage (0x10011000 + KERNEL_VA_OFFSET) devices) s.
Proof using Hempty.
  intros Hb HV. unfold Kernel.map_virt_mmio.
  apply (map_devices_wp QEMU_VIRT_MMIO _ [] _ _ Hb); [|done].
  unfold QEMU_VIRT_MMIO, KERNEL_VA_OFFSET. simpl. repeat split; (done || lia).
Qed.

(** *** The memory behind the image *)

Lemma stage_merge l a b c r pgt s :
  a <= b <= c → KERNEL_VA_OFFSET <= a → a mod 4096 = 0 → c <= USIZE_MODULUS →
  stage c (l ++ [mk_region a b 7; mk_region b c 7]) (r, pgt) s → stage c (l ++ [mk_region a c 7]) (r, pgt) s.
Proof using All.
  intros Hb Ha Ham Hc Hs. destruct r as [[]|e]; [|done]. destruct Hs as [Hbl Hw Hr Hm].
  assert (∀ v, covers (l ++ [mk_region a b 7; mk_region b c 7]) v →
    covers (l ++ [mk_region a c 7]) v) as Hc1.
  { intros v (g & Hg & Hv).
    assert (g ∈ l ∨ g = mk_region a b 7 ∨ g = mk_region b c 7) as [?|Hor] by set_solver.
    { exists g. split; [set_solver|done]. }
    exists (mk_region a c 7). split; [set_solver|].
    unfold in_range in *. destruct Hor as [-> | ->]; simpl in *; split; try lia.
    pose proof (Z.div_le_mono a b 4096). lia. }
  split.
  - intros g [Hg| ->%list_elem_of_singleton]%elem_of_app.
    + apply Hbl. set_solver.
    + unfold region_ok. simpl. split; [split; [done|lia]|lia].
  - intros v Hv. apply Hw. destruct Hv as (g & Hg & Hv).
    assert (g ∈ l ∨ g = mk_region a c 7) as [?| ->] by set_solver.
    { exists g. split; [set_solver|done]. }
    destruct (decide (v * 4096 < b)).
    + exists (mk_region a b 7). split; [set_solver|]. unfold in_range in *. simpl in *. lia.
    + exists (mk_region b c 7). split; [set_solver|]. unfold in_range in *. simpl in *.
      split; [zlia|lia].
  - by eapply ranged_weaken.
  - by eapply maps_regions_merge.
Qed.

Lemma map_phys_mem_wp `{!KernelLayout} l pgt s :
  built kernel_end l pgt s →
  (∀ v, in_range kernel_end (0x88000000 + KERNEL_VA_OFFSET) v → V v) →
  wp (Kernel.map_phys_mem pgt) (stage (0x88000000 + KERNEL_VA_OFFSET) (l ++ [phys_mem])) s.
Proof using Hempty Hroot.
  intros Hb HV. unfold Kernel.map_phys_mem.
  pose proof kernel_end_aligned as Hal. rewrite (page_start_aligned kernel_end Hal).
  wp_step. change (MEM_START_PA ⊕ MEM_SIZE_BYTES) with 0x88000000.
  eapply wp_intro; [by apply get_va_from_pa_run|].
  change (Kernel.compute_phy_mem_large_page_end (0x88000000 + KERNEL_VA_OFFSET))
    with (0x88000000 + KERNEL_VA_OFFSET).
  assert (KERNEL_VA_OFFSET <= kernel_end <= 0x88000000 + KERNEL_VA_OFFSET) as [Hlo Hhi].
  { pose proof layout_order. unfold KERNEL_VA_OFFSET in *. lia. }
  set (top := 0x88000000 + KERNEL_VA_OFFSET) in *.
  assert (top <= USIZE_MODULUS) as Htop by (vm_compute; congruence).
  destruct (large_bounds kernel_end) as [Hlm Hlb].
  { subst top. unfold USIZE_MAX, KERNEL_VA_OFFSET in *. lia. }
  set (lo := Kernel.compute_phy_mem_large_page_start kernel_end) in *.
  destruct (Z.leb_spec top lo).
  { apply (add_region kernel_end l phys_mem); [done| |simpl; lia|apply grants_rw|done].
    unfold region_ok, phys_mem. simpl. split; [done|]. split; lia. }
  assert (top mod 2 ^ 21 = 0) as Htm by (vm_compute; done).
  assert (lo mod 4096 = 0) as Hlp by zlia.
  unfold phys_mem. eapply wp_mono.
  - apply (wp_and_then lo (l ++ [mk_region kernel_end lo 7])).
    { apply (add_region kernel_end l (mk_region kernel_end lo 7)); [done| |simpl; lia|apply grants_rw|].
      - unfold region_ok. simpl. split; [done|]. split; lia.
      - simpl. intros v Hv. apply HV. unfold in_range in *. lia. }
    intros pgt1 s1 Hb1.
    apply (wp_and_then top ((l ++ [mk_region kernel_end lo 7]) ++ [mk_region lo top 7])).
    { apply (add_large_region lo _ (mk_region lo top 7)); simpl; [done| |lia|apply grants_rw|done..|].
      - unfold region_ok. simpl. split; [done|]. split; lia.
      - intros v Hv. apply HV. unfold in_range in *. split; [|lia].
        pose proof (Z.div_le_mono kernel_end lo 4096). lia. }
    intros pgt2 s2 Hb2. 
    apply (add_region top ((l ++ [mk_region kernel_end lo 7]) ++ [mk_region lo top 7])
      (mk_region top top 7)); [done| |done|apply grants_rw|].
    + unfold region_ok. simpl. split; [done|]. split; lia.
    + simpl. intros v [Hv1 Hv2]. exfalso. assert (top mod 4096 = 0) by (vm_compute; done). zlia.
  - intros [r pgt'] s' Hs. rewrite <- (app_assoc (l ++ _)) in Hs.
    apply (stage_merge (l ++ [mk_region kernel_end lo 7]) lo top top) in Hs; [|lia|lia|done|lia].
    rewrite <- app_assoc in Hs. apply (stage_merge l kernel_end lo top) in Hs; [done|lia|lia|done|lia].
Qed.

(** *** All of it *)
Definition build_table pgt : M S (result unit VMError * RootPgt) :=
  Kernel.and_then (Kernel.map_virt_mmio pgt) (λ pgt,
  Kernel.and_then (Kernel.map_kernel_text pgt) (λ pgt,
  Kernel.and_then (Kernel.map_kernel_stack pgt) (λ pgt,
  Kernel.and_then (Kernel.map_kernel_rodata pgt) (λ pgt,
  Kernel.and_then (Kernel.map_kernel_data pgt) (λ pgt,
  Kernel.and_then (Kernel.map_kernel_bss pgt) Kernel.map_phys_mem))))).

Lemma build_table_wp `{!KernelLayout} pgt s :
  built KERNEL_VA_OFFSET [] pgt s → (∀ v, covers kernel_regions v → V v) →
  wp (build_table pgt) (stage (0x88000000 + KERNEL_VA_OFFSET) kernel_regions) s.
Proof using Hempty Hroot.
  intros Hb HV. pose proof layout_order as Ho. pose proof layout_aligned as Ha.
  assert (∀ g v, g ∈ kernel_regions → in_range (rg_start g) (rg_end g) v → V v) as HV'
    by (intros g v ? ?; apply HV; by exists g).
  assert (∀ g, g ∈ sections → ∀ v, in_range (rg_start g) (rg_end g) v → V v) as HVs
    by (intros g ? v; apply HV'; unfold kernel_regions; rewrite !elem_of_app; auto).
  assert (∀ a b f, KERNEL_VA_OFFSET <= a <= b → b <= 0x88000000 + KERNEL_VA_OFFSET →
    a mod 4096 = 0 → region_ok (mk_region a b f)) as Hok.
  { intros. unfold region_ok. simpl. split; [done|]. unfold KERNEL_VA_OFFSET, USIZE_MODULUS in *. lia. }
  assert (built KERNEL_VA_OFFSET [] pgt s →
    wp (Kernel.map_virt_mmio pgt) (stage (0x10011000 + KERNEL_VA_OFFSET) devices) s) as Hdev.
  { intros Hb'. apply map_virt_mmio_wp; [done|]. intros v (g & Hg & Hv). apply (HV' g); [|done].
    unfold kernel_regions. rewrite elem_of_app. auto. }
  unfold build_table. eapply wp_and_then; [by apply Hdev|]. intros pgt1 s1 Hb1.
  eapply wp_and_then.
  { apply (add_region _ _ (mk_region text_start text_end 0xb) _ _ _ Hb1);
      [apply Hok; lia|simpl; lia|apply grants_rx|apply HVs; repeat constructor]. }
  intros pgt2 s2 Hb2. eapply wp_and_then.
  { apply (add_region _ _ (mk_region kernel_stack_start kernel_stack_end 7) _ _ _ Hb2);
      [apply Hok; lia|simpl; lia|apply grants_rw|apply HVs; repeat constructor]. }
  intros pgt3 s3 Hb3. eapply wp_and_then.
  { apply (add_region _ _ (mk_region rodata_start rodata_end 3) _ _ _ Hb3);
      [apply Hok; lia|simpl; lia|apply grants_r|apply HVs; repeat constructor]. }
  intros pgt4 s4 Hb4. eapply wp_and_then.
  { apply (add_region _ _ (mk_region data_start data_end 7) _ _ _ Hb4);
      [apply Hok; lia|simpl; lia|apply grants_rw|apply HVs; repeat constructor]. }
  intros pgt5 s5 Hb5. eapply wp_and_then.
  { apply (add_region _ _ (mk_region bss_start bss_end 7) _ _ _ Hb5);
      [apply Hok; lia|simpl; lia|apply grants_rw|apply HVs; repeat constructor]. }
  intros pgt6 s6 Hb6. cbn [rg_end] in Hb6. replace bss_end with kernel_end in Hb6 at 1 by lia.
  rewrite <- !app_assoc in Hb6. pose proof (map_phys_mem_wp _ _ _ Hb6) as Hp.
  rewrite <- app_assoc in Hp. apply Hp. intros v Hv. apply (HV' phys_mem); [|done].
  unfold kernel_regions. rewrite !elem_of_app, list_elem_of_singleton. auto.
Qed.
End build.
