(* ===== verification/NewUser.v ===== *)
(** * A new user space: [VMSpace::new_user]

    The whole loader: a copy of the kernel's root table, the segments of the program, the
    user stack and the kernel stack.  A failure gives back every page. *)

From S2P Require Export VmNew.
From S2P Require Import KernelMap PageAlloc.
From stdpp Require Import list.
Open Scope Z_scope.

(** ** All segments *)
Section load.
Context {S : Type} `{PageSourceLaws S} `{XmasElf}.
Implicit Types (s : S) (self : VMSpace) (area : VMArea) (ph : ProgramHeader).
Context (bytes : list Z) (Hfile : file_ok bytes).
Context (s0 : S) (shared : Z → Prop).

(** Areas that hold all of their segments *)
Definition loaded (l : list ProgramHeader) (areas : list VMArea) s : Prop :=
  Forall2 (λ ph a, filling bytes ph a (segment_end ph) s) l areas.

Lemma loaded_eager l self s : loaded l (areas self) s → eager self.
Proof using Type.
  intros Hl v t pm o (a & Ha & Hr & _ & _ & <-).
  apply list_elem_of_lookup in Ha as [i Ha]. destruct (Forall2_lookup_r _ _ _ _ _ Hl Ha) as (ph & _ & Hf).
  apply (fi_pages _ _ _ _ _ Hf). by rewrite <- (fi_start _ _ _ _ _ Hf), <- (fi_end _ _ _ _ _ Hf).
Qed.

(** A page of the areas belongs to a segment. *)
Lemma loaded_has l areas v t pm o s :
  loaded l areas s → has areas v t pm o →
  ∃ i ph, l !! i = Some ph ∧ segment_start ph <= v < segment_end ph ∧ t = Anonymous ∧ pm = segment_perm ph.
Proof using Type.
  intros Hl (a & Ha & Hr & <- & <- & _).
  apply list_elem_of_lookup in Ha as [i Ha]. destruct (Forall2_lookup_r _ _ _ _ _ Hl Ha) as (ph & Hp & Hf).
  exists i, ph. rewrite <- (fi_start _ _ _ _ _ Hf), <- (fi_end _ _ _ _ _ Hf), (fi_type _ _ _ _ _ Hf).
  by rewrite <- (fi_perm _ _ _ _ _ Hf).
Qed.

Lemma loaded_same l self s s' :
  loaded l (areas self) s → Forall area_ok (areas self) →
  (∀ v t pm q, has (areas self) v t pm (Some q) → page_same q (mem_of s) (mem_of s')) →
  loaded l (areas self) s'.
Proof using Type.
  intros Hl Hok Hsame. unfold loaded in *. rewrite Forall_forall in Hok.
  apply Forall2_same_length_lookup in Hl as [Hlen Hl]. apply Forall2_same_length_lookup. split; [done|].
  intros i ph a Hp Ha. destruct (Hl i ph a Hp Ha) as [? ? ? ? ? Hb]. apply list_elem_of_lookup_2 in Ha.
  split; [done..|]. intros v q Hq.
  eapply page_holds_same; [|by apply Hb]. eapply (Hsame v). exists a.
  split; [done|]. by apply sees_page; [apply Hok|].
Qed.

(** The pages the segments take *)
Definition segment_pages ph : nat := Z.to_nat (segment_end ph - segment_start ph).
Definition image_pages (l : list ProgramHeader) : nat := sum_list_with segment_pages l.

(** Why a program cannot be loaded with [n] pages *)
Definition load_error (n : nat) (phs : list ProgramHeader) (e : VMError) : Prop :=
  match e with
  | ElfError msg => ∃ ph, ph ∈ phs ∧ ph_is_load ph = Err msg
  | AlignDataFailed align =>
      ∃ ph, ph ∈ loads phs ∧ ph_align ph = align ∧ PAGE_SIZE_BYTES mod align ≠ 0
  | VMAcquirePageFailed => scarce n s0
  | VMPgtError v e =>
      match e with
      | AcquirePageFailed => scarce n s0
      | InvalidPteFlags f =>
          ∃ ph, ph ∈ loads phs ∧ f = area_flags (segment_perm ph) ∧ PTE.is_valid_flags f = false
      | DoubleMapping v' _ => v' = v ∧
          ∃ i j ph1 ph2, (i < j)%nat ∧ loads phs !! i = Some ph1 ∧ loads phs !! j = Some ph2 ∧
            segment_start ph1 <= v < segment_end ph1 ∧ segment_start ph2 <= v < segment_end ph2
      end
  | _ => False
  end.

Lemma create_area_wp ph s :
  segment_ok bytes ph →
  wp (Space.create_area_from_ph (S := S) ph) (λ area s', s' = s ∧ map_type area = Anonymous ∧
    start_vpn area = segment_start ph ∧ end_vpn area = segment_end ph ∧
    permissions area = segment_perm ph ∧ pages area = ∅) s.
Proof using Type.
  intros [_ Hva Hmem Hend _ _ _]. unfold Space.create_area_from_ph.
  change (USER_SPACE_END - USER_STACK_MAX_SIZE_BYTES) with (4096 * 67106815) in Hend.
  wp_step. eapply wp_intro; [apply from_va_run; [unfold is_usize, USIZE_MODULUS; lia|lia]|].
  rewrite page_size_eq, (uadd_small (ph_virtual_addr ph)), uadd_small, usub_small
    by (unfold USIZE_MODULUS; lia).
  replace (ph_virtual_addr ph + ph_mem_size ph + 4096 - 1) with (ph_virtual_addr ph + ph_mem_size ph + 4095) by lia.
  wp_step. eapply wp_intro; [apply from_va_run; [unfold is_usize, USIZE_MODULUS; lia|lia]|].
  by wp_step.
Qed.

Lemma map_user_elf_segment_wp k self ph s :
  segment_ok bytes ph → eager self → grown s0 shared k self s →
  wp (Space.map_user_elf_segment self bytes ph) (λ '(r, self') s',
    match r with
    | Ok _ =>
        (∀ v t pm q, has (areas self) v t pm (Some q) → page_same q (mem_of s) (mem_of s')) ∧
        grown s0 shared (k + 3 * segment_pages ph) self' s' ∧
        ∃ a, areas self' = areas self ++ [a] ∧ filling bytes ph a (segment_end ph) s'
    | Err e =>
        spent s0 (space_pages self') s' ∧
        (e = AlignDataFailed (ph_align ph) ∧ PAGE_SIZE_BYTES mod ph_align ph ≠ 0 ∨
         segment_error ph s0 (k + 3 * segment_pages ph) self e)
    end) s.
Proof using All.
  intros Hseg Heager Hg. unfold Space.map_user_elf_segment. wp_step. apply wp_assert.
  { apply negb_true_iff, Z.eqb_neq, (sg_align _ _ Hseg). }
  destruct (Z.eqb_spec (PAGE_SIZE_BYTES mod ph_align ph) 0) as [Hal|Hal]; cbn [negb].
  2:{ wp_step. split; [by eapply grown_spent|]. by left. }
  wp_step. eapply wp_mono; [by apply create_area_wp|].
  intros area s1 (-> & Et & Es & Ee & Ep & Epages).
  destruct (segment_perm_ok ph) as (_ & _ & _ & Hflags). rewrite Ep, Hflags, Es, Ee.
  pose proof (segment_range bytes ph Hseg) as [Hr _].
  assert (filling bytes ph area (segment_start ph) s) as Hfi.
  { split; try done; rewrite Epages; intros v'; rewrite lookup_empty; [|done].
    split; [by intros []|lia]. }
  assert (∀ self, with_part self area (segment_start ph) = self) as Hpart.
  { intros self'. unfold with_part. by rewrite decide_False by lia. }
  wp_step. eapply wp_mono.
  { apply (map_segment_pages_wp bytes ph Hfile Hseg s0 shared (segment_pages ph) k); try done.
    - unfold segment_pages. lia.
    - left. lia.
    - by rewrite Hpart. }
  intros [r self'] s' [[pgt ->] Hpost]. destruct r as [a|e]; wp_step.
  - destruct Hpost as (Hsame & Hfill & Hgr). split; [done|].
    assert (with_part (Sp.set_root_pgt self pgt) a (segment_end ph) =
      Sp.set_areas (Sp.set_root_pgt self pgt) (vec_push (areas self) a)) as E.
    { unfold with_part. rewrite (fi_start _ _ _ _ _ Hfill), decide_True by lia.
      unfold vec_push, Area.set_end_vpn. rewrite <- (fi_end _ _ _ _ _ Hfill). by destruct a. }
    rewrite E in Hgr. split; [done|]. by exists a.
  - destruct Hpost as [Hsp He]. split; [done|by right].
Qed.

(** The pages for the segments in [l], their tables, and the root table *)
Definition load_pages (l : list ProgramHeader) : nat := 1 + 3 * image_pages (loads l).

Lemma load_pages_app l1 l2 : (load_pages l1 <= load_pages (l1 ++ l2))%nat.
Proof using Type.
  unfold load_pages, image_pages, loads. rewrite filter_app, sum_list_with_app. lia.
Qed.

(** The state of the loop after the headers [don] *)
Definition loading (don : list ProgramHeader) self s : Prop :=
  loaded (loads don) (areas self) s ∧ grown s0 shared (load_pages don) self s.

Lemma segment_load_error don ph todo self s e :
  ph_is_load ph = Ok true → loading don self s →
  segment_error ph s0 (load_pages don + 3 * segment_pages ph) self e →
  load_error (load_pages (don ++ ph :: todo)) (don ++ ph :: todo) e.
Proof using All.
  intros Hload [Hl _] He.
  assert (loads (don ++ ph :: todo) = loads don ++ ph :: loads todo) as El.
  { unfold loads. rewrite filter_app. f_equal. by rewrite filter_cons_True. }
  assert (load_pages don + 3 * segment_pages ph <= load_pages (don ++ ph :: todo))%nat as Hn.
  { unfold load_pages. rewrite El. unfold image_pages. rewrite sum_list_with_app. cbn. lia. }
  destruct e as [|v [|f|v' p]| | | | | | | |]; try done; cbn in *.
  - destruct He as [_ He]. by eapply scarce_le.
  - destruct He as (_ & -> & Hf). exists ph. split; [|done]. rewrite El. set_solver.
  - destruct He as (Hr & -> & t & pm & q & Hh). split; [done|].
    destruct (loaded_has _ _ _ _ _ _ _ Hl Hh) as (i & ph1 & Hi & Hr1 & _).
    exists i, (length (loads don)), ph1, ph. rewrite El. split_and!; try lia.
    + by eapply lookup_lt_Some.
    + by apply lookup_app_l_Some.
    + by apply list_lookup_middle.
  - by eapply scarce_le.
Qed.

(** One program header *)
Lemma load_header_wp don ph todo self s :
  Forall (segment_ok bytes) (loads (don ++ ph :: todo)) → loading don self s →
  wp (match map_err ElfError (ph_is_load ph) with
      | Err e => mret (Err e, self)
      | Ok load =>
          if negb load then mret (Ok tt, self)
          else Space.map_user_elf_segment self bytes ph
      end) (λ '(r, self') s',
    match r with
    | Ok _ => loading (don ++ [ph]) self' s'
    | Err e =>
        spent s0 (space_pages self') s' ∧
        load_error (load_pages (don ++ ph :: todo)) (don ++ ph :: todo) e
    end) s.
Proof using All.
  intros Hsegs Hld. pose proof Hld as [Hl Hg].
  destruct (ph_is_load ph) as [[|]|msg] eqn:Hload; cbn [map_err negb].
  - assert (segment_ok bytes ph) as Hseg.
    { unfold loads in Hsegs. rewrite filter_app, filter_cons_True in Hsegs by done.
      apply Forall_app in Hsegs as [_ Hsegs]. by apply Forall_cons in Hsegs as [? _]. }
    eapply wp_mono; [apply map_user_elf_segment_wp; [done|by eapply loaded_eager|done]|].
    intros [[[]|e] self'] s' Hpost.
    + destruct Hpost as (Hsame & Hg' & a & Ea & Hfill). split.
      * rewrite loads_snoc, bool_decide_true, Ea by done. apply Forall2_app; [|by constructor].
        eapply loaded_same; [done|apply (vi_areas _ _ (gr_inv _ _ _ _ _ Hg))|done].
      * replace (load_pages (don ++ [ph])) with (load_pages don + 3 * segment_pages ph)%nat; [done|].
        unfold load_pages. rewrite loads_snoc, bool_decide_true by done.
        unfold image_pages. rewrite sum_list_with_app. cbn. lia.
    + destruct Hpost as [Hsp [[-> Hal]|He]]; (split; [done|]).
      * exists ph. split; [|done]. unfold loads. rewrite filter_app, filter_cons_True by done. set_solver.
      * by eapply segment_load_error.
  - wp_step. assert (loads (don ++ [ph]) = loads don) as E.
    { rewrite loads_snoc, bool_decide_false by (by rewrite Hload). by rewrite app_nil_r. }
    split; [by rewrite E|]. unfold load_pages. by rewrite E.
  - wp_step. split; [by eapply grown_spent|]. exists ph. split; [set_solver|done].
Qed.

Lemma map_user_elf_wp self s :
  areas self = [] → grown s0 shared 1 self s →
  wp (Space.map_user_elf self bytes) (λ '(r, self') s',
    match r with
    | Ok _ => ∃ elf, elf_new bytes = Ok elf ∧ entry_addr self' = elf_entry_point elf ∧
        loading (elf_program_iter elf) self' s'
    | Err e => spent s0 (space_pages self') s' ∧
        ((∃ msg, e = ElfError msg ∧ elf_new bytes = Err msg) ∨
         ∃ elf, elf_new bytes = Ok elf ∧
           load_error (load_pages (elf_program_iter elf)) (elf_program_iter elf) e)
    end) s.
Proof using All.
  intros Ea Hg. unfold Space.map_user_elf. destruct (elf_new bytes) as [elf|msg] eqn:Helf; cbn [map_err].
  2:{ wp_step. split; [by eapply grown_spent|]. left. by exists msg. }
  pose proof (fl_segments _ Hfile elf Helf) as Hsegs. wp_step. eapply wp_mono.
  { apply (wp_try_for_each (elf_program_iter elf) _ loading (λ e self' s', spent s0 (space_pages self') s' ∧
      load_error (load_pages (elf_program_iter elf)) (elf_program_iter elf) e)).
    - split; [rewrite Ea; constructor|done].
    - intros don ph todo self' s' El Hld. rewrite El in Hsegs |- *. by apply load_header_wp. }
  intros [[[]|e] self'] s' Hpost; wp_step.
  - destruct Hpost as [Hl Hg']. exists elf. split; [done|]. split; [done|]. split; [done|].
    by apply (grown_same s0 shared _ self').
  - destruct Hpost as [Hsp He]. split; [done|]. right. by exists elf.
Qed.
End load.

(** ** The stacks *)

(** The user stack below [USER_SPACE_END], with its first page, and a kernel stack *)
Definition user_stack (p : Z) : VMArea :=
  mk_VMArea ((USER_SPACE_END - USER_STACK_MAX_SIZE_BYTES) / 4096) (USER_SPACE_END / 4096) Anonymous
    ((PERMISSION_R .| PERMISSION_W) .| PERMISSION_U) {[USER_SPACE_END / 4096 - 1 := p]}.
Definition direct_vpn (p : Z) : Z := p + KERNEL_VA_OFFSET / 4096.
Definition kernel_stack (p : Z) : VMArea :=
  mk_VMArea (direct_vpn p) (direct_vpn p + 1) KernelVaOffset (PERMISSION_R .| PERMISSION_W)
    {[direct_vpn p := p]}.

Lemma user_stack_sees p v t pm q :
  sees (user_stack p) v t pm (Some q) ↔
    v = USER_SPACE_END / 4096 - 1 ∧ t = Anonymous ∧
    pm = (PERMISSION_R .| PERMISSION_W) .| PERMISSION_U ∧ q = p.
Proof.
  unfold sees, user_stack. cbn [start_vpn end_vpn map_type permissions pages]. split.
  - intros (_ & <- & <- & [<- <-]%lookup_singleton_Some). done.
  - intros (-> & -> & -> & ->). rewrite lookup_singleton_eq. split_and!; done.
Qed.
Lemma kernel_stack_sees p v t pm q :
  sees (kernel_stack p) v t pm (Some q) ↔
    v = direct_vpn p ∧ t = KernelVaOffset ∧ pm = PERMISSION_R .| PERMISSION_W ∧ q = p.
Proof.
  unfold sees, kernel_stack. cbn [start_vpn end_vpn map_type permissions pages]. split.
  - intros (_ & <- & <- & [<- <-]%lookup_singleton_Some). done.
  - intros (-> & -> & -> & ->). rewrite lookup_singleton_eq. split_and!; done || lia.
Qed.

Lemma user_stack_ok p : area_ok (user_stack p).
Proof.
  split; cbn; [done|split; [done|]; vm_compute; congruence|split; [done|vm_compute; reflexivity]|done|].
  intros v q [<- _]%lookup_singleton_Some. split; vm_compute; congruence.
Qed.
Lemma kernel_stack_ok p : 0 <= p < 2 ^ 26 → area_ok (kernel_stack p).
Proof.
  intros Hp. split; cbn; [lia| |split; [done|vm_compute; reflexivity]|done|].
  - unfold direct_vpn. change (KERNEL_VA_OFFSET / 4096) with (2 ^ 52 - 2 ^ 26). lia.
  - intros v q [<- _]%lookup_singleton_Some. lia.
Qed.

Section stacks.
Context {S : Type} `{PageSourceLaws S}.
Implicit Types (s : S) (self : VMSpace).
Context (s0 : S) (shared : Z → Prop).

(** The areas end below the user stack. *)
Definition below_stack self : Prop :=
  Forall (λ a, end_vpn a <= (USER_SPACE_END - USER_STACK_MAX_SIZE_BYTES) / 4096) (areas self).

(** Memory was used up. *)
Definition no_memory (n : nat) (e : VMError) : Prop :=
  (e = VMAcquirePageFailed ∨ ∃ v, e = VMPgtError v AcquirePageFailed) ∧ scarce n s0.

Lemma add_user_stack_area_wp k self s :
  below_stack self → grown s0 shared k self s →
  wp (Space.add_user_stack_area self) (λ '(r, self') s',
    match r with
    | Ok _ =>
        (∀ v t pm q, has (areas self) v t pm (Some q) → page_same q (mem_of s) (mem_of s')) ∧
        grown s0 shared (k + 3) self' s' ∧
        entry_addr self' = entry_addr self ∧ u_stack_end self' = USER_SPACE_END ∧
        ∃ p, areas self' = areas self ++ [user_stack p] ∧ page_holds s' p (λ _, 0)
    | Err e => spent s0 (space_pages self') s' ∧ no_memory (k + 3) e
    end) s.
Proof using All.
  intros Hbelow Hg. pose proof (gr_inv _ _ _ _ _ Hg) as Hi. unfold Space.add_user_stack_area.
  change (to_pte_flags ((PERMISSION_R .| PERMISSION_W) .| PERMISSION_U))
    with (Ok (A := Z) (E := VMError) (area_flags ((PERMISSION_R .| PERMISSION_W) .| PERMISSION_U))).
  cbv beta iota. wp_step.
  eapply wp_mono; [apply ps_alloc_zeroed_page_law; apply Hi|].
  intros [p|] s1 (Hok1 & Hal); cbv beta iota in Hal |- *.
  2:{ destruct Hal as [-> Hnf]. wp_step. split; [by eapply grown_spent|]. split; [by left|].
    eapply (scarce_le (k + 0)); [lia|]. apply (took_scarce _ _ _ s); [apply Hg|by apply scarce_none]. }
  destruct Hal as (Hp & Hf1 & Hz & Hout). wp_step.
  eapply wp_intro; [apply from_va_run; [vm_compute; split; congruence|left; vm_compute; reflexivity]|].
  change ((USER_SPACE_END ⊖ PAGE_SIZE_BYTES) / 4096) with (USER_SPACE_END / 4096 - 1).
  set (v := USER_SPACE_END / 4096 - 1). wp_step. eapply wp_mono.
  { apply (extend_wp s0 shared k self s s1 v p); [done|vm_compute; split; congruence|vm_compute; split; congruence|done..]. }
  assert (∀ t pm o, ¬ has (areas self) v t pm o) as Hfresh.
  { intros t pm o (a & Ha & Hr & _). unfold below_stack in Hbelow. rewrite Forall_forall in Hbelow.
    pose proof (Hbelow a Ha) as Hb. assert ((USER_SPACE_END - USER_STACK_MAX_SIZE_BYTES) / 4096 < v) by reflexivity. lia. }
  intros [r pgt] s2 (_ & Hsame & Hres). cbv beta iota zeta. destruct r as [[]|e]; cbn [map_err].
  - destruct Hres as (_ & Hpp & _ & Hgrow). wp_step.
    eapply wp_intro; [apply from_va_run; [vm_compute; split; congruence|left; vm_compute; reflexivity]|].
    wp_step.
    eapply wp_intro; [apply from_va_run; [vm_compute; split; congruence|left; vm_compute; reflexivity]|].
    wp_step. split; [done|].
    assert (areas self ++ [user_stack p] =
      vec_push (areas self) (Area.set_pages (Area.new ((USER_SPACE_END ⊖ USER_STACK_MAX_SIZE_BYTES) / 4096)
        (USER_SPACE_END / 4096) Anonymous ((PERMISSION_R .| PERMISSION_W) .| PERMISSION_U)) (<[v := p]> ∅))) as Ea by done.
    split; [|split; [done|]; split; [done|]; exists p; split; [done|]].
    + apply (Hgrow Anonymous); [done|]. cbn [pages Area.new]. cbn [areas Sp.set_u_stack_end Sp.set_areas Sp.set_root_pgt].
      split; cbn [areas Sp.set_u_stack_end Sp.set_areas]; rewrite <- Ea.
      * apply Forall_app. split; [apply Hi|]. apply Forall_singleton, user_stack_ok.
      * apply pairwise_app. split_and!; [apply Hi|by split|]. intros a b Ha ->%list_elem_of_singleton.
        left. unfold below_stack in Hbelow. rewrite Forall_forall in Hbelow. by apply Hbelow.
      * intros v' t pm q. rewrite has_app, has_cons, user_stack_sees. fold v. split.
        -- intros [Hh|[(-> & -> & -> & ->)|[]%has_nil]]; [right|by left]. split; [|done].
           intros ->. by apply Hfresh in Hh.
        -- intros [(-> & -> & -> & ->)|[_ Hh]]; [right; by left|by left].
    + intros b Hb. rewrite Hpp by (unfold page_start, page_end; lia). apply Hz. unfold page_start, page_end. lia.
  - wp_step. eapply wp_mono; [exact Hres|]. intros [] s3 (_ & Hg3 & He). wp_step.
    split; [by eapply grown_spent|]. destruct e as [|f|v' p']; cbn in He.
    + split; [right; by eexists|done].
    + destruct He as [-> Hf]. vm_compute in Hf. done.
    + destruct He as (_ & _ & t & pm & q & Hh). by apply Hfresh in Hh.
Qed.

Lemma add_kernel_stack_area_wp k self s :
  (∀ a, a ∈ areas self → end_vpn a <= 2 ^ 26) → grown s0 shared k self s →
  wp (Space.add_kernel_stack_area self) (λ '(r, self') s',
    match r with
    | Ok _ =>
        mem_of s' = mem_of s ∧ grown s0 shared (k + 1) self' s' ∧
        entry_addr self' = entry_addr self ∧ u_stack_end self' = u_stack_end self ∧
        ∃ p, areas self' = areas self ++ [kernel_stack p] ∧
          k_stack_end self' = page_start p + KERNEL_VA_OFFSET + 4096
    | Err e => spent s0 (space_pages self') s' ∧ no_memory k e
    end) s.
Proof using All.
  intros Hbelow Hg. pose proof (gr_inv _ _ _ _ _ Hg) as Hi. unfold Space.add_kernel_stack_area.
  wp_step. eapply wp_mono; [apply ps_alloc_page_law; apply Hi|].
  intros [p|] s1 (Hok1 & Hm & Hal); cbv beta iota in Hal |- *.
  2:{ destruct Hal as [-> Hnf]. wp_step. split; [by eapply grown_spent|]. split; [by left|].
    rewrite <- (Nat.add_0_r k). apply (took_scarce _ _ _ s); [apply Hg|by apply scarce_none]. }
  destruct Hal as (Hp & Hf1). pose proof (ps_free_ram s p (pi_ok _ _ (vi_pgt _ _ Hi)) Hp) as Hpr.
  pose proof (ps_managed_end p (ps_free_managed s p (pi_ok _ _ (vi_pgt _ _ Hi)) Hp)) as Hpe.
  rewrite get_pa_eq, page_size_eq by lia.
  assert (p * 4096 ⊕ KERNEL_VA_OFFSET = p * 4096 + (2 ^ 64 - 2 ^ 38)) as ->
    by (change KERNEL_VA_OFFSET with (2 ^ 64 - 2 ^ 38); rewrite uadd_small; unfold USIZE_MODULUS; lia).
  rewrite uadd_small by (unfold USIZE_MODULUS; lia).
  wp_step. eapply wp_intro; [apply from_va_run; [unfold is_usize, USIZE_MODULUS; lia|right; lia]|].
  wp_step. eapply wp_intro; [apply from_va_run; [unfold is_usize, USIZE_MODULUS; lia|right; lia]|].
  assert ((p * 4096 + (2 ^ 64 - 2 ^ 38)) / 4096 = direct_vpn p) as E1.
  { unfold direct_vpn. change (KERNEL_VA_OFFSET / 4096) with (2 ^ 52 - 2 ^ 26). zlia. }
  assert ((p * 4096 + (2 ^ 64 - 2 ^ 38) + 4096) / 4096 = direct_vpn p + 1) as E2.
  { unfold direct_vpn. change (KERNEL_VA_OFFSET / 4096) with (2 ^ 52 - 2 ^ 26). zlia. }
  rewrite E1, E2. wp_step. split; [done|].
  pose proof (kernel_stack_ok p Hpr) as Hks.
  assert (2 ^ 26 <= direct_vpn p) as Hhigh.
  { unfold direct_vpn. change (KERNEL_VA_OFFSET / 4096) with (2 ^ 52 - 2 ^ 26). lia. }
  assert (vec_push (areas self) (Area.set_pages (Area.new (direct_vpn p) (direct_vpn p + 1) KernelVaOffset
    (PERMISSION_R .| PERMISSION_W)) (<[direct_vpn p := p]> ∅)) = areas self ++ [kernel_stack p]) as Ea by done.
  split; [|split; [done|]; split; [done|]; exists p; split; [exact Ea|]].
  - eapply (grown_kernel_page s0 shared k self s s1 p); try done;
      cbn [areas Sp.set_k_stack_end Sp.set_areas pages Area.new]; rewrite Ea.
    + apply Forall_app. split; [apply Hi|]. by apply Forall_singleton.
    + apply pairwise_app. split_and!; [apply Hi|by split|]. intros a b Ha ->%list_elem_of_singleton.
      left. cbn. pose proof (Hbelow a Ha). lia.
    + intros v t pm q. rewrite has_app, has_cons, kernel_stack_sees. fold (direct_vpn p). split.
      * intros [Hh|[?|[]%has_nil]]; [by right|by left].
      * intros [?|?]; [right; by left|by left].
  - cbn. rewrite get_va_eq; unfold direct_vpn, page_start;
      change (KERNEL_VA_OFFSET / 4096) with (2 ^ 52 - 2 ^ 26); [unfold KERNEL_VA_OFFSET; lia|lia].
Qed.
End stacks.

(** ** [new_user] *)
Section new_user.
Context {S : Type} `{PageSourceLaws S} `{!Has KERNEL_SATP S} `{XmasElf}.
Implicit Types (s : S) (self : VMSpace).

(** The root table [k] that [KERNEL_SATP] names: sound, in no free page, and with an empty
    user half *)
Record kernel_table (k : Z) s : Prop := {
  kt_ok : ps_ok s;
  kt_satp : (proj s : KERNEL_SATP) = Pgt.get_satp (mk_RootPgt k []);
  kt_wf : pgt_wf (mem_of s) k;
  kt_fresh : pgt_fresh s k;
  kt_low i : 0 <= i < 256 → PTE.is_valid (pte (mem_of s) k i) = false;
  (** the last-level table of the device mappings *)
  kt_sentinel : is_Some (node_at (mem_of s) k [256; 0]);
}.

(** [p] is one of the kernel's tables. *)
Definition kernel_page k s (p : Z) : Prop := ∃ q, path_ok q ∧ node_at (mem_of s) k q = Some p.

(** The space a program gets: its segments, the stacks and the entry point *)
Record program_space (bytes : list Z) (elf : ElfFile) self s : Prop := {
  pr_areas : ∃ segments p q, areas self = segments ++ [user_stack p; kernel_stack q] ∧
    loaded bytes (loads (elf_program_iter elf)) segments s ∧ page_holds s p (λ _, 0) ∧
    k_stack_end self = page_start q + KERNEL_VA_OFFSET + 4096;
  pr_entry : entry_addr self = elf_entry_point elf;
  pr_user_sp : u_stack_end self = USER_SPACE_END;
}.

(** The pages [new_user] may need: the stacks come with one table each at most. *)
Definition user_pages (elf : ElfFile) : nat := load_pages (elf_program_iter elf) + 4.

Definition file_pages (bytes : list Z) : nat :=
  match elf_new bytes with Ok elf => user_pages elf | Err _ => 1 end.

(** Why there is no space, with [n] pages *)
Definition new_user_error (n : nat) (bytes : list Z) s (e : VMError) : Prop :=
  match e with
  | CreateRootPgtFailed e => e = AcquirePageFailed ∧ scarce n s
  | ElfError msg => elf_new bytes = Err msg ∨
      ∃ elf, elf_new bytes = Ok elf ∧ load_error s n (elf_program_iter elf) e
  | _ => ∃ elf, elf_new bytes = Ok elf ∧ load_error s n (elf_program_iter elf) e
  end.

(** Pages taken before count as well. *)
Lemma new_user_error_earlier m n bytes s s' e :
  took_at_most m s s' → new_user_error n bytes s' e → new_user_error (m + n) bytes s e.
Proof using Type.
  intros Hm He.
  assert (∀ phs, load_error s' n phs e → load_error s (m + n) phs e) as Hl.
  { intros phs Hle. destruct e as [|v [| |]| | | | | | | |]; try done; cbn in *; by eapply took_scarce. }
  assert ((∃ elf, elf_new bytes = Ok elf ∧ load_error s' n (elf_program_iter elf) e) →
    ∃ elf, elf_new bytes = Ok elf ∧ load_error s (m + n) (elf_program_iter elf) e) as Hex.
  { intros (elf & ? & ?). exists elf. split; [done|by apply Hl]. }
  destruct e; unfold new_user_error in *; try exact (Hex He).
  - destruct He as [? ?]. split; [done|by eapply took_scarce].
  - destruct He as [?|He]; [by left|right; exact (Hex He)].
Qed.

(** Free pages may change as they like. *)
Lemma kernel_table_frame k s s' :
  kernel_table k s → ps_ok s' → (proj s' : KERNEL_SATP) = proj s →
  (∀ p, ¬ ps_free s p → page_same p (mem_of s) (mem_of s')) →
  (∀ p, ps_free s' p → ps_free s p) →
  kernel_table k s' ∧ ∀ p, kernel_page k s' p ↔ kernel_page k s p.
Proof using Type.
  intros [Hok Hsatp Hwf Hfr Hlow Hsen] Hok' Es Hsame Hfree.
  assert (∀ q t i, path_ok q → node_at (mem_of s) k q = Some t → idx_ok i →
    pte (mem_of s') t i = pte (mem_of s) t i) as Ht.
  { intros q t i Hq Hn Hi. apply page_same_pte; [|done]. apply Hsame. intros Hp. by apply (Hfr t Hp q). }
  assert (∀ q, path_ok q → node_at (mem_of s') k q = node_at (mem_of s) k q) as Hn
    by (intros; by apply (node_at_same_tables _ _ _ _ Ht)).
  split; [split|].
  - done.
  - by rewrite Es.
  - by apply (pgt_wf_same_tables _ _ _ Ht).
  - intros p Hp q Hq. rewrite Hn by done. by apply (Hfr p (Hfree p Hp)).
  - intros i Hi. rewrite (Ht [] k i path_ok_nil eq_refl); [by apply Hlow|unfold idx_ok; lia].
  - rewrite Hn; [done|]. apply path2_ok; unfold idx_ok; lia.
  - intros p. unfold kernel_page. split; intros (q & Hq & Hp); exists q; rewrite Hn in *; done.
Qed.

Lemma kernel_satp_ppn_run k s :
  kernel_table k s → Space.get_kernel_satp_ppn s = Ret k s.
Proof using Type.
  intros [Hok Hsatp Hwf _ _ _]. pose proof (wf_root_ram _ _ Hwf) as Hk.
  pose proof (kernel_satp_roundtrip (mk_RootPgt k []) s) as [Hr _]; [simpl; lia|].
  rewrite <- Hsatp, upd_proj in Hr. exact Hr.
Qed.

(** Only the user pages matter to the program. *)
Lemma program_space_same bytes elf self s s' :
  vm_inv self s → program_space bytes elf self s →
  (∀ v pm p, has (areas self) v Anonymous pm (Some p) → page_same p (mem_of s) (mem_of s')) →
  program_space bytes elf self s'.
Proof using Type.
  intros Hi [(segs & p & q & Ea & Hl & Hz & Hk) Hent Hsp] Hsame. split; [|done|done].
  exists segs, p, q. split; [done|]. pose proof (vi_areas _ _ Hi) as Hok. rewrite Ea in Hok, Hsame.
  apply Forall_app in Hok as [Hok _]. split; [|split; [|done]].
  - eapply (loaded_same bytes _ (Sp.set_areas self segs) s); [done|done|].
    intros v t pm x Hx. destruct (loaded_has _ _ _ _ _ _ _ _ Hl Hx) as (_ & _ & _ & _ & -> & _).
    apply (Hsame v pm), has_app. by left.
  - eapply page_holds_same; [|exact Hz].
    apply (Hsame (USER_SPACE_END / 4096 - 1) ((PERMISSION_R .| PERMISSION_W) .| PERMISSION_U)).
    apply has_app. right. apply has_cons. left. by apply user_stack_sees.
Qed.

(** The empty space over the copied table *)
Lemma empty_space_grown k s pgt s1 :
  kernel_table k s → pgt_inv pgt s1 → rp_pages pgt = [rp_ppn pgt] → took (rp_ppn pgt) s s1 →
  (∀ i q, path_ok (i :: q) → node_at (mem_of s1) (rp_ppn pgt) (i :: q) = node_at (mem_of s) k (i :: q)) →
  (∀ q, full_path q → lookup_at (mem_of s1) (rp_ppn pgt) q = lookup_at (mem_of s) k q) →
  grown s (kernel_page k s) 1 (mk_VMSpace pgt [] 0 0 0) s1.
Proof using Type.
  intros [Hok _ Hwf Hfr Hlow Hsen] Hi Hpg (Hok1 & Hp & Hf & Hsame) Hn Hl. split.
  - split; cbn [root_pgt areas]; [done|by constructor|done|..].
    + by intros v t pm p []%has_nil.
    + by intros v t pm p []%has_nil.
    + by intros v1 v2 t1 t2 pm1 pm2 p []%has_nil.
    + intros v x Hv. unfold pgt_lookup. rewrite Hl by apply vpn_path_full. unfold vpn_path. cbn [lookup_at].
      rewrite Hlow by zlia. cbn [negb]. split; [done|]. by intros (t & pm & p & []%has_nil & _).
    + rewrite Hn; [done|]. apply path2_ok; unfold idx_ok; lia.
  - intros p. unfold owns. cbn [root_pgt areas]. rewrite Hf, Hpg, list_elem_of_singleton. split.
    + intros ?. destruct (decide (p = rp_ppn pgt)); tauto.
    + intros [[? _]|[->|(v & t & pm & []%has_nil)]]; done.
  - intros p Hnp. apply Hsame. by intros ->.
  - intros p ([|i q] & Hq & Hnq); cbn [root_pgt] in Hnq; [by injection Hnq as <-; left|].
    right. exists (i :: q). by rewrite <- Hn.
  - exists [rp_ppn pgt]. split; [done|]. intros p Hpf. rewrite Hf, list_elem_of_singleton.
    destruct (decide (p = rp_ppn pgt)); tauto.
Qed.

Lemma new_user_error_le bytes s elf n e :
  elf_new bytes = Ok elf → (n <= user_pages elf)%nat →
  load_error s n (elf_program_iter elf) e → new_user_error (file_pages bytes) bytes s e.
Proof using Type.
  intros Helf Hn He. unfold file_pages. rewrite Helf.
  assert (load_error s (user_pages elf) (elf_program_iter elf) e) as He'.
  { destruct e as [|v [| |]| | | | | | | |]; try done; cbn in *; by eapply scarce_le. }
  destruct e; try done; cbn; [by exists elf|right|..]; by exists elf.
Qed.

Lemma no_memory_error bytes s elf n e :
  elf_new bytes = Ok elf → (n <= user_pages elf)%nat → no_memory s n e →
  new_user_error (file_pages bytes) bytes s e.
Proof using Type.
  intros Helf Hn [He Hs]. apply (new_user_error_le _ _ elf n); [done..|].
  by destruct He as [->|[v ->]].
Qed.

(** An error drops the space. *)
Lemma give_up_wp n bytes s self s1 e (Q : VMSpace → S → Prop) :
  spent s (space_pages self) s1 → new_user_error n bytes s e →
  wp (Space.drop_space self;; mret (Err e)) (λ r s',
    match r with Ok self' => Q self' s' | Err e => undone s s' ∧ new_user_error n bytes s e end) s1.
Proof using Type.
  intros Hsp He. wp_step. eapply wp_mono; [by apply spent_drop_space|]. intros [] s2 Hun. by wp_step.
Qed.

Lemma new_user_wp k bytes s :
  file_ok bytes → kernel_table k s →
  wp (Space.new_user bytes) (λ r s',
    match r with
    | Ok self => ∃ elf, elf_new bytes = Ok elf ∧
        grown s (kernel_page k s) (user_pages elf) self s' ∧ program_space bytes elf self s'
    | Err e => undone s s' ∧ new_user_error (file_pages bytes) bytes s e
    end) s.
Proof using Type.
  intros Hfile Hkt. pose proof Hkt as [Hok _ Hwf Hfr Hlow _]. unfold Space.new_user. wp_step.
  eapply wp_intro; [by apply kernel_satp_ppn_run|]. wp_step.
  apply wp_get_ptes_mut; [by apply (wf_root_ram (mem_of s))|]. wp_step.
  eapply wp_mono; [apply (new_copy_inv k s Hok Hwf Hfr)|].
  { intros i Hi. cbn [node_at]. by rewrite child_invalid by (by apply Hlow). }
  intros [pgt|e] s1 Hr; cbn [map_err].
  2:{ destruct Hr as (-> & -> & Hnf). wp_step. split; [done|]. split; [done|].
    by eapply (scarce_le 0); [lia|apply scarce_none]. }
  destruct Hr as (Hi & Hpg & Htook & Hn & Hl).
  pose proof (empty_space_grown k s pgt s1 Hkt Hi Hpg Htook Hn Hl) as Hg. wp_step.
  eapply wp_mono; [by apply (map_user_elf_wp bytes Hfile s (kernel_page k s))|].
  intros [[[]|e] self2] s2 Hr2; cbv beta iota.
  2:{ destruct Hr2 as [Hsp He]. apply (give_up_wp (file_pages bytes) bytes s); [done|].
    destruct He as [(msg & -> & He)|(elf & Helf & He)]; [by left|].
    eapply new_user_error_le; [done| |done]. unfold user_pages. lia. }
  destruct Hr2 as (elf & Helf & Hentry & Hloaded & Hg2). pose proof (fl_segments _ Hfile elf Helf) as Hsegs.
  assert (below_stack self2) as Hbelow.
  { apply Forall_forall. intros a Ha. apply list_elem_of_lookup in Ha as [i Ha].
    destruct (Forall2_lookup_r _ _ _ _ _ Hloaded Ha) as (ph & Hph & Hfi).
    rewrite (fi_end _ _ _ _ _ Hfi). apply list_elem_of_lookup_2 in Hph.
    rewrite Forall_forall in Hsegs. by apply (segment_range bytes ph (Hsegs ph Hph)). }
  wp_step. eapply wp_mono; [by apply (add_user_stack_area_wp s (kernel_page k s))|].
  intros [[[]|e] self3] s3 Hr3; cbv beta iota.
  2:{ destruct Hr3 as [Hsp He]. apply (give_up_wp (file_pages bytes) bytes s); [done|].
    eapply no_memory_error; [done| |done]. unfold user_pages. lia. }
  destruct Hr3 as (Hsame3 & Hg3 & Hentry3 & Hsp3 & p & Ea3 & Hz).
  wp_step. eapply wp_mono; [apply (add_kernel_stack_area_wp s (kernel_page k s)); [|done]|].
  { rewrite Ea3. intros a [Ha| ->%list_elem_of_singleton]%elem_of_app.
    - unfold below_stack in Hbelow. rewrite Forall_forall in Hbelow.
      pose proof (Hbelow a Ha). assert ((USER_SPACE_END - USER_STACK_MAX_SIZE_BYTES) / 4096 < 2 ^ 26) by reflexivity. lia.
    - vm_compute. congruence. }
  intros [[[]|e] self4] s4 Hr4; cbv beta iota.
  2:{ destruct Hr4 as [Hsp He]. apply (give_up_wp (file_pages bytes) bytes s); [done|].
    eapply no_memory_error; [done| |done]. unfold user_pages. lia. }
  destruct Hr4 as (Hm4 & Hg4 & Hentry4 & Hsp4 & q & Ea4 & Hks). wp_step. exists elf. split; [done|]. split.
  { replace (user_pages elf) with (load_pages (elf_program_iter elf) + 3 + 1)%nat by (unfold user_pages; lia). done. }
  split; [|by rewrite Hentry4, Hentry3|by rewrite Hsp4].
  exists (areas self2), p, q. rewrite Ea4, Ea3, <- app_assoc. split; [done|]. split; [|split; [|done]].
  - eapply loaded_same; [done|apply (vi_areas _ _ (gr_inv _ _ _ _ _ Hg2))|].
    intros v t pm x Hh. rewrite Hm4. by eapply Hsame3.
  - intros b Hb. unfold page_holds in Hz. rewrite Hm4. by apply Hz.
Qed.
End new_user.

(** ** What the program sees *)
Section view.
Context {S : Type} `{PageSourceLaws S} `{!Has KERNEL_SATP S} `{XmasElf}.
Implicit Types (s : S) (self : VMSpace).

(** The pages of a segment, as the hardware reads them *)
Lemma segment_translate bytes l segments rest self s ph k :
  loaded bytes (loads l) segments s → areas self = segments ++ rest → vm_inv self s →
  ph ∈ loads l → 0 <= segment_start ph → segment_end ph <= 2 ^ 26 →
  segment_perm ph .& ((PERMISSION_R .| PERMISSION_W) .| PERMISSION_X) ≠ 0 →
  0 <= k < 4096 * (segment_end ph - segment_start ph) →
  ∃ pa, mmu_translate (mem_of s) (rp_ppn (root_pgt self)) (4096 * segment_start ph + k) =
      Some (pa, area_flags (segment_perm ph)) ∧ read_u8 (mem_of s) pa = segment_byte bytes ph k.
Proof using Type.
  intros Hl Ea Hi Hph Hst Hend Hperm Hk. apply list_elem_of_lookup in Hph as [i Hph].
  destruct (Forall2_lookup_l _ _ _ _ _ Hl Hph) as (a & Ha & Hf). apply list_elem_of_lookup_2 in Ha.
  set (va := 4096 * segment_start ph + k).
  assert (va / 4096 = segment_start ph + k / 4096 ∧ va mod 4096 = k mod 4096) as [Ev Em] by (unfold va; zlia).
  destruct (proj2 (fi_pages _ _ _ _ _ Hf (va / 4096))) as [p Hp]; [zlia|].
  assert (has (areas self) (va / 4096) Anonymous (segment_perm ph) (Some p)) as Hh.
  { rewrite Ea. apply has_app. left. exists a. split; [done|].
    split; [rewrite (fi_start _ _ _ _ _ Hf), (fi_end _ _ _ _ _ Hf); zlia|].
    split; [apply Hf|split; [apply Hf|done]]. }
  destruct (vi_perm _ _ _ _ _ _ Hi Hh) as [Hpm Hev].
  destruct (vi_owned _ _ Hi _ _ _ _ Hh) as (Hman & _). apply ps_managed_ram in Hman.
  exists (p * 4096 + va mod 4096). split.
  - destruct (user_va_valid va) as [Hu Hcan]; [unfold va; lia|].
    apply mmu_translate_page; [apply Hi|done|lia|by apply area_flags_usize| |].
    + apply (area_leaf_flags (segment_perm ph)); [done|done|by apply (vi_flags _ _ Hi _ _ _ _ Hh)|apply Z.land_diag|done].
    + apply (vi_agree _ _ Hi); [zlia|]. by exists Anonymous, (segment_perm ph), p.
  - pose proof (fi_bytes _ _ _ _ _ Hf _ _ Hp (va mod 4096) ltac:(zlia)) as Hb.
    unfold page_start in Hb. rewrite Hb. f_equal. rewrite Em, Ev. zlia.
Qed.

Lemma undone_undisturbed other s s' : vm_inv other s → undone s s' → undisturbed other s s'.
Proof using Type.
  intros Hi (Hok & Hf & Hs). apply vm_inv_frame; [done..|]. intros p Hp. rewrite Hf.
  assert (¬ ps_free s p) as Hnf; [|split; [by apply Hs|done]].
  destruct Hp as [Hp|Hp]; [by apply (vi_owns _ _ _ Hi)|by apply (vi_reaches _ _ _ Hi)].
Qed.
End view.

(** C5: [VMSpace::new_user] loads a program.  For every file whose segments lie in the file
    and below the user stack it returns.  [Ok]: a well-formed space made of free pages
    only, with one area per loaded segment, all its pages mapped with the segment's
    permissions and holding the bytes of the file and zeros behind them, as the hardware
    reads them, and with the two stacks and the entry point; [Err]: the file is no ELF
    file, a segment cannot be aligned or protected as it asks, two segments meet in a page,
    or memory is used up - and then every page is given back.  No other address space
    notices either way. *)
Theorem new_user_correct {S : Type} `{PageSourceLaws S} `{!Has KERNEL_SATP S} `{XmasElf}
    k bytes (s : S) :
  file_ok bytes → kernel_table k s →
  ∃ r s', Space.new_user bytes s = Ret r s' ∧
    (∀ other, vm_inv other s → undisturbed other s s') ∧
    match r with
    | Ok self =>
        vm_inv self s' ∧ (∀ p, ps_free s p ↔ ps_free s' p ∨ owns self p) ∧
        ∃ elf, elf_new bytes = Ok elf ∧ program_space bytes elf self s' ∧
        ∀ ph i, ph ∈ loads (elf_program_iter elf) →
          segment_perm ph .& ((PERMISSION_R .| PERMISSION_W) .| PERMISSION_X) ≠ 0 →
          0 <= i < 4096 * (segment_end ph - segment_start ph) →
          ∃ pa, mmu_translate (mem_of s') (rp_ppn (root_pgt self)) (4096 * segment_start ph + i) =
              Some (pa, area_flags (segment_perm ph)) ∧
            read_u8 (mem_of s') pa = segment_byte bytes ph i
    | Err e => (∀ p, ps_free s' p ↔ ps_free s p) ∧ new_user_error (file_pages bytes) bytes s e
    end.
Proof.
  intros Hfile Hk. destruct (wp_returns _ _ _ (new_user_wp k bytes s Hfile Hk)) as (r & s' & Hrun & Hr).
  exists r, s'. split; [done|]. destruct r as [self|e].
  - destruct Hr as (elf & Helf & Hg & Hprog). pose proof (gr_inv _ _ _ _ _ Hg) as Hi.
    split; [intros; by eapply grown_undisturbed|]. split; [done|]. split; [apply (gr_took _ _ _ _ _ Hg)|].
    exists elf. split; [done|]. split; [done|]. intros ph i Hph Hperm Hr.
    destruct (pr_areas _ _ _ _ Hprog) as (segs & p & q & Ea & Hl & _).
    pose proof (fl_segments _ Hfile elf Helf) as Hsegs. rewrite Forall_forall in Hsegs.
    destruct (segment_range bytes ph (Hsegs ph Hph)) as [? Hend].
    change ((USER_SPACE_END - USER_STACK_MAX_SIZE_BYTES) / 4096) with 67106815 in Hend.
    by eapply segment_translate; try done; lia.
  - destruct Hr as [Hun He]. split; [intros; by apply undone_undisturbed|]. split; [apply Hun|done].
Qed.

(** *** A program of one segment *)
#[local] Existing Instance sample_symbols.
Definition sample_elf : XmasElf := {|
  ElfFile := unit; ProgramHeader := unit;
  elf_new bytes := match bytes with [] => Err "" | _ => Ok tt end;
  elf_program_iter _ := [tt]; elf_entry_point _ := 0x10000;
  ph_is_load _ := Ok true; ph_align _ := 0x1000; ph_offset _ := 0; ph_file_size _ := 3;
  ph_virtual_addr _ := 0x10000; ph_mem_size _ := 5000;
  ph_is_read _ := true; ph_is_write _ := false; ph_is_execute _ := true;
|}.
Definition sample_booted : MM := upd (Pgt.get_satp sample_pgt : KERNEL_SATP) sample_pgt_mm.

Lemma sample_file_ok : @file_ok sample_elf [1; 2; 3].
Proof.
  split; [done|by repeat (constructor; [lia|])| |by intros [] _; vm_compute].
  intros [] _. constructor; [|constructor]. by split; vm_compute.
Qed.

Lemma sample_kernel_table : kernel_table 0x80706 sample_booted.
Proof.
  destruct sample_pgt_tables as (Hwf & Hn & Hnone). split.
  - apply (pi_ok _ _ sample_pgt_ok).
  - done.
  - apply (pi_wf _ _ sample_pgt_ok).
  - apply (pi_fresh _ _ sample_pgt_ok).
  - intros i Hi. change (PTE.is_valid (pte (sample_tree 0x80706 ∅) 0x80706 i) = false).
    rewrite sample_tree_low by done. by rewrite pte_zero_page by (apply empty_page_zero || unfold idx_ok; lia).
  - vm_compute. by eexists.
Qed.

Lemma sample_pages : @file_pages sample_elf [1; 2; 3] = 11%nat.
Proof. vm_compute. reflexivity. Qed.

(** Nothing goes wrong with it where there are enough pages. *)
Lemma sample_no_error {S : Type} `{PageSourceLaws S} n (s : S) e :
  ¬ scarce n s → ¬ new_user_error (H2 := sample_elf) n [1; 2; 3] s e.
Proof.
  intros Hmem.
  assert (∀ e, ¬ load_error (H2 := sample_elf) s n [tt] e) as Hload.
  { clear e. intros e. destruct e as [e|v e| | | |msg| | | |]; cbn [load_error]; try (by intros []); try exact Hmem.
    - destruct e as [|f|v' p]; [exact Hmem| |].
      + intros ([] & _ & -> & Hf). discriminate Hf.
      + intros (_ & i & j & ph1 & ph2 & Hij & Hi & Hj & _). apply lookup_lt_Some in Hi, Hj.
        change (length (@loads sample_elf [tt])) with 1%nat in Hi, Hj. lia.
    - intros ([] & _ & Hf). discriminate Hf.
    - intros ([] & _ & <- & Hf). by apply Hf. }
  assert (∀ e, ¬ ∃ elf, @elf_new sample_elf [1; 2; 3] = Ok elf ∧
    load_error (H2 := sample_elf) s n (@elf_program_iter sample_elf elf) e) as Hno.
  { intros e' ([] & _ & He). exact (Hload e' He). }
  destruct e; unfold new_user_error; try exact (Hno _).
  - intros [_ Hs]. exact (Hmem Hs).
  - intros [He|He]; [discriminate He|exact (Hno _ He)].
Qed.

Lemma new_user_correct_witness :
  ∃ self s' pa, @Space.new_user MM _ _ _ sample_elf [1; 2; 3] sample_booted = Ret (Ok self) s' ∧
    mmu_translate (mm_mem s') (rp_ppn (root_pgt self)) 0x10001 = Some (pa, 0x1b) ∧
    read_u8 (mm_mem s') pa = 2.
Proof.
  destruct (@new_user_correct MM _ _ (@page_source_laws_MM sample_symbols) _ sample_elf 0x80706 [1; 2; 3]
    sample_booted sample_file_ok sample_kernel_table) as (r & s' & Hrun & _ & Hr).
  destruct r as [self|e].
  2:{ destruct Hr as [_ He]. rewrite sample_pages in He.
    destruct (@sample_no_error MM _ _ (@page_source_laws_MM sample_symbols) 11 sample_booted e); [|exact He].
    apply spare_not_scarce, (sample_pgt_spare 12). lia. }
  destruct Hr as (_ & _ & [] & _ & _ & Hseg).
  destruct (Hseg tt 1) as (pa & Hpa & Hb).
  - left.
  - discriminate.
  - vm_compute. split; congruence.
  - exists self, s', pa. split; [exact Hrun|]. split; [exact Hpa|exact Hb].
Defined.
