(* ===== verification/KernelTable.v ===== *)
(** * The kernel's page table: [init_kernel_satp] of [src/os/src/mm/vm.rs]

    [KernelRegions] follows the build range by range; here are the tables it needs, what
    the whole table translates, and that it is the kernel table new address spaces copy. *)

From S2P Require Export NewUser KernelRegions.
From S2P Require Import PageAlloc.
From stdpp Require Import list.
Open Scope Z_scope.

(** ** The tables of the kernel half *)

(** Where its tables can lie: the root, two tables for the gigabytes of the devices and of
    the memory, one for each 2 MiB in use *)
Definition table_paths : list (list Z) :=
  [[]; [256]; [258]] ++ ((λ i, [256; i]) <$> [0; 16; 96; 97; 98; 128]) ++
  ((λ i, [258; i]) <$> seqZ 1 63).

Lemma length_omap_le {A B} (f : A → option B) l : (length (omap f l) <= length l)%nat.
Proof. induction l as [|x l IH]; [done|]. cbn. destruct (f x); cbn; lia. Qed.

Lemma prefix_cases q a b c : path_ok q → q `prefix_of` [a; b; c] → q = [] ∨ q = [a] ∨ q = [a; b].
Proof.
  intros [_ Hlen] [z Hz]. destruct q as [|x [|y [|w q]]]; simpl in *; [auto| | |lia].
  - injection Hz as <- _. auto.
  - injection Hz as <- <- _. auto.
Qed.

(** The indices of a page of the kernel half *)
Lemma kernel_indices v w :
  v = KERNEL_VA_OFFSET / 4096 + w → 0 <= w < 2 ^ 26 →
  v / 2 ^ 18 mod 512 = 256 + w / 2 ^ 18 ∧ v / 2 ^ 9 mod 512 = w / 2 ^ 9 mod 512.
Proof.
  change (KERNEL_VA_OFFSET / 4096) with (2 ^ 52 - 2 ^ 26). intros -> Hw. split; zlia.
Qed.

Lemma in_range_direct a b v :
  in_range (a + KERNEL_VA_OFFSET) (b + KERNEL_VA_OFFSET) v →
  let w := v - KERNEL_VA_OFFSET / 4096 in a / 4096 <= w ∧ w * 4096 < b.
Proof.
  unfold in_range. change (KERNEL_VA_OFFSET / 4096) with 4503599560261632.
  unfold KERNEL_VA_OFFSET. intros [Hs He]. split; zlia.
Qed.

Section tables.
Context `{KernelLayout}.

Lemma sections_between g :
  g ∈ sections ++ [phys_mem] →
  text_start <= rg_start g ∧ rg_end g <= 0x88000000 + KERNEL_VA_OFFSET.
Proof using Type*.
  pose proof layout_order as Ho. rewrite elem_of_app, list_elem_of_singleton.
  unfold sections. rewrite !elem_of_cons.
  intros [[->|[->|[->|[->|[->|Hg]]]]]| ->]; [..|by apply elem_of_nil in Hg|]; cbn; lia.
Qed.

Lemma regions_start g : g ∈ kernel_regions → 0x100000 + KERNEL_VA_OFFSET <= rg_start g.
Proof using Type*.
  pose proof layout_order as Ho. unfold kernel_regions. rewrite elem_of_app. intros [Hg|Hg].
  - apply list_elem_of_fmap in Hg as (d & -> & Hd). unfold QEMU_VIRT_MMIO in Hd.
    rewrite !elem_of_cons in Hd.
    destruct Hd as [->|[->|[->|[->|[->|[->|Hd]]]]]]; [..|by apply elem_of_nil in Hd]; cbn; lia.
  - destruct (sections_between g Hg). lia.
Qed.

Lemma covers_cases v :
  covers kernel_regions v → let w := v - KERNEL_VA_OFFSET / 4096 in
  0 <= w < 2 ^ 26 ∧
  (w / 2 ^ 18 = 0 ∧ w / 2 ^ 9 mod 512 ∈ [0; 16; 96; 97; 98; 128] ∨
   w / 2 ^ 18 = 2 ∧ w / 2 ^ 9 mod 512 ∈ seqZ 1 63).
Proof using Type*.
  intros (g & Hg & Hr) w. pose proof layout_order as Ho.
  unfold kernel_regions in Hg. rewrite elem_of_app in Hg. destruct Hg as [Hg|Hg].
  - apply list_elem_of_fmap in Hg as ([a n] & -> & Hd). unfold device in Hr. cbn [fst snd rg_start rg_end] in Hr.
    apply in_range_direct in Hr. fold w in Hr. clearbody w. unfold QEMU_VIRT_MMIO in Hd.
    rewrite !elem_of_cons in Hd. rewrite !elem_of_cons.
    destruct Hd as [[= -> ->]|[[= -> ->]|[[= -> ->]|[[= -> ->]|[[= -> ->]|[[= -> ->]|Hd]]]]]];
      [..|by apply elem_of_nil in Hd]; (split; [zlia|left; split; [zlia|]]).
    all: clear - Hr; zlia.
  - destruct (sections_between g Hg) as [Hlo Hhi].
    assert (in_range (0x80200000 + KERNEL_VA_OFFSET) (0x88000000 + KERNEL_VA_OFFSET) v) as Hr'.
    { destruct Hr. split; [|lia]. pose proof (Z.div_le_mono (0x80200000 + KERNEL_VA_OFFSET) (rg_start g) 4096). lia. }
    apply in_range_direct in Hr'. fold w in Hr'. clearbody w. clear - Hr'. rewrite elem_of_seqZ.
    split; [zlia|right; zlia].
Qed.

Lemma covers_paths q : path_ok q → along (covers kernel_regions) q → q ∈ table_paths.
Proof using Type*.
  intros Hq (v & Hv & Hp). destruct (covers_cases v Hv) as [Hw Hc].
  destruct (kernel_indices v (v - KERNEL_VA_OFFSET / 4096) ltac:(lia) Hw) as [E2 E1]. unfold vpn_path in Hp. rewrite E2, E1 in Hp.
  unfold table_paths. rewrite !elem_of_app, !list_elem_of_fmap, !elem_of_cons.
  destruct (prefix_cases _ _ _ _ Hq Hp) as [->|[->| ->]]; [by left; left| |].
  - left. right. destruct Hc as [[-> _]|[-> _]]; [by left|by right; left].
  - right. destruct Hc as [[-> Hc]|[-> Hc]]; [left|right]; eexists; (split; [|exact Hc]); done.
Qed.

(** At most 72 pages become tables. *)
Lemma tables_bound {S} `{PageSourceLaws S} (pgt0 pgt : RootPgt) (s0 s : S) :
  rp_pages pgt0 = [rp_ppn pgt0] → ranged (covers kernel_regions) pgt0 s0 pgt s →
  (length (rp_pages pgt) <= 72)%nat.
Proof using Type*.
  intros E0 (new & -> & Hi & Hst). cbn [rp_pages rp_ppn] in *.
  change 72%nat with (length table_paths).
  transitivity (length (omap (node_at (mem_of s) (rp_ppn pgt0)) table_paths)).
  - apply submseteq_length, NoDup_submseteq; [apply (pi_nodup _ _ Hi)|].
    intros p Hp. apply list_elem_of_omap. rewrite E0 in Hp.
    apply elem_of_app in Hp as [->%list_elem_of_singleton|Hp].
    + exists []. split; [by left|done].
    + destruct (mp_made _ _ _ _ _ Hst p Hp) as (q & Hq & Ha & Hn).
      exists q. split; [by apply covers_paths|done].
  - apply length_omap_le.
Qed.
End tables.

(** Where there is no last-level table, a 2 MiB region is mapped as a whole or not at all. *)
Lemma mmu_translate_region m root va va' :
  pgt_wf m root → va / 2 ^ 21 = va' / 2 ^ 21 →
  VPN.is_valid_va va = true → VPN.is_valid_va va' = true →
  node_at m root [va / 4096 / 2 ^ 18 mod 512; va / 4096 / 2 ^ 9 mod 512] = None →
  is_Some (mmu_translate m root va) → is_Some (mmu_translate m root va').
Proof.
  intros Hwf E Hv Hv' Hno. unfold mmu_translate. rewrite Hv, Hv'. cbn [negb].
  rewrite !mmu_walk_lookup by (done || apply vpn_path_full).
  assert (lookup_at m root (vpn_path (va' / 4096)) = lookup_at m root (vpn_path (va / 4096))) as ->.
  { assert (va / 4096 / 2 ^ 9 = va' / 4096 / 2 ^ 9) as E9 by zlia.
    assert (va / 4096 / 2 ^ 18 = va' / 4096 / 2 ^ 18) as E18 by zlia.
    unfold vpn_path. rewrite <- E9, <- E18.
    cbn [node_at] in Hno. unfold child in Hno. cbn [lookup_at]. cbv zeta.
    set (e2 := pte m root _) in *. set (e1 := pte m (pte_ppn e2) _) in *.
    destruct (PTE.is_valid e2); cbn [negb andb] in *; [|done].
    destruct (PTE.is_leaf e2); cbn [negb] in *; [done|]. fold e1 in Hno.
    destruct (PTE.is_valid e1); cbn [negb andb] in *; [|done].
    by destruct (PTE.is_leaf e1). }
  destruct (lookup_at _ _ _) as [[l e]|]; [|by intros []].
  destruct (mmu_accepts e); [|by intros []]. case_match; [by eexists|by intros []].
Qed.

(** ** [init_kernel_satp] *)

(** [KERNEL_SATP] is neither memory nor the page source's. *)
Class SatpApart (S : Type) `{PageSourceLaws S} `{!Has KERNEL_SATP S} := {
  satp_ok (k : KERNEL_SATP) (s : S) : ps_ok s → ps_ok (upd k s);
  satp_free (k : KERNEL_SATP) (s : S) p : ps_free (upd k s) p ↔ ps_free s p;
  satp_mem (k : KERNEL_SATP) (s : S) : mem_of (upd k s) = mem_of s;
}.

#[export] Instance satp_apart_MM `{LinkerSymbols} : SatpApart MM.
Proof. split; [by intros k [m a sp]|by intros k [m a sp]|by intros k [m a sp]]. Qed.

Section init.
Context {S : Type} `{PageSourceLaws S} `{!Has KERNEL_SATP S} `{!SatpApart S} `{!LinkerSymbols}
  `{!KernelLayout}.
Implicit Types s : S.

(** The empty table [Pgt.new] makes *)
Lemma new_built s pgt s1 :
  rp_pages pgt = [rp_ppn pgt] → ps_ok s → took (rp_ppn pgt) s s1 →
  pgt_wf (mem_of s1) (rp_ppn pgt) → pgt_fresh s1 (rp_ppn pgt) →
  (∀ q t, path_ok q → node_at (mem_of s1) (rp_ppn pgt) q = Some t → q = []) →
  (∀ q, full_path q → lookup_at (mem_of s1) (rp_ppn pgt) q = None) →
  built pgt s1 (covers kernel_regions) KERNEL_VA_OFFSET [] pgt s1.
Proof using Type.
  intros Ep Hok0 (Hok & Hp & Hf & _) Hwf Hfr Hroot Hempty.
  assert (pgt_inv pgt s1) as Hi.
  { split; [done|done|done| | |]; rewrite ?Ep.
    - apply NoDup_singleton.
    - intros p ->%list_elem_of_singleton. split; [by apply (ps_free_managed s)|].
      rewrite Hf. naive_solver.
    - intros q t Hq _ Hn. rewrite (Hroot q t Hq Hn) in Hn. injection Hn as ->. by left. }
  split.
  - by intros g Hg%elem_of_nil.
  - by intros v (g & Hg%elem_of_nil & _).
  - by apply ranged_refl.
  - split; [by intros g va _ Hg%elem_of_nil|]. intros va _ _.
    unfold mmu_translate. destruct (VPN.is_valid_va va); [|done]. cbn [negb].
    rewrite (mmu_walk_lookup _ _ _ Hwf) by apply vpn_path_full.
    by rewrite Hempty by apply vpn_path_full.
Qed.

(** The table built from [s] with root [k], in [s'] *)
Record table_built (k : Z) s s' : Prop := {
  tb_free_root : ps_free s k;
  tb_table : kernel_table k s';
  tb_maps : maps_regions kernel_regions k (mem_of s');
  tb_frame p : ¬ ps_free s p → page_same p (mem_of s) (mem_of s');
  tb_free p : ps_free s' p → ps_free s p;
  tb_took : took_at_most 72 s s';
}.

(** What [ranged] says of the pages, seen from before the root was allocated *)
Lemma ranged_pages V pgt s s1 pgt2 s2 :
  rp_pages pgt = [rp_ppn pgt] → took (rp_ppn pgt) s s1 →
  (∀ q t, path_ok q → node_at (mem_of s1) (rp_ppn pgt) q = Some t → q = []) →
  ranged V pgt s1 pgt2 s2 →
  (∀ p, ps_free s p ↔ ps_free s2 p ∨ p ∈ rp_pages pgt2) ∧
  (∀ p, ¬ ps_free s p → page_same p (mem_of s) (mem_of s2)).
Proof using Type.
  intros Ep (_ & Hp & Hf & Hsame) Hroot (new & -> & Hi & Hst). rewrite Ep in *. cbn [rp_pages rp_ppn] in *.
  pose proof (mp_free _ _ _ _ _ Hst) as Hf2. pose proof (mp_new _ _ _ _ _ Hst) as Hnew. split.
  - intros p. rewrite Hf2, Hf, elem_of_app, list_elem_of_singleton. split.
    + intros Hfp. destruct (decide (p = rp_ppn pgt)), (decide (p ∈ new)); tauto.
    + intros [?|[->|Hn]]; [tauto|done|]. apply Hnew, Hf in Hn. tauto.
  - intros p Hnf. assert (p ≠ rp_ppn pgt) by (intros ->; tauto).
    eapply page_same_trans; [by apply Hsame|]. apply (mp_frame _ _ _ _ _ Hst).
    intros q Hq Hn. destruct (mp_node _ _ _ _ _ Hst q p Hq Hn) as [Hn1|[Hn1 _]].
    + rewrite (Hroot q p Hq Hn1) in Hn1. cbn in Hn1. congruence.
    + apply Hnew, Hf in Hn1. tauto.
Qed.

(** The lower half of the root stays empty. *)
Lemma low_entries pgt s1 pgt2 s2 i :
  (∀ q t, path_ok q → node_at (mem_of s1) (rp_ppn pgt) q = Some t → q = []) →
  (∀ q, full_path q → lookup_at (mem_of s1) (rp_ppn pgt) q = None) →
  ranged (covers kernel_regions) pgt s1 pgt2 s2 → 0 <= i < 256 →
  PTE.is_valid (pte (mem_of s2) (rp_ppn pgt) i) = false.
Proof using Type*.
  intros Hroot Hempty (new & -> & _ & Hst) Hi.
  assert (∀ q, [i] `prefix_of` q → ¬ along (covers kernel_regions) q) as Hnot.
  { intros q Hq (v & Hv & Hp). destruct (covers_cases v Hv) as [Hw _].
    destruct (kernel_indices v (v - KERNEL_VA_OFFSET / 4096) ltac:(lia) Hw) as [E _].
    assert ([i] `prefix_of` vpn_path v) as [z Hz] by by etrans. injection Hz as Hz _.
    assert (0 <= (v - KERNEL_VA_OFFSET / 4096) / 2 ^ 18) by (apply Z.div_pos; lia). lia. }
  destruct (PTE.is_valid (pte (mem_of s2) (rp_ppn pgt) i)) eqn:Hv; [exfalso|done].
  destruct (PTE.is_leaf (pte (mem_of s2) (rp_ppn pgt) i)) eqn:Hl.
  - assert (full_path [i; 0; 0]) as Hf by (split; [repeat constructor; unfold idx_ok; lia|done]).
    destruct (mp_lookup _ _ _ _ _ Hst [i; 0; 0] Hf) as [Hs|Ha].
    + cbn [lookup_at]. cbv zeta. rewrite Hv. cbn [negb]. rewrite Hl. by eexists.
    + rewrite Hempty in Hs by done. by destruct Hs.
    + by apply (Hnot [i; 0; 0]); [exists [0; 0]|].
  - assert (path_ok [i]) as Hq by (split; [repeat constructor; unfold idx_ok; lia|simpl; lia]).
    assert (node_at (mem_of s2) (rp_ppn pgt) [i] = Some (pte_ppn (pte (mem_of s2) (rp_ppn pgt) i)))
      as Hn by (cbn [node_at]; unfold child; by rewrite Hv, Hl).
    destruct (mp_node _ _ _ _ _ Hst _ _ Hq Hn) as [Hn1|[_ Ha]].
    + by apply Hroot in Hn1.
    + by apply (Hnot [i]).
Qed.

(** The first device has a last-level table. *)
Lemma device_table pgt pgt2 s1 s2 :
  ranged (covers kernel_regions) pgt s1 pgt2 s2 → maps_regions kernel_regions (rp_ppn pgt) (mem_of s2) →
  is_Some (node_at (mem_of s2) (rp_ppn pgt) [256; 0]).
Proof using Type*.
  intros (new & -> & Hi & _) [Hin Hout].
  destruct (node_at (mem_of s2) (rp_ppn pgt) [256; 0]) eqn:En; [by eexists|exfalso].
  set (va := 0x100000 + KERNEL_VA_OFFSET).
  destruct (mmu_translate_region (mem_of s2) (rp_ppn pgt) va KERNEL_VA_OFFSET) as [x Hx].
  - apply (pi_wf _ _ Hi).
  - done.
  - done.
  - done.
  - exact En.
  - erewrite (Hin (device (0x100000, 0x1000)) va); [by eexists|vm_compute; split; congruence| |].
    + unfold kernel_regions. apply elem_of_app. left. by left.
    + unfold in_region. vm_compute. split; congruence.
  - rewrite Hout in Hx; [done|vm_compute; split; congruence|]. intros g Hg Hr.
    apply regions_start in Hg. unfold in_region in Hr.
    change (KERNEL_VA_OFFSET mod 4096) with 0 in Hr. lia.
Qed.

Lemma init_kernel_satp_eq :
  Kernel.init_kernel_satp =
  (r ← Pgt.new;
   match map_err CreateRootPgtFailed r with
   | Err e => mret (Err e)
   | Ok root_pgt =>
       '(r, root_pgt) ← build_table root_pgt;
       match r with
       | Err e => Space.drop_pages (rp_pages root_pgt);; mret (Err e)
       | Ok _ =>
           modify (upd (Pgt.get_satp root_pgt : KERNEL_SATP));;
           Pgt.forget_self root_pgt;;
           mret (Ok tt)
       end
   end).
Proof using Type. done. Qed.

(** Why the table is not built: not enough pages *)
Definition no_table (s : S) (e : VMError) : Prop :=
  scarce 72 s ∧ (e = CreateRootPgtFailed AcquirePageFailed ∨
    ∃ vpn, e = VMPgtError vpn AcquirePageFailed).

Lemma init_kernel_satp_wp s :
  ps_ok s →
  wp Kernel.init_kernel_satp (λ r s',
    ps_ok s' ∧ (∀ p, ¬ ps_free s p → page_same p (mem_of s) (mem_of s')) ∧
    match r with
    | Ok _ => ∃ k, table_built k s s'
    | Err e => (∀ p, ps_free s' p ↔ ps_free s p) ∧ no_table s e
    end) s.
Proof using Type*.
  intros Hok. rewrite init_kernel_satp_eq. wp_step. eapply wp_mono; [by apply new_wp|].
  intros [pgt|e] s1 Hnew; cbn [map_err].
  2:{ destruct Hnew as (-> & -> & Hno). wp_step. split_and!; [done..|].
    split; [|by left]. eapply scarce_le; [|by apply scarce_none]. lia. }
  destruct Hnew as (Ep & Htook & Hwf & Hfr & Hroot & Hempty).
  pose proof (new_built s pgt s1 Ep Hok Htook Hwf Hfr Hroot Hempty) as Hb.
  wp_step. eapply wp_mono; [by apply (build_table_wp pgt s1 (covers kernel_regions) Hempty Hroot)|].
  intros [[[]|e] pgt2] s2 Hs; cbn [stage] in Hs.
  - destruct Hs as [_ _ Hr Hm]. destruct (ranged_pages _ _ _ _ _ _ Ep Htook Hroot Hr) as [Hf Hsame].
    pose proof (tables_bound pgt pgt2 s1 s2 Ep Hr) as Hlen.
    pose proof Hr as (new & E & Hi & Hst). set (k := rp_ppn pgt) in *.
    unfold Pgt.forget_self. wp_step. wp_step. wp_step. wp_step. wp_step.
    assert (Pgt.get_satp pgt2 = Pgt.get_satp (mk_RootPgt k [])) as Esatp by (by rewrite E).
    split; [by apply satp_ok, (pi_ok _ _ Hi)|]. split; [intros p Hp; rewrite satp_mem; by apply Hsame|].
    exists k. split; [apply (proj1 (proj2 Htook))| | | | |].
    + split; rewrite ?satp_mem.
      * by apply satp_ok, (pi_ok _ _ Hi).
      * rewrite proj_upd. exact Esatp.
      * rewrite E in Hi. apply (pi_wf _ _ Hi).
      * intros p Hp q Hq. rewrite satp_mem. rewrite E in Hi.
        apply (pi_fresh _ _ Hi); [by apply satp_free in Hp|done].
      * intros i Hi'. by eapply (low_entries pgt s1 pgt2 s2).
      * by eapply (device_table pgt pgt2 s1 s2).
    + by rewrite satp_mem.
    + intros p Hp. rewrite satp_mem. by apply Hsame.
    + intros p Hp%satp_free. apply Hf. by left.
    + exists (rp_pages pgt2). split; [done|]. intros p Hp. rewrite satp_free. by apply Hf.
  - destruct Hs as (Hr & [vpn ->] & Hno).
    destruct (ranged_pages _ _ _ _ _ _ Ep Htook Hroot Hr) as [Hf Hsame].
    pose proof (tables_bound pgt pgt2 s1 s2 Ep Hr) as Hlen.
    pose proof Hr as (new & E & Hi & Hst).
    wp_step. eapply wp_mono; [apply (ps_drop_pages_law s2 (rp_pages pgt2));
      [apply (pi_ok _ _ Hi)|apply (pi_nodup _ _ Hi)|apply (pi_owned _ _ Hi)]|].
    intros [] s3 (Hok3 & Hm3 & Hf3). wp_step. split; [done|].
    split; [intros p Hp; rewrite Hm3; by apply Hsame|].
    split; [intros p; rewrite Hf3, Hf; tauto|]. split; [|right; by eexists].
    exists (rp_pages pgt2). split; [done|]. intros p Hp.
    apply Hf in Hp as [Hp|?]; [by destruct (Hno p)|done].
Qed.
End init.

(** C6: [init_kernel_satp] returns on every layout of the linker script.  With pages enough it
    stores a table in [KERNEL_SATP] whose upper half is exactly the direct map of the devices,
    the sections and the memory behind the image, each with its permissions, and whose lower
    half is empty; the tables are pages that were free and no other page is written.  It fails
    only if at most 72 pages are free, and then gives every page back. *)
Theorem init_kernel_satp_correct {S : Type} `{PageSourceLaws S} `{!Has KERNEL_SATP S} `{!SatpApart S}
    `{!LinkerSymbols} `{!KernelLayout} (s : S) :
  ps_ok s →
  ∃ r s', Kernel.init_kernel_satp s = Ret r s' ∧ ps_ok s' ∧
    (∀ p, ¬ ps_free s p → page_same p (mem_of s) (mem_of s')) ∧
    match r with
    | Ok _ => ∃ k, table_built k s s'
    | Err e => (∀ p, ps_free s' p ↔ ps_free s p) ∧ no_table s e
    end.
Proof.
  intros Hok. destruct (wp_returns _ _ _ (init_kernel_satp_wp s Hok)) as (r & s' & Hrun & Hr).
  by exists r, s'.
Qed.

#[export] Instance sample_layout : @KernelLayout sample_symbols.
Proof. split; vm_compute; repeat split; congruence. Qed.

Lemma sample_mm_ok : @ps_ok MM _ _ (@page_source_laws_MM sample_symbols) sample_mm.
Proof.
  split; [done|]. split; [done|vm_compute; congruence|constructor|]. by intros p Hp%elem_of_nil.
Qed.

Lemma sample_mm_spare : @spare MM _ _ (@page_source_laws_MM sample_symbols) 73 sample_mm.
Proof.
  exists (seqZ 0x80706 73). split; [apply NoDup_seqZ|]. split; [reflexivity|].
  intros p [Hp1 Hp2]%elem_of_seqZ. right. simpl. unfold LAST_PPN. lia.
Qed.

Lemma init_kernel_satp_correct_witness :
  ∃ k s', @Kernel.init_kernel_satp MM _ _ _ sample_symbols sample_mm = Ret (Ok tt) s' ∧
    mmu_translate (mm_mem s') k 0xffffffc080212345 = Some (0x80212345, 7) ∧
    mmu_translate (mm_mem s') k 0x80212345 = None.
Proof.
  destruct (@init_kernel_satp_correct MM _ _ (@page_source_laws_MM sample_symbols) _
    (@satp_apart_MM sample_symbols) sample_symbols sample_layout sample_mm sample_mm_ok)
    as ([[]|e] & s' & Hrun & _ & _ & Hr).
  - destruct Hr as (k & Hk). exists k, s'. split; [exact Hrun|].
    destruct (tb_maps _ _ _ Hk) as [Hin Hout]. split.
    + refine (Hin (mk_region 0xffffffc080211000 0xffffffc080215000 7) 0xffffffc080212345 _ _ _).
      * vm_compute. split; congruence.
      * unfold kernel_regions, sections. rewrite !elem_of_app. right. left. right. left.
      * vm_compute. split; congruence.
    + refine (Hout 0x80212345 _ _); [vm_compute; split; congruence|].
      intros g Hg%regions_start Hr. unfold in_region, KERNEL_VA_OFFSET in *.
      change (0x80212345 mod 4096) with 0x345 in Hr. lia.
  - destruct Hr as [_ [Hs _]]. destruct (spare_not_scarce 72 _ sample_mm_spare Hs).
Defined.
