(* ===== verification/Console.v ===== *)
(** * Console, log, timer and SBI: [src/os/src/console.rs], [console/log.rs],
    [timer.rs], [sbi.rs]

    The SBI firmware is outside the kernel: a call to it is recorded in a trace.  The
    [rdtime] instruction reads a counter whose successive values are part of the
    state.  [core::fmt] is a parameter. *)

From S2P Require Export Machine.
From Stdlib Require Import Ascii.
Open Scope Z_scope.

(** ** [sbi.rs] *)

Inductive sbi_call :=
  | ConsolePutchar (c : Z)
  | SetTimer (value : Z)
  | SystemReset (is_failure : bool).

(** The calls made so far *)
Record Sbi := mk_Sbi { sbi_trace : list sbi_call }.

Section sbi.
Context {S : Type} `{!Has Sbi S}.

Definition sbi_call_ (c : sbi_call) : M S unit :=
  modify (λ s, upd (mk_Sbi (sbi_trace (proj s) ++ [c])) s).
Definition console_putchar (c : Z) : M S unit := sbi_call_ (ConsolePutchar c).
Definition set_mtimecmp (value : Z) : M S unit := sbi_call_ (SetTimer value).
(** The firmware does not return from the reset: callers stop here. *)
Definition shutdown (is_failure : bool) : M S unit := sbi_call_ (SystemReset is_failure).
End sbi.

(** ** [timer.rs] *)

(** [mtime n] is what the [n]th [rdtime] reads. *)
Record Clock := mk_Clock { mtime : nat → Z; reads : nat }.

Section timer.
Context {S : Type} `{!Has Sbi S} `{!Has Clock S}.

Definition TIMEBASE_FREQUENCY : Z := 10000000.
Definition read_time : M S Z := λ s,
  let c := proj s : Clock in
  Ret (mtime c (reads c)) (upd (mk_Clock (mtime c) (Datatypes.S (reads c))) s).
Definition read_time_ms : M S Z :=
  t ← read_time;
  mret (t / (TIMEBASE_FREQUENCY / 1000)).
Definition set_next_timer_interrupt : M S unit :=
  t ← read_time;
  set_mtimecmp (TIMEBASE_FREQUENCY / 100 ⊕ t).
End timer.

(** ** [console.rs] *)

(** What a format argument may be: a value of any type with its formatting trait *)
Inductive fmt_arg := | FArg {T : Type} (x : T).
(** [core::fmt]: the characters of a format string with its arguments *)
Class Fmt := { format : string → list fmt_arg → list Z }.

Section print.
Context {S : Type} `{!Has Sbi S} `{Fmt}.

(** [Stdout::write_str] *)
Definition write_str (s : list Z) : M S unit := for_each s console_putchar.
Definition print (fmt : string) (args : list fmt_arg) : M S unit :=
  write_str (format fmt args).
End print.

(** ** [console/log.rs] *)

(** [static MAX_LEVEL_ORDINAL] *)
Record MAX_LEVEL_ORDINAL := mk_MAX_LEVEL_ORDINAL { max_level_ordinal : Z }.

Module Log.
Inductive Level := NONE | ERROR | WARN | INFO | DEBUG | TRACE.
#[export] Instance Level_eq_dec : EqDecision Level.
Proof. solve_decision. Defined.

(** [level as usize] *)
Definition ordinal (level : Level) : Z :=
  match level with
  | NONE => 0 | ERROR => 1 | WARN => 2 | INFO => 3 | DEBUG => 4 | TRACE => 5
  end.

Definition get_color_code (self : Level) : Z :=
  match self with
  | INFO => 34 | WARN => 93 | ERROR => 31 | DEBUG => 32 | TRACE => 90 | NONE => 0
  end.
Definition get_prefix (self : Level) : string :=
  match self with
  | INFO => "[ INFO]"
  | WARN => "[ WARN]"
  | ERROR => "[ERROR]"
  | DEBUG => "[DEBUG]"
  | TRACE => "[TRACE]"
  | NONE => "[ NONE]"
  end.

(** [str::eq_ignore_ascii_case] *)
Definition to_ascii_lowercase (c : ascii) : ascii :=
  let n := N_of_ascii c in
  if ((65 <=? n)%N && (n <=? 90)%N)%bool then ascii_of_N (n + 32) else c.
Fixpoint eq_ignore_ascii_case (a b : string) : bool :=
  match a, b with
  | EmptyString, EmptyString => true
  | String x a, String y b =>
      Ascii.eqb (to_ascii_lowercase x) (to_ascii_lowercase y) && eq_ignore_ascii_case a b
  | _, _ => false
  end.

(** [option_env!("LOG")] of the build *)
Class EnvLog := { env_LOG : option string }.

Section ops.
Context {S : Type} `{!Has Sbi S} `{!Has MAX_LEVEL_ORDINAL S} `{Fmt} `{EnvLog}.

Definition get_env_log_level : M S (option Level) :=
  match env_LOG with
  | None => mret None
  | Some env_setting =>
      level ← (if eq_ignore_ascii_case env_setting "none" then mret NONE
        else if eq_ignore_ascii_case env_setting "error" then mret ERROR
        else if eq_ignore_ascii_case env_setting "warn" then mret WARN
        else if eq_ignore_ascii_case env_setting "info" then mret INFO
        else if eq_ignore_ascii_case env_setting "debug" then mret DEBUG
        else if eq_ignore_ascii_case env_setting "trace" then mret TRACE
        else
          print "Invalid log level '{}', default to NONE.\n" [FArg env_setting];;
          mret NONE);
      mret (Some level)
  end.

Definition init : M S unit :=
  max_level ← get_env_log_level;
  modify (upd (mk_MAX_LEVEL_ORDINAL (ordinal (default NONE max_level)))).

Definition should_log (level : Level) : M S bool :=
  match level with
  | NONE => mret false
  | _ => gets (λ s, ordinal level <=? max_level_ordinal (proj s))
  end.

(** [log!(level, fmt, args)] and the macros of one level *)
Definition log (level : Level) (fmt : string) (args : list fmt_arg) : M S unit :=
  b ← should_log level;
  if (b : bool) then
    print ("\x1b[{}m{} " ++ fmt ++ "\x1b[0m\n")
      (FArg (get_color_code level) :: FArg (get_prefix level) :: args)
  else mret tt.
Definition error := log ERROR.
Definition warn := log WARN.
Definition info := log INFO.
Definition debug := log DEBUG.
Definition trace := log TRACE.
End ops.
End Log.

(** ** What a log line does *)
Section log_lemmas.
Context {S : Type} `{!Has Sbi S} `{!Has MAX_LEVEL_ORDINAL S}
  `{!Separate Sbi MAX_LEVEL_ORDINAL S} `{Fmt} `{Log.EnvLog}.
Implicit Types s : S.

(** The state after the characters [cs] were printed *)
Definition printed (cs : list Z) s : S :=
  upd (mk_Sbi (sbi_trace (proj s) ++ (ConsolePutchar <$> cs))) s.

Lemma printed_nil s : printed [] s = s.
Proof.
  unfold printed. rewrite app_nil_r. transitivity (upd (proj s : Sbi) s); [|apply upd_proj].
  by destruct (proj s : Sbi).
Qed.
Lemma printed_app cs ds s : printed ds (printed cs s) = printed (cs ++ ds) s.
Proof. unfold printed. rewrite proj_upd, upd_upd. simpl. by rewrite fmap_app, app_assoc. Qed.

Lemma write_str_run cs s : write_str cs s = Ret tt (printed cs s).
Proof.
  revert s. induction cs as [|c cs IH]; intros s; [by rewrite printed_nil|].
  change (write_str (c :: cs) s) with (write_str cs (printed [c] s)).
  by rewrite IH, printed_app.
Qed.

Lemma printed_level cs s :
  (proj (printed cs s) : MAX_LEVEL_ORDINAL) = (proj s : MAX_LEVEL_ORDINAL).
Proof. apply separate. Qed.

(** The characters of a log line *)
Definition log_line (level : Log.Level) (fmt : string) (args : list fmt_arg) : list Z :=
  format ("\x1b[{}m{} " ++ fmt ++ "\x1b[0m\n")
    (FArg (Log.get_color_code level) :: FArg (Log.get_prefix level) :: args).

Lemma log_run level fmt args s :
  Log.log level fmt args s =
  Ret tt (printed (if (1 <=? Log.ordinal level) &&
                      (Log.ordinal level <=? max_level_ordinal (proj s))
                   then log_line level fmt args else []) s).
Proof.
  unfold Log.log, Log.should_log, print, mbind, M_bind.
  destruct level; cbn [mret M_ret gets Log.ordinal andb Z.leb Z.compare Pos.compare Pos.compare_cont];
    [by rewrite printed_nil|..];
    (case_match; [by rewrite write_str_run|by rewrite printed_nil]).
Qed.

(** The level a setting of [LOG] names, whatever its case; [NONE] by default *)
Definition level_names : list (string * Log.Level) :=
  [("none", Log.NONE); ("error", Log.ERROR); ("warn", Log.WARN); ("info", Log.INFO);
   ("debug", Log.DEBUG); ("trace", Log.TRACE)]%string.
Definition named_level (o : option string) : Log.Level :=
  match o with
  | None => Log.NONE
  | Some s =>
      match find (λ nl, Log.eq_ignore_ascii_case s nl.1) level_names with
      | Some (_, l) => l
      | None => Log.NONE
      end
  end.

Lemma log_init_run s : ∃ cs,
  Log.init s = Ret tt (upd (mk_MAX_LEVEL_ORDINAL (Log.ordinal (named_level Log.env_LOG)))
                         (printed cs s)).
Proof.
  unfold Log.init, Log.get_env_log_level, named_level, mbind, M_bind.
  destruct Log.env_LOG as [e|]; [|exists []; by rewrite printed_nil].
  cbn [find level_names fst snd].
  repeat match goal with
  | |- context [Log.eq_ignore_ascii_case e ?n] =>
      destruct (Log.eq_ignore_ascii_case e n);
        [exists []; rewrite printed_nil; reflexivity|]
  end.
  unfold print. rewrite write_str_run. by eexists.
Qed.
End log_lemmas.

(** ** The log filter *)

(** C38: after [log::init] a message prints exactly when its level is not [NONE] and at
    most the level the [LOG] setting of the build names - in any case, [NONE] if it is
    unset or names no level - and then it prints one coloured line; a message never
    does anything else. *)
Theorem log_filter {S : Type} `{!Has Sbi S} `{!Has MAX_LEVEL_ORDINAL S}
    `{!Separate Sbi MAX_LEVEL_ORDINAL S} `{Fmt} `{Log.EnvLog} level fmt args (s s1 s2 : S) :
  Log.init s = Ret tt s1 →
  (proj s2 : MAX_LEVEL_ORDINAL) = proj s1 →
  Log.log level fmt args s2 =
    Ret tt (printed (if (1 <=? Log.ordinal level) &&
                        (Log.ordinal level <=? Log.ordinal (named_level Log.env_LOG))
                     then log_line level fmt args else []) s2).
Proof.
  intros Hinit Hs2. destruct (log_init_run s) as [cs Hrun]. rewrite Hrun in Hinit.
  injection Hinit as <-. rewrite proj_upd in Hs2. by rewrite log_run, Hs2.
Qed.

(** An example: [LOG=Info], with a formatter that prints nothing but the line end *)
#[local] Instance sample_env : Log.EnvLog := {| Log.env_LOG := Some "Info"%string |}.
#[local] Instance sample_fmt : Fmt := {| format := λ _ _, [10] |}.
Definition log_state : Type := Sbi * MAX_LEVEL_ORDINAL.
#[local] Instance log_state_sbi : Has Sbi log_state.
Proof. refine {| proj := fst; upd t s := (t, s.2) |}; by intros; repeat destruct s. Defined.
#[local] Instance log_state_level : Has MAX_LEVEL_ORDINAL log_state.
Proof. refine {| proj := snd; upd t s := (s.1, t) |}; by intros; repeat destruct s. Defined.
#[local] Instance log_state_separate : Separate Sbi MAX_LEVEL_ORDINAL log_state.
Proof. done. Defined.

Lemma log_filter_witness :
  let s : log_state := (mk_Sbi [], mk_MAX_LEVEL_ORDINAL 0) in
  let s1 : log_state := (mk_Sbi [], mk_MAX_LEVEL_ORDINAL 3) in
  Log.warn "hi" [] s1 = Ret tt (mk_Sbi [ConsolePutchar 10], mk_MAX_LEVEL_ORDINAL 3) ∧
  Log.debug "hi" [] s1 = Ret tt s1.
Proof.
  split.
  - exact (@log_filter log_state _ _ _ _ _ Log.WARN "hi" [] (mk_Sbi [], mk_MAX_LEVEL_ORDINAL 0)
      (mk_Sbi [], mk_MAX_LEVEL_ORDINAL 3) (mk_Sbi [], mk_MAX_LEVEL_ORDINAL 3)
      eq_refl eq_refl).
  - exact (@log_filter log_state _ _ _ _ _ Log.DEBUG "hi" [] (mk_Sbi [], mk_MAX_LEVEL_ORDINAL 0)
      (mk_Sbi [], mk_MAX_LEVEL_ORDINAL 3) (mk_Sbi [], mk_MAX_LEVEL_ORDINAL 3)
      eq_refl eq_refl).
Defined.
