(* ===== verification/Utf8.v ===== *)
(** * UTF-8, as [core::str] decodes and encodes it

    [str::from_utf8] and the characters of the string it accepts; used by [sys_write],
    by the registry of applications and, encoding, by the user's console. *)

From S2P Require Export Prelude.
From stdpp Require Import list.
Open Scope Z_scope.

(** A [char]: a Unicode scalar value *)
Definition is_char (c : Z) : Prop := 0 <= c < 0xD800 ∨ 0xE000 <= c < 0x110000.

Definition in_range (lo hi b : Z) : bool := (lo <=? b) && (b <=? hi).
Definition cont (b : Z) : bool := in_range 0x80 0xBF b.

(** The ranges of the second byte after a three- and a four-byte lead *)
Definition second3 (b0 b1 : Z) : bool :=
  in_range (if b0 =? 0xE0 then 0xA0 else 0x80) (if b0 =? 0xED then 0x9F else 0xBF) b1.
Definition second4 (b0 b1 : Z) : bool :=
  in_range (if b0 =? 0xF0 then 0x90 else 0x80) (if b0 =? 0xF4 then 0x8F else 0xBF) b1.

(** [str::from_utf8(bytes)], as the characters of the string *)
Fixpoint utf8_chars (bytes : list Z) : option (list Z) :=
  match bytes with
  | [] => Some []
  | b0 :: l =>
      if in_range 0 0x7F b0 then (b0 ::.) <$> utf8_chars l
      else
        match l with
        | [] => None
        | b1 :: l =>
            if in_range 0xC2 0xDF b0 && cont b1
            then (((b0 - 0xC0) * 64 + (b1 - 0x80)) ::.) <$> utf8_chars l
            else
              match l with
              | [] => None
              | b2 :: l =>
                  if in_range 0xE0 0xEF b0 && second3 b0 b1 && cont b2
                  then (((b0 - 0xE0) * 4096 + (b1 - 0x80) * 64 + (b2 - 0x80)) ::.) <$>
                         utf8_chars l
                  else
                    match l with
                    | [] => None
                    | b3 :: l =>
                        if in_range 0xF0 0xF4 b0 && second4 b0 b1 && cont b2 && cont b3
                        then (((b0 - 0xF0) * 262144 + (b1 - 0x80) * 4096 + (b2 - 0x80) * 64 +
                               (b3 - 0x80)) ::.) <$> utf8_chars l
                        else None
                    end
              end
        end
  end.

(** [c.encode_utf8()], and the bytes of a string *)
Definition utf8_encode (c : Z) : list Z :=
  if c <? 0x80 then [c]
  else if c <? 0x800 then [0xC0 + c / 64; 0x80 + c mod 64]
  else if c <? 0x10000 then [0xE0 + c / 4096; 0x80 + c / 64 mod 64; 0x80 + c mod 64]
  else [0xF0 + c / 262144; 0x80 + c / 4096 mod 64; 0x80 + c / 64 mod 64; 0x80 + c mod 64].
Definition utf8_bytes (cs : list Z) : list Z := cs ≫= utf8_encode.

(** The digits of [c] in base 64 *)
Lemma base64_3 c : 0 <= c → ∃ x y z, c / 4096 = x ∧ c / 64 mod 64 = y ∧ c mod 64 = z ∧
  c = x * 4096 + y * 64 + z ∧ 0 <= x ∧ 0 <= y < 64 ∧ 0 <= z < 64.
Proof. intros. do 3 eexists. split; [done|]. split; [done|]. split; [done|]. zlia. Qed.
Lemma base64_4 c : 0 <= c → ∃ w x y z,
  c / 262144 = w ∧ c / 4096 mod 64 = x ∧ c / 64 mod 64 = y ∧ c mod 64 = z ∧
  c = w * 262144 + x * 4096 + y * 64 + z ∧ 0 <= w ∧ 0 <= x < 64 ∧ 0 <= y < 64 ∧ 0 <= z < 64.
Proof.
  intros. do 4 eexists. split; [done|]. split; [done|]. split; [done|]. split; [done|]. zlia.
Qed.

Lemma in_range_true lo hi b : lo <= b <= hi → in_range lo hi b = true.
Proof. unfold in_range. lia. Qed.
Lemma in_range_false lo hi b : b < lo ∨ hi < b → in_range lo hi b = false.
Proof. unfold in_range. lia. Qed.
Lemma cont_true d : 0 <= d < 64 → cont (0x80 + d) = true.
Proof. intros. apply in_range_true. lia. Qed.
Lemma second3_true x y : 0 <= y < 64 → (x = 0 → 32 <= y) → (x = 13 → y < 32) →
  second3 (0xE0 + x) (0x80 + y) = true.
Proof.
  intros. unfold second3. apply in_range_true.
  destruct (Z.eqb_spec (0xE0 + x) 0xE0), (Z.eqb_spec (0xE0 + x) 0xED); lia.
Qed.
Lemma second4_true x y : 0 <= y < 64 → (x = 0 → 16 <= y) → (x = 4 → y < 16) →
  second4 (0xF0 + x) (0x80 + y) = true.
Proof.
  intros. unfold second4. apply in_range_true.
  destruct (Z.eqb_spec (0xF0 + x) 0xF0), (Z.eqb_spec (0xF0 + x) 0xF4); lia.
Qed.

(** One character of three or four bytes *)
Lemma utf8_chars_3 b0 b1 b2 l :
  in_range 0 0x7F b0 = false → in_range 0xC2 0xDF b0 = false →
  in_range 0xE0 0xEF b0 = true → second3 b0 b1 = true → cont b2 = true →
  utf8_chars (b0 :: b1 :: b2 :: l) =
    (((b0 - 0xE0) * 4096 + (b1 - 0x80) * 64 + (b2 - 0x80)) ::.) <$> utf8_chars l.
Proof. intros H1 H2 H3 H4 H5. simpl. by rewrite H1, H2, H3, H4, H5. Qed.
Lemma utf8_chars_4 b0 b1 b2 b3 l :
  in_range 0 0x7F b0 = false → in_range 0xC2 0xDF b0 = false → in_range 0xE0 0xEF b0 = false →
  in_range 0xF0 0xF4 b0 = true → second4 b0 b1 = true → cont b2 = true → cont b3 = true →
  utf8_chars (b0 :: b1 :: b2 :: b3 :: l) =
    (((b0 - 0xF0) * 262144 + (b1 - 0x80) * 4096 + (b2 - 0x80) * 64 + (b3 - 0x80)) ::.) <$>
      utf8_chars l.
Proof. intros H1 H2 H3 H4 H5 H6 H7. simpl. by rewrite H1, H2, H3, H4, H5, H6, H7. Qed.

Lemma utf8_encode_chars c l :
  is_char c → utf8_chars (utf8_encode c ++ l) = (c ::.) <$> utf8_chars l.
Proof.
  intros Hc. unfold is_char in Hc. unfold utf8_encode.
  destruct (Z.ltb_spec c 0x80).
  { simpl. assert (in_range 0 127 c = true) as -> by (unfold in_range; lia). done. }
  destruct (Z.ltb_spec c 0x800).
  { simpl. assert (in_range 0 127 (192 + c / 64) = false) as -> by (unfold in_range; zlia).
    assert (in_range 194 223 (192 + c / 64) = true) as -> by (unfold in_range; zlia).
    assert (cont (128 + c mod 64) = true) as -> by (unfold cont, in_range; zlia).
    simpl. f_equal. f_equal. zlia. }
  destruct (Z.ltb_spec c 0x10000).
  - destruct (base64_3 c) as (x & y & z & -> & -> & -> & E & ? & ? & ?); [lia|].
    cbn [app]. rewrite utf8_chars_3; [do 2 f_equal; lia|..];
      (apply second3_true || apply cont_true || apply in_range_false || apply in_range_true); lia.
  - destruct (base64_4 c) as (w & x & y & z & -> & -> & -> & -> & E & ? & ? & ? & ?); [lia|].
    cbn [app]. rewrite utf8_chars_4; [do 2 f_equal; lia|..];
      (apply second4_true || apply cont_true || apply in_range_false || apply in_range_true); lia.
Qed.

(** [str::from_utf8] reads back the characters of every string: decoding the bytes
    of a list of scalar values succeeds and gives the list. *)
Theorem utf8_roundtrip cs : Forall is_char cs → utf8_chars (utf8_bytes cs) = Some cs.
Proof.
  induction 1 as [|c cs Hc _ IH]; [done|].
  change (utf8_bytes (c :: cs)) with (utf8_encode c ++ utf8_bytes cs).
  by rewrite utf8_encode_chars, IH.
Qed.

Lemma utf8_roundtrip_witness : utf8_chars (utf8_bytes [0x48; 0xE9; 0x20AC; 0x1F600]) =
  Some [0x48; 0xE9; 0x20AC; 0x1F600].
Proof. apply utf8_roundtrip. repeat constructor; unfold is_char; lia. Defined.
