(* ===== verification/Apps.v ===== *)
(** * The registry of applications: [src/os/src/task/apps.rs]

    The build script embeds every application in the kernel image behind a table at
    [_num_apps]: the number of applications, then four addresses for each.  The code
    below reads that table from memory. *)

From S2P Require Export Utf8 Console Addr.
From stdpp Require Import list.
Open Scope Z_scope.

(** ** Pointers and slices *)

Section slices.
Context {S : Type} `{!Has mem S}.

(** [slice::from_raw_parts(start, len)] *)
Definition load_bytes (start len : Z) : M S (list Z) :=
  gets (λ s, (λ i, read_u8 (mem_of s) (start ⊕ i - KERNEL_VA_OFFSET)) <$> range 0 len).
End slices.

Definition APP_META_ITEMS : Z := 4.

(** The symbol of the generated [link_apps.S] *)
Class AppSymbols := { _num_apps : Z }.

Module Apps.
Section ops.
Context {S : Type} `{!Has mem S} `{AppSymbols}.

Definition get_app_meta_base : Z := _num_apps.
(** [get_app_meta_base().add(i).read()] *)
Definition read_meta (i : Z) : M S Z := load_u64 (get_app_meta_base ⊕ umul 8 i).
Definition get_total_apps : M S Z := load_u64 get_app_meta_base.

Definition get_app_name (app_index : Z) : M S (list Z) :=
  total ← get_total_apps;
  if total <=? app_index then mret []
  else
    name_start ← read_meta (umul app_index APP_META_ITEMS ⊕ 1);
    name_end ← read_meta (umul app_index APP_META_ITEMS ⊕ 2);
    let name_len := name_end ⊖ name_start in
    slice ← load_bytes name_start name_len;
    mret (default [] (utf8_chars slice)).

Definition get_app_elf_start (app_index : Z) : M S Z :=
  total ← get_total_apps;
  if total <=? app_index then mret 0
  else read_meta (umul app_index APP_META_ITEMS ⊕ 3).
Definition get_app_elf_end (app_index : Z) : M S Z :=
  total ← get_total_apps;
  if total <=? app_index then mret 0
  else read_meta (umul app_index APP_META_ITEMS ⊕ 4).

Definition get_app_elf (app_index : Z) : M S (list Z) :=
  elf_start ← get_app_elf_start app_index;
  elf_end ← get_app_elf_end app_index;
  let elf_size := elf_end ⊖ elf_start in
  load_bytes elf_start elf_size.

Definition log_app_elfs `{!Has Sbi S} `{!Has MAX_LEVEL_ORDINAL S} `{Fmt} : M S unit :=
  total_apps ← get_total_apps;
  for_each (range 0 total_apps) (λ i,
    name ← get_app_name i;
    start ← get_app_elf_start i;
    end_ ← get_app_elf_end i;
    let size := end_ ⊖ start in
    Log.debug "app {} elf [{:#x}, {:#x}) size={}, name={}"
      [FArg i; FArg start; FArg end_; FArg size; FArg name]).
End ops.
End Apps.

(** ** What the linker leaves in memory *)
Section linked.
Context `{AppSymbols}.

(** A word, and a string of bytes, at a kernel address *)
Definition word_at (m : mem) (va w : Z) : Prop := read_u64 m (va - KERNEL_VA_OFFSET) = w.
Definition bytes_at (m : mem) (va : Z) (bs : list Z) : Prop :=
  is_usize va ∧ va + Z.of_nat (length bs) < USIZE_MODULUS ∧
  ∀ i b, bs !! i = Some b → read_u8 m (va + Z.of_nat i - KERNEL_VA_OFFSET) = b.

(** An application: the bytes of its name and of its ELF file *)
Record app := mk_app { app_name : list Z; app_elf : list Z }.

(** The entry of one application and what it points to *)
Definition app_at (m : mem) (i : Z) (a : app) : Prop :=
  ∃ ns es,
    word_at m (_num_apps + 8 * (4 * i + 1)) ns ∧
    word_at m (_num_apps + 8 * (4 * i + 2)) (ns + Z.of_nat (length (app_name a))) ∧
    word_at m (_num_apps + 8 * (4 * i + 3)) es ∧
    word_at m (_num_apps + 8 * (4 * i + 4)) (es + Z.of_nat (length (app_elf a))) ∧
    bytes_at m ns (app_name a) ∧ bytes_at m es (app_elf a).

Definition apps_linked (m : mem) (apps : list app) : Prop :=
  0 <= _num_apps ∧ _num_apps + 8 * (4 * Z.of_nat (length apps) + 1) < USIZE_MODULUS ∧
  word_at m _num_apps (Z.of_nat (length apps)) ∧
  ∀ i a, apps !! i = Some a → app_at m (Z.of_nat i) a.
End linked.

Section read.
Context {S : Type} `{!Has mem S} `{AppSymbols}.
Implicit Types s : S.

Lemma load_bytes_run m va bs s :
  mem_of s = m → bytes_at m va bs →
  load_bytes va (va + Z.of_nat (length bs) ⊖ va) s = Ret bs s.
Proof.
  intros <- (Hva & Hlt & Hb). unfold load_bytes, gets. f_equal.
  rewrite usub_small by (unfold is_usize in *; lia).
  replace (va + Z.of_nat (length bs) - va) with (Z.of_nat (length bs)) by lia.
  apply list_eq. intros i. rewrite list_lookup_fmap. unfold range.
  destruct (bs !! i) as [b|] eqn:Hi.
  - pose proof (lookup_lt_Some _ _ _ Hi). rewrite lookup_seqZ_lt by lia. simpl. f_equal.
    rewrite uadd_small by (unfold is_usize in *; lia). rewrite Z.add_0_l. by apply Hb.
  - apply lookup_ge_None in Hi. by rewrite lookup_seqZ_ge by lia.
Qed.

Lemma read_meta_run m apps k w s :
  mem_of s = m → apps_linked m apps → 0 <= k <= 4 * Z.of_nat (length apps) →
  word_at m (_num_apps + 8 * k) w → Apps.read_meta k s = Ret w s.
Proof.
  intros <- (Hb0 & Hlt & _) Hk <-. unfold Apps.read_meta, Apps.get_app_meta_base, load_u64, gets.
  unfold umul. rewrite wrap_small by (unfold is_usize, USIZE_MODULUS in *; lia).
  by rewrite uadd_small by lia.
Qed.

Lemma get_total_apps_run m apps s :
  mem_of s = m → apps_linked m apps → Apps.get_total_apps s = Ret (Z.of_nat (length apps)) s.
Proof. intros <- (_ & _ & <- & _). done. Qed.

(** The four words of one application *)
Lemma app_meta_run apps i a s :
  apps_linked (mem_of s) apps → 0 <= i → apps !! Z.to_nat i = Some a →
  ∃ ns es,
    Apps.read_meta (umul i APP_META_ITEMS ⊕ 1) s = Ret ns s ∧
    Apps.read_meta (umul i APP_META_ITEMS ⊕ 2) s = Ret (ns + Z.of_nat (length (app_name a))) s ∧
    Apps.get_app_elf_start i s = Ret es s ∧
    Apps.get_app_elf_end i s = Ret (es + Z.of_nat (length (app_elf a))) s ∧
    bytes_at (mem_of s) ns (app_name a) ∧ bytes_at (mem_of s) es (app_elf a).
Proof.
  intros Hl Hi Ha. pose proof (lookup_lt_Some _ _ _ Ha).
  pose proof Hl as (Hb0 & Hlt & _ & Happ). unfold USIZE_MODULUS in Hlt.
  destruct (Happ _ _ Ha) as (ns & es & W1 & W2 & W3 & W4 & Bn & Be).
  rewrite Z2Nat.id in W1, W2, W3, W4 by lia.
  assert (∀ k, 0 <= k <= 4 → umul i APP_META_ITEMS ⊕ k = 4 * i + k) as Ek.
  { intros k Hk. unfold APP_META_ITEMS, umul.
    rewrite wrap_small by (unfold is_usize, USIZE_MODULUS; lia).
    rewrite uadd_small by (unfold USIZE_MODULUS; lia). lia. }
  exists ns, es. unfold Apps.get_app_elf_start, Apps.get_app_elf_end. rewrite !Ek by lia.
  rewrite !(bind_run _ _ _ _ _ (get_total_apps_run (mem_of s) apps s eq_refl Hl)).
  destruct (Z.leb_spec (Z.of_nat (length apps)) i); [lia|].
  split_and!; (done || by (apply (read_meta_run (mem_of s) apps); (done || lia))).
Qed.

Lemma get_app_elf_run apps i a s :
  apps_linked (mem_of s) apps → 0 <= i → apps !! Z.to_nat i = Some a →
  Apps.get_app_elf i s = Ret (app_elf a) s.
Proof.
  intros Hl Hi Ha. destruct (app_meta_run apps i a s Hl Hi Ha) as (ns & es & _ & _ & R3 & R4 & _ & Be).
  unfold Apps.get_app_elf. erewrite bind_run by exact R3. erewrite bind_run by exact R4.
  by apply (load_bytes_run (mem_of s)).
Qed.

Lemma get_app_name_run apps i a s :
  apps_linked (mem_of s) apps → 0 <= i → apps !! Z.to_nat i = Some a →
  Apps.get_app_name i s = Ret (default [] (utf8_chars (app_name a))) s.
Proof.
  intros Hl Hi Ha. destruct (app_meta_run apps i a s Hl Hi Ha) as (ns & es & R1 & R2 & _ & _ & Bn & _).
  unfold Apps.get_app_name. erewrite bind_run by by apply (get_total_apps_run (mem_of s)).
  pose proof (lookup_lt_Some _ _ _ Ha). destruct (Z.leb_spec (Z.of_nat (length apps)) i); [lia|].
  erewrite bind_run by exact R1. erewrite bind_run by exact R2.
  by erewrite bind_run by by apply (load_bytes_run (mem_of s)).
Qed.
End read.

(** C37: the registry reads back what was linked: for every embedded application
    [get_app_elf] returns its file byte by byte and [get_app_name] its name, decoded as
    UTF-8 - also where it is not ASCII, unlike what the comment on [get_app_name] says -,
    or an empty one if it is not UTF-8; past the last one both are empty.  Nothing
    changes. *)
Theorem apps_registry {S : Type} `{!Has mem S} `{AppSymbols} apps i (s : S) :
  apps_linked (mem_of s) apps → 0 <= i < 2 ^ 60 →
  Apps.get_total_apps s = Ret (Z.of_nat (length apps)) s ∧
  match apps !! Z.to_nat i with
  | Some a =>
      Apps.get_app_elf i s = Ret (app_elf a) s ∧
      Apps.get_app_name i s = Ret (default [] (utf8_chars (app_name a))) s
  | None =>
      Apps.get_app_elf i s = Ret [] s ∧ Apps.get_app_name i s = Ret [] s
  end.
Proof.
  intros Hl Hi. split; [by apply (get_total_apps_run (mem_of s))|].
  destruct (apps !! Z.to_nat i) as [a|] eqn:Ha.
  - split; [apply (get_app_elf_run apps)|apply (get_app_name_run apps)]; (done || lia).
  - apply lookup_ge_None in Ha.
    assert (Apps.get_app_elf_start i s = Ret 0 s ∧ Apps.get_app_elf_end i s = Ret 0 s ∧
      Apps.get_app_name i s = Ret [] s) as (R1 & R2 & R3).
    { unfold Apps.get_app_elf_start, Apps.get_app_elf_end, Apps.get_app_name.
      rewrite !(bind_run _ _ _ _ _ (get_total_apps_run (mem_of s) apps s eq_refl Hl)).
      by destruct (Z.leb_spec (Z.of_nat (length apps)) i); [|lia]. }
    split; [|done]. unfold Apps.get_app_elf.
    erewrite bind_run by exact R1. by erewrite bind_run by exact R2.
Qed.

(** One application named [a] whose file is the byte 7, linked at the bottom of the
    direct map *)
#[local] Instance sample_app_symbols : AppSymbols := {| _num_apps := KERNEL_VA_OFFSET |}.
Definition sample_app_mem : mem :=
  write_u8 (write_u8 (write_u64 (write_u64 (write_u64 (write_u64 (write_u64 ∅ 0 1)
    8 (KERNEL_VA_OFFSET + 64)) 16 (KERNEL_VA_OFFSET + 65))
    24 (KERNEL_VA_OFFSET + 72)) 32 (KERNEL_VA_OFFSET + 73)) 64 0x61) 72 7.
#[local] Instance has_mem_self : Has mem mem.
Proof. refine {| proj := id; upd t s := t |}; by intros. Defined.

Lemma apps_registry_witness :
  Apps.get_app_elf 0 sample_app_mem = Ret [7] sample_app_mem ∧
  Apps.get_app_name 0 sample_app_mem = Ret [0x61] sample_app_mem.
Proof.
  refine (proj2 (apps_registry [mk_app [0x61] [7]] 0 sample_app_mem _ ltac:(lia))).
  split; [vm_compute; congruence|]. split; [vm_compute; reflexivity|].
  split; [vm_compute; reflexivity|]. intros [|[|]] a Ha; [|discriminate Ha..].
  injection Ha as <-. exists (KERNEL_VA_OFFSET + 64), (KERNEL_VA_OFFSET + 72).
  do 4 (split; [vm_compute; reflexivity|]).
  split; (split; [vm_compute; split; congruence|]; split; [vm_compute; reflexivity|]);
    intros [|[|]] b Hb; try discriminate Hb; injection Hb as <-; vm_compute; reflexivity.
Defined.

(** The comment on [get_app_name] promises an empty string for a name with a character that is
    not ASCII; one of two bytes is decoded. *)
Lemma get_app_name_not_ascii :
  let m := write_u8 (write_u8 sample_app_mem 64 0xC3) 65 0xA9 in
  let m := write_u64 m 16 (KERNEL_VA_OFFSET + 66) in
  Apps.get_app_name 0 m = Ret [0xE9] m.
Proof. vm_compute. reflexivity. Qed.
