(* ===== verification/BuildScript.v ===== *)
(** * The build script: [src/os/build.rs]

    [build.rs] lists the applications, writes [src/link_apps.S] and has the assembler embed
    them in the kernel image; [src/os/src/task/apps.rs] reads them back at run time
    ([Apps]).  The script is a function from what the file system answers to the text of the file.
    The text is read with the syntax of the GNU assembler, and what its directives put in
    memory is stated as a relation: the theorem closes the loop between the two programs. *)

From S2P Require Export Apps.
From Stdlib Require Import Ascii.
From stdpp Require Import list strings pretty sorting.
Open Scope Z_scope.

(** ** Text *)

Definition newline : ascii := ascii_of_N 10.
Definition quote : ascii := ascii_of_N 34.
Definition backslash : ascii := ascii_of_N 92.
Definition empty : string := EmptyString.

(** One line of the output *)
Definition line (s : string) : string := s +:+ String newline empty.
Definition quoted (s : string) : string := String quote (s +:+ String quote empty).

(** [s.strip_suffix(suffix)] *)
Fixpoint strip_suffix (suffix s : string) : option string :=
  if String.eqb s suffix then Some empty
  else match s with
       | EmptyString => None
       | String c s => String c <$> strip_suffix suffix s
       end.

(** The bytes of a string *)
Definition bytes_of (s : string) : list Z :=
  (λ c, Z.of_N (N_of_ascii c)) <$> String.list_ascii_of_string s.

(** ** [impl UserApp] *)
Module UserApp.
Definition OUTPUT : string := "src/link_apps.S".
Definition SRC_DIR : string := "../user/src/bin".
Definition SRC_EXTENSION : string := ".rs".
Definition ELF_DIR : string := "../user/target/riscv64gc-unknown-none-elf/release".

(** What the script finds when it runs: the variable [TEST]; what [fs::read_dir] yields for
    [SRC_DIR], where the directory and each of its entries may fail to be read; whether the
    output file can be created, and the number of bytes it takes before a write fails. *)
Record Env := mk_Env {
  env_TEST : option string;
  read_dir : option (list (option string));
  create_ok : bool;
  room : option nat;
}.

(** [OsString::into_string]: a file name need not be UTF-8. *)
Definition into_string (file_name : string) : option string :=
  if utf8_chars (bytes_of file_name) then Some file_name else None.

(** The name of the application in one entry; [None] is the panic of one of the [unwrap]s. *)
Definition entry_name (entry : option string) : option string :=
  file_name ← entry;
  file_name ← into_string file_name;
  strip_suffix SRC_EXTENSION file_name.

Definition get_app_names (env : Env) : option (list string) :=
  let include_test := bool_decide (env_TEST env = Some "1") in
  entries ← read_dir env;
  names ← mapM entry_name entries;
  Some (filter (λ name, include_test || negb (String.prefix "test_" name) = true) names).

Definition summary (total_apps : nat) : string :=
  line "# This file is generated by the build.rs" +:+
  line empty +:+
  line "    .align 3" +:+
  line "    .section .data" +:+
  line "    .global _num_apps" +:+
  line "_num_apps:" +:+
  line ("    .quad " +:+ pretty total_apps).

Definition meta_entry (i : nat) : string :=
  line ("    .quad app_" +:+ pretty i +:+ "_name_start") +:+
  line ("    .quad app_" +:+ pretty i +:+ "_name_end") +:+
  line ("    .quad app_" +:+ pretty i +:+ "_elf_start") +:+
  line ("    .quad app_" +:+ pretty i +:+ "_elf_end").

Definition name_part (i : nat) (app_name : string) : string :=
  line empty +:+
  line "    .section .data" +:+
  line ("    .global app_" +:+ pretty i +:+ "_name_start") +:+
  line ("    .global app_" +:+ pretty i +:+ "_name_end") +:+
  line ("app_" +:+ pretty i +:+ "_name_start:") +:+
  line ("    .ascii " +:+ quoted app_name) +:+
  line ("app_" +:+ pretty i +:+ "_name_end:").

Definition elf_part (i : nat) (app_name : string) : string :=
  line empty +:+
  line "    .section .data" +:+
  line ("    .global app_" +:+ pretty i +:+ "_elf_start") +:+
  line ("    .global app_" +:+ pretty i +:+ "_elf_end") +:+
  line ("app_" +:+ pretty i +:+ "_elf_start:") +:+
  line ("    .incbin " +:+ quoted (ELF_DIR +:+ "/" +:+ app_name)) +:+
  line ("app_" +:+ pretty i +:+ "_elf_end:").

(** The texts written to [dst], in order; the line of the second [.align] has no newline of
    its own. *)
Definition app_asms (app_names : list string) : list string :=
  let total_apps := length app_names in
  [summary total_apps] ++ (meta_entry <$> seq 0 total_apps) ++ imap name_part app_names ++
  [line empty +:+ "    .align 3"] ++ imap elf_part app_names.

Definition fits (room : option nat) (text : string) : bool :=
  match room with None => true | Some n => Nat.leb (String.length text) n end.

(** [writeln!] for each text, until one fails: what is in the file, and whether all of it is *)
Fixpoint write_all (room : option nat) (dst : string) (texts : list string) : bool * string :=
  match texts with
  | [] => (true, dst)
  | text :: texts =>
      if fits room (dst +:+ text) then write_all room (dst +:+ text) texts else (false, dst)
  end.
Definition write_app_asms (room : option nat) (app_names : list string) : bool * string :=
  write_all room empty (app_asms app_names).

(** The content of [OUTPUT]; [None] is a panic.  [names.sort()] orders strings by their
    bytes. *)
Definition generate_asm (env : Env) : option string :=
  names ← get_app_names env;
  let names := merge_sort String.le names in
  if create_ok env then
    let '(ok, dst) := write_app_asms (room env) names in
    if (ok : bool) then Some dst else None
  else None.
End UserApp.

(** ** The assembler's side *)

(** The directives of the GNU assembler the script uses, and labels *)
Inductive directive :=
  | Align (n : string)
  | Section_ (name : string)
  | Global_ (symbol : string)
  | Label (symbol : string)
  | Quad (value : string)
  | Ascii_ (chars : string)
  | Incbin (path : string).

(** The lines of a text *)
Fixpoint lines (s : string) : list string :=
  match s with
  | EmptyString => [empty]
  | String c s =>
      if Ascii.eqb c newline then empty :: lines s
      else match lines s with
           | l :: ls => String c l :: ls
           | [] => [String c empty]
           end
  end.

Definition space : ascii := ascii_of_N 32.
Fixpoint trim_start (s : string) : string :=
  match s with
  | String c s' => if Ascii.eqb c space then trim_start s' else s
  | EmptyString => empty
  end.
(** The first word, and what follows the space behind it *)
Fixpoint first_word (s : string) : string * string :=
  match s with
  | EmptyString => (empty, empty)
  | String c s =>
      if Ascii.eqb c space then (empty, s)
      else let '(w, rest) := first_word s in (String c w, rest)
  end.

Fixpoint string_forallb (p : ascii → bool) (s : string) : bool :=
  match s with EmptyString => true | String c s => p c && string_forallb p s end.
(** A character a string literal holds as it is *)
Definition plain (c : ascii) : bool :=
  negb (Ascii.eqb c newline || Ascii.eqb c quote || Ascii.eqb c backslash).
(** A string literal without escapes *)
Definition unquote (s : string) : option string :=
  match s with
  | String c s =>
      if Ascii.eqb c quote then
        s ← strip_suffix (String quote empty) s;
        if string_forallb plain s then Some s else None
      else None
  | EmptyString => None
  end.

(** A line: nothing or a comment, a directive, or a label *)
Definition parse_line (s : string) : option (list directive) :=
  match trim_start s with
  | EmptyString => Some []
  | String c _ as s =>
      if Ascii.eqb c "#"%char then Some []
      else if Ascii.eqb c "."%char then
        let '(op, arg) := first_word s in
        if String.eqb op ".align" then Some [Align arg]
        else if String.eqb op ".section" then Some [Section_ arg]
        else if String.eqb op ".global" then Some [Global_ arg]
        else if String.eqb op ".quad" then Some [Quad arg]
        else if String.eqb op ".ascii" then (λ a, [Ascii_ a]) <$> unquote arg
        else if String.eqb op ".incbin" then (λ a, [Incbin a]) <$> unquote arg
        else None
      else (λ l, [Label l]) <$> strip_suffix ":" s
  end.
Definition parse (text : string) : option (list directive) :=
  mjoin <$> mapM parse_line (lines text).

(** What the assembler and the linker are given and decide: the contents of files, and the
    addresses of symbols *)
Class Assembly := {
  file_bytes : string → list Z;
  symbol_address : string → Z;
}.

Definition is_digit (c : ascii) : bool := (48 <=? N_of_ascii c)%N && (N_of_ascii c <=? 57)%N.
(** The value of an operand: a decimal number or a symbol *)
Definition denotes `{Assembly} (operand : string) (v : Z) : Prop :=
  match operand with
  | String c _ => if is_digit c then operand = pretty v else v = symbol_address operand
  | EmptyString => False
  end.

Section placing.
Context `{Assembly}.

(** Where the assembler is: in the data section or not, and the next address of the data *)
Definition place : Type := bool * Z.

(** The size of what a directive adds to the section it is in.  [.align n] pads to a multiple
    of [2^n] on RISC-V; here [n] is 3. *)
Definition width (loc : Z) (d : directive) : Z :=
  match d with
  | Align _ => - loc mod 8
  | Quad _ => 8
  | Ascii_ s => Z.of_nat (length (bytes_of s))
  | Incbin path => Z.of_nat (length (file_bytes path))
  | _ => 0
  end.
Definition next (d : directive) (p : place) : place :=
  match d with
  | Section_ name => (bool_decide (name = ".data"), p.2)
  | _ => if p.1 then (true, p.2 + width p.2 d) else p
  end.

(** Consecutive bytes from a kernel address on *)
Definition stored (m : mem) (loc : Z) (bs : list Z) : Prop :=
  ∀ i b, bs !! i = Some b → read_u8 m (loc + Z.of_nat i - KERNEL_VA_OFFSET) = b.

(** What the image [m] holds at the place of a directive of the data section *)
Definition holds (m : mem) (d : directive) (loc : Z) : Prop :=
  match d with
  | Label l => symbol_address l = loc
  | Quad e => ∃ v, denotes e v ∧ word_at m loc v
  | Ascii_ s => stored m loc (bytes_of s)
  | Incbin path => stored m loc (file_bytes path)
  | _ => True
  end.

Fixpoint placed (m : mem) (ds : list directive) (p : place) : Prop :=
  match ds with
  | [] => True
  | d :: ds => (p.1 = true → holds m d p.2) ∧ placed m ds (next d p)
  end.
Definition after (ds : list directive) (p : place) : place := foldl (λ p d, next d p) p ds.

Lemma placed_app m ds1 ds2 p :
  placed m (ds1 ++ ds2) p ↔ placed m ds1 p ∧ placed m ds2 (after ds1 p).
Proof. revert p. induction ds1 as [|d ds1 IH]; intros p; simpl; [tauto|]. rewrite IH. tauto. Qed.
Lemma after_app ds1 ds2 p : after (ds1 ++ ds2) p = after ds2 (after ds1 p).
Proof. apply foldl_app. Qed.
Lemma width_nonneg loc d : 0 <= width loc d.
Proof. destruct d; simpl; try lia. apply Z.mod_pos_bound. lia. Qed.
Lemma after_mono ds p : p.2 <= (after ds p).2.
Proof.
  revert p. induction ds as [|d ds IH]; intros p; simpl; [lia|].
  etrans; [|apply IH]. pose proof (width_nonneg p.2 d).
  destruct d, p as [[] loc]; simpl in *; lia.
Qed.
End placing.

(** ** Strings *)

Lemma append_assoc a b c : (a +:+ b) +:+ c = a +:+ b +:+ c.
Proof. induction a as [|x a IH]; [done|]. by apply (f_equal (String x)). Qed.
Lemma append_empty a : a +:+ empty = a.
Proof. induction a as [|x a IH]; [done|]. by apply (f_equal (String x)). Qed.
Lemma length_append a b : String.length (a +:+ b) = (String.length a + String.length b)%nat.
Proof. induction a as [|x a IH]; [done|]. by apply (f_equal S). Qed.
Lemma string_forallb_app p a b :
  string_forallb p (a +:+ b) = string_forallb p a && string_forallb p b.
Proof. induction a as [|x a IH]; [done|]. cbn. by rewrite <- andb_assoc, <- IH. Qed.
Lemma string_forallb_impl (p q : ascii → bool) s :
  (∀ c, p c = true → q c = true) → string_forallb p s = true → string_forallb q s = true.
Proof.
  intros Hpq. induction s as [|c s IH]; [done|]. cbn. intros [Hc Hs]%andb_true_iff.
  apply andb_true_iff. auto.
Qed.

Lemma strip_suffix_app suffix s : suffix ≠ empty → strip_suffix suffix (s +:+ suffix) = Some s.
Proof.
  intros Hne. induction s as [|c s IH].
  - change (EmptyString +:+ suffix) with suffix. destruct suffix as [|x suffix]; [done|].
    unfold strip_suffix. by rewrite String.eqb_refl.
  - change (String c s +:+ suffix) with (String c (s +:+ suffix)). cbn [strip_suffix].
    destruct (String.eqb_spec (String c (s +:+ suffix)) suffix) as [E|_]; [exfalso|by rewrite IH].
    apply (f_equal String.length) in E. cbn in E. rewrite length_append in E. lia.
Qed.

(** Numbers print as digits. *)
Lemma pretty_N_char_digit x : (x < 10)%N → is_digit (pretty_N_char x) = true.
Proof.
  intros Hx. assert (x = 0 ∨ x = 1 ∨ x = 2 ∨ x = 3 ∨ x = 4 ∨ x = 5 ∨ x = 6 ∨ x = 7 ∨ x = 8 ∨ x = 9)%N
    as Hc by lia. repeat destruct Hc as [->|Hc]; by subst.
Qed.
Lemma pretty_N_go_digits x s :
  string_forallb is_digit s = true → string_forallb is_digit (pretty_N_go x s) = true.
Proof.
  revert s. induction (N.lt_wf_0 x) as [x _ IH]; intros s Hs.
  destruct (decide (x = 0)%N) as [->|Hx]; [done|]. rewrite pretty_N_go_step by lia.
  apply IH; [apply N.div_lt; lia|]. cbn. rewrite pretty_N_char_digit; [done|by apply N.mod_lt].
Qed.
Lemma pretty_nat_digits (n : nat) : string_forallb is_digit (pretty n) = true.
Proof.
  unfold pretty, pretty_nat, pretty, pretty_N. case_decide; [done|]. by apply pretty_N_go_digits.
Qed.
Lemma pretty_N_go_nonempty x s : (0 < x)%N ∨ s ≠ empty → pretty_N_go x s ≠ empty.
Proof.
  revert s. induction (N.lt_wf_0 x) as [x _ IH]; intros s Hs.
  destruct (decide (x = 0)%N) as [->|Hx]; [destruct Hs; [lia|done]|].
  rewrite pretty_N_go_step by lia. apply IH; [apply N.div_lt; lia|by right].
Qed.
Lemma pretty_nat_digit (n : nat) : ∃ c s, pretty n = String c s ∧ is_digit c = true.
Proof.
  pose proof (pretty_nat_digits n) as Hd. destruct (pretty n) as [|c s] eqn:E.
  - exfalso. unfold pretty, pretty_nat, pretty, pretty_N in E. case_decide; [done|].
    eapply pretty_N_go_nonempty; [|exact E]. left. lia.
  - cbn in Hd. apply andb_true_iff in Hd as [Hd _]. by exists c, s.
Qed.
Lemma pretty_nat_Z (n : nat) : pretty (Z.of_nat n) = pretty n.
Proof. by destruct n. Qed.

(** ** The script's text parses *)

Definition one_line (s : string) : Prop :=
  string_forallb (λ c, negb (Ascii.eqb c newline)) s = true.
Definition plain_name (s : string) : Prop := string_forallb plain s = true.

Lemma one_line_app a b : one_line a → one_line b → one_line (a +:+ b).
Proof. unfold one_line. rewrite string_forallb_app. by intros -> ->. Qed.
Lemma one_line_pretty (n : nat) : one_line (pretty n).
Proof.
  refine (string_forallb_impl _ _ _ _ (pretty_nat_digits n)). intros c Hc.
  destruct (Ascii.eqb_spec c newline) as [->|]; [discriminate Hc|done].
Qed.
Lemma plain_one_line s : plain_name s → one_line s.
Proof. apply string_forallb_impl. intros c. unfold plain. by destruct (Ascii.eqb c newline). Qed.
Lemma one_line_quoted s : plain_name s → one_line (quoted s).
Proof. intros Hs. apply (one_line_app (String quote empty)); [done|]. apply one_line_app; [by apply plain_one_line|done]. Qed.

Lemma unquote_quoted s : plain_name s → unquote (quoted s) = Some s.
Proof.
  intros Hs. unfold unquote, quoted. simpl. rewrite strip_suffix_app by done. simpl.
  by rewrite Hs.
Qed.

Lemma lines_line s rest : one_line s → lines (line s +:+ rest) = s :: lines rest.
Proof.
  intros Hs. unfold line. rewrite append_assoc. induction s as [|c s IH].
  - change (lines (String newline rest) = empty :: lines rest). done.
  - apply andb_true_iff in Hs as [Hc Hs]. specialize (IH Hs).
    change (lines (String c (s +:+ String newline empty +:+ rest)) = String c s :: lines rest).
    simpl. rewrite IH. by destruct (Ascii.eqb c newline).
Qed.

(** The text [t] adds the directives [ds] in front of whatever follows. *)
Definition parses (t : string) (ds : list directive) : Prop :=
  ∀ rest, parse (t +:+ rest) = app ds <$> parse rest.

Lemma parses_line s ds : one_line s → parse_line s = Some ds → parses (line s) ds.
Proof.
  intros Hs Hp rest. unfold parse. rewrite lines_line by done. simpl. rewrite Hp. simpl.
  by destruct (mapM parse_line (lines rest)).
Qed.
Lemma parses_app a b ds es : parses a ds → parses b es → parses (a +:+ b) (ds ++ es).
Proof.
  intros Ha Hb rest. rewrite append_assoc, Ha, Hb. destruct (parse rest); [|done]. simpl.
  by rewrite app_assoc.
Qed.
Lemma parses_foldr ts dss :
  Forall2 parses ts dss → parses (foldr String.append empty ts) (mjoin dss).
Proof.
  induction 1 as [|t ds ts dss Ht _ IH]; [|by apply parses_app].
  intros rest. change (parse rest = app [] <$> parse rest). by destruct (parse rest).
Qed.
Lemma parses_all t ds : parses t ds → parse t = Some ds.
Proof. intros Ht. rewrite <- (append_empty t), Ht. simpl. by rewrite app_nil_r. Qed.
Lemma parses_cons s b d es :
  one_line s → parse_line s = Some [d] → parses b es → parses (line s +:+ b) (d :: es).
Proof. intros Hs Hp Hb. apply (parses_app _ _ [d]); [by apply parses_line|done]. Qed.
Lemma parses_skip s b es :
  one_line s → parse_line s = Some [] → parses b es → parses (line s +:+ b) es.
Proof. intros Hs Hp Hb. apply (parses_app _ _ []); [by apply parses_line|done]. Qed.

(** A last line without a newline, and what starts with one *)
Lemma parse_unended s d t :
  one_line s → parse_line s = Some [d] → t = empty ∨ (∃ t', t = String newline t') →
  parse (s +:+ t) = cons d <$> parse t.
Proof.
  intros Hs Hp [->|[t' ->]].
  - rewrite append_empty. unfold parse. replace (lines s) with [s]; [simpl; by rewrite Hp|].
    clear Hp. induction s as [|c s IH]; [done|]. apply andb_true_iff in Hs as [Hc Hs]. simpl.
    rewrite <- IH by done. by destruct (Ascii.eqb c newline).
  - replace (s +:+ String newline t') with (line s +:+ t') by (unfold line; by rewrite append_assoc).
    rewrite (parses_line s [d]) by done. symmetry. etrans; [|apply option_fmap_id].
    replace (parse (String newline t')) with (parse t'); [by destruct (parse t')|].
    symmetry. change (String newline t') with (line empty +:+ t').
    rewrite (parses_line empty []) by done. by destruct (parse t').
Qed.

(** Symbols *)
Definition app_symbol (i : nat) (part : string) : string := "app_" +:+ pretty i +:+ part.

(** The directives of each part *)
Definition summary_ds (n : nat) : list directive :=
  [Align "3"; Section_ ".data"; Global_ "_num_apps"; Label "_num_apps"; Quad (pretty n)].
Definition meta_ds (i : nat) : list directive :=
  (λ part, Quad (app_symbol i part)) <$> ["_name_start"; "_name_end"; "_elf_start"; "_elf_end"].
Definition blob_ds (i : nat) (start stop : string) (d : directive) : list directive :=
  [Section_ ".data"; Global_ (app_symbol i start); Global_ (app_symbol i stop);
   Label (app_symbol i start); d; Label (app_symbol i stop)].
Definition name_ds (i : nat) (name : string) : list directive :=
  blob_ds i "_name_start" "_name_end" (Ascii_ name).
Definition elf_ds (i : nat) (name : string) : list directive :=
  blob_ds i "_elf_start" "_elf_end" (Incbin (UserApp.ELF_DIR +:+ "/" +:+ name)).
Definition directives (names : list string) : list directive :=
  summary_ds (length names) ++ mjoin (meta_ds <$> seq 0 (length names)) ++
  mjoin (imap name_ds names) ++ [Align "3"] ++ mjoin (imap elf_ds names).

Ltac one_line :=
  repeat first [ done | apply one_line_pretty | by apply one_line_quoted | by apply plain_one_line
    | apply one_line_app ].

Lemma parse_label i part :
  parse_line ("app_" +:+ pretty i +:+ part +:+ ":") = Some [Label (app_symbol i part)].
Proof.
  unfold app_symbol. rewrite <- (append_assoc (pretty i)). set (s := pretty i +:+ part).
  change (((λ l, [Label l]) <$> strip_suffix ":" ("app_" +:+ s +:+ ":")) = Some [Label ("app_" +:+ s)]).
  by rewrite <- append_assoc, strip_suffix_app.
Qed.

Lemma summary_parses n : parses (UserApp.summary n) (summary_ds n).
Proof.
  do 2 (apply parses_skip; [done..|]). do 4 (apply parses_cons; [done..|]).
  apply parses_line; [by one_line|done].
Qed.
Lemma meta_parses i : parses (UserApp.meta_entry i) (meta_ds i).
Proof.
  do 3 (apply parses_cons; [by one_line|done|]). apply parses_line; [by one_line|done].
Qed.

(** Both kinds of blob have the shape of a blank line, four directives and a label. *)
Lemma name_parses i name :
  plain_name name → parses (UserApp.name_part i name) (name_ds i name).
Proof.
  intros Hn. apply parses_skip; [done..|]. do 3 (apply parses_cons; [by one_line|done|]).
  apply parses_cons; [by one_line|exact (parse_label i "_name_start")|].
  apply parses_cons; [by one_line| |].
  { change (((λ a, [Ascii_ a]) <$> unquote (quoted name)) = Some [Ascii_ name]).
    by rewrite unquote_quoted. }
  apply parses_line; [by one_line|exact (parse_label i "_name_end")].
Qed.
Lemma elf_parses i name :
  plain_name name → parses (UserApp.elf_part i name) (elf_ds i name).
Proof.
  intros Hn. assert (plain_name (UserApp.ELF_DIR +:+ "/" +:+ name)) as Hp.
  { unfold plain_name. by rewrite !string_forallb_app, Hn. }
  apply parses_skip; [done..|]. do 3 (apply parses_cons; [by one_line|done|]).
  apply parses_cons; [by one_line|exact (parse_label i "_elf_start")|].
  apply parses_cons; [by one_line| |].
  { change (((λ a, [Incbin a]) <$> unquote (quoted (UserApp.ELF_DIR +:+ "/" +:+ name))) =
      Some [Incbin (UserApp.ELF_DIR +:+ "/" +:+ name)]).
    by rewrite unquote_quoted. }
  apply parses_line; [by one_line|exact (parse_label i "_elf_end")].
Qed.

Lemma Forall2_imap {A B C} (P : B → C → Prop) (f : nat → A → B) (g : nat → A → C) l :
  (∀ i x, x ∈ l → P (f i x) (g i x)) → Forall2 P (imap f l) (imap g l).
Proof.
  revert f g. induction l as [|x l IH]; intros f g Hfg; [constructor|].
  constructor; [apply Hfg; left|]. apply IH. intros i y Hy. apply Hfg. by right.
Qed.

(** ** The text as a whole *)

(** What [write_app_asms] writes when no write fails *)
Definition asm_text (names : list string) : string :=
  foldr String.append empty (UserApp.app_asms names).

Lemma foldr_append_app ts us :
  foldr String.append empty (ts ++ us) = foldr String.append empty ts +:+ foldr String.append empty us.
Proof. induction ts as [|t ts IH]; [done|]. simpl. by rewrite IH, append_assoc. Qed.

Lemma asm_text_parses names :
  Forall plain_name names → parse (asm_text names) = Some (directives names).
Proof.
  intros Hn. rewrite Forall_forall in Hn. unfold asm_text, UserApp.app_asms, directives.
  rewrite !foldr_append_app. cbn [foldr]. rewrite !append_assoc.
  rewrite summary_parses. change (empty +:+ ?x) with x.
  rewrite (parses_foldr _ (meta_ds <$> seq 0 (length names))).
  2: { apply Forall2_fmap, Forall_Forall2_diag, Forall_forall. intros i _. apply meta_parses. }
  rewrite (parses_foldr _ (imap name_ds names)).
  2: { apply Forall2_imap. intros i x Hx. by apply name_parses, Hn. }
  rewrite (parses_line empty []) by done.
  rewrite (parse_unended _ (Align "3")); [|done|done|].
  2: { destruct names as [|x names]; [by left|right]. by eexists. }
  rewrite (parses_all _ (mjoin (imap elf_ds names))); [done|].
  apply parses_foldr, Forall2_imap. intros i x Hx. by apply elf_parses, Hn.
Qed.

(** Everything is written unless the file does not take it. *)
Lemma write_all_spec room texts dst :
  let text := dst +:+ foldr String.append empty texts in
  match UserApp.write_all room dst texts with
  | (true, d) => d = text
  | (false, _) => ∃ n, room = Some n ∧ (n < String.length text)%nat
  end.
Proof.
  revert dst. induction texts as [|t texts IH]; intros dst; cbn [UserApp.write_all foldr].
  - by rewrite append_empty.
  - rewrite <- append_assoc. destruct (UserApp.fits room (dst +:+ t)) eqn:E; [apply IH|].
    destruct room as [n|]; [|done]. apply Nat.leb_gt in E. exists n. split; [done|].
    rewrite length_append. lia.
Qed.

(** ** What [main] lists *)

Lemma strip_suffix_Some suffix s r : suffix ≠ empty → strip_suffix suffix s = Some r → s = r +:+ suffix.
Proof.
  intros Hne. revert r. induction s as [|c s IH]; intros r; cbn [strip_suffix].
  - by destruct suffix.
  - destruct (String.eqb_spec (String c s) suffix) as [<-|_]; [by intros [= <-]|].
    intros (r' & Hr' & ->)%fmap_Some. by rewrite (IH _ Hr').
Qed.

(** The file names are read, and all are UTF-8. *)
Definition listed (env : UserApp.Env) (entries : list string) : Prop :=
  UserApp.read_dir env = Some (Some <$> entries) ∧
  Forall (λ entry, is_Some (utf8_chars (bytes_of entry))) entries.

(** An entry the script cannot make a name of *)
Definition bad_entry (entry : option string) : Prop :=
  match entry with
  | None => True
  | Some file_name => utf8_chars (bytes_of file_name) = None ∨
      ∀ name, file_name ≠ name +:+ UserApp.SRC_EXTENSION
  end.

Lemma entry_name_Some entry name :
  UserApp.entry_name entry = Some name ↔
  entry = Some (name +:+ UserApp.SRC_EXTENSION) ∧
  is_Some (utf8_chars (bytes_of (name +:+ UserApp.SRC_EXTENSION))).
Proof.
  unfold UserApp.entry_name, UserApp.into_string. split.
  - intros (f & -> & Hf)%bind_Some. destruct (utf8_chars (bytes_of f)) eqn:E; [|done].
    simpl in Hf. apply strip_suffix_Some in Hf as ->; [|done]. by rewrite E.
  - intros [-> [cs E]]. simpl. rewrite E. simpl. by apply strip_suffix_app.
Qed.
Lemma entry_name_None entry : UserApp.entry_name entry = None → bad_entry entry.
Proof.
  unfold UserApp.entry_name, UserApp.into_string, bad_entry. destruct entry as [f|]; [|done]. simpl.
  destruct (utf8_chars (bytes_of f)); [|by left]. simpl. intros Hs. right. intros name ->.
  by rewrite strip_suffix_app in Hs.
Qed.

Lemma get_app_names_spec env :
  match UserApp.get_app_names env with
  | Some names => ∃ entries, listed env entries ∧ (NoDup entries → NoDup names) ∧
      ∀ name, name ∈ names ↔ name +:+ UserApp.SRC_EXTENSION ∈ entries ∧
        (UserApp.env_TEST env = Some "1" ∨ String.prefix "test_" name = false)
  | None => UserApp.read_dir env = None ∨
      ∃ entries entry, UserApp.read_dir env = Some entries ∧ entry ∈ entries ∧ bad_entry entry
  end.
Proof.
  unfold UserApp.get_app_names, listed. destruct (UserApp.read_dir env) as [raw|]; [|by left]. simpl.
  destruct (mapM _ raw) as [names|] eqn:Hm; simpl.
  - apply mapM_Some in Hm. exists ((λ name, name +:+ UserApp.SRC_EXTENSION) <$> names).
    assert (raw = Some <$> ((λ name, name +:+ UserApp.SRC_EXTENSION) <$> names) ∧
      Forall (λ entry, is_Some (utf8_chars (bytes_of entry)))
        ((λ name, name +:+ UserApp.SRC_EXTENSION) <$> names)) as [-> Hu].
    { induction Hm as [|e n es ns He Hm [-> IH]]; [done|].
      apply entry_name_Some in He as [-> He]. by split; [|constructor]. }
    split; [done|]. split.
    { intros Hnd. by apply NoDup_filter, (NoDup_fmap_1 (λ name, name +:+ UserApp.SRC_EXTENSION)). }
    intros name. rewrite list_elem_of_filter.
    assert (name ∈ names ↔
      name +:+ UserApp.SRC_EXTENSION ∈ (λ name, name +:+ UserApp.SRC_EXTENSION) <$> names) as ->.
    { rewrite list_elem_of_fmap. split; [intros ?; by exists name|]. intros (n & E & Hn).
      apply (f_equal (strip_suffix UserApp.SRC_EXTENSION)) in E.
      rewrite !strip_suffix_app in E by done. by injection E as ->. }
    rewrite orb_true_iff, negb_true_iff, bool_decide_eq_true. tauto.
  - right. apply mapM_None, Exists_exists in Hm as (entry & Hin & Hs). exists raw, entry.
    split; [done|]. split; [done|]. by apply entry_name_None.
Qed.
