(* ===== verification/BuildImage.v ===== *)
(** * The image the build script describes

    What the directives of [src/link_apps.S] put in memory, and the theorem that the kernel's
    registry of applications ([src/os/src/task/apps.rs]) finds there exactly the applications
    that [src/os/build.rs] lists. *)

From stdpp Require Import list strings pretty sorting.
From S2P Require Export BuildScript.
Open Scope Z_scope.

(** ** Placing the directives *)

Section image.
Context `{Assembly}.

Lemma placed_join m dss p i ds :
  placed m (mjoin dss) p → dss !! i = Some ds →
  placed m ds (after (mjoin (take i dss)) p) ∧
  p.2 <= (after (mjoin (take i dss)) p).2 ∧
  (after ds (after (mjoin (take i dss)) p)).2 <= (after (mjoin dss) p).2.
Proof.
  intros Hp Hi. rewrite <- (take_drop_middle _ _ _ Hi) in Hp.
  rewrite <- (take_drop_middle _ _ _ Hi) at 4.
  rewrite join_app in *. cbn [mjoin list_join] in *. fold (@mjoin list _ directive) in *.
  rewrite !placed_app in Hp. rewrite !after_app. split_and!; [apply Hp|apply after_mono..].
Qed.

(** A blob: its bytes lie between its two symbols. *)
Definition blob_at (m : mem) (start stop : string) (bs : list Z) : Prop :=
  symbol_address stop = symbol_address start + Z.of_nat (length bs) ∧
  bytes_at m (symbol_address start) bs.

Lemma blob_placed m i start stop d bs p :
  (∀ loc, holds m d loc → stored m loc bs) → (∀ loc, width loc d = Z.of_nat (length bs)) →
  (∀ q, next d q = if q.1 then (true, q.2 + width q.2 d) else q) →
  placed m (blob_ds i start stop d) p →
  0 <= p.2 → (after (blob_ds i start stop d) p).2 < USIZE_MODULUS →
  blob_at m (app_symbol i start) (app_symbol i stop) bs.
Proof.
  intros Hd Hs Hn (_ & _ & _ & Hl1 & Hb & Hl2 & _) H0 Hlt. simpl in *.
  rewrite Hn, Hs in Hl2, Hlt. simpl in *. rewrite !Z.add_0_r in *.
  specialize (Hl1 eq_refl). specialize (Hl2 eq_refl).
  split; [by rewrite Hl1, Hl2|]. rewrite Hl1.
  split; [unfold is_usize; lia|]. split; [lia|]. intros j b. apply Hd; auto.
Qed.

(** The words of the table *)
Lemma after_meta ks l :
  after (mjoin (meta_ds <$> ks)) (true, l) = (true, l + 32 * Z.of_nat (length ks)).
Proof.
  revert l. induction ks as [|k ks IH]; intros l; [simpl; f_equal; lia|].
  cbn [fmap list_fmap mjoin list_join]. fold (@fmap list _ _ _ meta_ds ks).
  rewrite after_app. replace (after (meta_ds k) (true, l)) with (true, l + 32) by (simpl; f_equal; lia).
  change (list_join _) with (mjoin (meta_ds <$> ks)). rewrite IH. f_equal. simpl length. lia.
Qed.

Lemma symbol_denotes i part v :
  denotes (app_symbol i part) v → v = symbol_address (app_symbol i part).
Proof. done. Qed.
Lemma number_denotes (n : nat) v : denotes (pretty n) v → v = Z.of_nat n.
Proof.
  destruct (pretty_nat_digit n) as (c & s & E & Hc). rewrite E. simpl. rewrite Hc, <- E.
  rewrite <- pretty_nat_Z. intros Hv. by apply (inj pretty) in Hv.
Qed.

Lemma meta_placed m n l i :
  placed m (mjoin (meta_ds <$> seq 0 n)) (true, l) → (i < n)%nat →
  let w k part := word_at m (l + 8 * (4 * Z.of_nat i + k)) (symbol_address (app_symbol i part)) in
  w 0 "_name_start" ∧ w 1 "_name_end" ∧ w 2 "_elf_start" ∧ w 3 "_elf_end".
Proof.
  intros Hp Hi w. apply (placed_join _ _ _ i (meta_ds i)) in Hp as (Hp & _ & _).
  2: { by rewrite list_lookup_fmap, lookup_seq_lt. }
  rewrite <- fmap_take, take_seq, after_meta, length_seq in Hp.
  replace (i `min` n)%nat with i in Hp by lia.
  destruct Hp as (P1 & P2 & P3 & P4 & _). simpl in *. subst w. simpl.
  repeat match goal with HP : true = true → _ |- _ =>
    destruct (HP eq_refl) as (? & ->%symbol_denotes & ?); clear HP end.
  split_and!; (eapply eq_trans; [|eassumption]; f_equal; lia).
Qed.

(** The image holds the registry of the applications [names] *)
Definition linked_app (name : string) :=
  mk_app (bytes_of name) (file_bytes (UserApp.ELF_DIR +:+ "/" +:+ name)).
#[local] Instance linked_symbols : AppSymbols := {| _num_apps := symbol_address "_num_apps" |}.

Lemma imap_blob m (f : nat → string → list directive) names p i name start stop bs :
  (∀ q, placed m (f i name) q → 0 <= q.2 → (after (f i name) q).2 < USIZE_MODULUS →
    blob_at m start stop bs) →
  placed m (mjoin (imap f names)) p → 0 <= p.2 →
  (after (mjoin (imap f names)) p).2 < USIZE_MODULUS → names !! i = Some name →
  blob_at m start stop bs.
Proof.
  intros Hf Hp H0 Hlt Hi. destruct (placed_join m (imap f names) p i (f i name) Hp) as (P & B1 & B2).
  { by rewrite list_lookup_imap, Hi. }
  eapply Hf; [exact P|lia|lia].
Qed.

Lemma directives_linked m names loc :
  placed m (directives names) (false, loc) → 0 <= loc →
  (after (directives names) (false, loc)).2 < USIZE_MODULUS →
  apps_linked m (linked_app <$> names).
Proof.
  intros Hp H0 Hlt. unfold directives in *. rewrite !after_app in Hlt.
  rewrite !placed_app in Hp. destruct Hp as (Hs & Hm & Hn & _ & He).
  assert (after (summary_ds (length names)) (false, loc) = (true, loc + 8)) as Ea
    by (simpl; f_equal; lia).
  rewrite Ea in *. rewrite after_meta, length_seq in *.
  set (q := (true, loc + 8 + 32 * Z.of_nat (length names))) in *.
  set (e := after (mjoin (imap name_ds names)) q) in *. set (e' := after [Align "3"] e) in *.
  assert (q.2 <= e.2) by apply after_mono. assert (e.2 <= e'.2) by apply after_mono.
  assert (e'.2 <= (after (mjoin (imap elf_ds names)) e').2) by apply after_mono.
  assert (q.2 = loc + 8 + 32 * Z.of_nat (length names)) by done.
  destruct Hs as (_ & _ & _ & Hl & Hq & _). simpl in Hl, Hq.
  specialize (Hl eq_refl). destruct (Hq eq_refl) as (v & ->%number_denotes & Hw).
  rewrite !Z.add_0_r in Hl. rewrite !Z.add_0_r in Hw.
  assert (_num_apps = loc) as Eb by exact Hl. unfold apps_linked, app_at. rewrite Eb, length_fmap.
  split_and!; [lia|lia|done|].
  intros i a. rewrite list_lookup_fmap. intros (name & Hi & ->)%fmap_Some.
  destruct (meta_placed m _ _ i Hm (lookup_lt_Some _ _ _ Hi)) as (W1 & W2 & W3 & W4).
  destruct (imap_blob m name_ds names q i name (app_symbol i "_name_start")
    (app_symbol i "_name_end") (bytes_of name)) as [En Bn];
    [intros p; by apply blob_placed|done|lia|fold e; lia|done|].
  destruct (imap_blob m elf_ds names e' i name (app_symbol i "_elf_start")
    (app_symbol i "_elf_end") (app_elf (linked_app name))) as [Ee Be]; [intros p; by apply blob_placed|done|lia|lia|done|].
  exists (symbol_address (app_symbol i "_name_start")), (symbol_address (app_symbol i "_elf_start")).
  change (app_name (linked_app name)) with (bytes_of name). rewrite <- En, <- Ee.
  split_and!; try done.
  - by replace (loc + 8 * (4 * Z.of_nat i + 1)) with (loc + 8 + 8 * (4 * Z.of_nat i + 0)) by lia.
  - by replace (loc + 8 * (4 * Z.of_nat i + 2)) with (loc + 8 + 8 * (4 * Z.of_nat i + 1)) by lia.
  - by replace (loc + 8 * (4 * Z.of_nat i + 3)) with (loc + 8 + 8 * (4 * Z.of_nat i + 2)) by lia.
  - by replace (loc + 8 * (4 * Z.of_nat i + 4)) with (loc + 8 + 8 * (4 * Z.of_nat i + 3)) by lia.
Qed.

(** Why the script panics: the directory or one of its entries cannot be read, a file name is
    not UTF-8 or lacks the extension, the output cannot be created or does not take the text. *)
Definition build_failure (env : UserApp.Env) : Prop :=
  UserApp.read_dir env = None ∨
  (∃ entries entry, UserApp.read_dir env = Some entries ∧ entry ∈ entries ∧ bad_entry entry) ∨
  UserApp.create_ok env = false ∨
  ∃ names n, UserApp.get_app_names env = Some names ∧ UserApp.room env = Some n ∧
    (n < String.length (asm_text (merge_sort String.le names)))%nat.

(** C7: The build script and the registry agree.  The script panics only if the directory, an
    entry of it or the output file fails, or a file name is not UTF-8 or lacks the extension.
    Otherwise it lists the applications (those of the [test_] kind only when [TEST] is 1) in
    order.  If no name has a quote, a backslash or a newline in it, the assembler accepts what
    the script writes, and in every image that holds what these directives say the kernel finds
    every application: its name and, byte for byte, its file. *)
Theorem build_registry {S : Type} `{!Has mem S} env :
  match UserApp.generate_asm env with
  | None => build_failure env
  | Some text =>
      ∃ entries names, listed env entries ∧
        Sorted String.le names ∧ (NoDup entries → NoDup names) ∧
        (∀ name, name ∈ names ↔ name +:+ UserApp.SRC_EXTENSION ∈ entries ∧
          (UserApp.env_TEST env = Some "1" ∨ String.prefix "test_" name = false)) ∧
        (Forall plain_name names → ∃ ds, parse text = Some ds ∧
          ∀ (s : S) loc, placed (mem_of s) ds (false, loc) → 0 <= loc →
            (after ds (false, loc)).2 < USIZE_MODULUS →
            Apps.get_total_apps s = Ret (Z.of_nat (length names)) s ∧
            ∀ i name, names !! i = Some name →
              Apps.get_app_name (Z.of_nat i) s = Ret (default [] (utf8_chars (bytes_of name))) s ∧
              Apps.get_app_elf (Z.of_nat i) s =
                Ret (file_bytes (UserApp.ELF_DIR +:+ "/" +:+ name)) s)
  end.
Proof.
  unfold UserApp.generate_asm, build_failure. pose proof (get_app_names_spec env) as Hspec.
  destruct (UserApp.get_app_names env) as [names|] eqn:En; [|simpl; tauto].
  destruct Hspec as (entries & Hlist & Hnd & Hin). simpl. set (sorted := merge_sort String.le names).
  destruct (UserApp.create_ok env); [|tauto].
  pose proof (write_all_spec (UserApp.room env) (UserApp.app_asms sorted) empty) as Hw. cbv zeta in Hw.
  unfold UserApp.write_app_asms. destruct (UserApp.write_all _ _ _) as [[] text].
  2: { destruct Hw as (n & Hn & Hlt). do 3 right. by exists names, n. }
  subst text. assert (sorted ≡ₚ names) as Hperm by apply merge_sort_Permutation.
  exists entries, sorted. split; [done|]. split; [apply (Sorted_merge_sort _)|]. split; [by rewrite Hperm|].
  split; [intros name; by rewrite Hperm|]. intros Hplain.
  exists (directives sorted). split; [by apply asm_text_parses|].
  intros s loc Hp H0 Hlt. assert (apps_linked (mem_of s) (linked_app <$> sorted)) as Hl
    by by eapply directives_linked.
  split.
  { rewrite (get_total_apps_run (mem_of s) (linked_app <$> sorted)) by done. by rewrite length_fmap. }
  intros i name Hi. assert ((linked_app <$> sorted) !! Z.to_nat (Z.of_nat i) = Some (linked_app name)) as Ha
    by (by rewrite Nat2Z.id, list_lookup_fmap, Hi).
  split; [by rewrite (get_app_name_run _ (Z.of_nat i) _ _ Hl ltac:(lia) Ha)|].
  by rewrite (get_app_elf_run _ (Z.of_nat i) _ _ Hl ltac:(lia) Ha).
Qed.
End image.

(** Two applications, the data section at the bottom of the direct map *)
Definition sample_env : UserApp.Env :=
  UserApp.mk_Env None (Some [Some "b.rs"; Some "test_a.rs"; Some "a.rs"]) true None.
Definition sample_symbols : list (string * Z) :=
  [("_num_apps", 0); ("app_0_name_start", 72); ("app_0_name_end", 73); ("app_1_name_start", 73);
   ("app_1_name_end", 74); ("app_0_elf_start", 80); ("app_0_elf_end", 81);
   ("app_1_elf_start", 81); ("app_1_elf_end", 83)].
#[local] Instance sample_assembly : Assembly := {|
  file_bytes path := if String.eqb path (UserApp.ELF_DIR +:+ "/a") then [7] else [8; 9];
  symbol_address s :=
    KERNEL_VA_OFFSET +
    default 0 (list_find (λ p, String.eqb p.1 s = true) sample_symbols ≫= λ f, Some f.2.2)
|}.
#[local] Instance mem_itself : Has mem mem.
Proof. refine {| proj := id; upd t s := t |}; by intros. Defined.
Definition sample_image : mem :=
  foldr (λ p m, write_u64 m p.1 p.2)
    (foldr (λ p m, write_u8 m p.1 p.2) ∅ [(72, 97); (73, 98); (80, 7); (81, 8); (82, 9)])
    ((0, 2) :: imap (λ i o, (8 + 8 * Z.of_nat i, KERNEL_VA_OFFSET + o)) [72; 73; 80; 81; 73; 74; 81; 83]).


Lemma build_registry_witness :
  ∃ i, @Apps.get_app_elf mem _ linked_symbols i sample_image = Ret [8; 9] sample_image ∧
    @Apps.get_app_name mem _ linked_symbols i sample_image = Ret [98] sample_image.
Proof.
  pose proof (build_registry (S := mem) sample_env) as H.
  destruct (UserApp.generate_asm sample_env) as [text|] eqn:E;
    [|exfalso; vm_compute in E; discriminate E].
  destruct H as (entries & names & [Hread _] & _ & _ & Hin & H). vm_compute in E. injection E as <-.
  assert (entries = ["b.rs"; "test_a.rs"; "a.rs"]) as ->.
  { destruct entries as [|? [|? [|? [|]]]]; try discriminate Hread. by injection Hread as <- <- <-. }
  destruct H as (ds & Hds & H).
  { apply Forall_forall. intros name [Hn _]%Hin.
    repeat (apply elem_of_cons in Hn as [Hn|Hn]); [..|by apply elem_of_nil in Hn];
      apply (f_equal (strip_suffix UserApp.SRC_EXTENSION)) in Hn;
      rewrite strip_suffix_app in Hn by done; injection Hn as ->; reflexivity. }
  assert ("b" ∈ names) as [i Hi]%list_elem_of_lookup.
  { apply Hin. split; [left|by right]. }
  vm_compute in Hds. injection Hds as <-.
  destruct (H sample_image KERNEL_VA_OFFSET) as [_ Hread']; [|vm_compute; congruence|vm_compute; reflexivity|].
  { cbn [placed]. split_and!; try done.
    1-9: match goal with |- _ → holds ?m _ ?loc =>
      intros _; exists (read_u64 m (loc - KERNEL_VA_OFFSET)); split; vm_compute; reflexivity end.
    all: intros _ [|[|[]]] b Hb; vm_compute in Hb; try discriminate Hb;
      injection Hb as <-; vm_compute; reflexivity. }
  destruct (Hread' i _ Hi) as [Hname Helf]. exists (Z.of_nat i). split; [exact Helf|exact Hname].
Defined.
