(* ===== verification/TaskState.v ===== *)
(** * Task control blocks: [src/os/src/task/state.rs] *)

From S2P Require Export Console VmSpace.
From stdpp Require Import list.
Open Scope Z_scope.

(** ** Data *)

Definition MAX_SYSCALLS_TRACKED : Z := 6.

Inductive TaskState :=
  | Ready
  | Running
  | Killed
  | Exited.
#[export] Instance TaskState_eq_dec : EqDecision TaskState.
Proof. solve_decision. Defined.

Record TaskContext := mk_TaskContext {
  ctx_s : list Z;
  ctx_ra : Z;
  ctx_sp : Z;
  ctx_tp : Z;
  ctx_satp : Z;
}.

Record TaskStatistics := mk_TaskStatistics {
  mtime_first_run_start : Z;
  mtime_last_run_start : Z;
  mtime_last_run_end : Z;
  mtime_total_executed : Z;
  mtime_total_waiting : Z;
  switch_count : Z;
  syscall_counts : list (Z * Z);
}.

Record TaskControlBlock := mk_TaskControlBlock {
  task_id : Z;
  vm_space : VMSpace;
  state : TaskState;
  context : TaskContext;
  statistics : TaskStatistics;
}.

(** [static NEXT_TASK_ID] *)
Record NEXT_TASK_ID := mk_NEXT_TASK_ID { next_task_id : Z }.

(** ** [TaskContext] *)
Module Context.
Definition new_initial (ra sp tp satp : Z) : TaskContext :=
  mk_TaskContext (replicate 12 0) ra sp tp satp.
End Context.

(** ** [TaskStatistics] *)
Module Stats.
Definition new_zeros : TaskStatistics :=
  mk_TaskStatistics 0 0 0 0 0 0 (replicate (Z.to_nat MAX_SYSCALLS_TRACKED) (0, 0)).

Definition set_first_run_start_mtime (value : Z) (self : TaskStatistics) : TaskStatistics :=
  mk_TaskStatistics value (mtime_last_run_start self) (mtime_last_run_end self)
    (mtime_total_executed self) (mtime_total_waiting self) (switch_count self)
    (syscall_counts self).
Definition get_first_run_start_mtime (self : TaskStatistics) : Z := mtime_first_run_start self.
Definition set_last_run_start_mtime (value : Z) (self : TaskStatistics) : TaskStatistics :=
  mk_TaskStatistics (mtime_first_run_start self) value (mtime_last_run_end self)
    (mtime_total_executed self) (mtime_total_waiting self) (switch_count self)
    (syscall_counts self).
Definition get_last_run_start_mtime (self : TaskStatistics) : Z := mtime_last_run_start self.
Definition set_last_run_end_mtime (value : Z) (self : TaskStatistics) : TaskStatistics :=
  mk_TaskStatistics (mtime_first_run_start self) (mtime_last_run_start self) value
    (mtime_total_executed self) (mtime_total_waiting self) (switch_count self)
    (syscall_counts self).
Definition get_last_run_end_time (self : TaskStatistics) : Z := mtime_last_run_end self.
Definition increase_total_executed_mtime (value : Z) (self : TaskStatistics) : TaskStatistics :=
  mk_TaskStatistics (mtime_first_run_start self) (mtime_last_run_start self)
    (mtime_last_run_end self) (mtime_total_executed self ⊕ value) (mtime_total_waiting self)
    (switch_count self) (syscall_counts self).
Definition increase_total_waiting_mtime (value : Z) (self : TaskStatistics) : TaskStatistics :=
  mk_TaskStatistics (mtime_first_run_start self) (mtime_last_run_start self)
    (mtime_last_run_end self) (mtime_total_executed self) (mtime_total_waiting self ⊕ value)
    (switch_count self) (syscall_counts self).
Definition increase_switch_count (self : TaskStatistics) : TaskStatistics :=
  mk_TaskStatistics (mtime_first_run_start self) (mtime_last_run_start self)
    (mtime_last_run_end self) (mtime_total_executed self) (mtime_total_waiting self)
    (switch_count self ⊕ 1) (syscall_counts self).

(** The first slot of the syscall, or the first free one *)
Definition find_slot (syscall_id : Z) (counts : list (Z * Z)) : option nat :=
  fst <$> list_find (λ c, (c.1 =? syscall_id) || (c.1 =? 0) = true) counts.

Definition increase_syscall_count (syscall_id : Z) (self : TaskStatistics)
    : bool * TaskStatistics :=
  match find_slot syscall_id (syscall_counts self) with
  | Some i =>
      (true, mk_TaskStatistics (mtime_first_run_start self) (mtime_last_run_start self)
        (mtime_last_run_end self) (mtime_total_executed self) (mtime_total_waiting self)
        (switch_count self) (alter (λ c, (syscall_id, c.2 ⊕ 1)) i (syscall_counts self)))
  | None => (false, self)
  end.
End Stats.

(** ** [TaskControlBlock] *)
Module Tcb.
Definition set_vm_space (v : VMSpace) (self : TaskControlBlock) : TaskControlBlock :=
  mk_TaskControlBlock (task_id self) v (state self) (context self) (statistics self).
Definition set_state (new_state : TaskState) (self : TaskControlBlock) : TaskControlBlock :=
  mk_TaskControlBlock (task_id self) (vm_space self) new_state (context self) (statistics self).
Definition set_statistics (st : TaskStatistics) (self : TaskControlBlock) : TaskControlBlock :=
  mk_TaskControlBlock (task_id self) (vm_space self) (state self) (context self) st.

Section ops.
Context {S : Type}.

Definition new_ready `{!Has NEXT_TASK_ID S} (vm_space : VMSpace) (ra kernel_sp tp satp : Z)
    : M S TaskControlBlock := λ s,
  let id := next_task_id (proj s) in
  Ret (mk_TaskControlBlock id vm_space Ready (Context.new_initial ra kernel_sp tp satp)
         Stats.new_zeros)
    (upd (mk_NEXT_TASK_ID (id ⊕ 1)) s).

Definition get_task_id (self : TaskControlBlock) : Z := task_id self.
Definition get_state (self : TaskControlBlock) : TaskState := state self.
Definition get_statistics (self : TaskControlBlock) : TaskStatistics := statistics self.

Definition record_run_start `{!Has Clock S} (self : TaskControlBlock) : M S TaskControlBlock :=
  time ← read_time;
  let st := statistics self in
  let st := if Stats.get_first_run_start_mtime st =? 0
            then Stats.set_first_run_start_mtime time st
            else
              let waiting_time := time ⊖ Stats.get_last_run_end_time st in
              Stats.increase_total_waiting_mtime waiting_time st in
  mret (set_statistics (Stats.set_last_run_start_mtime time st) self).

Definition record_run_end `{!Has Clock S} (self : TaskControlBlock) : M S TaskControlBlock :=
  time ← read_time;
  let st := Stats.set_last_run_end_mtime time (statistics self) in
  let executed_time := time ⊖ Stats.get_last_run_start_mtime st in
  let st := Stats.increase_total_executed_mtime executed_time st in
  mret (set_statistics (Stats.increase_switch_count st) self).

Definition record_syscall (syscall_id : Z) (self : TaskControlBlock)
    : bool * TaskControlBlock :=
  let '(b, st) := Stats.increase_syscall_count syscall_id (statistics self) in
  (b, set_statistics st self).
End ops.
End Tcb.

(** ** System call counts *)

(** The distinct ids of a history, in the order of their first call *)
Definition distinct (ids : list Z) : list Z :=
  foldl (λ acc x, if decide (x ∈ acc) then acc else acc ++ [x]) [] ids.
Definition calls_of (x : Z) (ids : list Z) : Z := Z.of_nat (length (filter (x =.) ids)).

(** The array a history should give: the first [n] distinct ids with the number of
    their calls, then free slots *)
Definition tracked (n : nat) (ids : list Z) : list Z := take n (distinct ids).
Definition counts_ref (n : nat) (ids : list Z) : list (Z * Z) :=
  ((λ x, (x, wrap (calls_of x ids))) <$> tracked n ids) ++
  replicate (n - length (tracked n ids)) (0, 0).

Lemma distinct_snoc ids x :
  distinct (ids ++ [x]) = if decide (x ∈ distinct ids) then distinct ids else distinct ids ++ [x].
Proof. unfold distinct. by rewrite foldl_app. Qed.

Lemma distinct_elem ids x : x ∈ distinct ids ↔ x ∈ ids.
Proof.
  induction ids as [|y ids IH] using rev_ind; [done|]. rewrite distinct_snoc.
  case_decide; set_solver.
Qed.

Lemma distinct_NoDup ids : NoDup (distinct ids).
Proof.
  induction ids as [|y ids IH] using rev_ind; [constructor|]. rewrite distinct_snoc.
  case_decide; [done|]. apply NoDup_app. split; [done|]. split; [set_solver|apply NoDup_singleton].
Qed.

Lemma calls_snoc_same x ids : calls_of x (ids ++ [x]) = calls_of x ids + 1.
Proof.
  unfold calls_of. rewrite filter_app, length_app, filter_cons_True by done. simpl. lia.
Qed.
Lemma calls_snoc_ne x y ids : x ≠ y → calls_of x (ids ++ [y]) = calls_of x ids.
Proof.
  intros. unfold calls_of. rewrite filter_app, length_app, filter_cons_False by done. simpl. lia.
Qed.
Lemma calls_none x ids : x ∉ ids → calls_of x ids = 0.
Proof.
  intros Hx. unfold calls_of. destruct (filter (x =.) ids) as [|y l] eqn:E; [done|].
  assert (y ∈ filter (x =.) ids) as [-> ?]%list_elem_of_filter by (rewrite E; by left). done.
Qed.

(** The array only depends on the tracked ids and their counts. *)
Section slots.
Variables (n : nat) (cnt : Z → Z).
Definition slots (l : list Z) : list (Z * Z) :=
  ((λ x, (x, cnt x)) <$> l) ++ replicate (n - length l) (0, 0).

Lemma slots_lookup l i :
  (length l <= n)%nat →
  slots l !! i = match l !! i with
                 | Some x => Some (x, cnt x)
                 | None => if decide (i < n)%nat then Some (0, 0) else None
                 end.
Proof using Type.
  intros Hl. unfold slots. destruct (l !! i) as [x|] eqn:E.
  - rewrite lookup_app_l by (rewrite length_fmap; by eapply lookup_lt_Some).
    by rewrite list_lookup_fmap, E.
  - apply lookup_ge_None in E. rewrite lookup_app_r by (by rewrite length_fmap).
    rewrite length_fmap. case_decide.
    + apply lookup_replicate_2. lia.
    + apply lookup_ge_None. rewrite length_replicate. lia.
Qed.

(** Searching for [x], or a free slot *)
Lemma find_slot_slots l x :
  (length l <= n)%nat → 0 ∉ l → x ≠ 0 → NoDup l →
  Stats.find_slot x (slots l) =
    match list_find (x =.) l with
    | Some (i, _) => Some i
    | None => if decide (length l < n)%nat then Some (length l) else None
    end.
Proof using Type.
  intros Hl H0 Hx Hnd. unfold Stats.find_slot.
  destruct (list_find (x =.) l) as [[i y]|] eqn:E.
  - apply list_find_Some in E as (Hi & <- & Hbefore).
    assert (list_find (λ c : Z * Z, (c.1 =? x) || (c.1 =? 0) = true) (slots l) = Some (i, (x, cnt x)))
      as ->; [|done].
    apply list_find_Some. split_and!.
    + by rewrite slots_lookup, Hi.
    + simpl. by rewrite Z.eqb_refl.
    + intros j c Hj Hlt. rewrite slots_lookup in Hj by done.
      destruct (lookup_lt_is_Some_2 l j) as [z Hz]; [apply lookup_lt_Some in Hi; lia|].
      rewrite Hz in Hj. injection Hj as <-. simpl.
      pose proof (Hbefore _ _ Hz Hlt). assert (z ≠ 0) by (intros ->; by apply list_elem_of_lookup_2 in Hz).
      intros [?%Z.eqb_eq|?%Z.eqb_eq]%orb_true_iff; congruence.
  - apply list_find_None in E. rewrite Forall_forall in E.
    assert (∀ j z, l !! j = Some z → ¬ ((z =? x) || (z =? 0) = true)) as Hno.
    { intros j z Hz%list_elem_of_lookup_2.
      intros [?%Z.eqb_eq|?%Z.eqb_eq]%orb_true_iff; [by apply (E z Hz)|congruence]. }
    case_decide.
    + assert (list_find (λ c : Z * Z, (c.1 =? x) || (c.1 =? 0) = true) (slots l) =
        Some (length l, (0, 0))) as ->; [|done].
      apply list_find_Some. split_and!.
      * rewrite slots_lookup by done. rewrite (proj2 (lookup_ge_None _ _)) by done.
        by rewrite decide_True.
      * simpl. apply orb_true_r.
      * intros j c Hj Hlt. rewrite slots_lookup in Hj by done.
        destruct (lookup_lt_is_Some_2 l j) as [z Hz]; [done|].
        rewrite Hz in Hj. injection Hj as <-. by eapply Hno.
    + assert (list_find (λ c : Z * Z, (c.1 =? x) || (c.1 =? 0) = true) (slots l) = None) as ->; [|done].
      apply list_find_None. apply Forall_lookup. intros j c Hj.
      rewrite slots_lookup in Hj by done. destruct (l !! j) as [z|] eqn:Hz.
      * injection Hj as <-. by eapply Hno.
      * case_decide; [|done]. apply lookup_ge_None in Hz. lia.
Qed.
End slots.

(** One more call *)
Lemma counts_ref_snoc n ids x :
  0 ∉ ids → x ≠ 0 →
  let old := counts_ref n ids in
  let new := counts_ref n (ids ++ [x]) in
  match Stats.find_slot x old with
  | Some i => x ∈ tracked n (ids ++ [x]) ∧ alter (λ c, (x, c.2 ⊕ 1)) i old = new
  | None => x ∉ tracked n (ids ++ [x]) ∧ old = new
  end.
Proof.
  intros H0 Hx old new. set (l := tracked n ids). set (l' := tracked n (ids ++ [x])).
  set (c := λ y, wrap (calls_of y ids)). set (c' := λ y, wrap (calls_of y (ids ++ [x]))).
  assert (length l <= n)%nat as Hlen by (unfold l, tracked; rewrite length_take; lia).
  assert (length l' <= n)%nat as Hlen' by (unfold l', tracked; rewrite length_take; lia).
  assert (NoDup l) as Hnd by (eapply sublist_NoDup; [apply distinct_NoDup|apply sublist_take]).
  assert (∀ y, y ∈ l → y ∈ ids) as Hin
    by (intros y Hy; apply distinct_elem; unfold l, tracked in Hy; by apply elem_of_take in Hy as (i & ?%list_elem_of_lookup_2 & _)).
  assert (c' x = c x ⊕ 1) as Hcx.
  { unfold c, c', uadd, wrap. rewrite calls_snoc_same. by rewrite Zplus_mod_idemp_l. }
  assert (∀ y, y ≠ x → c' y = c y) as Hcy by (intros; unfold c, c'; by rewrite calls_snoc_ne).
  change old with (slots n c l). change new with (slots n c' l').
  rewrite find_slot_slots by (done || intros ?%Hin; done).
  destruct (list_find (x =.) l) as [[i y]|] eqn:E.
  - (* tracked already *)
    apply list_find_Some in E as (Hi & <- & _).
    assert (l' = l) as ->.
    { unfold l', tracked. rewrite distinct_snoc, decide_True; [done|].
      apply list_elem_of_lookup_2, Hin in Hi. by apply distinct_elem. }
    split; [by eapply list_elem_of_lookup_2|]. apply list_eq. intros j.
    destruct (decide (j = i)) as [->|Hne].
    + rewrite list_lookup_alter_eq, !slots_lookup, Hi by done. simpl. by rewrite Hcx.
    + rewrite list_lookup_alter_ne, !slots_lookup by done. destruct (l !! j) as [z|] eqn:Hz; [|done].
      rewrite Hcy; [done|]. intros ->. by pose proof (NoDup_lookup _ _ _ _ Hnd Hz Hi).
  - apply list_find_None in E. rewrite Forall_forall in E.
    assert (x ∉ l) as Hxl by (intros Hxl; by apply (E x)). case_decide as Hn.
    + (* a free slot *)
      assert (distinct ids = l) as Hdl.
      { unfold l, tracked. rewrite take_ge; [done|]. unfold l, tracked in Hn.
        rewrite length_take in Hn. lia. }
      assert (calls_of x ids = 0) as Hcall0.
      { apply calls_none. intros Hxi. apply Hxl. rewrite <- Hdl. by apply distinct_elem. }
      assert (l' = l ++ [x]) as ->.
      { unfold l', tracked. rewrite distinct_snoc, Hdl, decide_False by done.
        rewrite take_ge; [done|]. rewrite length_app. simpl. lia. }
      split; [set_solver|]. apply list_eq. intros j. rewrite length_app in Hlen'. simpl in Hlen'.
      destruct (decide (j = length l)) as [->|Hne].
      * rewrite list_lookup_alter_eq, !slots_lookup by (rewrite ?length_app; done).
        rewrite (proj2 (lookup_ge_None l (length l))), decide_True by done.
        rewrite lookup_app_r, Nat.sub_diag by done. simpl. rewrite Hcx. unfold c. by rewrite Hcall0.
      * rewrite list_lookup_alter_ne, !slots_lookup by (rewrite ?length_app; done).
        destruct (decide (j < length l)%nat).
        -- rewrite lookup_app_l by done. destruct (lookup_lt_is_Some_2 l j) as [z Hz]; [done|].
           rewrite Hz, Hcy; [done|]. intros ->. by apply list_elem_of_lookup_2 in Hz.
        -- rewrite (proj2 (lookup_ge_None l j)) by lia.
           by rewrite (proj2 (lookup_ge_None (l ++ [x]) j)) by (rewrite length_app; simpl; lia).
    + (* no slot left *)
      assert (l' = l) as ->.
      { unfold l', l, tracked. rewrite distinct_snoc. case_decide; [done|].
        rewrite take_app_le; [done|]. unfold l, tracked in Hn. rewrite length_take in Hn. lia. }
      split; [done|]. apply list_eq. intros j. rewrite !slots_lookup by done.
      destruct (l !! j) as [z|] eqn:Hz; [|done]. rewrite Hcy; [done|].
      intros ->. by apply list_elem_of_lookup_2 in Hz.
Qed.

(** The statistics after a history of calls *)
Definition record_all (ids : list Z) (st : TaskStatistics) : TaskStatistics :=
  foldl (λ st id, (Stats.increase_syscall_count id st).2) st ids.

(** C35: the statistics of a task count its system calls: after any history of calls
    with nonzero ids the array holds the first [MAX_SYSCALLS_TRACKED] distinct ids in
    the order of their first call, each with the number of its calls, and free slots;
    [increase_syscall_count] returns [true] exactly for the ids tracked. *)
Theorem syscall_counts_reference ids id :
  0 ∉ ids → id ≠ 0 →
  let st := record_all ids Stats.new_zeros in
  let n := Z.to_nat MAX_SYSCALLS_TRACKED in
  syscall_counts st = counts_ref n ids ∧
  (Stats.increase_syscall_count id st).1 = bool_decide (id ∈ tracked n (ids ++ [id])).
Proof.
  intros H0 Hid st n.
  assert (syscall_counts st = counts_ref n ids) as E.
  { subst st. induction ids as [|x ids IH] using rev_ind; [done|].
    assert (0 ∉ ids) as H0' by set_solver. assert (x ≠ 0) as Hx by set_solver.
    unfold record_all. rewrite foldl_app. cbn [foldl]. fold (record_all ids Stats.new_zeros).
    unfold Stats.increase_syscall_count. rewrite IH by done.
    pose proof (counts_ref_snoc n ids x H0' Hx) as Hs. cbv zeta in Hs.
    destruct (Stats.find_slot x (counts_ref n ids)); destruct Hs as [_ Hs]; [done|].
    simpl. by rewrite IH. }
  split; [done|]. unfold Stats.increase_syscall_count. rewrite E.
  pose proof (counts_ref_snoc n ids id H0 Hid) as Hs. cbv zeta in Hs.
  destruct (Stats.find_slot id (counts_ref n ids)); destruct Hs as [Hs _]; symmetry;
    [by apply bool_decide_eq_true|by apply bool_decide_eq_false].
Qed.

Lemma syscall_counts_reference_witness :
  syscall_counts (record_all [64; 93; 64] Stats.new_zeros) =
    [(64, 2); (93, 1); (0, 0); (0, 0); (0, 0); (0, 0)].
Proof.
  assert (0 ∉ [64; 93; 64]) as H0 by (rewrite !elem_of_cons, elem_of_nil; lia).
  etransitivity; [exact (proj1 (syscall_counts_reference [64; 93; 64] 124 H0 ltac:(lia)))|].
  vm_compute. reflexivity.
Defined.

(** ** Run times *)

(** [f 0 + ... + f (n - 1)] *)
Fixpoint total (f : nat → Z) (n : nat) : Z :=
  match n with O => 0 | Datatypes.S n => total f n + f n end.

(** Counters add up modulo the word size. *)
Lemma wrap_step e x y : wrap e ⊕ (x ⊖ y) = wrap (e + (x - y)).
Proof. unfold uadd, usub, wrap. by rewrite <- Zplus_mod. Qed.

(** Runs and the gaps between them fill the time from the first start to the last end. *)
Lemma runs_and_gaps (t : nat → Z) n :
  total (λ i, t (2 * i + 1)%nat - t (2 * i)%nat) (n + 1) +
  total (λ i, t (2 * i + 2)%nat - t (2 * i + 1)%nat) n = t (2 * n + 1)%nat - t 0%nat.
Proof.
  rewrite Nat.add_1_r. induction n as [|n IH]; [cbn; lia|]. cbn [total] in *.
  replace (2 * Datatypes.S n)%nat with (2 * n + 2)%nat in * by lia. lia.
Qed.

(** One run of the task: [record_run_start], then [record_run_end] *)
Section accounting.
Context {S : Type} `{!Has Clock S}.
Implicit Types (s : S) (self : TaskControlBlock).

Definition run_once self : M S TaskControlBlock :=
  self ← Tcb.record_run_start self;
  Tcb.record_run_end self.
Fixpoint run_times (n : nat) self : M S TaskControlBlock :=
  match n with
  | O => mret self
  | Datatypes.S n => self ← run_times n self; run_once self
  end.

Lemma read_time_run s c :
  (proj s : Clock) = c →
  read_time s = Ret (mtime c (reads c)) (upd (mk_Clock (mtime c) (Datatypes.S (reads c))) s).
Proof. intros <-. done. Qed.

(** The state after [k] more readings of the clock *)
Definition later (k : nat) s : S :=
  upd (mk_Clock (mtime (proj s)) (reads (proj s) + k)) s.

Lemma later_0 s : later 0 s = s.
Proof.
  unfold later. rewrite Nat.add_0_r. etransitivity; [|apply upd_proj]. by destruct (proj s : Clock).
Qed.
Lemma later_later j k s : later k (later j s) = later (j + k) s.
Proof. unfold later. rewrite proj_upd, upd_upd. simpl. by rewrite Nat.add_assoc. Qed.
Lemma read_time_later k s :
  read_time (later k s) = Ret (mtime (proj s) (reads (proj s) + k)) (later (Datatypes.S k) s).
Proof.
  unfold later. erewrite read_time_run by apply proj_upd. cbn [mtime reads].
  rewrite upd_upd. by rewrite Nat.add_succ_r.
Qed.

(** The statistics after [n] runs that took [e] in all, with [w] between them *)
Record accounted (first start last e w : Z) (n : nat) (st : TaskStatistics) : Prop := {
  acc_first : mtime_first_run_start st = first;
  acc_start : mtime_last_run_start st = start;
  acc_last : mtime_last_run_end st = last;
  acc_executed : mtime_total_executed st = wrap e;
  acc_waiting : mtime_total_waiting st = wrap w;
  acc_switches : switch_count st = wrap (Z.of_nat n);
}.

Lemma run_once_run self k s :
  ∃ st, run_once self (later k s) = Ret (Tcb.set_statistics st self) (later (k + 2) s) ∧
    syscall_counts st = syscall_counts (statistics self) ∧
    let t i := mtime (proj s : Clock) (reads (proj s : Clock) + i) in
    let run := t (k + 1)%nat - t k in
    (statistics self = Stats.new_zeros → t k ≠ 0 →
      accounted (t k) (t k) (t (k + 1)%nat) run 0 1 st) ∧
    ∀ first start last e w n, first ≠ 0 → accounted first start last e w n (statistics self) →
      accounted first (t k) (t (k + 1)%nat) (e + run) (w + (t k - last)) (n + 1) st.
Proof.
  unfold run_once, Tcb.record_run_start, Tcb.record_run_end, mbind, M_bind.
  rewrite read_time_later. cbn [mret M_ret]. rewrite read_time_later.
  replace (Datatypes.S (Datatypes.S k)) with (k + 2)%nat by lia.
  replace (reads (proj s : Clock) + Datatypes.S k)%nat with (reads (proj s : Clock) + (k + 1))%nat by lia.
  set (tk := mtime (proj s : Clock) (reads (proj s : Clock) + k)).
  set (tk1 := mtime (proj s : Clock) (reads (proj s : Clock) + (k + 1))).
  eexists. split; [unfold Tcb.set_statistics; cbn [task_id vm_space state context statistics]; reflexivity|].
  split; [by case_if|]. split.
  - intros -> Hne. cbn [Stats.new_zeros Stats.get_first_run_start_mtime mtime_first_run_start Z.eqb].
    split; cbn -[wrap]; [done|done|done| |done|done]. apply (wrap_step 0).
  - intros first start last e w n Hne [Hf Hs0 Hl He Hw Hs]. unfold Stats.get_first_run_start_mtime.
    rewrite Hf. destruct (Z.eqb_spec first 0); [done|].
    split; cbn -[wrap]; [done|done|done|rewrite He; apply wrap_step| |].
    + unfold Stats.get_last_run_end_time. rewrite Hl, Hw. apply wrap_step.
    + rewrite Hs. unfold uadd, wrap. rewrite Zplus_mod_idemp_l. f_equal. lia.
Qed.

Lemma run_times_run self n s :
  statistics self = Stats.new_zeros → let t i := mtime (proj s : Clock) (reads (proj s : Clock) + i) in
  t 0%nat ≠ 0 →
  ∃ st, run_times (Datatypes.S n) self s =
      Ret (Tcb.set_statistics st self) (later (2 * n + 2) s) ∧
    syscall_counts st = syscall_counts (statistics self) ∧
    accounted (t 0%nat) (t (2 * n)%nat) (t (2 * n + 1)%nat)
      (total (λ i, t (2 * i + 1)%nat - t (2 * i)%nat) (n + 1))
      (total (λ i, t (2 * i + 2)%nat - t (2 * i + 1)%nat) n) (n + 1) st.
Proof.
  intros Hz t Hne. induction n as [|n (st & Hrun & Hsys & Hacc)].
  - destruct (run_once_run self 0 s) as (st & Hrun & Hsys & Hfirst & _).
    exists st. split_and!; [|done|by apply Hfirst]. rewrite later_0 in Hrun. exact Hrun.
  - destruct (run_once_run (Tcb.set_statistics st self) (2 * n + 2) s) as (st' & Hrun' & Hsys' & _ & Hnext).
    exists st'. split_and!; [|by rewrite Hsys'|].
    + change (run_times (Datatypes.S (Datatypes.S n)) self s) with
        (mbind (M := M S) run_once (run_times (Datatypes.S n) self) s).
      unfold mbind, M_bind. rewrite Hrun, Hrun'. by replace (2 * Datatypes.S n + 2)%nat with (2 * n + 2 + 2)%nat by lia.
    + specialize (Hnext _ _ _ _ _ _ Hne Hacc). cbn [total].
      replace (2 * Datatypes.S n)%nat with (2 * n + 2)%nat by lia.
      replace (Datatypes.S n + 1)%nat with (Datatypes.S (n + 1)) by lia. cbn [total].
      replace (2 * (n + 1))%nat with (2 * n + 2)%nat by lia.
      replace (n + 1 + 1)%nat with (Datatypes.S (n + 1)) in Hnext by lia. exact Hnext.
Qed.
End accounting.

(** C36: run-time accounting: after [n + 1] runs of a new task, each recorded by
    [record_run_start] and [record_run_end], the time executed is the sum of the runs and
    the time waited the sum of the gaps between them, each read off the clock modulo the
    word size, so that the two add up to the time from the first start to the last end;
    the switch count is the number of runs, and nothing but the statistics changes. *)
Theorem run_accounting {S : Type} `{!Has Clock S} self n (s : S) :
  let t i := mtime (proj s : Clock) (reads (proj s : Clock) + i) in
  statistics self = Stats.new_zeros → t 0%nat ≠ 0 →
  ∃ st s', run_times (Datatypes.S n) self s = Ret (Tcb.set_statistics st self) s' ∧
    mtime_first_run_start st = t 0%nat ∧ mtime_last_run_start st = t (2 * n)%nat ∧
    mtime_last_run_end st = t (2 * n + 1)%nat ∧
    mtime_total_executed st = wrap (total (λ i, t (2 * i + 1)%nat - t (2 * i)%nat) (n + 1)) ∧
    mtime_total_waiting st = wrap (total (λ i, t (2 * i + 2)%nat - t (2 * i + 1)%nat) n) ∧
    mtime_total_executed st ⊕ mtime_total_waiting st = t (2 * n + 1)%nat ⊖ t 0%nat ∧
    switch_count st = wrap (Z.of_nat (n + 1)) ∧
    syscall_counts st = syscall_counts (statistics self).
Proof.
  intros t Hz Hne. destruct (run_times_run self n s Hz Hne) as (st & Hrun & Hsys & [? ? ? He Hw ?]).
  exists st. eexists. split; [exact Hrun|]. split_and!; try done.
  rewrite He, Hw. unfold uadd, usub. rewrite <- (runs_and_gaps t n). unfold wrap.
  by rewrite <- Zplus_mod.
Qed.

#[local] Instance has_clock_self : Has Clock Clock.
Proof. refine {| proj := id; upd t s := t |}; by intros. Defined.
Definition sample_tcb : TaskControlBlock :=
  mk_TaskControlBlock 1 (mk_VMSpace (mk_RootPgt 0x80706 []) [] 0 0 0) Ready
    (Context.new_initial 0 0 0 0) Stats.new_zeros.

Lemma run_accounting_witness :
  ∃ st s', run_times 2 sample_tcb (mk_Clock (λ n, 100 + 10 * Z.of_nat n) 0) =
    Ret (Tcb.set_statistics st sample_tcb) s' ∧
    mtime_total_executed st = 20 ∧ mtime_total_waiting st = 10.
Proof.
  destruct (run_accounting sample_tcb 1 (mk_Clock (λ n, 100 + 10 * Z.of_nat n) 0))
    as (st & s' & Hr & _ & _ & _ & He & Hw & _).
  - reflexivity.
  - vm_compute. congruence.
  - exists st, s'. split; [exact Hr|]. rewrite He, Hw. vm_compute. split; reflexivity.
Defined.
