(* ===== verification/KState.v ===== *)
(** * The state of the kernel and its control flow

    All statics of [src/os/src] and the registers the kernel reads, in one record, and
    the computations that may switch to another task or power the machine off. *)

From S2P Require Export KernelMap TaskState.
From S2P Require Import PageAlloc Spin.
From stdpp Require Import list.
Open Scope Z_scope.

(** ** State *)

Record KS := mk_KS {
  k_mm : MM;
  k_csrs : csrs;
  k_tp : Z;
  k_tasks : SpinLock (list TaskControlBlock);
  k_next_id : NEXT_TASK_ID;
  k_clock : Clock;
  k_sbi : Sbi;
  k_level : MAX_LEVEL_ORDINAL;
}.

(** Lens laws hold by case analysis on the records. *)
Ltac solve_has :=
  by intros; repeat match goal with s : KS |- _ => destruct s | s : MM |- _ => destruct s end.

#[export] Instance has_mm : Has MM KS.
Proof.
  refine {| proj := k_mm; upd x s := mk_KS x (k_csrs s) (k_tp s) (k_tasks s) (k_next_id s)
    (k_clock s) (k_sbi s) (k_level s) |}; solve_has.
Defined.
#[export] Instance has_csrs : Has csrs KS.
Proof.
  refine {| proj := k_csrs; upd x s := mk_KS (k_mm s) x (k_tp s) (k_tasks s) (k_next_id s)
    (k_clock s) (k_sbi s) (k_level s) |}; solve_has.
Defined.
#[export] Instance has_tasks : Has (SpinLock (list TaskControlBlock)) KS.
Proof.
  refine {| proj := k_tasks; upd x s := mk_KS (k_mm s) (k_csrs s) (k_tp s) x (k_next_id s)
    (k_clock s) (k_sbi s) (k_level s) |}; solve_has.
Defined.
#[export] Instance has_next_id : Has NEXT_TASK_ID KS.
Proof.
  refine {| proj := k_next_id; upd x s := mk_KS (k_mm s) (k_csrs s) (k_tp s) (k_tasks s) x
    (k_clock s) (k_sbi s) (k_level s) |}; solve_has.
Defined.
#[export] Instance has_clock : Has Clock KS.
Proof.
  refine {| proj := k_clock; upd x s := mk_KS (k_mm s) (k_csrs s) (k_tp s) (k_tasks s)
    (k_next_id s) x (k_sbi s) (k_level s) |}; solve_has.
Defined.
#[export] Instance has_sbi : Has Sbi KS.
Proof.
  refine {| proj := k_sbi; upd x s := mk_KS (k_mm s) (k_csrs s) (k_tp s) (k_tasks s)
    (k_next_id s) (k_clock s) x (k_level s) |}; solve_has.
Defined.
#[export] Instance has_level : Has MAX_LEVEL_ORDINAL KS.
Proof.
  refine {| proj := k_level; upd x s := mk_KS (k_mm s) (k_csrs s) (k_tp s) (k_tasks s)
    (k_next_id s) (k_clock s) (k_sbi s) x |}; solve_has.
Defined.
Definition set_tp (x : Z) (s : KS) : KS :=
  mk_KS (k_mm s) (k_csrs s) x (k_tasks s) (k_next_id s) (k_clock s) (k_sbi s) (k_level s).

(** Memory and [KERNEL_SATP], through [MM] *)
#[export] Instance has_mem : Has mem KS.
Proof.
  refine {| proj s := mm_mem (k_mm s);
    upd m s := upd (mk_MM m (page_allocator (k_mm s)) (kernel_satp (k_mm s))) s |}; solve_has.
Defined.
#[export] Instance has_kernel_satp : Has KERNEL_SATP KS.
Proof.
  refine {| proj s := (kernel_satp (k_mm s) : KERNEL_SATP);
    upd k s := upd (mk_MM (mm_mem (k_mm s)) (page_allocator (k_mm s)) k) s |}; solve_has.
Defined.

(** ** The page source of the kernel *)

#[export] Instance page_source_KS : PageSource KS := {|
  ps_alloc_page := lift alloc_page;
  ps_alloc_zeroed_page := lift alloc_zeroed_page;
  ps_drop_page p := lift (drop_page p);
|}.

(** Only memory and the page allocator differ. *)
Definition only_mm (s0 s : KS) : Prop :=
  s = upd (k_mm s) s0 ∧ kernel_satp (k_mm s) = kernel_satp (k_mm s0).

Lemma only_mm_refl s : only_mm s s.
Proof. by destruct s. Qed.
Lemma only_mm_trans s1 s2 s3 : only_mm s1 s2 → only_mm s2 s3 → only_mm s1 s3.
Proof. unfold only_mm. destruct s1, s2, s3. cbn. intros [E1 E2] [E3 E4]. split; congruence. Qed.
Lemma only_mm_upd s0 s m p :
  only_mm s0 s → only_mm s0 (upd (mk_MM m p (kernel_satp (k_mm s))) s).
Proof. intros [E Ek]. split; [|exact Ek]. rewrite E at 2. by destruct s0. Qed.

(** The laws hold with any frame: [R] is about the parts the page source does not
    touch. *)
Definition page_source_laws_with `{LinkerSymbols} (R : KS → Prop)
    (HR : ∀ s m p, R s → R (upd (mk_MM m p (kernel_satp (k_mm s))) s)) : PageSourceLaws KS.
Proof.
  assert (∀ (s : KS) (t : MM), R s → kernel_satp t = kernel_satp (k_mm s) → R (upd t s)) as HR'.
  { intros s [m p k] HRs Hk. simpl in Hk. subst k. by apply HR. }
  refine {| ps_ok s := mm_ok (k_mm s) ∧ R s; ps_free s := mm_free (k_mm s); ps_managed := managed |}.
  - intros p. apply (@ps_managed_ram MM _ _ page_source_laws_MM p).
  - intros p. apply (@ps_managed_end MM _ _ page_source_laws_MM p).
  - intros s p [Hok _]. by apply (@ps_free_managed MM _ _ page_source_laws_MM (k_mm s) p).
  - intros m s [Hok HRs]. split; [by apply (@ps_upd_mem_ok MM _ _ page_source_laws_MM m (k_mm s))|].
    by apply HR.
  - done.
  - intros s [Hok HRs]. apply wp_lift.
    eapply wp_mono; [apply wp_conj; [by apply alloc_page_satp|by apply (@ps_alloc_page_law MM _ _ page_source_laws_MM)]|].
    intros r t [Hk (Hok' & Hm & Hr)]. split_and!; [done|by apply HR'|done|].
    destruct r as [p|]; [done|]. destruct Hr as [-> ?]. split; [|done]. by destruct s.
  - intros s [Hok HRs]. apply wp_lift.
    eapply wp_mono; [apply wp_conj; [by apply alloc_zeroed_page_satp|by apply (@ps_alloc_zeroed_page_law MM _ _ page_source_laws_MM)]|].
    intros r t [Hk (Hok' & Hr)]. split_and!; [done|by apply HR'|].
    destruct r as [p|]; [done|]. destruct Hr as [-> ?]. split; [|done]. by destruct s.
  - intros s p [Hok HRs] Hm Hf. apply wp_lift.
    eapply wp_mono; [apply wp_conj; [by apply (drop_page_satp p)|by apply (@ps_drop_page_law MM _ _ page_source_laws_MM)]|].
    intros [] t [Hk (Hok' & Hm' & Hf')]. split_and!; [done|by apply HR'|done|done].
Defined.

#[export] Instance page_source_laws_KS `{LinkerSymbols} : PageSourceLaws KS :=
  page_source_laws_with (λ _, True) (λ _ _ _ _, I).
Definition page_source_laws_at `{LinkerSymbols} (s0 : KS) : PageSourceLaws KS :=
  page_source_laws_with (only_mm s0) (only_mm_upd s0).

(** ** Control flow *)

(** How a computation of the kernel ends: it returns; it has called [__switch], which
    leaves for the task [next] with [k] as the rest of the computation, whose registers
    go where [curr] points; the machine is off. *)
Inductive flow (A : Type) :=
  | Done (a : A)
  | Switched (curr : option Z) (next : Z) (k : KS → outcome KS (flow A))
  | PowerOff (is_failure : bool).
Arguments Done {A} a.
Arguments Switched {A} curr next k.
Arguments PowerOff {A} is_failure.

Definition K (A : Type) : Type := M KS (flow A).

Fixpoint flow_bind {A B} (r : flow A) (f : A → K B) : K B :=
  match r with
  | Done a => f a
  | Switched curr next k => λ s,
      Ret (Switched curr next (λ s,
        match k s with
        | Ret r s' => flow_bind r f s'
        | Panic msg => Panic msg
        | Spin => Spin
        end)) s
  | PowerOff b => λ s, Ret (PowerOff b) s
  end.
Definition kbind {A B} (m : K A) (f : A → K B) : K B :=
  mbind (M := M KS) (λ r, flow_bind r f) m.
Definition kret {A} (a : A) : K A := mret (M := M KS) (Done a).
(** A computation that always returns *)
Definition klift {A} (m : M KS A) : K A := fmap (M := M KS) Done m.

Notation "x ⇐ m ; f" := (kbind m (λ x, f))
  (at level 20, m at level 100, f at level 200, only parsing) : usize_scope.
Notation "' p ⇐ m ; f" := (kbind m (λ x, match x with p => f end))
  (at level 20, p pattern, m at level 100, f at level 200, only parsing) : usize_scope.
Notation "x ↤ m ; f" := (kbind (klift m) (λ x, f))
  (at level 20, m at level 100, f at level 200, only parsing) : usize_scope.

Notation "' p ↤ m ; f" := (kbind (klift m) (λ x, match x with p => f end))
  (at level 20, p pattern, m at level 100, f at level 200, only parsing) : usize_scope.

Lemma wp_klift {A} (m : M KS A) Q s : wp m (λ a s', Q (Done a) s') s → wp (klift m) Q s.
Proof. apply wp_fmap. Qed.
Lemma kbind_run {A B} (m : M KS A) (f : A → K B) s a s' :
  m s = Ret a s' → kbind (klift m) f s = f a s'.
Proof. intros Hm. unfold kbind, klift, mbind, M_bind, fmap, M_fmap. by rewrite Hm. Qed.
Lemma wp_kbind_lift {A B} (m : M KS A) (f : A → K B) Q s :
  wp m (λ a s', wp (f a) Q s') s → wp (kbind (klift m) f) Q s.
Proof. intros Hm. apply wp_bind. by apply wp_klift. Qed.
Lemma kbind_lift_run {A B} (m : M KS A) (f : A → K B) s a s' :
  m s = Ret a s' → kbind (klift m) f s = f a s'.
Proof. intros Hm. unfold kbind, klift, mbind, M_bind, fmap, M_fmap. by rewrite Hm. Qed.
