(* ===== verification/TrapContext.v ===== *)
(** * Trap contexts: [TrapContext] of [src/os/src/trap.rs]

    The registers of an interrupted task, saved at the top of its kernel stack.  The
    struct is [repr(C)]: 35 words, [x0] to [x31], [sstatus], [sepc] and [task_id]. *)

From S2P Require Export KState.
From S2P Require Import Regs.
From stdpp Require Import list.
Open Scope Z_scope.

(** The addresses of the assembly labels the Rust code names:
    [src/os/src/trap/trap.S] and [src/os/src/mm/uaccess.S] *)
Class TrapSymbols := {
  __stvec : Z;
  __restore_u_ctx : Z;
  __uaccess_lb : Z;
  __uaccess_sb : Z;
  __uaccess_fix : Z;
}.

Record TrapContext := mk_TrapContext {
  tc_x : list Z;
  tc_sstatus : Z;
  tc_sepc : Z;
  tc_task_id : Z;
}.

Module TrapCtx.
(** [size_of::<TrapContext>()] *)
Definition SIZE : Z := 35 * 8.

Definition new_initial (entry_addr user_sp task_id : Z) : M KS TrapContext :=
  sstatus ← lift Sstatus.set_spp_user;
  let result := mk_TrapContext (replicate 32 0) sstatus entry_addr task_id in
  mret (mk_TrapContext (<[2%nat := user_sp]> (tc_x result)) (tc_sstatus result)
          (tc_sepc result) (tc_task_id result)).

(** The words of the struct *)
Definition words (c : TrapContext) : list Z :=
  tc_x c ++ [tc_sstatus c; tc_sepc c; tc_task_id c].
(** [ptr.write_volatile(context)] *)
Definition write_volatile (ptr : Z) (c : TrapContext) : M KS unit :=
  for_each (imap (λ i w, (ptr + 8 * Z.of_nat i, w)) (words c)) (λ '(a, w), store_u64 a w).

(** Field updates of a context held as a value *)
Definition with_sepc (v : Z) (c : TrapContext) : TrapContext :=
  mk_TrapContext (tc_x c) (tc_sstatus c) v (tc_task_id c).

(** Field accesses through a reference *)
Definition get_x (ptr i : Z) : M KS Z := load_u64 (ptr + 8 * i).
Definition set_x (ptr i v : Z) : M KS unit := store_u64 (ptr + 8 * i) v.
Definition get_sepc (ptr : Z) : M KS Z := load_u64 (ptr + 8 * 33).
Definition set_sepc (ptr v : Z) : M KS unit := store_u64 (ptr + 8 * 33) v.
Definition get_task_id (ptr : Z) : M KS Z := load_u64 (ptr + 8 * 34).
(** [TrapContext::get_task_id_from_ptr]: [ptr.as_ref().unwrap()] panics on null. *)
Definition get_task_id_from_ptr (ptr : Z) : M KS Z :=
  assert_or (negb (ptr =? 0)) "called `Option::unwrap()` on a `None` value";;
  get_task_id ptr.
End TrapCtx.
