(* ===== verification/Task.v ===== *)
(** * Tasks and the scheduler: [src/os/src/task.rs]

    [ALL_TASKS] is a list of control blocks behind a spin lock; the running task is the
    one whose trap context [tp] points to. *)

From S2P Require Export TrapContext Apps.
From S2P Require Import Spin.
From stdpp Require Import list.
Open Scope Z_scope.

(** [struct TaskInfo] *)
Record TaskInfo := mk_TaskInfo {
  ti_task_id : Z;
  ti_state : TaskState;
  ti_statistics : TaskStatistics;
}.

Module Task.
Section ops.
Context `{LinkerSymbols} `{AppSymbols} `{TrapSymbols} `{XmasElf} `{Fmt}.

Local Notation Tasks := (list TaskControlBlock).

(** *** The list *)

(** [tasks.swap(i, j)] *)
Definition vec_swap {A} (l : list A) (i j : nat) : option (list A) :=
  match l !! i, l !! j with
  | Some a, Some b => Some (<[j := a]> (<[i := b]> l))
  | _, _ => None
  end.

Definition find_task (task_id_ : Z) (tasks : Tasks) : option (nat * TaskControlBlock) :=
  list_find (λ tcb, Tcb.get_task_id tcb = task_id_) tasks.

Definition get_next_task_id (tasks : Tasks) : option Z :=
  '(_, tcb) ← list_find (λ tcb, Tcb.get_state tcb = Ready) tasks;
  Some (Tcb.get_task_id tcb).

Definition take_task_tcb (tasks : Tasks) (task_id_ : Z)
    : M KS (option TaskControlBlock * Tasks) :=
  match find_task task_id_ tasks with
  | None => mret (None, tasks)
  | Some (index, _) =>
      time ← read_time;
      let rand_index := Z.to_nat (time mod Z.of_nat (length tasks)) in
      tasks ← expect (vec_swap tasks index rand_index) "index out of bounds";
      '(tcb, tasks) ← expect (Space.swap_remove tasks rand_index)
        "swap_remove index out of bounds";
      mret (Some tcb, tasks)
  end.

(** *** The current task *)

Definition try_get_current_task_id : M KS (option Z) :=
  tp ← gets k_tp;
  if tp =? 0 then mret None
  else
    result ← TrapCtx.get_task_id tp;
    mret (Some result).

Definition get_current_task_id : M KS Z :=
  o ← try_get_current_task_id;
  expect o "This hart is not running a task.".

(** [f] runs with the lock held. *)
Definition update_tcb {A} (task_id_ : Z) (f : TaskControlBlock → M KS (A * TaskControlBlock))
    : M KS A :=
  lock Tasks;;
  tasks ← deref (T := Tasks);
  '(i, tcb) ← expect (find_task task_id_ tasks) "Cannot find a task with the task_id";
  '(a, tcb) ← f tcb;
  deref_mut (<[i := tcb]> tasks);;
  unlock Tasks;;
  mret a.

(** The body the next three functions share: find the current task under the lock
    ([unwrap]) and update it *)
Definition with_current {A} (f : TaskControlBlock → M KS (A * TaskControlBlock)) : M KS A :=
  task_id_ ← get_current_task_id;
  lock Tasks;;
  tasks ← deref (T := Tasks);
  '(i, tcb) ← expect (find_task task_id_ tasks) "called `Option::unwrap()` on a `None` value";
  '(a, tcb) ← f tcb;
  deref_mut (<[i := tcb]> tasks);;
  unlock Tasks;;
  mret a.

Definition exchange_current_task_state (expected new : TaskState)
    : M KS (result TaskState TaskState) :=
  with_current (λ tcb,
    let state := Tcb.get_state tcb in
    if bool_decide (state = expected)
    then mret (Ok expected, Tcb.set_state new tcb)
    else mret (Err state, tcb)).

Definition record_current_run_end : M KS unit :=
  with_current (λ tcb, tcb ← Tcb.record_run_end tcb; mret (tt, tcb)).

Definition record_current_syscall (syscall_id : Z) : M KS bool :=
  with_current (λ tcb, mret (Tcb.record_syscall syscall_id tcb)).

Definition get_task_info (task_id_ : Z) : M KS (option TaskInfo) :=
  lock Tasks;;
  tasks ← deref (T := Tasks);
  unlock Tasks;;
  mret ('(_, tcb) ← find_task task_id_ tasks;
        Some (mk_TaskInfo task_id_ (Tcb.get_state tcb) (Tcb.get_statistics tcb))).

(** *** Switching *)

(** [switch.S]: [satp] and [tp] come from the next context.  The registers of the
    current task go to [curr_context], which belongs to a control block that has been
    moved away. *)
Definition __switch (curr_context : option Z) (next : Z) (next_context : TaskContext) : K unit :=
  '_ ↤ lift (csrw 0x180 (ctx_satp next_context));
  '_ ↤ modify (set_tp (ctx_tp next_context));
  λ s, Ret (Switched curr_context next (kret tt)) s.

(** The first half of [run_next_task]: the current task, if it is still listed, is
    queued again when [Ready] and dropped when it is over. *)
Definition requeue_current (all_tasks : Tasks) : M KS (option Z * Tasks) :=
  o ← try_get_current_task_id;
  match o with
  | None => mret (None, all_tasks)
  | Some task_id_ =>
      '(o, all_tasks) ← take_task_tcb all_tasks task_id_;
      match o with
      | None => mret (None, all_tasks)
      | Some tcb =>
          match Tcb.get_state tcb with
          | Ready => mret (Some task_id_, vec_push all_tasks tcb)
          | Running => panic "Attempt to switch task but its state is running"
          | Killed | Exited =>
              Space.drop_space (vm_space tcb);;
              mret (Some task_id_, all_tasks)
          end
      end
  end.

Definition run_next_task : K unit :=
  '_ ↤ lock Tasks;
  all_tasks ↤ deref (T := Tasks);
  '(curr_context, all_tasks) ↤ requeue_current all_tasks;
  match get_next_task_id all_tasks with
  | Some task_id_ =>
      '(o, all_tasks) ↤ take_task_tcb all_tasks task_id_;
      tcb ↤ expect o "called `Option::unwrap()` on a `None` value";
      let next_context := context tcb in
      time ↤ read_time_ms;
      '_ ↤ Log.debug "Task {} starts at {}.{:03} seconds since system start"
        [FArg task_id_; FArg (time / 1000); FArg (time mod 1000)];
      tcb ↤ Tcb.record_run_start (Tcb.set_state Running tcb);
      '_ ↤ deref_mut (vec_push all_tasks tcb);
      '_ ↤ unlock Tasks;
      '_ ↤ set_next_timer_interrupt;
      __switch curr_context task_id_ next_context
  | None =>
      '_ ↤ deref_mut (T := Tasks) all_tasks;
      '_ ↤ Log.info "No more tasks to run, bye bye." [];
      '_ ↤ shutdown false;
      λ s, Ret (PowerOff false) s
  end.

(** *** Start *)

Definition add_task (elf_bytes : list Z) : M KS unit :=
  r ← Space.new_user elf_bytes;
  vm_space ← (match r with
    | Ok v => mret v
    | Err _ => panic "Failed to create user vm space"
    end);
  let satp := Space.get_satp vm_space in
  let entry := Space.get_entry_addr vm_space in
  let user_sp := Space.get_u_stack_end vm_space in
  let kernel_sp := Space.get_k_stack_end vm_space ⊖ TrapCtx.SIZE in
  tcb ← Tcb.new_ready vm_space __restore_u_ctx kernel_sp kernel_sp satp;
  trap_context ← TrapCtx.new_initial entry user_sp (Tcb.get_task_id tcb);
  TrapCtx.write_volatile kernel_sp trap_context;;
  with_guard (λ tasks : Tasks, (tt, vec_push tasks tcb)).

Definition start : K unit :=
  total ↤ Apps.get_total_apps;
  '_ ↤ for_each (range 0 total) (λ i,
    elf ← Apps.get_app_elf i;
    add_task elf);
  '_ ⇐ run_next_task;
  klift (panic "internal error: entered unreachable code").
End ops.
End Task.
