(* ===== verification/TaskProps.v ===== *)
(** * The scheduler

    What [run_next_task] and the functions on the current task do to [ALL_TASKS]. *)

From S2P Require Export Task VmProps.
From S2P Require Import Spin PageAlloc.
From stdpp Require Import list.
Open Scope Z_scope.

Notation Tasks := (list TaskControlBlock).

(** ** Lists *)

Lemma vec_swap_perm {A} (l : list A) i j a b :
  l !! i = Some a → l !! j = Some b →
  ∃ l', Task.vec_swap l i j = Some l' ∧ l' !! j = Some a ∧ l' ≡ₚ l.
Proof.
  intros Hi Hj. unfold Task.vec_swap. rewrite Hi, Hj. eexists. split; [done|].
  pose proof (lookup_lt_Some _ _ _ Hi). pose proof (lookup_lt_Some _ _ _ Hj).
  split; [by apply list_lookup_insert_eq; rewrite length_insert|].
  destruct (decide (i = j)) as [->|Hne].
  { simplify_eq. rewrite list_insert_insert_eq, list_insert_id by done. done. }
  set (m := <[i := b]> l).
  assert (m !! j = Some b) as Hm by (unfold m; by rewrite list_lookup_insert_ne).
  rewrite (insert_delete_perm m j b a Hm).
  assert (delete j m ≡ₚ delete i l) as ->; [|by rewrite <- delete_Permutation].
  apply (Permutation_cons_inv (a := b)). rewrite <- (delete_Permutation m j b Hm).
  unfold m. by apply (insert_delete_perm l i a).
Qed.

(** ** Taking a control block *)

Definition ids (l : Tasks) : list Z := task_id <$> l.

#[export] Instance ids_perm : Proper ((≡ₚ) ==> (≡ₚ)) ids.
Proof. intros l l' Hl. unfold ids. by rewrite Hl. Qed.

Lemma find_task_Some l id i tcb :
  Task.find_task id l = Some (i, tcb) → l !! i = Some tcb ∧ task_id tcb = id.
Proof. intros (Hi & Hid & _)%list_find_Some. done. Qed.
Lemma find_task_in l id tcb :
  NoDup (ids l) → tcb ∈ l → task_id tcb = id → ∃ i, Task.find_task id l = Some (i, tcb).
Proof.
  intros Hnd Htcb Hid. unfold Task.find_task.
  destruct (list_find _ l) as [[i tcb']|] eqn:E.
  - apply list_find_Some in E as (Hi & Hid' & _). apply list_elem_of_lookup in Htcb as [j Hj].
    assert (i = j) as ->; [|simplify_eq; by exists j].
    eapply (NoDup_lookup (ids l)); [done|by apply list_lookup_fmap_Some; exists tcb'|].
    apply list_lookup_fmap_Some. exists tcb. unfold Tcb.get_task_id in Hid'. split; [congruence|done].
  - apply list_find_None in E. rewrite Forall_forall in E. by destruct (E tcb Htcb).
Qed.
Lemma find_task_None l id : Task.find_task id l = None ↔ id ∉ ids l.
Proof.
  unfold Task.find_task. rewrite list_find_None, Forall_forall. unfold ids.
  rewrite list_elem_of_fmap. unfold Tcb.get_task_id. naive_solver.
Qed.

Lemma take_task_tcb_run l id i tcb s :
  Task.find_task id l = Some (i, tcb) →
  ∃ l', Task.take_task_tcb l id s = Ret (Some tcb, l') (later 1 s) ∧ l ≡ₚ tcb :: l'.
Proof.
  intros Hf. pose proof (find_task_Some _ _ _ _ Hf) as [Hi _].
  pose proof (lookup_lt_Some _ _ _ Hi) as Hlt. unfold Task.take_task_tcb. rewrite Hf.
  set (time := mtime (proj s : Clock) (reads (proj s : Clock))).
  assert (read_time s = Ret time (later 1 s)) as Ht.
  { pose proof (read_time_later 0 s) as E. rewrite later_0, Nat.add_0_r in E. exact E. }
  rewrite (bind_run _ _ _ _ _ Ht). set (r := Z.to_nat (time mod Z.of_nat (length l))).
  assert (r < length l)%nat as Hr.
  { unfold r. pose proof (Z.mod_pos_bound time (Z.of_nat (length l))). lia. }
  destruct (lookup_lt_is_Some_2 l r Hr) as [b Hb].
  destruct (vec_swap_perm l i r tcb b Hi Hb) as (l1 & -> & Hl1 & Hp1). cbn [expect].
  destruct (swap_remove_spec l1 r tcb Hl1) as (l2 & Hsr & Hp2 & _).
  exists l2. erewrite bind_run by done. rewrite Hsr. split; [done|].
  rewrite <- Hp1, Hp2. by apply delete_Permutation.
Qed.
Lemma take_task_tcb_none l id s :
  id ∉ ids l → Task.take_task_tcb l id s = Ret (None, l) s.
Proof. intros Hn%find_task_None. unfold Task.take_task_tcb. by rewrite Hn. Qed.

(** ** The next task *)

Lemma get_next_task_id_Some l id :
  Task.get_next_task_id l = Some id → ∃ tcb, tcb ∈ l ∧ task_id tcb = id ∧ state tcb = Ready.
Proof.
  unfold Task.get_next_task_id. destruct (list_find _ l) as [[i tcb]|] eqn:E; [|done].
  intros [= <-]. apply list_find_Some in E as (Hi & Hr & _).
  exists tcb. split; [by eapply list_elem_of_lookup_2|done].
Qed.
Lemma get_next_task_id_None l :
  Task.get_next_task_id l = None → ∀ tcb, tcb ∈ l → state tcb ≠ Ready.
Proof.
  unfold Task.get_next_task_id. destruct (list_find _ l) as [[i tcb]|] eqn:E; [done|].
  intros _. apply list_find_None in E. rewrite Forall_forall in E. exact E.
Qed.
