(* ===== verification/Trap.v ===== *)
(** * Traps: [src/os/src/trap.rs], [trap/ktrap.rs]

    The common part of the two handlers and the handler of traps the kernel takes,
    which are the page faults of its user accesses.  [Utrap] has the other one. *)

From S2P Require Export Task.
From S2P Require Import Regs Spin.
From stdpp Require Import list.
Open Scope Z_scope.

Module Trap.
Section ops.
Context `{LinkerSymbols} `{TrapSymbols} `{Fmt}.

(** ** [trap.rs] *)

Definition enable_interrupts : M KS unit := lift Sstatus.set_sie;; mret tt.
Definition enable_timer_interrupts : M KS unit := lift Sie.set_stie;; mret tt.

(** [csrw sscratch, x0] *)
Definition SSCRATCH : Z := 0x140.

Definition init : M KS unit :=
  lift (csrw SSCRATCH 0);;
  stvec_ok ← lift (Stvec.install __stvec Stvec.Direct);
  assert_or stvec_ok "Failed to install stvec";;
  enable_interrupts;;
  enable_timer_interrupts.

Definition do_page_fault (task_id_ stval min_permissions : Z) : M KS (result unit VMError) :=
  Task.update_tcb task_id_ (λ tcb,
    '(result, v) ← Space.map_fault_page (vm_space tcb) stval min_permissions;
    mret (result, Tcb.set_vm_space v tcb)).

Definition log_do_page_fault_failed (task_id_ stval min_permissions : Z) (err : VMError)
    : M KS unit :=
  Log.warn "Task {}: do_page_fault failed, stval={:#x}, min_permissions={:#x}, err={:?}."
    [FArg task_id_; FArg stval; FArg min_permissions; FArg err].

Definition trap_panic {A} : M KS A := panic "Cannot handle the trap".

(** ** [uaccess.rs]: where a fault of a user access happens and resumes *)

Definition is_load_user_fault (sepc : Z) : bool := sepc =? __uaccess_lb.
Definition is_store_user_fault (sepc : Z) : bool := sepc =? __uaccess_sb.
Definition get_uaccess_fix : Z := __uaccess_fix.

(** ** [ktrap.rs] *)

(** The body of both arms *)
Definition user_access_fault (context : TrapContext) (saved_tp stval min_permissions : Z)
    : M KS TrapContext :=
  task_id_ ← TrapCtx.get_task_id_from_ptr saved_tp;
  r ← do_page_fault task_id_ stval min_permissions;
  match r with
  | Err err =>
      log_do_page_fault_failed task_id_ stval min_permissions err;;
      mret (TrapCtx.with_sepc get_uaccess_fix context)
  | Ok _ => mret context
  end.

Definition k_trap_handler (context : TrapContext) : M KS TrapContext :=
  scause ← lift Scause.read;
  sepc ← lift Sepc.read;
  stval ← lift Stval.read;
  let saved_tp := nth 4 (tc_x context) 0 in
  match Scause.match_cause scause with
  | Scause.LoadPageFault =>
      if negb (saved_tp =? 0) && is_load_user_fault sepc
      then user_access_fault context saved_tp stval (PERMISSION_U .| PERMISSION_R)
      else trap_panic
  | Scause.StoreOrAmoPageFault =>
      if negb (saved_tp =? 0) && is_store_user_fault sepc
      then user_access_fault context saved_tp stval (PERMISSION_U .| PERMISSION_W)
      else trap_panic
  | _ => trap_panic
  end.
End ops.
End Trap.

(** ** Entering and leaving the kernel: the hardware and [src/os/src/trap/trap.S] *)
Module Hart.
Section ops.
Context `{LinkerSymbols} `{TrapSymbols} `{Fmt}.

Definition set_bit (v mask : Z) (b : bool) : Z := if b then v .| mask else v .& .~ mask.
Definition has_bit (v mask : Z) : bool := negb (v .& mask =? 0).
Definition SPIE_BIT : Z := 1 .<< 5.

(** The hardware takes a trap: [SIE] goes to [SPIE], the mode to [SPP]. *)
Definition take_trap (from_user : bool) (cause epc tval : Z) : M KS unit :=
  status ← lift Sstatus.read;
  let status := set_bit status SPIE_BIT (has_bit status Sstatus.SIE_BIT) in
  let status := set_bit status Sstatus.SIE_BIT false in
  let status := set_bit status Sstatus.SPP_BIT (negb from_user) in
  lift (csrw Sstatus.CSR_NO status);;
  lift (csrw Scause.CSR_NO cause);;
  lift (csrw Sepc.CSR_NO epc);;
  lift (csrw Stval.CSR_NO tval).

(** [sret]: the program counter it resumes at *)
Definition sret : M KS Z :=
  status ← lift Sstatus.read;
  let status := set_bit status Sstatus.SIE_BIT (has_bit status SPIE_BIT) in
  let status := set_bit status SPIE_BIT true in
  let status := set_bit status Sstatus.SPP_BIT false in
  lift (csrw Sstatus.CSR_NO status);;
  lift Sepc.read.

(** Where the model does not follow the hart: [stvec] does not lead to [__stvec], or the trap
    takes the path of the other mode.  The theorems exclude it. *)
Definition misdirected {A} : M KS A := panic "A trap is not taken for what it is".

(** The hardware jumps to [stvec]; [__stvec] begins with [csrrw tp, sscratch, tp] and
    [beqz tp, __save_k_ctx].  The result tells whether that branch is taken. *)
Definition dispatch : M KS bool :=
  stvec ← lift (csrr Stvec.CSR_NO);
  if stvec =? __stvec then
    tp ← gets k_tp;
    scratch ← lift (csrr Trap.SSCRATCH);
    lift (csrw Trap.SSCRATCH tp);;
    modify (set_tp scratch);;
    mret (scratch =? 0)
  else misdirected.

(** [__save_k_ctx]: the context is saved below the kernel stack pointer, where only the
    handler sees it. *)
Definition save_k_ctx (x : list Z) : M KS TrapContext :=
  saved_tp ← lift (csrr Trap.SSCRATCH);
  lift (csrw Trap.SSCRATCH 0);;
  sstatus ← lift Sstatus.read;
  sepc ← lift Sepc.read;
  modify (set_tp 0);;
  mret (mk_TrapContext (<[4%nat := saved_tp]> x) sstatus sepc 0).

Definition restore_k_ctx (context : TrapContext) : M KS Z :=
  lift (csrw Trap.SSCRATCH 0);;
  lift (csrw Sstatus.CSR_NO (tc_sstatus context));;
  lift (Sepc.write (tc_sepc context));;
  modify (set_tp (nth 4 (tc_x context) 0));;
  sret.

(** A trap from kernel code with registers [x]; [x4] is the [tp] of the state. *)
Definition k_trap (cause epc tval : Z) (x : list Z) : M KS Z :=
  take_trap false cause epc tval;;
  from_kernel ← dispatch;
  if (from_kernel : bool) then
    context ← save_k_ctx x;
    context ← Trap.k_trap_handler context;
    restore_k_ctx context
  else misdirected.
End ops.
End Hart.
