(* ===== verification/KInv.v ===== *)
(** * The invariant of the kernel

    What holds of [ALL_TASKS] and memory whenever no lock is held: every listed task
    has a sound address space of its own, a kernel stack with its identity on top, and
    the context it is resumed with.  The page-source specifications are lifted to the
    whole kernel state, with everything but memory and the allocator framed. *)

From S2P Require Export TaskProps VmFrame Trap.
From S2P Require Import Spin PageAlloc Regs.
From stdpp Require Import list.
Open Scope Z_scope.

(** ** Frames of the address-space operations *)
Section framed.
Context `{LinkerSymbols}.
Implicit Types s : KS.

Lemma vm_inv_at s0 self s :
  @vm_inv KS _ _ (page_source_laws_at s0) self s ↔ vm_inv self s ∧ only_mm s0 s.
Proof.
  split.
  - intros [[[Hok Hmm] ? ? ? ? ?] ? ? ? ? ? ? ?]. split; [|done]. split; [split; [by split|done..]|done..].
  - intros [[[[Hok _] ? ? ? ? ?] ? ? ? ? ? ? ?] Hmm]. split; [split; [by split|done..]|done..].
Qed.

Lemma local_at s0 self s self' s' :
  @local KS _ _ (page_source_laws_at s0) self s self' s' → local self s self' s'.
Proof. intros [? ? ? ?]. by split. Qed.
Lemma took_at s0 n s s' : @took_at_most KS _ _ (page_source_laws_at s0) n s s' → took_at_most n s s'.
Proof. done. Qed.

(** The results only speak of memory and the allocator. *)
Lemma map_post_mm self v min s0 s r self' s1 s' :
  k_mm s0 = k_mm s → k_mm s1 = k_mm s' →
  map_post self v min s0 r self' s1 → map_post self v min s r self' s'.
Proof.
  intros E E'. unfold map_post, ps_free, mem_of. cbn. by rewrite E, E'.
Qed.
Lemma took_mm n s0 s s1 s' :
  k_mm s0 = k_mm s → k_mm s1 = k_mm s' → took_at_most n s0 s1 → took_at_most n s s'.
Proof. intros E E'. unfold took_at_most, ps_free. cbn. by rewrite E, E'. Qed.

(** A page fault on the space of a task *)
Lemma map_fault_at self va min s :
  vm_inv self s → 0 <= va < 2 ^ 38 →
  (∀ t pm p, has (areas self) (va / 4096) t pm (Some p) → min .& pm ≠ min) →
  wp (Space.map_fault_page self va min) (λ '(r, self') s',
    only_mm s s' ∧ vm_inv self' s' ∧ same_ends self self' ∧
    (∀ v t pm p, has (areas self) v t pm (Some p) → page_same p (mem_of s) (mem_of s')) ∧
    local self s self' s' ∧ took_at_most 3 s s' ∧ map_post self (va / 4096) min s r self' s') s.
Proof.
  intros Hi Hva Hun.
  eapply wp_mono; [apply (@map_fault_wp KS _ _ (page_source_laws_at s)); [|done..]|].
  - apply vm_inv_at. split; [done|apply only_mm_refl].
  - intros [r self'] s' (Hi' & Hends & Hpages & Hloc & Htook & Hpost).
    apply vm_inv_at in Hi' as [Hi' Hmm]. split_and!; try done. by apply local_at in Hloc.
Qed.

Lemma unmap_at self start end_ s :
  vm_inv self s → 0 <= start <= end_ → end_ <= 2 ^ 26 →
  wp (Space.unmap self start end_) (λ '(r, self') s',
    r = Ok tt ∧ only_mm s s' ∧ vm_cut self s start end_ self' s') s.
Proof.
  intros Hi Hse Hend.
  eapply wp_mono; [apply (@space_unmap_wp KS _ _ (page_source_laws_at s)); [|done..]|].
  - apply vm_inv_at. split; [done|apply only_mm_refl].
  - intros [r self'] s' [Hr [Hi' ? ? ? ? ? ?]]. apply vm_inv_at in Hi' as [Hi' Hmm].
    split_and!; [done..|]. by split.
Qed.

Lemma drop_space_at self s :
  vm_inv self s →
  wp (Space.drop_space self) (λ _ s', only_mm s s' ∧ ps_ok s' ∧ mem_of s' = mem_of s ∧
    ∀ p, ps_free s' p ↔ ps_free s p ∨ owns self p) s.
Proof.
  intros Hi. eapply wp_mono; [apply (@drop_space_wp KS _ _ (page_source_laws_at s))|].
  - apply vm_inv_at. split; [done|apply only_mm_refl].
  - intros [] s' ([Hok Hmm] & Hm & Hf). split_and!; try done.
Qed.

(** Spaces only depend on memory and the allocator. *)
Lemma vm_inv_same self s s' :
  vm_inv self s → ps_ok s' → mem_of s' = mem_of s → (∀ p, ps_free s' p ↔ ps_free s p) →
  vm_inv self s'.
Proof.
  intros Hi Hok Hm Hf. eapply (ud_inv self s s'), vm_inv_frame; [done..|].
  intros p Hp. rewrite Hm, Hf. split; [done|].
  destruct Hp as [Hp|Hp]; [by apply (vi_owns _ _ _ Hi)|by apply (vi_reaches _ _ _ Hi)].
Qed.
Lemma vm_inv_mm self s s' : k_mm s' = k_mm s → vm_inv self s → vm_inv self s'.
Proof.
  intros E Hi. assert (ps_ok s) as [Hok _] by apply Hi. apply (vm_inv_same self s); [done|..].
  - split; [|done]. by rewrite E.
  - unfold mem_of. cbn. by rewrite E.
  - intros p. unfold ps_free. cbn. by rewrite E.
Qed.
End framed.

(** ** Tasks *)
Section tasks.
Context `{LinkerSymbols} `{TrapSymbols}.
Implicit Types (s : KS) (tcb : TaskControlBlock).

Definition tasks_of s : Tasks := data (k_tasks s).

(** The kernel virtual page of a frame *)
Definition kernel_vpn (p : Z) : Z := p + KERNEL_VA_OFFSET / 4096.
Definition kernel_va (p : Z) : Z := page_start p + KERNEL_VA_OFFSET.

(** The trap context at the top of the kernel stack, in the page [p] *)
Definition context_of tcb : Z := k_stack_end (vm_space tcb) ⊖ TrapCtx.SIZE.
Definition stack_page tcb (p : Z) : Prop :=
  k_stack_end (vm_space tcb) = kernel_va p + 4096 ∧
  ∃ pm, has (areas (vm_space tcb)) (kernel_vpn p) KernelVaOffset pm (Some p).

(** [sret] with the saved [sstatus] leads to user mode: its [SPP] bit is clear. *)
Definition to_user s tcb : Prop :=
  Z.testbit (read_u64 (mem_of s) (context_of tcb + 8 * 32 - KERNEL_VA_OFFSET)) 8 = false.

Record task_ok s tcb : Prop := {
  tk_space : vm_inv (vm_space tcb) s;
  tk_stack : ∃ p, stack_page tcb p;
  tk_id : TrapCtx.get_task_id (context_of tcb) s = Ret (task_id tcb) s;
  tk_user : to_user s tcb;
  tk_context : context tcb = Context.new_initial __restore_u_ctx (context_of tcb)
    (context_of tcb) (Space.get_satp (vm_space tcb));
}.

Definition apart_tasks s tcb1 tcb2 : Prop :=
  apart (vm_space tcb1) (vm_space tcb2) s ∧ apart (vm_space tcb2) (vm_space tcb1) s.
#[export] Instance apart_tasks_sym s : Symmetric (apart_tasks s).
Proof. intros a b [? ?]. by split. Qed.

Record kernel_inv s : Prop := {
  ki_lock : locked (k_tasks s) = false;
  ki_tasks : Forall (task_ok s) (tasks_of s);
  ki_ids : NoDup (ids (tasks_of s));
  ki_next : Forall (λ tcb, task_id tcb < next_task_id (k_next_id s)) (tasks_of s);
  ki_apart : pairwise (apart_tasks s) (tasks_of s);
}.

(** The registers that say whom the hart runs and where its traps go *)
Definition hart_csrs : list Z := [0x180; Trap.SSCRATCH; Stvec.CSR_NO].
Definition same_hart (c c' : csrs) : Prop :=
  ∀ n, n ∈ hart_csrs → csr_value c' n = csr_value c n.

Lemma same_hart_refl c : same_hart c c.
Proof. done. Qed.
Lemma same_hart_eq c c' : c' = c → same_hart c c'.
Proof. by intros ->. Qed.
Lemma same_hart_trans c1 c2 c3 : same_hart c1 c2 → same_hart c2 c3 → same_hart c1 c3.
Proof. intros E1 E2 n Hn. by rewrite E2, E1. Qed.
Lemma not_hart_csr n : forallb (λ m, negb (n =? m)) hart_csrs = true → n ∉ hart_csrs.
Proof.
  intros Hn Hin. rewrite forallb_forall in Hn. apply list_elem_of_In, Hn in Hin.
  by rewrite Z.eqb_refl in Hin.
Qed.
Lemma same_hart_insert c c' n v :
  forallb (λ m, negb (n =? m)) hart_csrs = true → same_hart c c' → same_hart c (<[n := v]> c').
Proof.
  intros Hn E m Hm. rewrite csr_value_insert_ne; [by apply E|]. intros ->.
  by apply (not_hart_csr m).
Qed.

(** In the kernel: traps lead to [__stvec], which takes them for traps of the kernel. *)
Definition in_kernel (c : csrs) : Prop :=
  csr_value c Trap.SSCRATCH = 0 ∧ csr_value c Stvec.CSR_NO = __stvec.
Lemma in_kernel_same c c' : same_hart c c' → in_kernel c → in_kernel c'.
Proof.
  intros E [E1 E2]. split; rewrite E; try done; unfold hart_csrs; rewrite !elem_of_cons; tauto.
Qed.
Lemma same_hart_satp c c' : same_hart c c' → csr_value c' 0x180 = csr_value c 0x180.
Proof. intros E. apply E. by left. Qed.

(** The hart runs [tcb]: it is the one in state [Running], [tp] points to its context
    and [satp] to its page table, and the kernel has the hart. *)
Record running s tcb : Prop := {
  rn_in : tcb ∈ tasks_of s;
  rn_state : state tcb = Running;
  rn_only other : other ∈ tasks_of s → state other = Running → task_id other = task_id tcb;
  rn_tp : k_tp s = context_of tcb;
  rn_satp : csr_value (k_csrs s) 0x180 = Space.get_satp (vm_space tcb);
  rn_kernel : in_kernel (k_csrs s);
}.

(** *** Trap contexts in memory *)

Lemma stack_page_ram tcb p s : vm_inv (vm_space tcb) s → stack_page tcb p → 0 <= p < 2 ^ 26.
Proof.
  intros Hi (_ & pm & Hh). apply (vi_owned _ _ Hi) in Hh as (Hm & _). by apply ps_managed_ram in Hm.
Qed.

Lemma context_of_eq tcb p s :
  vm_inv (vm_space tcb) s → stack_page tcb p → context_of tcb = kernel_va p + 3816.
Proof.
  intros Hi Hp. pose proof (stack_page_ram _ _ _ Hi Hp) as Hr. destruct Hp as [E _].
  unfold context_of. rewrite E. unfold kernel_va, page_start, TrapCtx.SIZE, KERNEL_VA_OFFSET.
  rewrite usub_small; unfold USIZE_MODULUS; lia.
Qed.

(** The words of the context lie in the page. *)
Lemma context_word_same tcb p s s' i :
  vm_inv (vm_space tcb) s → stack_page tcb p → 0 <= i < 35 →
  page_same p (mem_of s) (mem_of s') →
  read_u64 (mem_of s') (context_of tcb + 8 * i - KERNEL_VA_OFFSET) =
  read_u64 (mem_of s) (context_of tcb + 8 * i - KERNEL_VA_OFFSET).
Proof.
  intros Hi Hp Hix Hs. rewrite (context_of_eq _ _ _ Hi Hp). apply read_u64_ext. intros b Hb.
  apply Hs. unfold kernel_va, page_start, page_end in *. lia.
Qed.

Lemma task_id_word s tcb :
  TrapCtx.get_task_id (context_of tcb) s = Ret (task_id tcb) s ↔
  read_u64 (mem_of s) (context_of tcb + 8 * 34 - KERNEL_VA_OFFSET) = task_id tcb.
Proof.
  unfold TrapCtx.get_task_id, load_u64, gets. split; [intros [= E]; exact E|].
  intros E. f_equal. exact E.
Qed.

(** *** Preservation *)

(** A task whose space is undisturbed is as good as before. *)
Lemma task_ok_undisturbed s s' tcb :
  task_ok s tcb → undisturbed (vm_space tcb) s s' → task_ok s' tcb.
Proof.
  intros [Hi [p Hp] Hid Hus Hc] [Hi' _ Hsame _].
  assert (page_same p (mem_of s) (mem_of s')) as Hps.
  { apply Hsame. right. destruct Hp as [_ [pm Hh]]. by exists (kernel_vpn p), KernelVaOffset, pm. }
  split; [done|by exists p| | |done].
  - rewrite task_id_word in Hid |- *. rewrite <- Hid. by apply (context_word_same _ p s).
  - unfold to_user. by rewrite (context_word_same _ p s s' 32).
Qed.

(** The task's space changed to [v] by a local step that keeps its kernel stack. *)
Record space_step s tcb v s' : Prop := {
  ss_inv : vm_inv v s';
  ss_local : local (vm_space tcb) s v s';
  ss_ends : same_ends (vm_space tcb) v;
  ss_stack p : stack_page tcb p →
    stack_page (Tcb.set_vm_space v tcb) p ∧ page_same p (mem_of s) (mem_of s');
}.

Lemma task_ok_space_step s tcb v s' :
  task_ok s tcb → space_step s tcb v s' → task_ok s' (Tcb.set_vm_space v tcb).
Proof.
  intros [Hi [p Hp] Hid Hus Hc] [Hi' _ (Er & _ & _ & Ek) Hst]. destruct (Hst p Hp) as [Hp' Hsame].
  assert (context_of (Tcb.set_vm_space v tcb) = context_of tcb) as Ec
    by (unfold context_of; simpl; by rewrite Ek).
  split; [done|by exists p| | |].
  - rewrite task_id_word, Ec. apply task_id_word in Hid. simpl. rewrite <- Hid.
    by apply (context_word_same _ p s).
  - unfold to_user. rewrite Ec. by rewrite (context_word_same _ p s s' 32).
  - rewrite Ec. simpl. rewrite Hc. unfold Space.get_satp, Pgt.get_satp. by rewrite Er.
Qed.

Lemma ids_insert (l : Tasks) i tcb tcb' :
  l !! i = Some tcb → task_id tcb' = task_id tcb → ids (<[i := tcb']> l) = ids l.
Proof.
  intros Hi Hid. unfold ids. rewrite list_fmap_insert, Hid. apply list_insert_id.
  by rewrite list_lookup_fmap, Hi.
Qed.

(** What [kernel_inv] says of a list of tasks *)
Record tasks_inv (l : Tasks) s : Prop := {
  ti_tasks : Forall (task_ok s) l;
  ti_ids : NoDup (ids l);
  ti_next : Forall (λ tcb, task_id tcb < next_task_id (k_next_id s)) l;
  ti_apart : pairwise (apart_tasks s) l;
}.
Lemma tasks_inv_reorder l1 l2 s : l1 ≡ₚ l2 → tasks_inv l1 s → tasks_inv l2 s.
Proof. intros Hl [? ? ? ?]. split; by rewrite <- Hl. Qed.
#[export] Instance tasks_inv_perm : Proper ((≡ₚ) ==> eq ==> iff) tasks_inv.
Proof. intros l1 l2 Hl s ? <-. split; by apply tasks_inv_reorder. Qed.

Lemma kernel_inv_tasks s :
  kernel_inv s ↔ locked (k_tasks s) = false ∧ tasks_inv (tasks_of s) s.
Proof. split; [intros []|intros [? []]]; by repeat split. Qed.

Lemma tasks_inv_cons tcb l s :
  tasks_inv (tcb :: l) s ↔
  task_ok s tcb ∧ task_id tcb ∉ ids l ∧ task_id tcb < next_task_id (k_next_id s) ∧
  Forall (apart_tasks s tcb) l ∧ tasks_inv l s.
Proof.
  split.
  - intros [Ht Hi Hn Ha]. apply Forall_cons in Ht as [? ?]. apply Forall_cons in Hn as [? ?].
    unfold ids in Hi. apply NoDup_cons in Hi as [? ?]. destruct Ha as [? ?]. split_and!; done.
  - intros (? & ? & ? & ? & [? ? ? ?]). split; [by apply Forall_cons|by apply NoDup_cons|by apply Forall_cons|done].
Qed.

(** Undisturbed spaces stay apart. *)
Lemma apart_undisturbed l s s' :
  (∀ tcb, tcb ∈ l → undisturbed (vm_space tcb) s s') →
  pairwise (apart_tasks s) l → pairwise (apart_tasks s') l.
Proof.
  induction l as [|a l IH]; intros Hund Hap; [done|]. destruct Hap as [Hda Hap].
  split; [|apply IH; [intros other Ho; apply Hund; by right|done]].
  rewrite Forall_forall in Hda |- *. intros b Hb. destruct (Hda b Hb) as [Hab Hba].
  destruct (Hund a) as [_ _ _ Ra]; [by left|]. destruct (Hund b) as [_ _ _ Rb]; [by right|].
  split; intros p Hp; [rewrite Rb; by apply Hab|rewrite Ra; by apply Hba].
Qed.
Lemma tasks_inv_undisturbed l s s' :
  (∀ tcb, tcb ∈ l → undisturbed (vm_space tcb) s s') → k_next_id s' = k_next_id s →
  tasks_inv l s → tasks_inv l s'.
Proof.
  intros Hund En [Ht Hi Hn Ha]. split; [|done|by rewrite En|by apply (apart_undisturbed l s)].
  rewrite Forall_forall in Ht |- *. intros tcb Hin. apply (task_ok_undisturbed s); auto.
Qed.

(** A step of the first task *)
Lemma tasks_inv_space_step s tcb l v s' :
  tasks_inv (tcb :: l) s → space_step s tcb v s' → k_next_id s' = k_next_id s →
  tasks_inv (Tcb.set_vm_space v tcb :: l) s'.
Proof.
  rewrite !tasks_inv_cons. intros (Ht & Hid & Hn & Ha & [Hts Hids Hns Hap]) Hstep En.
  destruct Hstep as [Hi' Hloc Hends Hst].
  assert (ps_ok s') as Hok by apply Hi'. rewrite En. rewrite Forall_forall in Hts, Ha.
  assert (∀ other, other ∈ l → undisturbed (vm_space other) s s') as Hund.
  { intros other Ho. apply (undisturbed_local (vm_space tcb) s v s');
      [apply Hts, Ho|done|done|apply Ha, Ho]. }
  split_and!; [by eapply task_ok_space_step|done|done| |split].
  - apply Forall_forall. intros other Ho. destruct (Ha _ Ho) as [H1' H2'].
    destruct (apart_local (vm_space tcb) s v s' (vm_space other)); [apply Hts, Ho|done..|by split].
  - apply Forall_forall. intros other Ho.
    apply (task_ok_undisturbed s); [apply Hts, Ho|apply Hund, Ho].
  - done.
  - by rewrite En.
  - by apply (apart_undisturbed l s).
Qed.

(** *** [update_tcb] *)

(** The state with the lock of [ALL_TASKS] taken, and with it released over [l] *)
Definition lock_tasks s : KS := upd (mk_SpinLock true (tasks_of s)) s.
Definition release_tasks (l : Tasks) s : KS := upd (mk_SpinLock false l) s.

Lemma lock_tasks_run s : locked (k_tasks s) = false → lock Tasks s = Ret tt (lock_tasks s).
Proof. intros Hl. unfold lock. cbn. by rewrite Hl. Qed.

Lemma update_tcb_run {A} s tcb i (f : TaskControlBlock → M KS (A * TaskControlBlock)) Q :
  locked (k_tasks s) = false → Task.find_task (task_id tcb) (tasks_of s) = Some (i, tcb) →
  wp (f tcb) (λ '(a, tcb') s1, Q a (release_tasks (<[i := tcb']> (tasks_of s)) s1)) (lock_tasks s) →
  wp (Task.update_tcb (task_id tcb) f) Q s.
Proof.
  intros Hl Hf Hwp. unfold Task.update_tcb. wp_step.
  eapply wp_intro; [by apply lock_tasks_run|]. wp_step. eapply wp_intro; [reflexivity|].
  change (data (proj (lock_tasks s) : SpinLock Tasks)) with (tasks_of s).
  rewrite Hf. wp_step. eapply wp_intro; [reflexivity|]. cbv beta iota. wp_step.
  eapply wp_mono; [exact Hwp|].
  intros [a tcb'] s1 HQ. wp_step. eapply wp_intro; [reflexivity|]. wp_step.
  eapply wp_intro; [reflexivity|]. wp_step. exact HQ.
Qed.

(** Steps of the space of [tcb] to [v]: for the tasks and their memory - only pages of
    the task, free ones and those of [P] are written, and only pages of the task and free
    ones change hands - ... *)
Record advanced (P : Z → Prop) s tcb v s' : Prop := {
  av_inv : kernel_inv s';
  av_tasks : ∃ i, tasks_of s !! i = Some tcb ∧
    tasks_of s' = <[i := Tcb.set_vm_space v tcb]> (tasks_of s);
  av_next : k_next_id s' = k_next_id s;
  av_satp : kernel_satp (k_mm s') = kernel_satp (k_mm s);
  av_ends : same_ends (vm_space tcb) v;
  av_same p : ¬ P p → ¬ owns (vm_space tcb) p → ¬ ps_free s p →
    page_same p (mem_of s) (mem_of s');
  av_free p : ps_free s' p → owns (vm_space tcb) p ∨ ps_free s p;
  av_owns p : owns v p → owns (vm_space tcb) p ∨ ps_free s p;
  av_reach p : reaches v s' p → reaches (vm_space tcb) s p ∨ owns (vm_space tcb) p ∨ ps_free s p;
  av_stack p : stack_page tcb p →
    stack_page (Tcb.set_vm_space v tcb) p ∧ (¬ P p → page_same p (mem_of s) (mem_of s'));
  av_others other : other ∈ tasks_of s → task_id other ≠ task_id tcb →
    undisturbed (vm_space other) s s';
}.
Definition nothing (p : Z) : Prop := False.
(** ... and for the rest of the kernel state *)
Record stepped s tcb v s' : Prop := {
  st_advanced : advanced nothing s tcb v s';
  st_rest : s' = upd (k_tasks s') (upd (k_mm s') s);
}.

Lemma advanced_running P s tcb v s' :
  running s tcb → advanced P s tcb v s' → k_tp s' = k_tp s →
  same_hart (k_csrs s) (k_csrs s') →
  running s' (Tcb.set_vm_space v tcb).
Proof.
  intros [Hin Hst Honly Htp Hsatp Hker] [_ (i & Hi & Et) _ _ (Eroot & _ & _ & Ek) _ _ _ _ _ _] Etp Ecs. pose proof (same_hart_satp _ _ Ecs) as Esatp. split.
  - rewrite Et. apply list_elem_of_lookup. exists i. apply list_lookup_insert_eq.
    by eapply lookup_lt_Some.
  - done.
  - rewrite Et. intros other Ho Hos. apply list_elem_of_lookup in Ho as [j Hj].
    destruct (decide (j = i)) as [->|Hne].
    + rewrite list_lookup_insert_eq in Hj by (by eapply lookup_lt_Some). by simplify_eq.
    + rewrite list_lookup_insert_ne in Hj by done. simpl. apply Honly; [|done].
      by eapply list_elem_of_lookup_2.
  - rewrite Etp, Htp. unfold context_of. simpl. by rewrite Ek.
  - rewrite Esatp, Hsatp. simpl. unfold Space.get_satp, Pgt.get_satp. by rewrite Eroot.
  - by eapply in_kernel_same.
Qed.

Lemma stepped_running s tcb v s' :
  running s tcb → stepped s tcb v s' → running s' (Tcb.set_vm_space v tcb).
Proof.
  intros Hrun [Hav Er]. apply (advanced_running nothing s tcb v s' Hrun Hav); [by rewrite Er|].
  apply same_hart_eq. by rewrite Er.
Qed.

Lemma space_step_mm s tcb v s1 s2 :
  k_mm s2 = k_mm s1 → space_step s tcb v s1 → space_step s tcb v s2.
Proof.
  intros E [Hi [Hs Hf Ho Hr] He Hst].
  assert (mem_of s2 = mem_of s1) as Em by (unfold mem_of; cbn; by rewrite E).
  split; [by apply (vm_inv_mm _ s1)| |done|by rewrite Em].
  split; [by rewrite Em| |done|].
  - intros p Hp. apply Hf. unfold ps_free in *. cbn in *. by rewrite <- E.
  - intros p (q & Hq & Hn). apply Hr. exists q. by rewrite <- Em.
Qed.

Lemma space_step_pre s0 s tcb v s1 :
  k_mm s0 = k_mm s → space_step s0 tcb v s1 → space_step s tcb v s1.
Proof.
  intros E [Hi [Hs Hf Ho Hr] He Hst].
  assert (mem_of s0 = mem_of s) as Em by (unfold mem_of; cbn; by rewrite E).
  assert (∀ p, ps_free s0 p ↔ ps_free s p) as Ef by (intros p; unfold ps_free; cbn; by rewrite E).
  split; [done| |done|by rewrite <- Em]. split.
  - intros p. rewrite <- Ef, <- Em. apply Hs.
  - intros p. rewrite <- Ef. apply Hf.
  - intros p. rewrite <- Ef. apply Ho.
  - intros p Hp. rewrite <- Ef. unfold reaches in *. rewrite <- Em. by apply Hr.
Qed.

Lemma tasks_inv_mm l s s' :
  k_mm s' = k_mm s → k_next_id s' = k_next_id s → tasks_inv l s → tasks_inv l s'.
Proof.
  intros E En [Ht Hi Hn Ha]. assert (mem_of s' = mem_of s) as Em by (unfold mem_of; cbn; by rewrite E).
  split; [|done|by rewrite En|].
  - eapply Forall_impl; [exact Ht|]. intros tcb [Hsp Hst Hid Hus Hc]. split; [by apply (vm_inv_mm _ s)|done| |by unfold to_user; rewrite Em|done].
    rewrite task_id_word in Hid |- *. by rewrite Em.
  - clear Ht Hi Hn. induction l as [|a l IH]; [done|]. destruct Ha as [Hda Ha].
    split; [|by apply IH]. eapply Forall_impl; [exact Hda|].
    intros b [Hab Hba]. split; intros p Hp; [destruct (Hab p Hp)|destruct (Hba p Hp)];
      (split; [done|]); unfold reaches in *; by rewrite Em.
Qed.

(** [f] steps the space of the task, under the lock. *)
Lemma update_space_wp {A} s tcb (f : TaskControlBlock → M KS (A * TaskControlBlock)) Q :
  kernel_inv s → tcb ∈ tasks_of s →
  wp (f tcb) (λ '(a, tcb') s1, ∃ v, tcb' = Tcb.set_vm_space v tcb ∧
    only_mm (lock_tasks s) s1 ∧ space_step (lock_tasks s) tcb v s1 ∧
    ∀ s', k_mm s' = k_mm s1 → stepped s tcb v s' → Q a s') (lock_tasks s) →
  wp (Task.update_tcb (task_id tcb) f) Q s.
Proof.
  intros Hi Hin Hwp. pose proof Hi as [Hl Hts]%kernel_inv_tasks.
  destruct (find_task_in _ (task_id tcb) tcb (ki_ids _ Hi) Hin eq_refl) as [i Hfind].
  pose proof (find_task_Some _ _ _ _ Hfind) as [Hix _].
  apply (update_tcb_run s tcb i); [done|done|].
  eapply wp_mono; [exact Hwp|]. intros [a tcb'] s1 (v & -> & [Es Ek] & Hstep & HQ).
  apply (space_step_pre _ s) in Hstep; [|done].
  set (s' := release_tasks (<[i := Tcb.set_vm_space v tcb]> (tasks_of s)) s1).
  assert (space_step s tcb v s') as Hstep' by (by apply (space_step_mm s tcb v s1)).
  rewrite (delete_Permutation _ _ _ Hix) in Hts.
  apply HQ; [done|]. split; [|by subst s'; rewrite Es].
  pose proof (ss_local _ _ _ _ Hstep') as [Hlsame Hlfree Hlowns Hlreach].
  split; [|by exists i|by subst s'; rewrite Es|done|by apply Hstep|
    intros p _; apply Hlsame|exact Hlfree|exact Hlowns|exact Hlreach| |].
  - apply kernel_inv_tasks. split; [done|].
    eapply tasks_inv_reorder; [symmetry; by apply (insert_delete_perm _ _ _ _ Hix)|].
    apply (tasks_inv_space_step s tcb _ v); [done|done|]. subst s'. by rewrite Es.
  - intros p Hp. destruct (ss_stack _ _ _ _ Hstep' p Hp). by split.
  - apply tasks_inv_cons in Hts as (_ & _ & _ & Hap & Hts). intros other Ho Hne.
    rewrite (delete_Permutation _ _ _ Hix) in Ho. apply elem_of_cons in Ho as [->|Ho]; [done|].
    pose proof (ti_tasks _ _ Hts) as Hok. rewrite Forall_forall in Hok, Hap.
    destruct Hstep' as [Hv Hloc _ _].
    apply (undisturbed_local (vm_space tcb) s v); [apply Hok, Ho|apply Hv|done|apply Hap, Ho].
Qed.

(** *** The steps the kernel makes *)

Lemma kernel_vpn_high p : 0 <= p → 2 ^ 52 - 2 ^ 26 <= kernel_vpn p.
Proof. unfold kernel_vpn. change (KERNEL_VA_OFFSET / 4096) with (2 ^ 52 - 2 ^ 26). lia. Qed.

(** Steps that keep the kernel half of the view *)
Lemma space_step_keeps s tcb v s' :
  vm_inv (vm_space tcb) s → vm_inv v s' → local (vm_space tcb) s v s' →
  same_ends (vm_space tcb) v →
  (∀ u pm p, 2 ^ 26 <= u → has (areas (vm_space tcb)) u KernelVaOffset pm (Some p) →
     has (areas v) u KernelVaOffset pm (Some p) ∧ page_same p (mem_of s) (mem_of s')) →
  space_step s tcb v s'.
Proof.
  intros Hi Hi' Hloc Hends Hkeep. split; [done..|]. intros p Hp.
  pose proof (stack_page_ram _ _ _ Hi Hp) as Hr. destruct Hp as [Ek [pm Hh]].
  pose proof (kernel_vpn_high p ltac:(lia)).
  destruct (Hkeep (kernel_vpn p) pm p ltac:(lia) Hh) as [Hh' Hs].
  split; [|done]. split; [|by exists pm]. simpl. destruct Hends as (_ & _ & _ & ->). done.
Qed.

Lemma map_space_step s tcb va min r v s' :
  vm_inv (vm_space tcb) s → 0 <= va < 2 ^ 38 →
  vm_inv v s' → same_ends (vm_space tcb) v →
  (∀ u t pm p, has (areas (vm_space tcb)) u t pm (Some p) → page_same p (mem_of s) (mem_of s')) →
  local (vm_space tcb) s v s' → map_post (vm_space tcb) (va / 4096) min s r v s' →
  space_step s tcb v s'.
Proof.
  intros Hi Hva Hi' Hends Hpages Hloc Hpost. apply space_step_keeps; [done..|].
  intros u pm p Hu Hh. split; [|by eapply Hpages]. destruct r as [[]|e]; simpl in Hpost.
  - destruct Hpost as (pm' & q & _ & _ & _ & _ & _ & Hview). apply Hview. right. split; [zlia|done].
  - destruct Hpost as [-> _]. done.
Qed.

Lemma cut_space_step s tcb x y v s' :
  vm_inv (vm_space tcb) s → y <= 2 ^ 26 → vm_cut (vm_space tcb) s x y v s' → space_step s tcb v s'.
Proof.
  intros Hi Hy Hcut. pose proof (cut_local _ _ _ _ _ _ Hcut) as Hloc.
  pose proof Hcut as [Hi' _ Hends Hhas _ Hfr _]. apply space_step_keeps; [done..|].
  intros u pm p Hu Hh. split; [apply Hhas; split; [done|lia]|].
  apply Hfr. by apply (vi_owned _ _ Hi) in Hh as (_ & _ & ? & _).
Qed.

Lemma running_space s tcb : kernel_inv s → running s tcb → vm_inv (vm_space tcb) s.
Proof.
  intros Hi Hrun. pose proof (ki_tasks _ Hi) as Hts. rewrite Forall_forall in Hts.
  by apply Hts, Hrun.
Qed.

Lemma stepped_space s tcb v s' : stepped s tcb v s' → vm_inv v s'.
Proof.
  intros [[Hi (i & Hix & Et) _ _ _ _ _ _ _ _ _] _]. pose proof (ki_tasks _ Hi) as Hts.
  rewrite Et, Forall_forall in Hts.
  apply (tk_space s' (Tcb.set_vm_space v tcb)), Hts, list_elem_of_lookup. exists i.
  apply list_lookup_insert_eq. by eapply lookup_lt_Some.
Qed.

Lemma advanced_refl P s tcb :
  kernel_inv s → tcb ∈ tasks_of s → advanced P s tcb (vm_space tcb) s.
Proof.
  intros Hi Hin. pose proof (ki_tasks _ Hi) as Hts. rewrite Forall_forall in Hts.
  split; [done| |done|done|done|done|tauto|tauto|tauto| |].
  - apply list_elem_of_lookup in Hin as [i Hix]. exists i. split; [done|].
    rewrite list_insert_id; [done|]. rewrite Hix. by destruct tcb.
  - by destruct tcb.
  - intros other Ho _. split; [by apply Hts|done|done|done].
Qed.
Lemma stepped_refl s tcb : kernel_inv s → tcb ∈ tasks_of s → stepped s tcb (vm_space tcb) s.
Proof. intros Hi Hin. split; [by apply advanced_refl|by destruct s]. Qed.

(** The context of a task is not null and holds its identity. *)
Lemma context_id s tcb :
  kernel_inv s → tcb ∈ tasks_of s →
  context_of tcb ≠ 0 ∧ TrapCtx.get_task_id (context_of tcb) s = Ret (task_id tcb) s.
Proof.
  intros Hi Hin. pose proof (ki_tasks _ Hi) as Ht. rewrite Forall_forall in Ht.
  destruct (Ht _ Hin) as [Hsp [p Hp] Hid _]. split; [|done].
  pose proof (stack_page_ram _ _ _ Hsp Hp) as Hr. rewrite (context_of_eq _ _ _ Hsp Hp).
  unfold kernel_va, page_start, KERNEL_VA_OFFSET. lia.
Qed.

(** [tp] identifies the running task. *)
Lemma current_task_run s tcb :
  kernel_inv s → running s tcb → Task.get_current_task_id s = Ret (task_id tcb) s.
Proof.
  intros Hi [Hin _ _ Htp _]. destruct (context_id _ _ Hi Hin) as [Hne Hid].
  unfold Task.get_current_task_id, Task.try_get_current_task_id, gets, mbind, M_bind.
  rewrite Htp, (proj2 (Z.eqb_neq _ _) Hne). by rewrite Hid.
Qed.
End tasks.
