(* ===== verification/KSample.v ===== *)
(** * A small kernel, for examples

    Two tasks, each with a page table of its own, one user area and a kernel stack of one
    page with its identity on top; the first is running. *)

From S2P Require Export KInv.
From S2P Require Import Spin PageAlloc Regs.
From stdpp Require Import list.
Open Scope Z_scope.

#[export] Instance sample_trap_symbols : TrapSymbols := {|
  __stvec := 0xffffffc080201000;
  __restore_u_ctx := 0xffffffc080201100;
  __uaccess_lb := 0xffffffc080201204;
  __uaccess_sb := 0xffffffc080201208;
  __uaccess_fix := 0xffffffc080201218;
|}.
#[local] Existing Instance sample_symbols.

(** The task with page table [r] and kernel stack page [p] *)
Definition sample_stack (p : Z) : VMArea :=
  mk_VMArea (kernel_vpn p) (kernel_vpn p + 1) KernelVaOffset 0x6 {[kernel_vpn p := p]}.
Definition sample_task_space (r p : Z) : VMSpace :=
  mk_VMSpace (sample_root r) [sample_area; sample_stack p] 0x10000 0x4000000000 (kernel_va p + 4096).
Definition sample_context (p : Z) : Z := kernel_va p + 3816.
Definition sample_task (id : Z) (st : TaskState) (r p : Z) : TaskControlBlock :=
  mk_TaskControlBlock id (sample_task_space r p) st
    (Context.new_initial __restore_u_ctx (sample_context p) (sample_context p)
       (Space.get_satp (sample_task_space r p))) Stats.new_zeros.

Definition task1 : TaskControlBlock := sample_task 1 Running 0x80706 0x8070c.
Definition task2 : TaskControlBlock := sample_task 2 Ready 0x80709 0x8070d.

Definition put_id (p id : Z) (m : mem) : mem := write_u64 m (page_start p + 3816 + 8 * 34) id.
Definition sample_mem : mem :=
  put_id 0x8070c 1 (put_id 0x8070d 2 (sample_tree 0x80706 (sample_tree 0x80709 ∅))).
Definition sample_kernel : KS := {|
  k_mm := mk_MM sample_mem (new (mk_PageAllocator 0x80710 LAST_PPN [])) 0;
  k_csrs := mk_csrs {[0x180 := Space.get_satp (vm_space task1); Stvec.CSR_NO := __stvec]};
  k_tp := sample_context 0x8070c;
  k_tasks := new [task1; task2];
  k_next_id := mk_NEXT_TASK_ID 3;
  k_clock := mk_Clock (λ n, 100 + 10 * Z.of_nat n) 0;
  k_sbi := mk_Sbi [];
  k_level := mk_MAX_LEVEL_ORDINAL 0;
|}.

(** ** Its invariant *)

Definition sample_frame (p : Z) : Prop := 0x80706 <= p < 0x80710.

(** The sample kernel with other memory *)
Definition with_mem (m : mem) : KS := upd m sample_kernel.

Lemma with_mem_ok m : ps_ok (with_mem m).
Proof.
  split; [|done]. split; [done|]. split; simpl; [done|vm_compute; congruence|constructor|by intros ? ?%elem_of_nil].
Qed.
Lemma with_mem_free m p : ps_free (with_mem m) p ↔ 0x80710 <= p < LAST_PPN.
Proof.
  split; [intros [Hp|Hp]; [by apply elem_of_nil in Hp|]|intros Hp; right]; exact Hp.
Qed.
Lemma sample_frame_ok m p : sample_frame p → ps_managed p ∧ ¬ ps_free (with_mem m) p.
Proof.
  unfold sample_frame. intros Hp. split; [|rewrite with_mem_free; lia].
  change (@managed sample_symbols p). unfold managed, LAST_PPN.
  change (@first_ppn sample_symbols) with 0x80706. lia.
Qed.

Lemma sample_has r p v t pm o :
  has (areas (sample_task_space r p)) v t pm o ↔
    (0x10 <= v < 0x20 ∧ t = Anonymous ∧ pm = 0x16 ∧ o = None) ∨
    (v = kernel_vpn p ∧ t = KernelVaOffset ∧ pm = 0x6 ∧ o = Some p).
Proof.
  simpl. rewrite !has_cons. unfold sees. simpl. split.
  - intros [(? & <- & <- & <-)|[(? & <- & <- & <-)|[]%has_nil]]; [left|right].
    + split_and!; [lia..|done|done|apply lookup_empty].
    + assert (v = kernel_vpn p) as -> by lia. by rewrite lookup_singleton_eq.
  - intros [(? & -> & -> & ->)|(-> & -> & -> & ->)]; [left|right; left].
    + split_and!; [lia..|done|done|apply lookup_empty].
    + split_and!; [lia..|done|done|by rewrite lookup_singleton_eq].
Qed.

(** Any memory with its tables in place *)
Definition has_tree (r : Z) (m : mem) : Prop :=
  ∀ q, q ∈ rp_pages (sample_root r) → page_same q (sample_tree r ∅) m.

Lemma has_tree_tables r m :
  0 <= r → r + 2 < 2 ^ 26 → has_tree r m →
  pgt_wf m r ∧
  (∀ q t, path_ok q → node_at m r q = Some t → t ∈ rp_pages (sample_root r)) ∧
  (∀ q, full_path q → lookup_at m r q = None) ∧
  node_at m r [256; 0] = Some (r + 2).
Proof.
  intros Hr Hr2 Hm. destruct (sample_tree_tables r Hr Hr2) as (Hwf & Hn & Hnone & Hsen).
  assert (∀ q t, path_ok q → node_at (sample_tree r ∅) r q = Some t → t ∈ rp_pages (sample_root r)) as Htab.
  { intros q t Hq Hnq. apply (Hn q t Hq) in Hnq. unfold sample_root, rp_pages.
    rewrite !elem_of_cons, elem_of_nil in Hnq. rewrite !elem_of_cons, elem_of_nil.
    destruct Hnq as [[= _ ->]|[[= _ ->]|[[= _ ->]|[]]]]; tauto. }
  assert (∀ q t i, path_ok q → node_at (sample_tree r ∅) r q = Some t → idx_ok i →
    pte m t i = pte (sample_tree r ∅) t i) as Ht.
  { intros q t i Hq Hnq Hi. apply page_same_pte; [|done]. by eapply Hm, Htab. }
  assert (∀ q, path_ok q → node_at m r q = node_at (sample_tree r ∅) r q) as Hn'
    by (intros; by apply (node_at_same_tables _ _ _ _ Ht)).
  split_and!.
  - by apply (pgt_wf_same_tables _ _ _ Ht).
  - intros q t Hq. rewrite Hn' by done. by apply Htab.
  - intros q Hq. rewrite <- (Hnone q Hq).
    destruct Hq as [Hf Hl]. apply (lookup_at_same_tables _ _ _ _ Ht); [done|lia].
  - rewrite Hn' by (apply path2_ok; unfold idx_ok; lia). exact Hsen.
Qed.

Lemma sample_space_ok_at r p m :
  sample_frame r → sample_frame (r + 2) → sample_frame p → p ∉ rp_pages (sample_root r) → has_tree r m →
  vm_inv (sample_task_space r p) (with_mem m).
Proof.
  intros Hr Hr2 Hp Hne Hm.
  destruct (has_tree_tables r m) as (Hwf & Htab & Hnone & Hsen); [unfold sample_frame in *; lia..|done|].
  assert (∀ q, q ∈ rp_pages (sample_root r) → sample_frame q) as Hfr.
  { intros q Hq. unfold sample_frame in *. unfold sample_root, rp_pages in Hq.
    rewrite !elem_of_cons, elem_of_nil in Hq. lia. }
  split.
  - split; [apply with_mem_ok|exact Hwf| | |intros q Hq; by apply sample_frame_ok, Hfr|].
    + intros q Hq π Hπ Hnq. apply Htab, Hfr in Hnq; [|done]. by destruct (sample_frame_ok m q Hnq) as [_ []].
    + unfold sample_root, rp_pages.
      repeat (apply NoDup_cons_2; [rewrite ?elem_of_cons, elem_of_nil; lia|]). apply NoDup_nil_2.
    + intros q t Hq _ Hnq. by eapply Htab.
  - pose proof (kernel_vpn_high p ltac:(unfold sample_frame in *; lia)).
    repeat apply Forall_cons_2; [..|done].
    + split; simpl; [lia|lia|vm_compute; split; congruence|done|].
      intros v q Hq. by rewrite lookup_empty in Hq.
    + split; simpl; [lia|lia|vm_compute; split; congruence|done|].
      intros v q [<- _]%lookup_singleton_Some. lia.
  - pose proof (kernel_vpn_high p ltac:(unfold sample_frame in *; lia)).
    split; [|by split]. apply Forall_singleton. left. simpl. lia.
  - intros v t pm q [(_ & _ & _ & ?)|(_ & _ & _ & [= ->])]%sample_has; [done|].
    destruct (sample_frame_ok m p Hp) as [? ?].
    split_and!; [done..|]. intros q Hq Hnq. by apply Hne, (Htab q).
  - intros v t pm q [(_ & _ & _ & ?)|(_ & _ & -> & _)]%sample_has; [done|reflexivity].
  - intros v1 v2 t1 t2 pm1 pm2 q Hh1 Hh2. apply sample_has in Hh1, Hh2.
    destruct Hh1 as [(_ & _ & _ & ?)|(-> & _)], Hh2 as [(_ & _ & _ & ?)|(-> & _)]; done.
  - intros v x Hv. unfold pgt_lookup. change (mem_of (with_mem m)) with m.
    rewrite Hnone by apply vpn_path_full. split; [done|].
    intros (t & pm & q & Hh & _). apply sample_has in Hh as [(_ & _ & _ & ?)|(-> & _)]; [done|].
    pose proof (kernel_vpn_high p ltac:(unfold sample_frame in *; lia)). lia.
  - eexists. exact Hsen.
Qed.

(** The two tables and the two stacks do not overlap. *)
Lemma put_id_other p id m q : q ≠ p → page_same q m (put_id p id m).
Proof. intros Hq a Ha. apply write_u64_other. unfold page_start, page_end in *. lia. Qed.
Lemma sample_tree_other r m q : q ≠ r → q ≠ r + 1 → page_same q m (sample_tree r m).
Proof.
  intros Hq Hq'. unfold sample_tree.
  eapply page_same_trans; apply page_same_write; unfold idx_ok; lia || done.
Qed.
Lemma sample_tree_cong r m m' q : page_same q m m' → page_same q (sample_tree r m) (sample_tree r m').
Proof. intros Hs a Ha. by do 2 apply write_le_cong; apply Hs. Qed.

Lemma sample_mem_tree r : r = 0x80706 ∨ r = 0x80709 → has_tree r sample_mem.
Proof.
  intros Hr q Hq. unfold sample_root, rp_pages in Hq. rewrite !elem_of_cons, elem_of_nil in Hq.
  unfold sample_mem. eapply page_same_trans; [|apply put_id_other; lia].
  eapply page_same_trans; [|apply put_id_other; lia]. destruct Hr as [->| ->].
  - apply sample_tree_cong, sample_tree_other; lia.
  - apply sample_tree_other; lia.
Qed.

(** The two spaces *)
Lemma sample_spaces_ok :
  vm_inv (vm_space task1) sample_kernel ∧ vm_inv (vm_space task2) sample_kernel.
Proof.
  split; apply (sample_space_ok_at _ _ sample_mem);
    try (apply sample_mem_tree; tauto); unfold sample_frame; try lia;
    unfold sample_root, rp_pages; rewrite !elem_of_cons, elem_of_nil; lia.
Qed.

Lemma sample_reach r p q :
  r = 0x80706 ∨ r = 0x80709 →
  owns (sample_task_space r p) q ∨ reaches (sample_task_space r p) sample_kernel q →
  q = p ∨ q ∈ rp_pages (sample_root r).
Proof.
  intros Hr. destruct (has_tree_tables r sample_mem) as (_ & Htab & _); [lia|lia|by apply sample_mem_tree|].
  intros [[Hq|(v & t & pm & Hh)]|(π & Hπ & Hn)].
  - by right.
  - apply sample_has in Hh as [(_ & _ & _ & ?)|(_ & _ & _ & [= ->])]; [done|by left].
  - right. by apply (Htab π).
Qed.

Lemma sample_apart : apart_tasks sample_kernel task1 task2.
Proof.
  assert (∀ q, owns (vm_space task1) q ∨ reaches (vm_space task1) sample_kernel q →
    owns (vm_space task2) q ∨ reaches (vm_space task2) sample_kernel q → False) as Hd.
  { intros q H1%sample_reach H2%sample_reach; [|tauto..].
    unfold sample_root, rp_pages in *. rewrite !elem_of_cons, elem_of_nil in H1, H2. lia. }
  split; intros q Hq; split; intros Hq'; apply (Hd q); tauto.
Qed.

Lemma sample_task_ok tcb :
  tcb = task1 ∨ tcb = task2 → task_ok sample_kernel tcb.
Proof.
  intros Ht. split.
  - destruct sample_spaces_ok. by destruct Ht as [->| ->].
  - destruct Ht as [->| ->]; [exists 0x8070c|exists 0x8070d];
      (split; [done|]; exists 0x6; apply sample_has; right; by split_and!).
  - destruct Ht as [->| ->]; vm_compute; done.
  - destruct Ht as [->| ->]; vm_compute; done.
  - destruct Ht as [->| ->]; vm_compute; done.
Qed.

Lemma sample_kernel_inv : kernel_inv sample_kernel.
Proof.
  split; simpl.
  - done.
  - repeat apply Forall_cons_2; [apply sample_task_ok; tauto..|done].
  - change (NoDup [1; 2]). repeat (apply NoDup_cons_2; [rewrite ?elem_of_cons, elem_of_nil; lia|]).
    apply NoDup_nil_2.
  - repeat apply Forall_cons_2; simpl; [lia..|done].
  - split; [|by split]. apply Forall_singleton. apply sample_apart.
Qed.

Lemma sample_running : running sample_kernel task1.
Proof.
  split; [left|done| |done|done|by split].
  intros other [->|[->|[]%elem_of_nil]%elem_of_cons]%elem_of_cons Hst; [done|discriminate Hst].
Qed.
