(* ===== verification/KSteps.v ===== *)
(** * Sequences of steps of the kernel

    Steps compose, do not see registers, the clock or the console, and include the
    kernel's own writes: to private buffers and to the user pages of the task. *)

From S2P Require Export KSample.
From S2P Require Import Spin PageAlloc Regs.
From stdpp Require Import list.
Open Scope Z_scope.

Section steps.
Context `{LinkerSymbols} `{TrapSymbols}.
Implicit Types (s : KS) (tcb : TaskControlBlock).

(** ** Steps that only touch registers, the clock, the console *)

Definition quiet s s' : Prop :=
  k_mm s' = k_mm s ∧ k_tasks s' = k_tasks s ∧ k_next_id s' = k_next_id s.

Lemma quiet_refl s : quiet s s.
Proof. done. Qed.
Lemma quiet_sym s s' : quiet s s' → quiet s' s.
Proof. intros (? & ? & ?). by split_and!. Qed.
Lemma quiet_trans s1 s2 s3 : quiet s1 s2 → quiet s2 s3 → quiet s1 s3.
Proof. intros (? & ? & ?) (? & ? & ?). split_and!; congruence. Qed.

Lemma quiet_mem s s' : quiet s s' → mem_of s' = mem_of s.
Proof. intros (E & _). unfold mem_of. cbn. by rewrite E. Qed.
Lemma quiet_free s s' p : quiet s s' → ps_free s' p ↔ ps_free s p.
Proof. intros (E & _). unfold ps_free. cbn. by rewrite E. Qed.
Lemma quiet_tasks s s' : quiet s s' → tasks_of s' = tasks_of s.
Proof. intros (_ & E & _). unfold tasks_of. by rewrite E. Qed.
Lemma quiet_reaches s s' self p : quiet s s' → reaches self s' p ↔ reaches self s p.
Proof. intros Hq. unfold reaches. by rewrite (quiet_mem _ _ Hq). Qed.
Lemma quiet_inv s s' : quiet s s' → kernel_inv s → kernel_inv s'.
Proof.
  intros Hq (Hl & Ht)%kernel_inv_tasks. apply kernel_inv_tasks. rewrite (quiet_tasks _ _ Hq).
  destruct Hq as (Em & Et & En). split; [by rewrite Et|]. by apply (tasks_inv_mm _ s).
Qed.
Lemma quiet_undisturbed self s0 s s' :
  quiet s s' → undisturbed self s0 s → undisturbed self s0 s'.
Proof.
  intros Hq [Hi Ht Hp Hr]. pose proof (quiet_mem _ _ Hq) as Em. split.
  - apply (vm_inv_mm self s); [apply Hq|done].
  - intros va. by rewrite Em.
  - intros p Ho. rewrite Em. by apply Hp.
  - intros p. by rewrite (quiet_reaches s s').
Qed.
Lemma undisturbed_quiet self s0 s s' :
  quiet s0 s → undisturbed self s s' → undisturbed self s0 s'.
Proof.
  intros Hq [Hi Ht Hp Hr]. pose proof (quiet_mem _ _ Hq) as Em. split; [done|..].
  - intros va. by rewrite Ht, Em.
  - intros p Ho. rewrite <- Em. by apply Hp.
  - intros p. by rewrite Hr, (quiet_reaches s0 s).
Qed.

Lemma advanced_quiet P s0 s1 s2 s3 tcb v :
  quiet s0 s1 → quiet s2 s3 → advanced P s1 tcb v s2 → advanced P s0 tcb v s3.
Proof.
  intros Hq Hq' [Hi [i [Hix Et]] En Es Hends Hs Hf Ho Hr Hk Hoth].
  pose proof (quiet_mem _ _ Hq) as Em. pose proof (quiet_mem _ _ Hq') as Em'.
  pose proof (quiet_tasks _ _ Hq) as Ek. pose proof (quiet_tasks _ _ Hq') as Ek'.
  split.
  - by apply (quiet_inv s2).
  - exists i. by rewrite Ek', Et, <- Ek.
  - destruct Hq as (_ & _ & E), Hq' as (_ & _ & E'). by rewrite E', En.
  - destruct Hq as (E & _), Hq' as (E' & _). by rewrite E', Es, E.
  - done.
  - intros p. rewrite Em', <- Em, <- (quiet_free s0 s1) by done. apply Hs.
  - intros p. rewrite (quiet_free s2 s3), <- (quiet_free s0 s1) by done. apply Hf.
  - intros p. rewrite <- (quiet_free s0 s1) by done. apply Ho.
  - intros p. rewrite (quiet_reaches s2 s3), <- (quiet_free s0 s1), <- (quiet_reaches s0 s1) by done. apply Hr.
  - intros p. rewrite Em', <- Em. apply Hk.
  - intros other. rewrite <- Ek. intros Hot Hne. apply (undisturbed_quiet _ s0 s1); [done|].
    apply (quiet_undisturbed _ _ s2); [done|]. by apply Hoth.
Qed.

(** More pages may change. *)
Lemma advanced_weaken (P P' : Z → Prop) s tcb v s' :
  (∀ p, P p → P' p) → advanced P s tcb v s' → advanced P' s tcb v s'.
Proof.
  intros HP [? ? ? ? ? Hs ? ? ? Hk ?]. split; try done.
  - intros p HnP. apply Hs. by intros ?%HP.
  - intros p Hp. destruct (Hk p Hp) as [? Hsame]. split; [done|]. intros HnP. apply Hsame. by intros ?%HP.
Qed.

(** ** Steps in sequence *)

Lemma kernel_task_index s i j tcb1 tcb2 :
  kernel_inv s → tasks_of s !! i = Some tcb1 → tasks_of s !! j = Some tcb2 →
  task_id tcb1 = task_id tcb2 → i = j.
Proof.
  intros Hi H1 H2 E. eapply (NoDup_lookup (ids (tasks_of s))); [apply Hi|..];
    apply list_lookup_fmap_Some; [by exists tcb1|]. by exists tcb2.
Qed.

Lemma advanced_in P s tcb v s' :
  advanced P s tcb v s' → Tcb.set_vm_space v tcb ∈ tasks_of s'.
Proof.
  intros [_ [i [Hix ->]] _ _ _ _ _ _ _ _ _]. apply list_elem_of_lookup. exists i.
  apply list_lookup_insert_eq. by eapply lookup_lt_Some.
Qed.
Lemma advanced_space P s tcb v s' : advanced P s tcb v s' → vm_inv v s'.
Proof.
  intros Hav. pose proof (ki_tasks _ (av_inv _ _ _ _ _ Hav)) as Hts. rewrite Forall_forall in Hts.
  apply (tk_space s' (Tcb.set_vm_space v tcb)), Hts. by eapply advanced_in.
Qed.

Lemma advanced_trans P s1 s2 s3 tcb v v' :
  advanced P s1 tcb v s2 → advanced P s2 (Tcb.set_vm_space v tcb) v' s3 →
  advanced P s1 tcb v' s3.
Proof.
  intros Hav1 Hav2. pose proof (av_inv _ _ _ _ _ Hav1) as Hi2.
  destruct Hav1 as [_ [i [Hix Et]] En Es Hends Hs Hf Ho Hr Hk Hoth].
  destruct Hav2 as [Hi3 [j [Hjx Et']] En' Es' Hends' Hs' Hf' Ho' Hr' Hk' Hoth'].
  cbn [vm_space task_id Tcb.set_vm_space] in *.
  assert (tasks_of s2 !! i = Some (Tcb.set_vm_space v tcb)) as Hix2.
  { rewrite Et. apply list_lookup_insert_eq. by eapply lookup_lt_Some. }
  assert (j = i) as -> by (by eapply (kernel_task_index s2)).
  split.
  - done.
  - exists i. split; [done|]. by rewrite Et', Et, list_insert_insert_eq.
  - by rewrite En'.
  - by rewrite Es'.
  - destruct Hends as (? & ? & ? & ?), Hends' as (? & ? & ? & ?). split_and!; congruence.
  - intros p HP Hno Hnf. eapply page_same_trans; [by apply Hs|]. apply Hs'; [done|..].
    + intros [?|?]%Ho; done.
    + intros [?|?]%Hf; done.
  - intros p [[?|?]%Ho|[?|?]%Hf]%Hf'; tauto.
  - intros p [[?|?]%Ho|[?|?]%Hf]%Ho'; tauto.
  - intros p [[?|[?|?]]%Hr|[[?|?]%Ho|[?|?]%Hf]]%Hr'; tauto.
  - intros p Hp. destruct (Hk p Hp) as [Hp2 Hs2]. destruct (Hk' p Hp2) as [Hp3 Hs3].
    split; [done|]. intros HnP. eapply page_same_trans; [by apply Hs2|by apply Hs3].
  - intros other Hot Hne. eapply undisturbed_trans; [by apply Hoth|]. apply Hoth'; [|done].
    rewrite Et. apply list_elem_of_lookup in Hot as [k Hk2]. apply list_elem_of_lookup. exists k.
    rewrite list_lookup_insert_ne; [done|]. intros <-. congruence.
Qed.

(** ** Private pages: in use, but no page or table of a task *)

Definition private s (p : Z) : Prop :=
  ¬ ps_free s p ∧
  ∀ tcb, tcb ∈ tasks_of s → ¬ owns (vm_space tcb) p ∧ ¬ reaches (vm_space tcb) s p.

Lemma private_quiet s s' p : quiet s s' → private s p → private s' p.
Proof.
  intros Hq [Hf Ht]. split; [by rewrite (quiet_free s s')|].
  rewrite (quiet_tasks _ _ Hq). intros tcb Hin. rewrite (quiet_reaches s s') by done. by apply Ht.
Qed.

Lemma advanced_private P s tcb v s' p : advanced P s tcb v s' → private s p → private s' p.
Proof.
  intros [Hi [i [Hix Et]] _ _ _ _ Hf Ho Hr _ Hoth] [Hnf Hp].
  destruct (Hp tcb) as [Hno Hnr]; [by eapply list_elem_of_lookup_2|].
  split; [intros [?|?]%Hf; done|]. rewrite Et. intros other [j Hj]%list_elem_of_lookup.
  destruct (decide (j = i)) as [->|Hne].
  - rewrite list_lookup_insert_eq in Hj by (by eapply lookup_lt_Some). simplify_eq.
    split; [intros [?|?]%Ho; done|intros [?|[?|?]]%Hr; done].
  - assert (task_id other ≠ task_id tcb) as Hid.
    { intros E. apply Hne. apply (kernel_task_index s' j i other (Tcb.set_vm_space v tcb));
        [done|by rewrite Et| |done].
      rewrite Et. apply list_lookup_insert_eq. by eapply lookup_lt_Some. }
    rewrite list_lookup_insert_ne in Hj by done.
    assert (other ∈ tasks_of s) as Hin by (by eapply list_elem_of_lookup_2).
    destruct (Hp other Hin) as [? ?]. split; [done|].
    destruct (Hoth other Hin Hid) as [_ _ _ Hreach]. by rewrite Hreach.
Qed.

(** ** Writes of the kernel *)

(** [s'] is [s] with other bytes in [p]. *)
Record wrote s (p : Z) s' : Prop := {
  wr_same q : q ≠ p → page_same q (mem_of s) (mem_of s');
  wr_free q : ps_free s' q ↔ ps_free s q;
  wr_ok : ps_ok s';
  wr_satp : kernel_satp (k_mm s') = kernel_satp (k_mm s);
  wr_tasks : k_tasks s' = k_tasks s;
  wr_next : k_next_id s' = k_next_id s;
}.

Lemma upd_mem_wrote s p m :
  ps_ok s → (∀ q, q ≠ p → page_same q (mem_of s) m) → wrote s p (upd m s).
Proof. intros [Hok _] Hm. by split. Qed.

(** A write to a private page, ... *)
Lemma wrote_private_undisturbed s p s' tcb :
  kernel_inv s → wrote s p s' → private s p → tcb ∈ tasks_of s → undisturbed (vm_space tcb) s s'.
Proof.
  intros Hi Hw [_ Hp] Hin. destruct (Hp tcb Hin) as [Hno Hnr].
  pose proof (ki_tasks _ Hi) as Hts. rewrite Forall_forall in Hts. pose proof (tk_space _ _ (Hts _ Hin)) as Hv.
  apply vm_inv_frame; [done|apply Hw|]. intros q Hq. split.
  - apply (wr_same _ _ _ Hw). intros ->. tauto.
  - rewrite (wr_free _ _ _ Hw). destruct Hq as [Hq|Hq]; [by apply (vi_owns _ _ _ Hv)|by apply (vi_reaches _ _ _ Hv)].
Qed.

Lemma advanced_private_write P s tcb p s' :
  kernel_inv s → tcb ∈ tasks_of s → private s p → P p → wrote s p s' →
  advanced P s tcb (vm_space tcb) s'.
Proof.
  intros Hi Hin Hp HP Hw.
  assert (∀ other, other ∈ tasks_of s → undisturbed (vm_space other) s s') as Hund
    by (intros; by eapply wrote_private_undisturbed).
  assert (tasks_of s' = tasks_of s) as Et by (unfold tasks_of; by rewrite (wr_tasks _ _ _ Hw)).
  split.
  - apply kernel_inv_tasks in Hi as [Hl Hts]. apply kernel_inv_tasks. rewrite Et.
    split; [by rewrite (wr_tasks _ _ _ Hw)|]. apply (tasks_inv_undisturbed _ s); [done|apply Hw|done].
  - apply list_elem_of_lookup in Hin as [i Hi']. exists i. split; [done|]. rewrite Et.
    symmetry. apply list_insert_id. rewrite Hi'. by destruct tcb.
  - apply Hw.
  - apply Hw.
  - done.
  - intros q HnP _ _. apply (wr_same _ _ _ Hw). by intros ->.
  - intros q. rewrite (wr_free _ _ _ Hw). tauto.
  - tauto.
  - intros q. destruct (Hund tcb Hin) as [_ _ _ Hr]. rewrite Hr. tauto.
  - intros q Hq. split; [by destruct tcb|]. intros HnP. apply (wr_same _ _ _ Hw). by intros ->.
  - intros other Ho _. by apply Hund.
Qed.

(** ... and to a page of the task, which keeps its identity *)
Lemma advanced_owned_write P s tcb u t pm p s' :
  kernel_inv s → tcb ∈ tasks_of s → has (areas (vm_space tcb)) u t pm (Some p) → wrote s p s' →
  TrapCtx.get_task_id (context_of tcb) s' = Ret (task_id tcb) s' → to_user s' tcb →
  (stack_page tcb p → P p) →
  advanced P s tcb (vm_space tcb) s'.
Proof.
  intros Hi Hin Hh Hw Hid Hus HP. pose proof Hi as [Hl Hts]%kernel_inv_tasks.
  pose proof (ki_tasks _ Hi) as Hok. rewrite Forall_forall in Hok. pose proof (Hok _ Hin) as Ht.
  pose proof (tk_space _ _ Ht) as Hv. destruct (vi_owned _ _ Hv _ _ _ _ Hh) as (_ & _ & _ & Hnt).
  assert (owns (vm_space tcb) p) as Hown by (right; by exists u, t, pm).
  assert (tasks_of s' = tasks_of s) as Et by (unfold tasks_of; by rewrite (wr_tasks _ _ _ Hw)).
  destruct (vm_inv_tables (vm_space tcb) s s') as (Hv' & Htr & Hreach).
  { done. } { apply Hw. }
  { intros q Hq. apply (wr_same _ _ _ Hw). intros ->. destruct Hq as (π & Hπ & Hn). by apply (Hnt π). }
  { intros q Hq. rewrite (wr_free _ _ _ Hw).
    destruct Hq as [Hq|Hq]; [by apply (vi_owns _ _ _ Hv)|by apply (vi_reaches _ _ _ Hv)]. }
  assert (local (vm_space tcb) s (vm_space tcb) s') as Hloc.
  { split; [|intros q; rewrite (wr_free _ _ _ Hw); tauto|tauto|intros q; rewrite Hreach; tauto].
    intros q Hno _. apply (wr_same _ _ _ Hw). by intros ->. }
  pose proof Hin as [i Hix]%list_elem_of_lookup. pose proof Hloc as [Hls Hlf Hlo Hlr].
  rewrite (delete_Permutation _ _ _ Hix) in Hts.
  pose proof Hts as (_ & Hni & Hnx & Hap & Hrest)%tasks_inv_cons.
  pose proof (ti_tasks _ _ Hrest) as Hts'. rewrite Forall_forall in Hap, Hts'.
  assert (∀ other, other ∈ delete i (tasks_of s) → undisturbed (vm_space other) s s') as Hund.
  { intros other Ho. apply (undisturbed_local (vm_space tcb) s (vm_space tcb));
      [apply Hts', Ho|apply Hw|done|apply Hap, Ho]. }
  split; [| |apply Hw|apply Hw|done|by auto|done|done|done| |].
  - apply kernel_inv_tasks. split; [by rewrite (wr_tasks _ _ _ Hw)|]. rewrite Et.
    eapply tasks_inv_reorder; [symmetry; by apply (delete_Permutation _ _ _ Hix)|].
    apply tasks_inv_cons. rewrite (wr_next _ _ _ Hw). split_and!; [|done|done| |].
    + destruct Ht as [_ Hst _ _ Hc]. by split.
    + apply Forall_forall. intros other Ho.
      by destruct (apart_local (vm_space tcb) s (vm_space tcb) s' (vm_space other));
        [apply Hts', Ho|apply Hw|done|apply Hap, Ho|apply Hap, Ho|split].
    + apply (tasks_inv_undisturbed _ s); [done|apply Hw|done].
  - exists i. split; [done|]. rewrite Et. symmetry. apply list_insert_id. rewrite Hix. by destruct tcb.
  - intros q Hq. split; [by destruct tcb|]. intros HnP. apply (wr_same _ _ _ Hw). intros ->.
    by apply HnP, HP.
  - intros other Ho Hne. rewrite (delete_Permutation _ _ _ Hix) in Ho.
    apply elem_of_cons in Ho as [->|Ho]; [done|by apply Hund].
Qed.

(** A user page is no stack. *)
Lemma advanced_user_write P s tcb u pm p s' :
  kernel_inv s → tcb ∈ tasks_of s → u < 2 ^ 26 →
  has (areas (vm_space tcb)) u Anonymous pm (Some p) → wrote s p s' →
  advanced P s tcb (vm_space tcb) s'.
Proof.
  intros Hi Hin Hu Hh Hw.
  pose proof (ki_tasks _ Hi) as Hok. rewrite Forall_forall in Hok.
  pose proof (Hok _ Hin) as [Hv [q Hq] Hid Hus _].
  pose proof (stack_page_ram _ _ _ Hv Hq) as Hr. pose proof (kernel_vpn_high q ltac:(lia)) as Hhigh.
  assert (∀ q', stack_page tcb q' → q' ≠ p) as Hne.
  { intros q' Hq' ->. pose proof (stack_page_ram _ _ _ Hv Hq') as Hr'.
    pose proof (kernel_vpn_high p ltac:(lia)). destruct Hq' as [_ [pm' Hh']].
    pose proof (vi_inj _ _ Hv _ _ _ _ _ _ _ Hh Hh'). lia. }
  apply (advanced_owned_write P s tcb u Anonymous pm p); [done..| | |].
  - rewrite task_id_word in Hid |- *. rewrite <- Hid.
    apply (context_word_same _ q s); [done|done|lia|]. by apply (wr_same _ _ _ Hw), Hne.
  - unfold to_user. rewrite (context_word_same _ q s s' 32); [done|done|done|lia|by apply (wr_same _ _ _ Hw), Hne].
  - intros Hp. by destruct (Hne p Hp).
Qed.
End steps.

(** A page nobody uses *)
Lemma sample_private p :
  0x8070e <= p < 0x80710 → @private sample_symbols sample_kernel p.
Proof.
  intros Hp. split; [apply (sample_frame_ok sample_mem p); unfold sample_frame; lia|].
  intros tcb Hin. assert (¬ (owns (vm_space tcb) p ∨ reaches (vm_space tcb) sample_kernel p)) as Hn; [|tauto].
  change (tasks_of sample_kernel) with [task1; task2] in Hin.
  rewrite !elem_of_cons, elem_of_nil in Hin. unfold task1, task2, sample_task in Hin.
  destruct Hin as [->|[->|[]]]; intros Ho; apply sample_reach in Ho; try tauto;
    unfold sample_root, rp_pages in Ho; rewrite !elem_of_cons, elem_of_nil in Ho; lia.
Qed.
