(* ===== verification/FaultProps.v ===== *)
(** * Page faults of tasks

    [do_page_fault], which both trap handlers use: what a fault does to the task, for the
    hardware, and to everybody else. *)

From S2P Require Export KSample UserView.
From S2P Require Import Spin PageAlloc Regs.
From stdpp Require Import list.
Open Scope Z_scope.

Section faults.
Context `{LinkerSymbols} `{TrapSymbols}.
Implicit Types (s : KS) (tcb : TaskControlBlock).

(** What [do_page_fault] does, through the kernel's list of tasks *)
Lemma do_page_fault_wp s tcb stval need :
  kernel_inv s → tcb ∈ tasks_of s → 0 <= stval < 2 ^ 38 → is_access need →
  denied s (vm_space tcb) stval need →
  let min := PERMISSION_U .| need in
  wp (Trap.do_page_fault (task_id tcb) stval min) (λ r s', ∃ v, stepped s tcb v s' ∧
    took_at_most 3 s s' ∧
    (∀ u t pm p, has (areas (vm_space tcb)) u t pm (Some p) → page_same p (mem_of s) (mem_of s')) ∧
    map_post (vm_space tcb) (stval / 4096) min s r v s') s.
Proof.
  intros Hi Hin Hva Hn Hden min.
  pose proof (ki_tasks _ Hi) as Hts. rewrite Forall_forall in Hts. destruct (Hts _ Hin) as [Hsp _ _ _].
  unfold Trap.do_page_fault. apply update_space_wp; [done|done|]. cbv beta.
  assert (vm_inv (vm_space tcb) (lock_tasks s)) as Hsp' by (by apply (vm_inv_mm _ s)).
  wp_step. eapply wp_mono; [apply map_fault_at; [done|done|]|].
  { by apply (denied_areas _ s). }
  intros [r v] s1 (Hmm & Hv & Hends & Hpages & Hloc & Htook & Hpost).
  wp_step. exists v. split_and!; [done|done|by eapply map_space_step|].
  intros s' Em Hst. exists v. split; [done|].
  split; [by apply (took_mm 3 (lock_tasks s) s s1 s')|]. split.
  - intros u t pm p Hh. specialize (Hpages u t pm p Hh). unfold mem_of in *. cbn in *. by rewrite Em.
  - by apply (map_post_mm _ _ _ (lock_tasks s) s _ _ s1 s').
Qed.

(** C14: a user access the hardware refused, in user space, of any listed task:
    [do_page_fault] returns and takes at most three pages.  [Ok] means the hardware now
    allows the access, to a page that was free and reads 0, with the permissions of its
    area, and translates every other user address as before.  An error means the areas
    and all user translations are as they were, and that no area covers the address,
    its permissions lack the access, the hardware cannot encode them, or memory is
    full.  Either way the task sees the memory it saw before, and no other task notices. *)
Theorem page_fault_correct s tcb stval need :
  kernel_inv s → tcb ∈ tasks_of s → 0 <= stval < USER_SPACE_END → is_access need →
  denied s (vm_space tcb) stval need →
  let min := PERMISSION_U .| need in
  ∃ r s' v, Trap.do_page_fault (task_id tcb) stval min s = Ret r s' ∧ stepped s tcb v s' ∧
    took_at_most 3 s s' ∧ same_view s (vm_space tcb) s' v ∧
    match r with
    | Ok _ =>
        ¬ denied s' v stval need ∧
        ∃ pm p, min .& pm = min ∧ ps_free s p ∧ page_zero (mem_of s') p ∧
          ∀ va, 0 <= va < 2 ^ 38 →
            mmu_translate (mem_of s') (rp_ppn (root_pgt v)) va =
              if decide (va / 4096 = stval / 4096)
              then Some (p * 4096 + va mod 4096, area_flags pm)
              else mmu_translate (mem_of s) (rp_ppn (root_pgt (vm_space tcb))) va
    | Err e =>
        areas v = areas (vm_space tcb) ∧
        (∀ va, 0 <= va < 2 ^ 38 →
           mmu_translate (mem_of s') (rp_ppn (root_pgt v)) va =
           mmu_translate (mem_of s) (rp_ppn (root_pgt (vm_space tcb))) va) ∧
        map_post (vm_space tcb) (stval / 4096) min s (Err e) v s'
    end.
Proof.
  intros Hi Hin Hva Hn Hden min. rewrite user_space_end_eq in Hva.
  assert (0 <= stval < 2 ^ 38) as Hva' by lia.
  pose proof (ki_tasks _ Hi) as Hts. rewrite Forall_forall in Hts. destruct (Hts _ Hin) as [Hsp _ _ _].
  destruct (wp_returns _ _ _ (do_page_fault_wp s tcb stval need Hi Hin Hva' Hn Hden))
    as (r & s' & Hr & v & Hst & Htook & Hsame & Hpost).
  exists r, s', v. do 3 (split; [done|]).
  assert (vm_inv v s') as Hv by (by eapply stepped_space).
  pose proof (access_min need Hn) as Hmin. split; [by eapply map_post_view|]. destruct r as [[]|e].
  - destruct (map_post_translate _ _ _ _ _ _ Hsp Hv Hva' Hmin Hpost) as (pm & p & Hm & ? & ? & Htr).
    split; [|by exists pm, p]. pose proof (Htr stval Hva') as E. rewrite decide_True in E by done.
    by eapply resolved_allows.
  - split; [apply Hpost|]. split; [|done]. intros va Hx. apply user_translate_same; [done..|].
    intros t pm p. by rewrite (proj1 Hpost).
Qed.
End faults.

Lemma page_fault_correct_witness :
  ∃ r s' v, Trap.do_page_fault 1 0x12345 (PERMISSION_U .| PERMISSION_W) sample_kernel =
      Ret r s' ∧
    @stepped sample_symbols sample_trap_symbols sample_kernel task1 v s' ∧
    (r = Ok tt → ∃ p f, mmu_translate (mem_of s') (rp_ppn (root_pgt v)) 0x12345 = Some (p * 4096 + 0x345, f)).
Proof.
  destruct (@page_fault_correct sample_symbols sample_trap_symbols sample_kernel task1 0x12345
    PERMISSION_W sample_kernel_inv) as (r & s' & v & Hr & Hst & _ & _ & Hpost).
  - left.
  - split; [lia|]. vm_compute. reflexivity.
  - right. reflexivity.
  - vm_compute. exact I.
  - exists r, s', v. split; [exact Hr|]. split; [exact Hst|]. intros ->.
    destruct Hpost as (_ & pm & p & _ & _ & _ & Hm). exists p, (area_flags pm).
    pose proof (Hm 0x12345 ltac:(lia)) as E. rewrite decide_True in E by reflexivity. exact E.
Defined.
