(* ===== verification/Uaccess.v ===== *)
(** * User memory access: [src/os/src/mm/uaccess.rs], [uaccess.S]

    The copy loop runs in the kernel with [SUM] set, so its accesses to user addresses
    go through the page table of the current task and may fault; [k_trap_handler] then
    maps the page and the access is retried, or the loop is left early.

    The kernel runs from the direct map, so an address of the upper half is an access to
    physical memory; a user address is translated by the hardware walk of [Sv39Mmu]. *)

From S2P Require Export Trap.
From S2P Require Import Regs Sv39Mmu.
From stdpp Require Import list.
Open Scope Z_scope.

(** ** Loads and stores of the hart *)
Module Access.
(** [satp] *)
Definition SATP : Z := 0x180.
Definition root_of (s : KS) : Z := satp_ppn (csr_value (k_csrs s) SATP).

(** Supervisor mode reaches a user page only with [SUM] set.  The hardware manages the
    [A] and [D] bits. *)
Definition permits (status flags need : Z) : bool :=
  (flags .& need =? need) &&
  ((flags .& PTE.FLAG_U =? 0) || Hart.has_bit status Sstatus.SUM_BIT).

(** The physical address the hardware walk gives, unless the access faults *)
Definition user_pa (s : KS) (va need : Z) : option Z :=
  '(pa, flags) ← mmu_translate (mem_of s) (root_of s) va;
  if permits (csr_value (k_csrs s) Sstatus.CSR_NO) flags need then Some pa else None.

(** Bit 63 tells the halves apart. *)
Definition is_kernel_va (va : Z) : bool := 2 ^ 63 <=? va.

Definition lb (va : Z) : M KS (option Z) :=
  if is_kernel_va va then Some <$> load_u8 va
  else gets (λ s, (λ pa, read_u8 (mem_of s) pa) <$> user_pa s va PTE.FLAG_R).
(** Whether the store was done *)
Definition sb (va b : Z) : M KS bool :=
  if is_kernel_va va then store_u8 va b;; mret true
  else
    o ← gets (λ s, user_pa s va PTE.FLAG_W);
    match o with
    | Some pa => modify (upd_mem (λ m, write_u8 m pa b));; mret true
    | None => mret false
    end.
End Access.

Module Uaccess.
Section ops.
Context `{LinkerSymbols} `{TrapSymbols} `{Fmt}.

(** ** [uaccess.S] *)

(** The registers of the loop: [a0], [a1], [t5] *)
Record regs := mk_regs { a0 : Z; a1 : Z; t5 : Z }.
(** Where it is: at the loop head, at one of the two accesses, at [Done] *)
Inductive pc := Loop | Lb | Sb (t6 : Z) | Done_.

(** What a trap saves of them; the handler reads only [x4]. *)
Definition frame (r : regs) : list Z :=
  <[30%nat := t5 r]> (<[11%nat := a1 r]> (<[10%nat := a0 r]> (replicate 32 0))).

(** A faulting access at [epc] is retried at [retry], or left for [Done]. *)
Definition fault (cause epc tval : Z) (retry : pc) (r : regs) : M KS pc :=
  resume ← Hart.k_trap cause epc tval (frame r);
  mret (if resume =? Trap.get_uaccess_fix then Done_ else retry).

(** One instruction, or the loop head with its branch *)
Definition step (p : pc) (r : regs) : M KS (pc * regs) :=
  match p with
  | Loop => mret (if as_isize (t5 r) <=? as_isize (a0 r) then Done_ else Lb, r)
  | Lb =>
      b ← Access.lb (a0 r);
      match b with
      | Some t6 => mret (Sb t6, r)
      | None => p ← fault 13 __uaccess_lb (a0 r) Lb r; mret (p, r)
      end
  | Sb t6 =>
      ok ← Access.sb (a1 r) t6;
      if (ok : bool) then mret (Loop, mk_regs (a0 r ⊕ 1) (a1 r ⊕ 1) (t5 r))
      else p ← fault 15 __uaccess_sb (a1 r) (Sb t6) r; mret (p, r)
  | Done_ => mret (Done_, r)
  end.

(** [n] steps: the value in [a0] at [ret], if that is reached *)
Fixpoint run (n : nat) (p : pc) (r : regs) : M KS (option Z) :=
  match p with
  | Done_ => mret (Some (t5 r ⊖ a0 r))
  | _ =>
      match n with
      | O => mret None
      | Datatypes.S n => '(p, r) ← step p r; run n p r
      end
  end.

(** Enough steps: at most four per byte - one access of the two may fault, and once -
    and one for the last branch *)
Definition fuel (len : Z) : nat := 4 * Z.to_nat len + 1.

(** [__uaccess(src, dst, len)]; [None] if it does not end within the fuel *)
Definition __uaccess (src dst len : Z) : M KS (option Z) :=
  run (fuel len) Loop (mk_regs src dst (src ⊕ len)).

(** ** [uaccess.rs] *)

Definition copy_from_user (src dst len : Z) : M KS Z :=
  lift Sstatus.set_sum_permit;;
  o ← __uaccess src dst len;
  result ← (match o with Some n => mret n | None => spin end);
  lift Sstatus.set_sum_deny;;
  mret result.

Definition copy_to_user (src dst len : Z) : M KS Z :=
  lift Sstatus.set_sum_permit;;
  o ← __uaccess src dst len;
  result ← (match o with Some n => mret n | None => spin end);
  lift Sstatus.set_sum_deny;;
  mret result.
End ops.
End Uaccess.
