(* ===== verification/UaccessFault.v ===== *)
(** * The faults of user memory access

    What the hart does when the copy loop of [uaccess.S] meets a page that is not mapped,
    through [k_trap_handler] and back, and the accesses of the loop. *)

From S2P Require Export KSteps FaultProps Uaccess.
From S2P Require Import Spin PageAlloc Regs Console.
From stdpp Require Import list.
Open Scope Z_scope.

(** ** Bits of [sstatus] *)

Lemma has_bit_testbit v n : 0 <= n < 64 → Hart.has_bit v (1 .<< n) = Z.testbit v n.
Proof.
  intros Hn. unfold Hart.has_bit. destruct (Z.testbit v n) eqn:E.
  - destruct (Z.eqb_spec (v .& (1 .<< n)) 0) as [H0|]; [|done].
    apply (f_equal (λ x, Z.testbit x n)) in H0.
    rewrite Z.land_spec, testbit_shl1, Z.bits_0, E, Z.eqb_refl in H0 by lia. done.
  - destruct (Z.eqb_spec (v .& (1 .<< n)) 0) as [|H0]; [done|]. exfalso. apply H0.
    bits_ext i Hi. rewrite Z.land_spec, testbit_shl1, Z.bits_0 by lia.
    destruct (Z.eqb_spec n i) as [->|]; [by rewrite E|by rewrite andb_false_r].
Qed.

Lemma testbit_set_bit v n b i :
  0 <= n < 64 → 0 <= i < 64 → n ≠ i → Z.testbit (Hart.set_bit v (1 .<< n) b) i = Z.testbit v i.
Proof.
  intros Hn Hi Hne. unfold Hart.set_bit. destruct b.
  - rewrite testbit_set by done. destruct (Z.eqb_spec n i); [done|by rewrite orb_false_r].
  - rewrite testbit_clear by done. destruct (Z.eqb_spec n i); [done|by rewrite andb_true_r].
Qed.

Section uaccess.
Context `{LinkerSymbols} `{TrapSymbols} `{Fmt} `{Log.EnvLog}.
Implicit Types (s : KS) (tcb : TaskControlBlock).

(** Supervisor mode may use user pages. *)
Definition sum_set s : Prop := Z.testbit (csr_value (k_csrs s) Sstatus.CSR_NO) 18 = true.

(** ** A fault of a user access *)

(** The registers a trap writes *)
Definition trap_csrs : list Z := [Sstatus.CSR_NO; Scause.CSR_NO; Sepc.CSR_NO; Stval.CSR_NO].
Lemma not_trap_csr n : forallb (λ m, negb (n =? m)) trap_csrs = true → n ∉ trap_csrs.
Proof.
  intros Hn Hin. rewrite forallb_forall in Hn. rewrite list_elem_of_In in Hin.
  specialize (Hn n Hin). by rewrite Z.eqb_refl in Hn.
Qed.

(** The registers after the trap was taken *)
Lemma take_trap_run from_user cause epc tval s :
  ∃ c, Hart.take_trap from_user cause epc tval s = Ret tt (upd c s) ∧
    csr_value c Scause.CSR_NO = cause ∧ csr_value c Sepc.CSR_NO = epc ∧
    csr_value c Stval.CSR_NO = tval ∧
    (∀ n, n ∉ trap_csrs →
       csr_value c n = csr_value (k_csrs s) n) ∧
    Z.testbit (csr_value c Sstatus.CSR_NO) 8 = negb from_user ∧
    Z.testbit (csr_value c Sstatus.CSR_NO) 18 = Z.testbit (csr_value (k_csrs s) Sstatus.CSR_NO) 18.
Proof.
  destruct s as [mm c tp tasks nid clk sbi lvl].
  set (st := csr_value c Sstatus.CSR_NO).
  set (st1 := Hart.set_bit st Hart.SPIE_BIT (Hart.has_bit st Sstatus.SIE_BIT)).
  set (st3 := Hart.set_bit (Hart.set_bit st1 Sstatus.SIE_BIT false) Sstatus.SPP_BIT (negb from_user)).
  exists (<[Stval.CSR_NO := tval]> (<[Sepc.CSR_NO := epc]> (<[Scause.CSR_NO := cause]>
    (<[Sstatus.CSR_NO := st3]> c)))).
  split; [reflexivity|].
  assert (∀ n v m, csr_value (<[n := v]> m) n = v) as Es by (intros; apply csr_value_insert_same).
  assert (∀ n n' v m, n ≠ n' → csr_value (<[n := v]> m) n' = csr_value m n') as En
    by (intros; by apply csr_value_insert_ne).
  split_and!.
  - by rewrite !En, Es by done.
  - by rewrite En, Es by done.
  - by rewrite Es.
  - intros n Hn. unfold trap_csrs in Hn. rewrite !elem_of_cons, elem_of_nil in Hn. by rewrite !En by (intros <-; tauto).
  - rewrite !En, Es by done. unfold st3, Hart.set_bit, Sstatus.SPP_BIT. destruct from_user; cbn [negb].
    + by rewrite testbit_clear, andb_false_r by lia.
    + by rewrite testbit_set, orb_true_r by lia.
  - rewrite !En, Es by done. unfold st3, st1, Sstatus.SPP_BIT, Sstatus.SIE_BIT, Hart.SPIE_BIT.
    by rewrite !testbit_set_bit by lia.
Qed.

(** ... and after the return from it *)
Lemma sret_run s :
  ∃ c, Hart.sret s = Ret (csr_value (k_csrs s) Sepc.CSR_NO) (upd c s) ∧
    (∀ n, n ≠ Sstatus.CSR_NO → csr_value c n = csr_value (k_csrs s) n) ∧
    Z.testbit (csr_value c Sstatus.CSR_NO) 18 = Z.testbit (csr_value (k_csrs s) Sstatus.CSR_NO) 18.
Proof.
  destruct s as [mm c tp tasks nid clk sbi lvl].
  set (st := csr_value c Sstatus.CSR_NO).
  set (st1 := Hart.set_bit st Sstatus.SIE_BIT (Hart.has_bit st Hart.SPIE_BIT)).
  set (st3 := Hart.set_bit (Hart.set_bit st1 Hart.SPIE_BIT true) Sstatus.SPP_BIT false).
  exists (<[Sstatus.CSR_NO := st3]> c). split_and!.
  - transitivity (Ret (csr_value (<[Sstatus.CSR_NO := st3]> c) Sepc.CSR_NO)
      (upd (<[Sstatus.CSR_NO := st3]> c) (mk_KS mm c tp tasks nid clk sbi lvl))); [done|].
    by rewrite csr_value_insert_ne.
  - intros n Hn. by rewrite csr_value_insert_ne.
  - rewrite csr_value_insert_same. unfold st3, st1, Sstatus.SPP_BIT, Sstatus.SIE_BIT, Hart.SPIE_BIT.
    by rewrite !testbit_set_bit by lia.
Qed.

Lemma trap_csr_same c c' :
  (∀ n, n ∉ trap_csrs → csr_value c' n = csr_value c n) → same_hart c c'.
Proof.
  intros E n Hn. apply E. unfold hart_csrs in Hn. rewrite !elem_of_cons, elem_of_nil in Hn.
  destruct Hn as [->|[->|[->|[]]]]; by apply not_trap_csr.
Qed.

(** ** Where the trap goes *)

Lemma dispatch_run s :
  csr_value (k_csrs s) Stvec.CSR_NO = __stvec →
  Hart.dispatch s = Ret (csr_value (k_csrs s) Trap.SSCRATCH =? 0)
    (set_tp (csr_value (k_csrs s) Trap.SSCRATCH) (upd (<[Trap.SSCRATCH := k_tp s]> (k_csrs s)) s)).
Proof.
  intros E. unfold Hart.dispatch. destruct s as [mm c tp tasks nid clk sbi lvl].
  unfold mbind at 1, M_bind at 1. cbn -[csr_value] in *. by rewrite E, Z.eqb_refl.
Qed.
Lemma save_k_ctx_run x s :
  let c := <[Trap.SSCRATCH := 0]> (k_csrs s) in
  Hart.save_k_ctx x s = Ret
    (mk_TrapContext (<[4%nat := csr_value (k_csrs s) Trap.SSCRATCH]> x)
      (csr_value c Sstatus.CSR_NO) (csr_value c Sepc.CSR_NO) 0) (set_tp 0 (upd c s)).
Proof. by destruct s. Qed.

(** The way back to the kernel *)
Lemma restore_k_ctx_run ctx s :
  ∃ c, Hart.restore_k_ctx ctx s = Ret (tc_sepc ctx) (upd c (set_tp (nth 4 (tc_x ctx) 0) s)) ∧
    csr_value c Trap.SSCRATCH = 0 ∧
    (∀ n, n ≠ Trap.SSCRATCH → n ≠ Sstatus.CSR_NO → n ≠ Sepc.CSR_NO →
       csr_value c n = csr_value (k_csrs s) n) ∧
    Z.testbit (csr_value c Sstatus.CSR_NO) 18 = Z.testbit (tc_sstatus ctx) 18.
Proof.
  set (s3 := set_tp (nth 4 (tc_x ctx) 0) (upd (<[Sepc.CSR_NO := tc_sepc ctx]>
    (<[Sstatus.CSR_NO := tc_sstatus ctx]> (<[Trap.SSCRATCH := 0]> (k_csrs s)))) s)).
  destruct (sret_run s3) as (c & Hrun & Hrest & Hsum). exists c.
  assert (k_csrs s3 = <[Sepc.CSR_NO := tc_sepc ctx]>
    (<[Sstatus.CSR_NO := tc_sstatus ctx]> (<[Trap.SSCRATCH := 0]> (k_csrs s)))) as Ec by by destruct s.
  rewrite Ec in Hrun, Hrest, Hsum. rewrite csr_value_insert_same in Hrun.
  split_and!.
  - transitivity (Hart.sret s3); [by destruct s|]. rewrite Hrun. by destruct s.
  - rewrite Hrest by done. by rewrite !csr_value_insert_ne, csr_value_insert_same by done.
  - intros n ? ? ?. by rewrite Hrest, !csr_value_insert_ne by done.
  - rewrite Hsum. by rewrite csr_value_insert_ne, csr_value_insert_same by done.
Qed.

(** The body of the handler *)
Lemma user_access_fault_wp s tcb ctx tp va need :
  kernel_inv s → running (set_tp tp s) tcb → 0 <= va < 2 ^ 38 → is_access need →
  (∀ pa f, mmu_translate (mem_of s) (rp_ppn (root_pgt (vm_space tcb))) va = Some (pa, f) → f .& need ≠ need) →
  wp (Trap.user_access_fault ctx tp va (PERMISSION_U .| need)) (λ ctx' s', ∃ v,
    advanced nothing s tcb v s' ∧ k_csrs s' = k_csrs s ∧
    same_view s (vm_space tcb) s' v ∧
    ((ctx' = ctx ∧ ¬ denied s' v va need ∧ k_sbi s' = k_sbi s) ∨
     (ctx' = TrapCtx.with_sepc Trap.get_uaccess_fix ctx ∧
      (user_byte s (vm_space tcb) need va = None ∨ nearly_full s')))) s.
Proof.
  intros Hi Hrun Hva Hn Href. unfold Trap.user_access_fault.
  assert (quiet s (set_tp tp s)) as Hq by done.
  pose proof (quiet_inv _ _ Hq Hi) as Hi'.
  pose proof (running_space _ _ Hi' Hrun) as Hsp'.
  assert (vm_inv (vm_space tcb) s) as Hsp by (by apply (vm_inv_mm _ (set_tp tp s))).
  assert (tcb ∈ tasks_of s) as Hin by apply (rn_in _ _ Hrun).
  destruct (refused_areas s (vm_space tcb) need va Hsp Hva Hn Href) as [Hden Hareas].
  (* the task is found through the saved [tp] *)
  assert (tp = context_of tcb) as -> by apply (rn_tp _ _ Hrun).
  destruct (context_id s tcb Hi Hin) as [Hne Hid].
  wp_step. unfold TrapCtx.get_task_id_from_ptr. wp_step.
  apply wp_assert; [by rewrite (proj2 (Z.eqb_neq _ _) Hne)|].
  eapply wp_intro; [exact Hid|]. wp_step.
  eapply wp_mono; [by apply (do_page_fault_wp s tcb va need)|].
  intros r s1 (v & [Hav Er] & _ & Hsame & Hpost).
  assert (vm_inv v s1) as Hv by (by eapply advanced_space).
  assert (same_view s (vm_space tcb) s1 v) as Hview by (by eapply map_post_view).
  destruct r as [[]|e].
  - wp_step. exists v. split_and!; [done|by rewrite Er|done|]. left. split; [done|].
    split; [|by rewrite Er]. pose proof (access_min need Hn) as Hmin.
    destruct (map_post_translate _ _ _ _ _ _ Hsp Hv Hva Hmin Hpost) as (pm & p & Hm & _ & _ & Htr).
    pose proof (Htr va Hva) as E. rewrite decide_True in E by done. by eapply resolved_allows.
  - wp_step. unfold Trap.log_do_page_fault_failed, Log.warn. eapply wp_intro; [apply log_run|].
    wp_step. match goal with |- context [printed ?c s1] => set (s2 := printed c s1) end.
    assert (quiet s1 s2) as Hq2 by done.
    exists v. split_and!.
    + by apply (advanced_quiet nothing s s s1 s2).
    + subst s2. by rewrite Er.
    + intros n a Hn' Ha'. rewrite <- (Hview n a) by done. unfold user_byte, page_byte.
      by rewrite (quiet_mem _ _ Hq2).
    + right. split; [done|]. destruct (map_post_failed _ _ _ _ _ _ _ Hsp Hn Hareas Hpost) as [?|[p Hp]]; [by left|].
      right. exists p. intros q Hfq. by apply Hp.
Qed.
(** The access at [epc] that needs [need]: what the hardware reports *)
Definition fault_of (cause epc need : Z) : Prop :=
  (cause = 13 ∧ epc = __uaccess_lb ∧ need = PERMISSION_R) ∨
  (cause = 15 ∧ epc = __uaccess_sb ∧ need = PERMISSION_W).
Lemma fault_of_access cause epc need : fault_of cause epc need → is_access need.
Proof. intros [(_ & _ & ->)|(_ & _ & ->)]; [by left|by right]. Qed.

(** The handler sends it to [user_access_fault]. *)
Lemma k_trap_handler_run cause epc need va ctx tp s :
  fault_of cause epc need → tp ≠ 0 → nth 4 (tc_x ctx) 0 = tp →
  csr_value (k_csrs s) Scause.CSR_NO = cause → csr_value (k_csrs s) Sepc.CSR_NO = epc →
  csr_value (k_csrs s) Stval.CSR_NO = va →
  Trap.k_trap_handler ctx s = Trap.user_access_fault ctx tp va (PERMISSION_U .| need) s.
Proof.
  intros Hf Hne Htp Hc He Hv.
  assert (∀ (A : Type) n (f : Z → M KS A), (lift (csrr n) ≫= f) s = f (csr_value (k_csrs s) n) s) as Hread.
  { intros A n f. apply bind_run. unfold lift, csrr, gets. f_equal. by destruct s. }
  unfold Trap.k_trap_handler, Scause.read, Sepc.read, Stval.read. rewrite !Hread, Hc, He, Hv, Htp.
  destruct Hf as [(-> & -> & ->)|(-> & -> & ->)]; cbn [Scause.match_cause].
  - unfold Trap.is_load_user_fault. by rewrite (proj2 (Z.eqb_neq _ _) Hne), Z.eqb_refl.
  - unfold Trap.is_store_user_fault. by rewrite (proj2 (Z.eqb_neq _ _) Hne), Z.eqb_refl.
Qed.

(** What the kernel's own page faults do *)
Definition resumed s tcb va need (epc resume : Z) v s' : Prop :=
  advanced nothing s tcb v s' ∧ running s' (Tcb.set_vm_space v tcb) ∧
  same_view s (vm_space tcb) s' v ∧ (sum_set s → sum_set s') ∧
  ((resume = epc ∧ ¬ denied s' v va need ∧ k_sbi s' = k_sbi s) ∨
   (resume = Trap.get_uaccess_fix ∧
    (user_byte s (vm_space tcb) need va = None ∨ nearly_full s'))).

Lemma k_trap_wp s tcb cause epc va need x :
  kernel_inv s → running s tcb → (4 < length x)%nat → fault_of cause epc need → 0 <= va < 2 ^ 38 →
  (∀ pa f, mmu_translate (mem_of s) (rp_ppn (root_pgt (vm_space tcb))) va = Some (pa, f) → f .& need ≠ need) →
  wp (Hart.k_trap cause epc va x) (λ resume s', ∃ v, resumed s tcb va need epc resume v s') s.
Proof.
  intros Hi Hrun Hx Hf Hva Href. unfold Hart.k_trap.
  destruct (take_trap_run false cause epc va s) as (c & Hrun1 & Hc & He & Ht & Hrest & _ & Hsum).
  pose proof (trap_csr_same _ _ Hrest) as Hsame.
  destruct (in_kernel_same _ _ Hsame (rn_kernel _ _ Hrun)) as [Hscr Hvec].
  assert (k_tp s = context_of tcb) as Htp by apply (rn_tp _ _ Hrun).
  destruct (context_id s tcb Hi (rn_in _ _ Hrun)) as [Hne _].
  wp_step. eapply wp_intro; [exact Hrun1|]. wp_step.
  eapply wp_intro; [by apply (dispatch_run (upd c s))|].
  change (k_csrs (upd c s)) with c. rewrite Hscr. change (k_tp (upd c s)) with (k_tp s). rewrite Htp.
  change (0 =? 0) with true. cbv iota. set (s0 := set_tp 0 _).
  wp_step. eapply wp_intro; [apply save_k_ctx_run|]. set (s1 := set_tp 0 _). set (ctx := mk_TrapContext _ _ _ _).
  assert (k_csrs s1 = <[Trap.SSCRATCH := 0]> (<[Trap.SSCRATCH := context_of tcb]> c)) as Ec1 by done.
  assert (same_hart (k_csrs s) (k_csrs s1)) as Hsame1.
  { intros n Hn. rewrite Ec1, <- (Hsame n Hn). destruct (decide (n = Trap.SSCRATCH)) as [->|?].
    - by rewrite csr_value_insert_same.
    - by rewrite !csr_value_insert_ne. }
  assert (nth 4 (tc_x ctx) 0 = context_of tcb) as Ectx.
  { change (tc_x ctx) with (<[4%nat := csr_value (<[Trap.SSCRATCH := context_of tcb]> c) Trap.SSCRATCH]> x).
    by rewrite csr_value_insert_same, nth_lookup, list_lookup_insert_eq by lia. }
  assert (quiet s s1) as Hq by done.
  assert (running (set_tp (context_of tcb) s1) tcb) as Hrun'.
  { destruct Hrun as [Hin Hst Honly _ Hsatp0 Hker]. split; [done|done|done|done| |].
    - rewrite <- Hsatp0. by apply (same_hart_satp _ _ Hsame1).
    - by apply (in_kernel_same _ _ Hsame1). }
  assert (csr_value (k_csrs s1) Scause.CSR_NO = cause ∧ csr_value (k_csrs s1) Sepc.CSR_NO = epc ∧
    csr_value (k_csrs s1) Stval.CSR_NO = va) as (Hc1 & He1 & Ht1).
  { rewrite Ec1, <- Hc, <- He, <- Ht. by rewrite !csr_value_insert_ne by done. }
  wp_step. eapply wp_ext.
  { by apply (k_trap_handler_run cause epc need va ctx (context_of tcb) s1 Hf Hne). }
  pose proof (fault_of_access _ _ _ Hf) as Hn.
  assert (same_view s (vm_space tcb) s1 (vm_space tcb)) as Hview1.
  { intros n a _ _. unfold user_byte, page_byte. by rewrite (quiet_mem _ _ Hq). }
  eapply wp_mono; [apply (user_access_fault_wp s1 tcb ctx (context_of tcb) va need); [by apply (quiet_inv s)|done..| |]|].
  { done. } { by rewrite (quiet_mem _ _ Hq). }
  intros ctx' s2 (v & Hav & Ec & Hview & Hres).
  assert (nth 4 (tc_x ctx') 0 = context_of tcb ∧ tc_sstatus ctx' = tc_sstatus ctx) as [Htp' Hst'].
  { destruct Hres as [(-> & _)|[-> _]]; by split. }
  destruct (restore_k_ctx_run ctx' s2) as (c3 & Hrun3 & Hscr3 & Hrest3 & Hsum3).
  eapply wp_intro; [exact Hrun3|]. rewrite Htp'.
  set (s4 := upd c3 _). assert (quiet s2 s4) as Hq4 by done.
  assert (advanced nothing s tcb v s4) as Hav4 by (by apply (advanced_quiet nothing s s1 s2 s4)).
  assert (same_view s2 v s4 v) as Hview4.
  { intros n a _ _. unfold user_byte, page_byte. by rewrite (quiet_mem _ _ Hq4). }
  exists v. split; [done|]. split; [|split; [|split]].
  - apply (advanced_running nothing s tcb v s4 Hrun Hav4); [done|].
    intros n Hn'. rewrite <- (Hsame1 n Hn'), <- Ec. destruct (decide (n = Trap.SSCRATCH)) as [->|Hns].
    + rewrite Ec, Ec1, csr_value_insert_same. exact Hscr3.
    + apply Hrest3; [done|..]; intros ->; revert Hn'; by apply not_hart_csr.
  - eapply same_view_trans; [exact Hview1|]. by eapply same_view_trans.
  - unfold sum_set. rewrite <- Hsum. intros Hs. etransitivity; [exact Hsum3|]. rewrite Hst'.
    change (tc_sstatus ctx) with (csr_value (k_csrs s1) Sstatus.CSR_NO).
    by rewrite Ec1, !csr_value_insert_ne by done.
  - destruct Hres as [(-> & Hd & Es)|[-> Hd]]; [left|right].
    + split; [exact He1|]. split; [|exact Es]. unfold denied. by rewrite (quiet_mem _ _ Hq4).
    + split; [done|]. destruct Hd as [Hd|[q Hd]].
      * left. rewrite <- Hd. unfold user_byte, page_byte. by rewrite (quiet_mem _ _ Hq).
      * right. exists q. intros q'. rewrite (quiet_free s2 s4) by done. apply Hd.
Qed.
(** ** Loads and stores at user addresses *)

Lemma root_of_running s tcb :
  kernel_inv s → running s tcb → Access.root_of s = rp_ppn (root_pgt (vm_space tcb)).
Proof.
  intros Hi Hrun. unfold Access.root_of. change Access.SATP with 0x180. rewrite (rn_satp _ _ Hrun).
  unfold Space.get_satp, Pgt.get_satp.
  destruct (satp_fields (PPN.get_raw (rp_ppn (root_pgt (vm_space tcb)))) Satp.Sv39) as (_ & _ & -> & _).
  pose proof (wf_root_ram _ _ (pi_wf _ _ (vi_pgt _ _ (running_space _ _ Hi Hrun)))).
  unfold PPN.get_raw. rewrite Z.mod_small by lia. done.
Qed.

(** With [SUM] set only the permission of the access counts. *)
Lemma user_pa_sum s tcb va need :
  kernel_inv s → running s tcb → sum_set s →
  Access.user_pa s va need =
    match mmu_translate (mem_of s) (rp_ppn (root_pgt (vm_space tcb))) va with
    | Some (pa, f) => if f .& need =? need then Some pa else None
    | None => None
    end.
Proof.
  intros Hi Hrun Hsum. unfold Access.user_pa. rewrite (root_of_running s tcb) by done.
  destruct (mmu_translate _ _ va) as [[pa f]|]; [|done]. cbn.
  unfold Access.permits, Sstatus.SUM_BIT. rewrite has_bit_testbit by lia.
  unfold sum_set in Hsum. by rewrite Hsum, orb_true_r, andb_true_r.
Qed.

Lemma user_pa_Some s tcb va need pa :
  kernel_inv s → running s tcb → sum_set s → 0 <= va < 2 ^ 38 → is_access need →
  Access.user_pa s va need = Some pa →
  user_byte s (vm_space tcb) need va = Some (read_u8 (mem_of s) pa) ∧
  ∃ t pm p, has (areas (vm_space tcb)) (va / 4096) t pm (Some p) ∧
    pa = page_start p + va mod 4096 ∧ need .& pm = need.
Proof.
  intros Hi Hrun Hsum Hva Hn. rewrite (user_pa_sum s tcb) by done.
  destruct (mmu_translate _ _ va) as [[pa' f]|] eqn:E; [|done].
  destruct (Z.eqb_spec (f .& need) need) as [Hf|]; [|done]. intros [= ->].
  eapply user_byte_translate; [by apply running_space|done..].
Qed.

Lemma user_pa_None s tcb va need :
  kernel_inv s → running s tcb → sum_set s → is_access need →
  Access.user_pa s va need = None →
  (∀ pa f, mmu_translate (mem_of s) (rp_ppn (root_pgt (vm_space tcb))) va = Some (pa, f) → f .& need ≠ need) ∧
  denied s (vm_space tcb) va need.
Proof.
  intros Hi Hrun Hsum Hn. rewrite (user_pa_sum s tcb) by done. unfold denied.
  destruct (mmu_translate _ _ va) as [[pa' f]|] eqn:E; [|done].
  destruct (Z.eqb_spec (f .& need) need) as [|Hf]; [done|]. intros _. split; [by intros ? ? [= <- <-]|].
  intros Hd. apply Hf. assert (need = (PERMISSION_U .| need) .& need) as E' by (by destruct Hn as [->| ->]).
  rewrite E' at 1. by rewrite Z.land_assoc, Hd, <- E'.
Qed.

(** An access is done at once, or after one fault, or left for good. *)
Lemma user_pa_retry s tcb cause epc va need resume v s' :
  kernel_inv s' → sum_set s → is_access need →
  resumed s tcb va need epc resume v s' → epc ≠ Trap.get_uaccess_fix → fault_of cause epc need →
  resume = epc → ∃ pa, Access.user_pa s' va need = Some pa.
Proof.
  intros Hi' Hsum Hn (Hav & Hrun' & Hview & Hsum' & Hres) Hne Hf ->.
  destruct Hres as [(_ & Hd & _)|[E _]]; [|done].
  destruct (Access.user_pa s' va need) as [pa|] eqn:E; [by exists pa|]. exfalso. apply Hd.
  by destruct (user_pa_None s' (Tcb.set_vm_space v tcb) va need Hi' Hrun' (Hsum' Hsum) Hn E) as [_ ?].
Qed.

(** ** The buffer of the kernel *)

(** [len] bytes at [buf], on private pages of the direct map *)
Definition buffer_page (buf len p : Z) : Prop :=
  ∃ a, buf <= a < buf + len ∧ p = (a - KERNEL_VA_OFFSET) / 4096.
Record kernel_buffer s (buf len : Z) : Prop := {
  kb_range : 0 < len → KERNEL_VA_OFFSET <= buf ∧ buf + len < 2 ^ 64;
  kb_private p : buffer_page buf len p → private s p;
}.

(** A byte of the buffer, written *)
Lemma kernel_write s buf len va b :
  ps_ok s → kernel_buffer s buf len → buf <= va < buf + len →
  wrote s ((va - KERNEL_VA_OFFSET) / 4096) (upd_mem (λ m, write_u8 m (va - KERNEL_VA_OFFSET) b) s).
Proof.
  intros Hok _ Hva. apply upd_mem_wrote; [done|].
  intros q Hq a Ha. apply read_u8_write_ne. intros E.
  apply Hq. unfold page_start, page_end in Ha. rewrite E. zlia.
Qed.
Lemma kernel_store s buf len va b :
  kernel_buffer s buf len → buf <= va < buf + len →
  Access.sb va b s = Ret true (upd_mem (λ m, write_u8 m (va - KERNEL_VA_OFFSET) b) s).
Proof.
  intros [Hrg Hp] Hva. destruct Hrg as [Hlo Hhi]; [lia|].
  unfold Access.sb, Access.is_kernel_va.
  replace (2 ^ 63 <=? va) with true; [done|]. symmetry. apply Z.leb_le.
  unfold KERNEL_VA_OFFSET in Hlo. lia.
Qed.
Lemma kernel_buffer_advanced P s tcb v s' buf len :
  advanced P s tcb v s' → kernel_buffer s buf len → kernel_buffer s' buf len.
Proof. intros Hav [? Hp]. split; [done|]. intros p Hb. by eapply advanced_private; [|apply Hp]. Qed.

Lemma direct_load s va :
  KERNEL_VA_OFFSET <= va → Access.lb va s = Ret (Some (read_u8 (mem_of s) (va - KERNEL_VA_OFFSET))) s.
Proof.
  intros Hva. unfold Access.lb, Access.is_kernel_va.
  replace (2 ^ 63 <=? va) with true; [done|]. symmetry. apply Z.leb_le.
  unfold KERNEL_VA_OFFSET in Hva. lia.
Qed.
Lemma user_load s va :
  0 <= va < 2 ^ 38 →
  Access.lb va s = Ret ((λ pa, read_u8 (mem_of s) pa) <$> Access.user_pa s va PERMISSION_R) s.
Proof.
  intros Hva. unfold Access.lb, Access.is_kernel_va.
  replace (2 ^ 63 <=? va) with false; [done|]. symmetry. apply Z.leb_gt. lia.
Qed.

Lemma user_load_Some s va pa :
  0 <= va < 2 ^ 38 → Access.user_pa s va PERMISSION_R = Some pa →
  Access.lb va s = Ret (Some (read_u8 (mem_of s) pa)) s.
Proof. intros Hva E. by rewrite user_load, E. Qed.
Lemma user_load_None s va :
  0 <= va < 2 ^ 38 → Access.user_pa s va PERMISSION_R = None → Access.lb va s = Ret None s.
Proof. intros Hva E. by rewrite user_load, E. Qed.

(** ** The copy loop *)

(** One iteration of [run] *)
Lemma run_step n p r Q s :
  p ≠ Uaccess.Done_ →
  wp (Uaccess.step p r) (λ '(p, r) s', wp (Uaccess.run n p r) Q s') s →
  wp (Uaccess.run (Datatypes.S n) p r) Q s.
Proof.
  intros Hp Hwp. destruct p; [..|done]; cbn [Uaccess.run]; apply wp_bind;
    (eapply wp_mono; [exact Hwp|]); by intros [p r'] s'.
Qed.
Lemma run_done n r Q s :
  Q (Some (Uaccess.t5 r ⊖ Uaccess.a0 r)) s → wp (Uaccess.run n Uaccess.Done_ r) Q s.
Proof. intros HQ. by destruct n; apply wp_ret. Qed.

Lemma frame_length r : (4 < length (Uaccess.frame r))%nat.
Proof. unfold Uaccess.frame. rewrite !length_insert, length_replicate. lia. Qed.

Lemma as_isize_small x : x < 2 ^ 63 → as_isize x = x.
Proof. intros Hx. unfold as_isize. destruct (Z.ltb_spec x 9223372036854775808); lia. Qed.

(** The labels of [uaccess.S] are different addresses. *)
Definition uaccess_labels : Prop := __uaccess_lb ≠ __uaccess_fix ∧ __uaccess_sb ≠ __uaccess_fix.

(** ** The window the copy opens *)

Lemma sum_permit_run s : ∃ c,
  (lift Sstatus.set_sum_permit : M KS Z) s = Ret (csr_value (k_csrs s) Sstatus.CSR_NO) (upd c s) ∧
  sum_set (upd c s) ∧ same_hart (k_csrs s) c.
Proof.
  exists (<[Sstatus.CSR_NO := csr_value (k_csrs s) Sstatus.CSR_NO .| Sstatus.SUM_BIT]> (k_csrs s)).
  split; [done|]. split; [|by apply same_hart_insert].
  unfold sum_set. change (k_csrs (upd ?c s)) with c. rewrite csr_value_insert_same.
  unfold Sstatus.SUM_BIT. by rewrite testbit_set, orb_true_r by lia.
Qed.
Lemma sum_deny_run s : ∃ c,
  (lift Sstatus.set_sum_deny : M KS Z) s = Ret (csr_value (k_csrs s) Sstatus.CSR_NO) (upd c s) ∧
  ¬ sum_set (upd c s) ∧ same_hart (k_csrs s) c.
Proof.
  exists (<[Sstatus.CSR_NO := csr_value (k_csrs s) Sstatus.CSR_NO .& .~ Sstatus.SUM_BIT]> (k_csrs s)).
  split; [done|]. split; [|by apply same_hart_insert].
  unfold sum_set. change (k_csrs (upd ?c s)) with c. rewrite csr_value_insert_same.
  unfold Sstatus.SUM_BIT. by rewrite testbit_clear, andb_false_r by lia.
Qed.

(** The registers do not matter. *)
Lemma running_csrs s tcb c :
  running s tcb → same_hart (k_csrs s) c → running (upd c s) tcb.
Proof.
  intros [? ? ? ? Hs Hk] E. split; [done..| |by eapply in_kernel_same].
  rewrite <- Hs. by apply same_hart_satp.
Qed.
Lemma quiet_view s s' self : quiet s s' → same_view s self s' self.
Proof. intros Hq need va _ _. unfold user_byte, page_byte. by rewrite (quiet_mem _ _ Hq). Qed.
Lemma kernel_buffer_quiet s s' buf len : quiet s s' → kernel_buffer s buf len → kernel_buffer s' buf len.
Proof. intros Hq [? Hp]. split; [done|]. intros p Hb. apply (private_quiet s); [done|by apply Hp]. Qed.

(** A buffer the kernel sends: on private pages, or on the kernel stack of the task *)
Record sendable s tcb (buf len : Z) : Prop := {
  sd_range : 0 < len → KERNEL_VA_OFFSET <= buf ∧ buf + len < 2 ^ 64;
  sd_page p : buffer_page buf len p → private s p ∨ stack_page tcb p;
}.
Lemma kernel_buffer_sendable s tcb buf len : kernel_buffer s buf len → sendable s tcb buf len.
Proof. intros [? Hp]. split; [done|]. intros p Hb. left. by apply Hp. Qed.
Lemma sendable_quiet s s' tcb buf len : quiet s s' → sendable s tcb buf len → sendable s' tcb buf len.
Proof.
  intros Hq [? Hp]. split; [done|]. intros p [?|?]%Hp; [left; by apply (private_quiet s)|by right].
Qed.

(** A step of the task leaves it alone. *)
Lemma sendable_kept s tcb v s' buf len a :
  advanced nothing s tcb v s' → sendable s tcb buf len → buf <= a < buf + len →
  read_u8 (mem_of s') (a - KERNEL_VA_OFFSET) = read_u8 (mem_of s) (a - KERNEL_VA_OFFSET).
Proof.
  intros Hav Hb Ha. set (p := (a - KERNEL_VA_OFFSET) / 4096).
  assert (page_same p (mem_of s) (mem_of s')) as Hs.
  2:{ apply Hs. unfold p, page_start, page_end. zlia. }
  destruct (sd_page _ _ _ _ Hb p) as [[Hnf Hp]|Hst]; [by exists a| |].
  - pose proof (av_tasks _ _ _ _ _ Hav) as (k & Hk & _).
    apply (av_same _ _ _ _ _ Hav p); [by intros []| |done].
    apply (Hp tcb). by eapply list_elem_of_lookup_2.
  - apply (av_stack _ _ _ _ _ Hav p Hst). by intros [].
Qed.
End uaccess.

(** A buffer in the sample kernel *)
Lemma sample_buffer : @kernel_buffer sample_symbols sample_kernel (KERNEL_VA_OFFSET + 0x8070e000) 0x1000.
Proof.
  split; [unfold KERNEL_VA_OFFSET; lia|]. intros p (a & Ha & ->). apply sample_private.
  unfold KERNEL_VA_OFFSET in *. zlia.
Qed.
Lemma sample_labels : @uaccess_labels sample_trap_symbols.
Proof. split; vm_compute; congruence. Qed.
