(* ===== verification/UaccessProps.v ===== *)
(** * User memory access is correct

    What [copy_from_user] and [copy_to_user] return and copy, byte by byte. *)

From S2P Require Export UaccessFault.
From S2P Require Import Spin PageAlloc Regs Console.
From stdpp Require Import list.
Open Scope Z_scope.

Section uaccess.
Context `{LinkerSymbols} `{TrapSymbols} `{Fmt} `{Log.EnvLog}.
Implicit Types (s : KS) (tcb : TaskControlBlock).

Hypothesis Hlabels : uaccess_labels.

Section from_user.
Variables (s0 : KS) (tcb : TaskControlBlock) (src dst len : Z).
Hypothesis Hsrc : 0 <= src ∧ src + len <= 2 ^ 38.
Hypothesis Hlen : 0 <= len.
Hypothesis Hdst : kernel_buffer s0 dst len.

Let user s v va := user_byte s v PERMISSION_R va.

(** [i] bytes are copied. *)
Record copied_from (i : Z) v s : Prop := {
  cf_range : 0 <= i <= len;
  cf_step : advanced (buffer_page dst len) s0 tcb v s;
  cf_running : running s (Tcb.set_vm_space v tcb);
  cf_sum : sum_set s;
  cf_view : same_view s0 (vm_space tcb) s v;
  cf_bytes j : 0 <= j < i →
    user s0 (vm_space tcb) (src + j) = Some (read_u8 (mem_of s) (dst + j - KERNEL_VA_OFFSET));
  cf_rest a : private s0 (a / 4096) → ¬ dst <= a + KERNEL_VA_OFFSET < dst + i →
    read_u8 (mem_of s) a = read_u8 (mem_of s0) a;
}.

(** A fault keeps what is copied. *)
Lemma copied_from_fault i v s need va epc resume v' s' :
  copied_from i v s → resumed s (Tcb.set_vm_space v tcb) va need epc resume v' s' →
  copied_from i v' s'.
Proof.
  intros [Hi Hst Hrun Hsum Hview Hb Hr] (Hav & Hrun' & Hview' & Hsum' & _).
  assert (∀ a, private s0 (a / 4096) → read_u8 (mem_of s') a = read_u8 (mem_of s) a) as Hsame.
  { intros a Hp. pose proof (advanced_private _ _ _ _ _ _ Hst Hp) as [Hnf Hp'].
    apply (av_same _ _ _ _ _ Hav (a / 4096)); [by intros []| |done|].
    - apply (Hp' (Tcb.set_vm_space v tcb)). by eapply advanced_in.
    - unfold page_start, page_end. zlia. }
  split; [done| |done|by apply Hsum'| | |].
  - eapply advanced_trans; [exact Hst|]. by apply (advanced_weaken nothing).
  - by eapply same_view_trans.
  - intros j Hj. rewrite Hsame; [by apply Hb|].
    apply (kb_private _ _ _ Hdst). exists (dst + j). split; [lia|done].
  - intros a Hp Ha. rewrite Hsame by done. by apply Hr.
Qed.
(** The store of byte [i] *)
Lemma copied_from_store i v s b :
  copied_from i v s → i < len → user s v (src + i) = Some b →
  ∃ s', Access.sb (dst + i) b s = Ret true s' ∧ copied_from (i + 1) v s' ∧ k_sbi s' = k_sbi s.
Proof.
  intros [Hi Hst Hrun Hsum Hview Hb Hr] Hlt Hub.
  pose proof (av_inv _ _ _ _ _ Hst) as Hinv. pose proof (advanced_in _ _ _ _ _ Hst) as Hin.
  pose proof (kernel_buffer_advanced _ _ _ _ _ _ _ Hst Hdst) as Hdst'.
  pose proof (running_space _ _ Hinv Hrun) as Hv. cbn [vm_space Tcb.set_vm_space] in Hv.
  pose proof (kernel_store s dst len (dst + i) b Hdst' ltac:(lia)) as Hsb.
  pose proof (kernel_write s dst len (dst + i) b (pi_ok _ _ (vi_pgt _ _ Hv)) Hdst' ltac:(lia)) as Hw.
  set (s' := upd_mem _ s) in *. exists s'. split; [done|]. split; [|done].
  set (p := (dst + i - KERNEL_VA_OFFSET) / 4096) in *.
  assert (buffer_page dst len p) as Hpb by (exists (dst + i); split; [lia|done]).
  assert (private s p) as Hpp by by apply (kb_private _ _ _ Hdst').
  assert (∀ a, read_u8 (mem_of s') a =
    if decide (a = dst + i - KERNEL_VA_OFFSET) then b mod 256 else read_u8 (mem_of s) a) as Hmem.
  { intros a. case_decide as E; [subst a; apply read_u8_write_same|by apply read_u8_write_ne]. }
  assert (advanced (buffer_page dst len) s (Tcb.set_vm_space v tcb) v s') as Hav
    by (by apply (advanced_private_write _ _ (Tcb.set_vm_space v tcb) p)).
  assert (0 <= b < 256) as Hbr.
  { revert Hub. unfold user, user_byte, page_byte. repeat case_match; intros [= <-]; try lia. apply read_u8_range. }
  split.
  - lia.
  - by eapply advanced_trans.
  - by apply (advanced_running (buffer_page dst len) s (Tcb.set_vm_space v tcb) v s').
  - done.
  - eapply same_view_trans; [exact Hview|].
    apply (undisturbed_view v s s' Hv), (wrote_private_undisturbed s p s' (Tcb.set_vm_space v tcb)); done.
  - intros j Hj. rewrite Hmem. case_decide as E.
    + assert (j = i) as -> by lia. unfold user in *. rewrite <- (Hview PERMISSION_R (src + i)); [|by left|lia].
      by rewrite Hub, Z.mod_small by lia.
    + apply Hb. lia.
  - intros a Hp Ha. rewrite Hmem, decide_False by lia. apply Hr; [done|lia].
Qed.

(** What the loop ends with: [r] bytes are not copied. *)
Definition copy_from_ends (o : option Z) s' : Prop :=
  ∃ r v', o = Some r ∧ copied_from (len - r) v' s' ∧ (r = 0 → k_sbi s' = k_sbi s0) ∧
    (r ≠ 0 → user s0 (vm_space tcb) (src + (len - r)) = None ∨ nearly_full s').

Let regs i : Uaccess.regs := Uaccess.mk_regs (src + i) (dst + i) (src + len).

Lemma run_from_end n i v s :
  copied_from i v s → (i = len → k_sbi s = k_sbi s0) →
  i = len ∨ user s0 (vm_space tcb) (src + i) = None ∨ nearly_full s →
  wp (Uaccess.run n Uaccess.Done_ (regs i)) copy_from_ends s.
Proof.
  intros Hc Hsbi Hend. pose proof (cf_range _ _ _ Hc) as Hi. apply run_done. cbn [Uaccess.t5 Uaccess.a0 regs].
  exists (len - i), v. rewrite usub_small by (unfold USIZE_MODULUS; lia).
  replace (len - (len - i)) with i by lia. split_and!; [f_equal; lia|done|intros; apply Hsbi; lia|].
  intros Hne. destruct Hend as [?|?]; [lia|done].
Qed.

Lemma run_from_loop k : ∀ i v s n,
  copied_from i v s → k_sbi s = k_sbi s0 → Z.of_nat k = len - i → (4 * k + 1 <= n)%nat →
  wp (Uaccess.run n Uaccess.Loop (regs i)) copy_from_ends s.
Proof.
  induction k as [|k IH]; intros i v s n Hc Hsbi Hk Hn.
  - destruct n as [|n]; [lia|]. pose proof (cf_range _ _ _ Hc).
    apply run_step; [done|]. cbn [Uaccess.step]. wp_step. cbn [Uaccess.t5 Uaccess.a0 regs].
    rewrite !as_isize_small by lia. replace (src + len <=? src + i) with true by (symmetry; lia).
    eapply run_from_end; [done|done|]. left. lia.
  - assert (∀ n' b v s, (4 * k + 2 <= n')%nat → copied_from i v s → k_sbi s = k_sbi s0 →
      user s v (src + i) = Some b →
      wp (Uaccess.run n' (Uaccess.Sb b) (regs i)) copy_from_ends s) as Hsb.
    { intros n' b v1 s1 Hn' Hc1 Hs1 Hub. destruct n' as [|n']; [lia|].
      destruct (copied_from_store i v1 s1 b Hc1 ltac:(lia) Hub) as (s2 & Hrun & Hc2 & Hs2).
      apply run_step; [done|]. cbn [Uaccess.step Uaccess.a1 Uaccess.a0 Uaccess.t5 regs].
      wp_step. eapply wp_intro; [exact Hrun|]. cbv beta iota. wp_step.
      pose proof (cf_range _ _ _ Hc1). destruct (kb_range _ _ _ Hdst) as [Hd1 Hd2]; [lia|].
      rewrite !uadd_small by (unfold USIZE_MODULUS, KERNEL_VA_OFFSET in *; lia).
      replace (src + i + 1) with (src + (i + 1)) by lia. replace (dst + i + 1) with (dst + (i + 1)) by lia.
      apply (IH (i + 1) v1 s2); [done|by rewrite Hs2|lia|lia]. }
    assert (∀ n' pa v s, (4 * k + 3 <= n')%nat → copied_from i v s → k_sbi s = k_sbi s0 →
      Access.user_pa s (src + i) PERMISSION_R = Some pa →
      wp (Uaccess.run n' Uaccess.Lb (regs i)) copy_from_ends s) as Hlb.
    { intros n' pa v1 s1 Hn' Hc1 Hs1 Hpa. destruct n' as [|n']; [lia|]. pose proof (cf_range _ _ _ Hc1).
      destruct (user_pa_Some s1 (Tcb.set_vm_space v1 tcb) (src + i) PERMISSION_R pa) as [Hub _];
        [apply Hc1|apply Hc1|apply Hc1|lia|by left|done|].
      apply run_step; [done|]. cbn [Uaccess.step Uaccess.a0 regs]. wp_step.
      eapply wp_intro; [apply (user_load_Some _ _ pa); [lia|done]|]. cbv beta iota. apply (Hsb n' _ v1 s1); [lia|done|done|done]. }
    destruct n as [|[|n]]; [lia..|]. pose proof (cf_range _ _ _ Hc).
    apply run_step; [done|]. cbn [Uaccess.step]. wp_step. cbn [Uaccess.t5 Uaccess.a0 regs].
    rewrite !as_isize_small by lia. replace (src + len <=? src + i) with false by (symmetry; lia).
    destruct (Access.user_pa s (src + i) PERMISSION_R) as [pa|] eqn:Hpa; [by apply (Hlb _ pa v s); [lia|..]|].
    apply run_step; [done|]. cbn [Uaccess.step Uaccess.a0 regs]. wp_step.
    eapply wp_intro; [apply user_load_None; [lia|done]|]. cbv beta iota. wp_step. unfold Uaccess.fault. wp_step.
    assert (fault_of 13 __uaccess_lb PERMISSION_R) as Hfo by (by left).
    destruct (user_pa_None s (Tcb.set_vm_space v tcb) (src + i) PERMISSION_R) as [Href _];
      [apply Hc|apply Hc|apply Hc|by left|done|].
    eapply wp_mono; [eapply (k_trap_wp s (Tcb.set_vm_space v tcb) 13 __uaccess_lb (src + i) PERMISSION_R);
      [apply Hc|apply Hc|apply frame_length|done|lia|exact Href]|].
    intros resume s1 (v1 & Hres). wp_step. wp_step.
    pose proof (copied_from_fault _ _ _ _ _ _ _ _ _ Hc Hres) as Hc1.
    destruct (Z.eqb_spec resume Trap.get_uaccess_fix) as [Efix|Hne].
    + apply (run_from_end _ i v1 s1); [done|lia|]. right.
      destruct Hres as (_ & _ & _ & _ & [[E _]|[_ [Hu|?]]]); [|left|by right].
      * exfalso. apply (proj1 Hlabels). by rewrite <- E.
      * rewrite <- Hu. symmetry. apply Hc; [by left|lia].
    + assert (resume = __uaccess_lb) as E by (destruct Hres as (_ & _ & _ & _ & [[? _]|[? _]]); done).
      assert (k_sbi s1 = k_sbi s0) as Hs1.
      { rewrite <- Hsbi. by destruct Hres as (_ & _ & _ & _ & [(_ & _ & ?)|[? _]]). }
      destruct (user_pa_retry s (Tcb.set_vm_space v tcb) 13 __uaccess_lb (src + i) PERMISSION_R resume v1 s1)
        as [pa' Hpa']; [apply Hc1|apply Hc|by left|exact Hres|apply Hlabels|done|done|].
      by apply (Hlb _ pa' v1 s1); [lia|..].
Qed.
End from_user.
End uaccess.

(** ** The call *)

(** What [copy_from_user] did when it returns [n] *)
Record copied_out `{LinkerSymbols} `{TrapSymbols} (s : KS) tcb src dst len n v s' : Prop := {
  co_n : 0 <= n <= len;
  co_step : advanced (buffer_page dst len) s tcb v s';
  co_running : running s' (Tcb.set_vm_space v tcb);
  co_view : same_view s (vm_space tcb) s' v;
  co_bytes j : 0 <= j < len - n →
    user_byte s (vm_space tcb) PERMISSION_R (src + j) =
    Some (read_u8 (mem_of s') (dst + j - KERNEL_VA_OFFSET));
  co_rest a : private s (a / 4096) → ¬ dst <= a + KERNEL_VA_OFFSET < dst + (len - n) →
    read_u8 (mem_of s') a = read_u8 (mem_of s) a;
  co_console : n = 0 → k_sbi s' = k_sbi s;
  co_short : n ≠ 0 → user_byte s (vm_space tcb) PERMISSION_R (src + (len - n)) = None ∨ nearly_full s';
  co_sum : ¬ sum_set s';
}.

Lemma copy_from_user_wp `{LinkerSymbols} `{TrapSymbols} `{Fmt} `{Log.EnvLog}
    (s : KS) tcb src dst len :
  uaccess_labels → kernel_inv s → running s tcb →
  0 <= src → 0 <= len → src + len <= USER_SPACE_END → kernel_buffer s dst len →
  wp (Uaccess.copy_from_user src dst len) (λ n s', ∃ v, copied_out s tcb src dst len n v s') s.
Proof.
  intros Hlab Hi Hrun Hsrc Hlen Hend Hbuf. rewrite user_space_end_eq in Hend.
  assert (src + len <= 2 ^ 38) as Hend' by lia.
  unfold Uaccess.copy_from_user. destruct (sum_permit_run s) as (c & Hrun1 & Hsum1 & Hsatp1).
  wp_step. eapply wp_intro; [exact Hrun1|]. set (s1 := upd c s) in *. assert (quiet s s1) as Hq by done.
  assert (running s1 tcb) as Hrun1' by (by apply running_csrs).
  assert (copied_from s1 tcb src dst len 0 (vm_space tcb) s1) as Hc0.
  { split; [lia| | |done|done|lia|done].
    - apply advanced_refl; [by apply (quiet_inv s)|apply Hrun].
    - assert (Tcb.set_vm_space (vm_space tcb) tcb = tcb) as -> by (by destruct tcb). done. }
  wp_step. unfold Uaccess.__uaccess. rewrite uadd_small by (unfold USIZE_MODULUS; lia).
  eapply wp_mono.
  { pose proof (run_from_loop Hlab s1 tcb src dst len (conj Hsrc Hend')
      (kernel_buffer_quiet _ _ _ _ Hq Hbuf) (Z.to_nat len) 0 (vm_space tcb) s1 (Uaccess.fuel len) Hc0) as Hl.
    cbv beta zeta in Hl. rewrite !Z.add_0_r in Hl. apply Hl; [done|lia|unfold Uaccess.fuel; lia]. }
  intros o s2 (n & v & -> & Hc & Hn0 & Hn). cbv beta iota. wp_step. wp_step.
  destruct (sum_deny_run s2) as (c2 & Hrun2 & Hsum2 & Hsatp2).
  wp_step. eapply wp_intro; [exact Hrun2|]. wp_step.
  set (s' := upd c2 s2) in *. assert (quiet s2 s') as Hq' by done.
  destruct Hc as [Hrg Hst Hrun' _ Hview Hb Hrest].
  assert (∀ va, user_byte s1 (vm_space tcb) PERMISSION_R va = user_byte s (vm_space tcb) PERMISSION_R va) as Eu.
  { intros va. unfold user_byte, page_byte. by rewrite (quiet_mem _ _ Hq). }
  exists v. split.
  - lia.
  - by apply (advanced_quiet _ s s1 s2 s').
  - by apply running_csrs.
  - eapply same_view_trans; [by apply quiet_view|]. eapply same_view_trans; [exact Hview|by apply quiet_view].
  - intros j Hj. rewrite (quiet_mem _ _ Hq'), <- Eu. by apply Hb.
  - intros a Ha Hna. rewrite (quiet_mem _ _ Hq'), <- (quiet_mem _ _ Hq).
    apply Hrest; [by apply (private_quiet s)|done].
  - exact Hn0.
  - intros Hne. rewrite <- Eu. destruct (Hn Hne) as [?|[p Hp]]; [by left|]. right. exists p.
    intros q. rewrite (quiet_free s2 s') by done. apply Hp.
  - exact Hsum2.
Qed.

(** C9: [copy_from_user] from user space to a kernel buffer always returns, whatever page
    faults it takes on the way.  Of the [len] bytes all but the last [n], the value it
    returns, are then in the buffer, as the task sees them - a page not yet mapped reads
    0 - and no other byte of the kernel has changed.  [n] is not 0 only if the task may
    not read the next byte or memory is used up.  The task sees the memory it saw
    before, no other task notices, and [SUM] is clear again. *)
Theorem copy_from_user_correct `{LinkerSymbols} `{TrapSymbols} `{Fmt} `{Log.EnvLog}
    (s : KS) tcb src dst len :
  uaccess_labels → kernel_inv s → running s tcb →
  0 <= src → 0 <= len → src + len <= USER_SPACE_END → kernel_buffer s dst len →
  ∃ n s' v, Uaccess.copy_from_user src dst len s = Ret n s' ∧ 0 <= n <= len ∧
    advanced (buffer_page dst len) s tcb v s' ∧ running s' (Tcb.set_vm_space v tcb) ∧
    same_view s (vm_space tcb) s' v ∧
    (∀ j, 0 <= j < len - n →
       user_byte s (vm_space tcb) PERMISSION_R (src + j) =
       Some (read_u8 (mem_of s') (dst + j - KERNEL_VA_OFFSET))) ∧
    (∀ a, private s (a / 4096) → ¬ dst <= a + KERNEL_VA_OFFSET < dst + (len - n) →
       read_u8 (mem_of s') a = read_u8 (mem_of s) a) ∧
    (n = 0 → k_sbi s' = k_sbi s) ∧
    (n ≠ 0 → user_byte s (vm_space tcb) PERMISSION_R (src + (len - n)) = None ∨ nearly_full s') ∧
    ¬ sum_set s'.
Proof.
  intros Hlab Hi Hrun Hsrc Hlen Hend Hbuf.
  destruct (wp_returns _ _ _ (copy_from_user_wp s tcb src dst len Hlab Hi Hrun Hsrc Hlen Hend Hbuf))
    as (n & s' & Hr & v & []). by exists n, s', v.
Qed.

Lemma copy_from_user_correct_witness :
  let fmt : Fmt := {| format := λ _ _, [] |} in
  let env : Log.EnvLog := {| Log.env_LOG := None |} in
  ∃ n s', @Uaccess.copy_from_user sample_trap_symbols fmt 0x12345 (KERNEL_VA_OFFSET + 0x8070e000) 0x1000
      sample_kernel = Ret n s' ∧
    (n = 0 → read_u8 (mem_of s') 0x8070e123 = 0).
Proof.
  intros fmt env.
  destruct (@copy_from_user_correct sample_symbols sample_trap_symbols fmt env sample_kernel task1
    0x12345 (KERNEL_VA_OFFSET + 0x8070e000) 0x1000 sample_labels sample_kernel_inv sample_running)
    as (n & s' & v & Hr & _ & _ & _ & _ & Hb & _).
  - lia.
  - lia.
  - vm_compute. congruence.
  - exact sample_buffer.
  - exists n, s'. split; [exact Hr|]. intros ->.
    pose proof (Hb 0x123 ltac:(lia)) as E. vm_compute (user_byte _ _ _ _) in E. 
    injection E as E. symmetry. exact E.
Defined.
