(* ===== verification/UaccessTo.v ===== *)
(** * [copy_to_user] is correct *)

From S2P Require Export UaccessFault.
From S2P Require Import Spin PageAlloc Regs Console.
From stdpp Require Import list.
Open Scope Z_scope.

Section uaccess.
Context `{LinkerSymbols} `{TrapSymbols} `{Fmt} `{Log.EnvLog}.
Implicit Types (s : KS) (tcb : TaskControlBlock).

(** The view with the user bytes [[lo, hi)] set to [f] *)
Definition view_set s self (lo hi : Z) (f : Z → Z) s' self' : Prop :=
  ∀ need va, is_access need → 0 <= va < 2 ^ 38 →
    user_byte s' self' need va =
      if decide (lo <= va < hi) then (λ _, f va) <$> user_byte s self need va
      else user_byte s self need va.

Lemma view_set_same s self lo hi f s1 self1 s2 self2 :
  view_set s self lo hi f s1 self1 → same_view s1 self1 s2 self2 → view_set s self lo hi f s2 self2.
Proof. intros Hv Hs need va Hn Hva. rewrite Hs by done. by apply Hv. Qed.

(** ** One byte *)

(** A byte of a page of the task is written. *)
Lemma user_write s tcb va b t pm p pa :
  kernel_inv s → tcb ∈ tasks_of s → 0 <= va < 2 ^ 38 → 0 <= b < 256 →
  has (areas (vm_space tcb)) (va / 4096) t pm (Some p) → pa = page_start p + va mod 4096 →
  let s' := upd_mem (λ m, write_u8 m pa b) s in
  advanced nothing s tcb (vm_space tcb) s' ∧
  view_set s (vm_space tcb) va (va + 1) (λ _, b) s' (vm_space tcb).
Proof.
  intros Hi Hin Hva Hb Hh Epa s'.
  pose proof (ki_tasks _ Hi) as Hts. rewrite Forall_forall in Hts. pose proof (tk_space _ _ (Hts _ Hin)) as Hv.
  assert (t = Anonymous) as ->.
  { destruct Hh as (a & Ha & Hr & <- & _). apply (vi_area _ _ _ Hv) in Ha.
    pose proof (ar_range _ Ha) as Hrg. destruct (map_type a); [done|]. exfalso. zlia. }
  assert (∀ x, read_u8 (mem_of s') x = if decide (x = pa) then b else read_u8 (mem_of s) x) as Hmem.
  { intros x. case_decide as E; [subst x|by apply read_u8_write_ne].
    etransitivity; [apply read_u8_write_same|]. by apply Z.mod_small. }
  pose proof (Z.mod_pos_bound va 4096 ltac:(lia)) as Hmod.
  assert (wrote s p s') as Hw.
  { apply upd_mem_wrote; [apply Hv|]. intros q Hq x Hx. apply read_u8_write_ne. intros E.
    apply Hq. unfold page_start, page_end in *. lia. }
  assert (advanced nothing s tcb (vm_space tcb) s') as Hav.
  { apply (advanced_user_write _ _ _ (va / 4096) pm p); [done|done|zlia|done|done]. }
  split; [done|]. pose proof (advanced_space _ _ _ _ _ Hav) as Hv'. intros need va' Hn Hva'.
  destruct (has_dec (vm_space tcb) (va' / 4096)) as [(t & pm' & o & Hh')|Hno].
  2:{ rewrite !user_byte_none by done. by case_decide. }
  rewrite (user_byte_has _ _ _ _ _ _ _ Hv Hh'), (user_byte_has _ _ _ _ _ _ _ Hv' Hh').
  destruct o as [q|]; simpl.
  + rewrite Hmem. pose proof (Z.mod_pos_bound va' 4096 ltac:(lia)) as Hmod'.
    destruct (decide (va <= va' < va + 1)) as [E|Hne].
    * assert (va' = va) as -> by lia.
      destruct (has_unique _ _ _ _ _ _ _ _ _ Hv Hh Hh') as (_ & _ & [= <-]).
      rewrite decide_True by lia. by case_match.
    * rewrite decide_False; [done|]. intros E.
      assert (q = p) as -> by (unfold page_start in *; lia).
      pose proof (vi_inj _ _ Hv _ _ _ _ _ _ _ Hh Hh') as Ev.
      apply Hne. unfold page_start in *. zlia.
  + case_decide as E; [|done]. assert (va' = va) as -> by lia.
    by destruct (has_unique _ _ _ _ _ _ _ _ _ Hv Hh Hh') as (_ & _ & ?).
Qed.

(** The store at a user address that the hardware allows *)
Lemma user_store s tcb va b pa :
  kernel_inv s → running s tcb → sum_set s → 0 <= va < 2 ^ 38 → 0 <= b < 256 →
  Access.user_pa s va PERMISSION_W = Some pa →
  ∃ s', Access.sb va b s = Ret true s' ∧ k_csrs s' = k_csrs s ∧ k_tp s' = k_tp s ∧
    advanced nothing s tcb (vm_space tcb) s' ∧
    view_set s (vm_space tcb) va (va + 1) (λ _, b) s' (vm_space tcb).
Proof.
  intros Hi Hrun Hsum Hva Hb Hpa.
  destruct (user_pa_Some s tcb va PERMISSION_W pa) as [_ (t & pm & p & Hh & Epa & _)];
    [done..|by right|done|].
  destruct (user_write s tcb va b t pm p pa Hi (rn_in _ _ Hrun) Hva Hb Hh Epa) as [Hav Hset].
  exists (upd_mem (λ m, write_u8 m pa b) s). split_and!; [|done|done|exact Hav|exact Hset].
  unfold Access.sb, Access.is_kernel_va.
  replace (2 ^ 63 <=? va) with false by (symmetry; apply Z.leb_gt; lia).
  change PTE.FLAG_W with PERMISSION_W. unfold gets, mbind, M_bind. by rewrite Hpa.
Qed.

Lemma user_store_None s va b :
  0 <= va < 2 ^ 38 → Access.user_pa s va PERMISSION_W = None → Access.sb va b s = Ret false s.
Proof.
  intros Hva E. unfold Access.sb, Access.is_kernel_va.
  replace (2 ^ 63 <=? va) with false by (symmetry; apply Z.leb_gt; lia).
  change PTE.FLAG_W with PERMISSION_W. unfold gets, mbind, M_bind. by rewrite E.
Qed.

Hypothesis Hlabels : uaccess_labels.

Section to_user.
Variables (s0 : KS) (tcb : TaskControlBlock) (src dst len : Z).
Hypothesis Hdstr : 0 <= dst ∧ dst + len <= 2 ^ 38.
Hypothesis Hsrc : sendable s0 tcb src len.

(** The byte of the buffer that goes to [va] *)
Definition buffer_byte s (src dst va : Z) : Z := read_u8 (mem_of s) (src + (va - dst) - KERNEL_VA_OFFSET).
Let sent va : Z := buffer_byte s0 src dst va.

(** [i] bytes are copied. *)
Record copied_to (i : Z) v s : Prop := {
  ct_range : 0 <= i <= len;
  ct_step : advanced nothing s0 tcb v s;
  ct_running : running s (Tcb.set_vm_space v tcb);
  ct_sum : sum_set s;
  ct_view : view_set s0 (vm_space tcb) dst (dst + i) sent s v;
  ct_allowed j : 0 <= j < i → is_Some (user_byte s0 (vm_space tcb) PERMISSION_W (dst + j));
}.

Lemma copied_to_fault i v s va epc resume v' s' :
  copied_to i v s → resumed s (Tcb.set_vm_space v tcb) va PERMISSION_W epc resume v' s' →
  copied_to i v' s'.
Proof.
  intros [Hi Hst Hrun Hsum Hview Ha] (Hav & Hrun' & Hview' & Hsum' & _). split; try done.
  - by eapply advanced_trans.
  - by apply Hsum'.
  - by eapply view_set_same.
Qed.

Lemma copied_to_store i v s pa :
  copied_to i v s → i < len → Access.user_pa s (dst + i) PERMISSION_W = Some pa →
  ∃ s', Access.sb (dst + i) (sent (dst + i)) s = Ret true s' ∧ copied_to (i + 1) v s'.
Proof.
  intros [Hi Hst Hrun Hsum Hview Ha] Hlt Hpa. pose proof (av_inv _ _ _ _ _ Hst) as Hinv.
  destruct (user_store s (Tcb.set_vm_space v tcb) (dst + i) (sent (dst + i)) pa)
    as (s' & Hsb & Ec & Et & Hav & Hset); [done|done|done|lia|apply read_u8_range|done|].
  cbn [vm_space Tcb.set_vm_space] in *.
  destruct (user_pa_Some s (Tcb.set_vm_space v tcb) (dst + i) PERMISSION_W pa) as [Hub _];
    [done|done|done|lia|by right|done|].
  exists s'. split; [done|]. split.
  - lia.
  - by eapply advanced_trans.
  - apply (advanced_running nothing s (Tcb.set_vm_space v tcb) v s' Hrun Hav); [done|by rewrite Ec].
  - unfold sum_set. by rewrite Ec.
  - intros need va Hn Hva. rewrite (Hset need va Hn Hva), (Hview need va Hn Hva).
    destruct (decide (dst + i <= va < dst + i + 1)) as [E|Hne].
    + assert (va = dst + i) as -> by lia. rewrite decide_False by lia. by rewrite decide_True by lia.
    + destruct (decide (dst <= va < dst + i)); [by rewrite decide_True by lia|by rewrite decide_False by lia].
  - intros j Hj. destruct (decide (j = i)) as [->|]; [|apply Ha; lia].
    pose proof (Hview PERMISSION_W (dst + i) ltac:(by right) ltac:(lia)) as E.
    rewrite decide_False in E by lia. rewrite <- E. cbn [vm_space Tcb.set_vm_space] in Hub. by rewrite Hub.
Qed.

(** The source does not change. *)
Lemma copied_to_load i v s :
  copied_to i v s → i < len → Access.lb (src + i) s = Ret (Some (sent (dst + i))) s.
Proof.
  intros [Hi Hst _ _ _ _] Hlt. destruct (sd_range _ _ _ _ Hsrc) as [Hlo _]; [lia|].
  rewrite direct_load by lia. do 2 f_equal. unfold sent, buffer_byte.
  replace (src + (dst + i - dst)) with (src + i) by lia.
  apply (sendable_kept s0 tcb v s src len); [done|done|lia].
Qed.

(** ** The loop *)

(** What it ends with: [r] bytes are not copied. *)
Definition copy_to_ends (o : option Z) s' : Prop :=
  ∃ r v', o = Some r ∧ copied_to (len - r) v' s' ∧
    (r ≠ 0 → user_byte s0 (vm_space tcb) PERMISSION_W (dst + (len - r)) = None ∨ nearly_full s').

Let regs i : Uaccess.regs := Uaccess.mk_regs (src + i) (dst + i) (src + len).

Lemma run_to_end n i v s :
  copied_to i v s →
  i = len ∨ user_byte s0 (vm_space tcb) PERMISSION_W (dst + i) = None ∨ nearly_full s →
  wp (Uaccess.run n Uaccess.Done_ (regs i)) copy_to_ends s.
Proof.
  intros Hc Hend. pose proof (ct_range _ _ _ Hc) as Hi. apply run_done. cbn [Uaccess.t5 Uaccess.a0 regs].
  exists (len - i), v. rewrite usub_small by (unfold USIZE_MODULUS; lia).
  replace (len - (len - i)) with i by lia. split_and!; [f_equal; lia|done|].
  intros Hne. destruct Hend as [?|?]; [lia|done].
Qed.

Lemma as_isize_le_high x y : 2 ^ 63 <= x → 2 ^ 63 <= y → (as_isize x <=? as_isize y) = (x <=? y).
Proof.
  intros Hx Hy. unfold as_isize, USIZE_MODULUS.
  destruct (Z.ltb_spec x 9223372036854775808), (Z.ltb_spec y 9223372036854775808); lia.
Qed.

Lemma run_to_loop k : ∀ i v s n,
  copied_to i v s → Z.of_nat k = len - i → (4 * k + 1 <= n)%nat →
  wp (Uaccess.run n Uaccess.Loop (regs i)) copy_to_ends s.
Proof.
  induction k as [|k IH]; intros i v s n Hc Hk Hn; pose proof (ct_range _ _ _ Hc).
  - destruct n as [|n]; [lia|].
    apply run_step; [done|]. cbn [Uaccess.step]. wp_step. cbn [Uaccess.t5 Uaccess.a0 regs].
    replace i with len by lia. rewrite Z.leb_refl. replace len with i by lia.
    eapply run_to_end; [done|]. left. lia.
  - destruct (sd_range _ _ _ _ Hsrc) as [Hlo Hhi]; [lia|]. unfold KERNEL_VA_OFFSET in Hlo.
    assert (∀ n' pa v s, (4 * k + 2 <= n')%nat → copied_to i v s →
      Access.user_pa s (dst + i) PERMISSION_W = Some pa →
      wp (Uaccess.run n' (Uaccess.Sb (sent (dst + i))) (regs i)) copy_to_ends s) as Hsb.
    { intros n' pa v1 s1 Hn' Hc1 Hpa. destruct n' as [|n']; [lia|].
      destruct (copied_to_store i v1 s1 pa Hc1 ltac:(lia) Hpa) as (s2 & Hrun & Hc2).
      apply run_step; [done|]. cbn [Uaccess.step Uaccess.a1 Uaccess.a0 Uaccess.t5 regs].
      wp_step. eapply wp_intro; [exact Hrun|]. cbv beta iota. wp_step.
      rewrite !uadd_small by (unfold USIZE_MODULUS; lia).
      replace (src + i + 1) with (src + (i + 1)) by lia. replace (dst + i + 1) with (dst + (i + 1)) by lia.
      apply (IH (i + 1) v1 s2); [done|lia|lia]. }
    destruct n as [|[|[|n]]]; [lia..|].
    apply run_step; [done|]. cbn [Uaccess.step]. wp_step. cbn [Uaccess.t5 Uaccess.a0 regs].
    rewrite as_isize_le_high by lia. replace (src + len <=? src + i) with false by (symmetry; lia).
    apply run_step; [done|]. cbn [Uaccess.step Uaccess.a0 regs]. wp_step.
    eapply wp_intro; [apply (copied_to_load i v); [done|lia]|]. cbv beta iota. wp_step.
    destruct (Access.user_pa s (dst + i) PERMISSION_W) as [pa|] eqn:Hpa; [by apply (Hsb _ pa v s); [lia|..]|].
    apply run_step; [done|]. cbn [Uaccess.step Uaccess.a1 regs]. wp_step.
    eapply wp_intro; [apply user_store_None; [lia|done]|]. cbv beta iota. wp_step. unfold Uaccess.fault. wp_step.
    assert (fault_of 15 __uaccess_sb PERMISSION_W) as Hfo by (by right).
    destruct (user_pa_None s (Tcb.set_vm_space v tcb) (dst + i) PERMISSION_W) as [Href _];
      [apply Hc|apply Hc|apply Hc|by right|done|].
    eapply wp_mono; [eapply (k_trap_wp s (Tcb.set_vm_space v tcb) 15 __uaccess_sb (dst + i) PERMISSION_W);
      [apply Hc|apply Hc|apply frame_length|done|lia|exact Href]|].
    intros resume s1 (v1 & Hres). wp_step. wp_step.
    pose proof (copied_to_fault _ _ _ _ _ _ _ _ Hc Hres) as Hc1.
    destruct (Z.eqb_spec resume Trap.get_uaccess_fix) as [Efix|Hne].
    + apply (run_to_end _ i v1 s1); [done|]. right.
      destruct Hres as (_ & _ & _ & _ & [[E _]|[_ [Hu|?]]]); [|left|by right].
      * exfalso. apply (proj2 Hlabels). by rewrite <- E.
      * cbn [vm_space Tcb.set_vm_space] in Hu.
        pose proof (ct_view _ _ _ Hc PERMISSION_W (dst + i) ltac:(by right) ltac:(lia)) as E.
        rewrite decide_False in E by lia. by rewrite <- E.
    + assert (resume = __uaccess_sb) as E by (destruct Hres as (_ & _ & _ & _ & [[? _]|[? _]]); done).
      destruct (user_pa_retry s (Tcb.set_vm_space v tcb) 15 __uaccess_sb (dst + i) PERMISSION_W resume v1 s1)
        as [pa' Hpa']; [apply Hc1|apply Hc|by right|exact Hres|apply Hlabels|done|done|].
      by apply (Hsb _ pa' v1 s1); [lia|..].
Qed.
End to_user.

(** What [copy_to_user] did, with [n] bytes not copied *)
Definition copied_out s tcb src dst len n v s' : Prop :=
  0 <= n <= len ∧
  advanced nothing s tcb v s' ∧ running s' (Tcb.set_vm_space v tcb) ∧
  view_set s (vm_space tcb) dst (dst + (len - n)) (buffer_byte s src dst) s' v ∧
  (∀ j, 0 <= j < len - n → is_Some (user_byte s (vm_space tcb) PERMISSION_W (dst + j))) ∧
  (n ≠ 0 → user_byte s (vm_space tcb) PERMISSION_W (dst + (len - n)) = None ∨ nearly_full s') ∧
  ¬ sum_set s'.

Lemma copied_to_out s s1 s2 s' tcb src dst len n v :
  quiet s s1 → quiet s2 s' → copied_to s1 tcb src dst len (len - n) v s2 →
  (n ≠ 0 → user_byte s1 (vm_space tcb) PERMISSION_W (dst + (len - n)) = None ∨ nearly_full s2) →
  running s' (Tcb.set_vm_space v tcb) → ¬ sum_set s' →
  copied_out s tcb src dst len n v s'.
Proof.
  intros Hq Hq' [Hrg Hst _ _ Hview Ha] Hn Hrun' Hsum.
  assert (∀ need va, user_byte s1 (vm_space tcb) need va = user_byte s (vm_space tcb) need va) as Eu.
  { intros need va. unfold user_byte, page_byte. by rewrite (quiet_mem _ _ Hq). }
  split; [lia|]. split; [by apply (advanced_quiet _ s s1 s2 s')|]. split; [done|].
  split; [|split; [|split; [|done]]].
  - eapply view_set_same; [|by apply quiet_view]. intros need va Hnd Hva.
    rewrite (Hview need va Hnd Hva), Eu. unfold buffer_byte. by rewrite (quiet_mem _ _ Hq).
  - intros j Hj. rewrite <- Eu. by apply Ha.
  - intros Hne. rewrite <- Eu. destruct (Hn Hne) as [?|[p Hp]]; [by left|]. right. exists p.
    intros q. rewrite (quiet_free s2 s') by done. apply Hp.
Qed.

Lemma copy_to_user_wp s tcb src dst len :
  kernel_inv s → running s tcb → is_usize src →
  0 <= dst → 0 <= len → dst + len <= USER_SPACE_END → sendable s tcb src len →
  wp (Uaccess.copy_to_user src dst len) (λ n s', ∃ v, copied_out s tcb src dst len n v s') s.
Proof.
  intros Hi Hrun Hu Hdst Hlen Hend Hbuf. rewrite user_space_end_eq in Hend.
  assert (dst + len <= 2 ^ 38) as Hend' by lia.
  unfold Uaccess.copy_to_user. destruct (sum_permit_run s) as (c & Hrun1 & Hsum1 & Hsatp1).
  wp_step. eapply wp_intro; [exact Hrun1|]. set (s1 := upd c s) in *. assert (quiet s s1) as Hq by done.
  assert (running s1 tcb) as Hrun1' by (by apply running_csrs).
  assert (copied_to s1 tcb src dst len 0 (vm_space tcb) s1) as Hc0.
  { split; [lia| | |done| |lia].
    - apply advanced_refl; [by apply (quiet_inv s)|apply Hrun].
    - assert (Tcb.set_vm_space (vm_space tcb) tcb = tcb) as -> by (by destruct tcb). done.
    - intros need va _ _. by rewrite decide_False by lia. }
  wp_step. unfold Uaccess.__uaccess.
  assert (src ⊕ len = src + len) as ->.
  { apply uadd_small. destruct (decide (0 < len)) as [Hpos|].
    - destruct (sd_range _ _ _ _ Hbuf Hpos) as [Hlo Hhi]. unfold KERNEL_VA_OFFSET, USIZE_MODULUS in *. lia.
    - unfold is_usize in Hu. lia. }
  eapply wp_mono.
  { pose proof (run_to_loop s1 tcb src dst len (conj Hdst Hend')
      (sendable_quiet _ _ _ _ _ Hq Hbuf) (Z.to_nat len) 0 (vm_space tcb) s1 (Uaccess.fuel len) Hc0) as Hl.
    cbv beta zeta in Hl. rewrite !Z.add_0_r in Hl. apply Hl; [lia|unfold Uaccess.fuel; lia]. }
  intros o s2 (n & v & -> & Hc & Hn). cbv beta iota. wp_step. wp_step.
  destruct (sum_deny_run s2) as (c2 & Hrun2 & Hsum2 & Hsatp2).
  wp_step. eapply wp_intro; [exact Hrun2|]. wp_step.
  exists v. apply (copied_to_out s s1 s2); [done..| |exact Hsum2].
  apply running_csrs; [apply Hc|done].
Qed.
End uaccess.

(** C10: [copy_to_user] from a kernel buffer to user space always returns, whatever page
    faults it takes on the way.  All but the last [n] of the [len] bytes, the value it
    returns, were allowed and are written: the task then sees its memory with exactly
    these bytes replaced by those of the buffer, wherever the pages were mapped.  [n] is
    not 0 only if the task may not write the next byte or memory is used up.  No byte of
    another task or of the kernel has changed, and [SUM] is clear again. *)
Theorem copy_to_user_correct `{LinkerSymbols} `{TrapSymbols} `{Fmt} `{Log.EnvLog}
    (s : KS) tcb src dst len :
  uaccess_labels → kernel_inv s → running s tcb → is_usize src →
  0 <= dst → 0 <= len → dst + len <= USER_SPACE_END → sendable s tcb src len →
  ∃ n s' v, Uaccess.copy_to_user src dst len s = Ret n s' ∧ 0 <= n <= len ∧
    advanced nothing s tcb v s' ∧ running s' (Tcb.set_vm_space v tcb) ∧
    view_set s (vm_space tcb) dst (dst + (len - n)) (buffer_byte s src dst) s' v ∧
    (∀ j, 0 <= j < len - n → is_Some (user_byte s (vm_space tcb) PERMISSION_W (dst + j))) ∧
    (n ≠ 0 → user_byte s (vm_space tcb) PERMISSION_W (dst + (len - n)) = None ∨ nearly_full s') ∧
    ¬ sum_set s'.
Proof.
  intros Hlab Hi Hrun Hu Hdst Hlen Hend Hbuf.
  destruct (wp_returns _ _ _ (copy_to_user_wp Hlab s tcb src dst len Hi Hrun Hu Hdst Hlen Hend Hbuf))
    as (n & s' & Hr & v & Hout). by exists n, s', v.
Qed.

Lemma copy_to_user_correct_witness :
  let fmt : Fmt := {| format := λ _ _, [] |} in
  let env : Log.EnvLog := {| Log.env_LOG := None |} in
  ∃ n s' v, @Uaccess.copy_to_user sample_trap_symbols fmt (KERNEL_VA_OFFSET + 0x8070e000) 0x12345 8
      sample_kernel = Ret n s' ∧
    @advanced sample_symbols sample_trap_symbols nothing sample_kernel task1 v s' ∧
    user_byte s' v PERMISSION_R 0x13000 = Some 0.
Proof.
  intros fmt env.
  destruct (@copy_to_user_correct sample_symbols sample_trap_symbols fmt env sample_kernel task1
    (KERNEL_VA_OFFSET + 0x8070e000) 0x12345 8 sample_labels sample_kernel_inv sample_running)
    as (n & s' & v & Hr & Hn & Hav & _ & Hview & _).
  - vm_compute. split; congruence.
  - lia.
  - lia.
  - vm_compute. congruence.
  - apply kernel_buffer_sendable. split; [unfold KERNEL_VA_OFFSET; lia|].
    intros p (a & Ha & E). apply sample_buffer. exists a. split; [lia|exact E].
  - exists n, s', v. split; [exact Hr|]. split; [exact Hav|].
    rewrite (Hview PERMISSION_R 0x13000); [|left; reflexivity|lia].
    rewrite decide_False by lia. vm_compute. reflexivity.
Defined.
