(* ===== verification/LangItems.v ===== *)
(** * Language items: [src/os/src/lang_items.rs]

    The handler of a panic of the kernel: it prints the message and the chain of frame
    pointers, and powers the machine off.  In the other files a panic ends a run
    ([Machine.Panic]); this is what the hart does from there on. *)

From S2P Require Export UaccessFault.
From S2P Require Import Regs PageAlloc Spin.
From stdpp Require Import list.
Open Scope Z_scope.

(** Where the two loads of [print_stack_trace] are *)
Class TraceSymbols := { ld_ra : Z; ld_fp : Z }.

Module LangItems.



Section ops.
Context `{LinkerSymbols} `{TrapSymbols} `{TraceSymbols} `{Fmt}.






End ops.
End LangItems.

(** ** What is printed *)

Section trace.
Context `{LinkerSymbols} `{TrapSymbols} `{TraceSymbols} `{Fmt} `{Log.EnvLog}.
Implicit Types s : KS.










End trace.

(** A chain of two frames on a kernel stack, which the page table maps with a huge page *)
#[local] Existing Instance sample_symbols.
#[local] Existing Instance sample_trap_symbols.
#[local] Instance sample_trace : TraceSymbols := {| ld_ra := 0xffffffc080200000; ld_fp := 0xffffffc080200004 |}.
#[local] Instance sample_format : Fmt := {| format _ args := [Z.of_nat (length args); 10] |}.
#[local] Instance sample_log_setting : Log.EnvLog := {| Log.env_LOG := None |}.

