(* ===== verification/SchedProps.v ===== *)
(** * The scheduler is correct

    [run_next_task] requeues or drops the task that leaves, hands the hart to a ready one,
    and powers the machine off when none is left. *)

From S2P Require Export KSteps.
From S2P Require Import Spin PageAlloc Regs Console.
From stdpp Require Import list.
Open Scope Z_scope.

Section sched.
Context `{LinkerSymbols} `{TrapSymbols} `{Fmt} `{Log.EnvLog}.
Implicit Types (s : KS) (tcb : TaskControlBlock) (l : Tasks).

(** ** Steps on the clock and the console *)

(** Only the clock, the firmware calls and the log level differ. *)
Definition io s s' : Prop :=
  k_mm s' = k_mm s ∧ k_csrs s' = k_csrs s ∧ k_tp s' = k_tp s ∧ k_tasks s' = k_tasks s ∧
  k_next_id s' = k_next_id s.
Lemma io_refl s : io s s.
Proof. done. Qed.
Lemma io_trans s1 s2 s3 : io s1 s2 → io s2 s3 → io s1 s3.
Proof. intros (? & ? & ? & ? & ?) (? & ? & ? & ? & ?). split_and!; congruence. Qed.
Lemma io_quiet s s' : io s s' → quiet s s'.
Proof. intros (? & ? & ? & ? & ?). by split_and!. Qed.

Lemma read_time_io s : wp read_time (λ _ s', io s s') s.
Proof. eapply wp_intro; [reflexivity|done]. Qed.
Lemma read_time_ms_io s : wp read_time_ms (λ _ s', io s s') s.
Proof. unfold read_time_ms. wp_step. eapply wp_mono; [apply read_time_io|]. intros t s' ?. by wp_step. Qed.
Lemma log_io level fmt args s : wp (Log.log level fmt args) (λ _ s', io s s') s.
Proof. eapply wp_intro; [apply log_run|done]. Qed.

(** What [record_run_start] does to the task, for the scheduler *)
Definition same_task tcb tcb' : Prop :=
  task_id tcb' = task_id tcb ∧ vm_space tcb' = vm_space tcb ∧ context tcb' = context tcb.
Lemma record_run_start_io tcb s :
  wp (Tcb.record_run_start tcb) (λ tcb' s', io s s' ∧ same_task tcb tcb' ∧ state tcb' = state tcb) s.
Proof.
  unfold Tcb.record_run_start. wp_step. eapply wp_mono; [apply read_time_io|].
  intros t s' Hio. by wp_step.
Qed.
Lemma set_next_timer_io s :
  wp set_next_timer_interrupt (λ _ s', io s s' ∧
    ∃ t, sbi_trace (k_sbi s') = sbi_trace (k_sbi s) ++ [SetTimer t]) s.
Proof.
  unfold set_next_timer_interrupt. wp_step.
  eapply wp_intro; [reflexivity|]. eapply wp_intro; [reflexivity|]. split; [done|by eexists].
Qed.

Lemma take_task_io l id i tcb s :
  Task.find_task id l = Some (i, tcb) →
  wp (Task.take_task_tcb l id) (λ '(o, l') s', io s s' ∧ o = Some tcb ∧ l ≡ₚ tcb :: l') s.
Proof.
  intros Hf. destruct (take_task_tcb_run l id i tcb s Hf) as (l' & Hrun & Hp).
  by eapply wp_intro; [exact Hrun|].
Qed.

(** ** Lists of tasks *)

Lemma task_ok_same s tcb tcb' : same_task tcb tcb' → task_ok s tcb → task_ok s tcb'.
Proof.
  intros (Eid & Ev & Ec) [Hsp Hst Hid Hus Hc].
  assert (context_of tcb' = context_of tcb) as Eco by (unfold context_of; by rewrite Ev).
  split; [by rewrite Ev|unfold stack_page; by rewrite Ev|by rewrite Eco, Eid|
    unfold to_user; by rewrite Eco|by rewrite Eco, Ec, Ev].
Qed.
Lemma tasks_inv_same l tcb tcb' s :
  same_task tcb tcb' → tasks_inv (tcb :: l) s → tasks_inv (tcb' :: l) s.
Proof.
  rewrite !tasks_inv_cons. intros Hs (Ht & Hn & Hid & Ha & Hl).
  pose proof (task_ok_same _ _ _ Hs Ht). destruct Hs as (-> & Ev & _). split_and!; [done..| |done].
  eapply Forall_impl; [exact Ha|]. intros other. unfold apart_tasks. by rewrite Ev.
Qed.

(** Dropping the space of a task disturbs none of the others. *)
Lemma tasks_inv_drop tcb l s s' :
  tasks_inv (tcb :: l) s → only_mm s s' → ps_ok s' → mem_of s' = mem_of s →
  (∀ p, ps_free s' p ↔ ps_free s p ∨ owns (vm_space tcb) p) → tasks_inv l s'.
Proof.
  intros Hinv [Es _] Hok Hm Hf. apply tasks_inv_cons in Hinv as (_ & _ & _ & Hap & Hl).
  rewrite Forall_forall in Hap. pose proof (ti_tasks _ _ Hl) as Ht. rewrite Forall_forall in Ht.
  apply (tasks_inv_undisturbed l s); [|by rewrite Es|done]. intros other Ho.
  apply (undisturbed_local (vm_space tcb) s (gone (vm_space tcb))); [apply Ht, Ho|done| |apply Hap, Ho].
  by apply drop_space_local.
Qed.

Lemma get_next_task_id_app l1 l2 :
  (∃ tcb, tcb ∈ l1 ∧ state tcb = Ready) → Task.get_next_task_id (l1 ++ l2) = Task.get_next_task_id l1.
Proof.
  intros (tcb & Hin & Hr). unfold Task.get_next_task_id.
  destruct (list_find_elem_of (λ tcb, Tcb.get_state tcb = Ready) l1 tcb Hin Hr) as [[i t] Hf].
  by rewrite (list_find_app_l _ _ _ _ _ Hf), Hf.
Qed.
(** ** The task that leaves *)

(** The hart is between two tasks: [cur], if there is one, is the task whose kernel
    stack it still uses; no task is marked as running, and the kernel has the hart. *)
Definition leaving s (cur : option TaskControlBlock) : Prop :=
  match cur with
  | None => k_tp s = 0
  | Some t => t ∈ tasks_of s ∧ k_tp s = context_of t
  end ∧ (∀ t, t ∈ tasks_of s → state t ≠ Running) ∧ in_kernel (k_csrs s).

(** What is over is dropped. *)
Definition dropped (cur : option TaskControlBlock) : Tasks :=
  match cur with
  | Some t => if bool_decide (state t = Ready) then [] else [t]
  | None => []
  end.

(** What [requeue_current] leaves: only memory management and the clock changed *)
Record requeued s cur (o : option Z) l s' : Prop := {
  rq_curr : o = task_id <$> cur;
  rq_perm : tasks_of s ≡ₚ dropped cur ++ l;
  rq_last t : cur = Some t → state t = Ready → ∃ l0, l = l0 ++ [t];
  rq_inv : tasks_inv l s';
  rq_mem : mem_of s' = mem_of s;
  rq_free p : ps_free s' p ↔ ps_free s p ∨ ∃ t, t ∈ dropped cur ∧ owns (vm_space t) p;
  rq_rest : k_csrs s' = k_csrs s ∧ k_tp s' = k_tp s ∧ locked (k_tasks s') = true ∧
    k_next_id s' = k_next_id s ∧ kernel_satp (k_mm s') = kernel_satp (k_mm s);
}.

Lemma current_id_locked s t :
  kernel_inv s → t ∈ tasks_of s → k_tp s = context_of t →
  Task.try_get_current_task_id (lock_tasks s) = Ret (Some (task_id t)) (lock_tasks s).
Proof.
  intros Hi Hin Htp. destruct (context_id s t Hi Hin) as [Hne Hid].
  unfold Task.try_get_current_task_id, gets, mbind, M_bind.
  change (k_tp (lock_tasks s)) with (k_tp s). rewrite Htp, (proj2 (Z.eqb_neq _ _) Hne).
  apply task_id_word in Hid.
  assert (TrapCtx.get_task_id (context_of t) (lock_tasks s) = Ret (task_id t) (lock_tasks s)) as ->
    by (by apply task_id_word). done.
Qed.

Lemma requeue_wp s cur :
  kernel_inv s → leaving s cur →
  wp (Task.requeue_current (tasks_of s)) (λ '(o, l) s', requeued s cur o l s') (lock_tasks s).
Proof.
  intros Hi (Hcur & Hnr & _). pose proof Hi as [Hl Hts]%kernel_inv_tasks.
  assert (tasks_inv (tasks_of s) (lock_tasks s)) as Hts' by (by apply (tasks_inv_mm _ s)).
  unfold Task.requeue_current. wp_step. destruct cur as [t|].
  2:{ eapply wp_intro.
    { unfold Task.try_get_current_task_id, gets, mbind, M_bind.
      change (k_tp (lock_tasks s)) with (k_tp s). rewrite Hcur. reflexivity. }
    cbv beta iota. wp_step. split; [done|done|done|done|done| |by split_and!].
    intros p. split; [by left|]. intros [?|(? & []%elem_of_nil & _)]; done. }
  destruct Hcur as [Hin Htp]. eapply wp_intro; [by apply current_id_locked|]. cbv beta iota.
  destruct (find_task_in _ (task_id t) t (ki_ids _ Hi) Hin eq_refl) as [i Hfind].
  wp_step. eapply wp_mono; [by apply (take_task_io _ _ _ _ (lock_tasks s) Hfind)|].
  intros [o l] s1 (Hio & -> & Hp). cbv beta iota.
  assert (tasks_inv (t :: l) s1) as Hts1.
  { eapply tasks_inv_reorder; [exact Hp|]. apply (tasks_inv_mm _ (lock_tasks s)); [apply Hio..|done]. }
  pose proof (quiet_mem _ _ (io_quiet _ _ Hio)) as Em.
  pose proof (λ p, quiet_free _ _ p (io_quiet _ _ Hio)) as Ef.
  destruct Hio as (Emm & Ec & Et & Ek & En). unfold Tcb.get_state.
  destruct (decide (state t = Ready)) as [Er|Hnr'].
  - rewrite Er. wp_step. split; [done| | | |done| |by rewrite Ec, Et, Ek, En, Emm].
    + simpl. rewrite bool_decide_true by done. unfold vec_push. by rewrite Hp, Permutation_cons_append.
    + intros t' [= <-] _. by exists l.
    + eapply tasks_inv_reorder; [|exact Hts1]. apply Permutation_cons_append.
    + intros p. rewrite Ef. simpl. rewrite bool_decide_true by done. split; [by left|].
      intros [?|(? & []%elem_of_nil & _)]; done.
  - assert (dropped (Some t) = [t]) as Ed by (simpl; by rewrite bool_decide_false).
    cut (wp (Space.drop_space (vm_space t);; mret (Some (task_id t), l))
      (λ '(o, l) s', requeued s (Some t) o l s') s1).
    { specialize (Hnr t Hin). destruct (state t); done. }
    wp_step. pose proof Hts1 as (Ht & _)%tasks_inv_cons.
    eapply wp_mono; [apply drop_space_at, Ht|].
    intros _ s2 (Hmm & Hok & Hm & Hf). wp_step.
    split; [done|by rewrite Ed|by intros t' [= <-] ?| | | |].
    + by apply (tasks_inv_drop t l s1 s2).
    + by rewrite Hm, Em.
    + intros p. rewrite Hf, Ef, Ed. setoid_rewrite list_elem_of_singleton. naive_solver.
    + destruct Hmm as [Es Esatp]. rewrite Esatp, Emm. rewrite Es. cbn. by rewrite Ec, Et, Ek, En.
Qed.

(** ** The switch *)

(** The outcome of [run_next_task]; [l] are the tasks that are left. *)
Definition scheduled s cur l (r : flow unit) s' : Prop :=
  match r with
  | Done _ => False
  | Switched curr next k =>
      curr = task_id <$> cur ∧ k = kret tt ∧
      ∃ t t' rest, l ≡ₚ t :: rest ∧ state t = Ready ∧ next = task_id t ∧
        (cur = Some t → ∀ other, other ∈ rest → state other ≠ Ready) ∧
        same_task t t' ∧ state t' = Running ∧
        kernel_inv s' ∧ tasks_of s' ≡ₚ t' :: rest ∧ running s' t' ∧
        (∀ n, n ≠ 0x180 → csr_value (k_csrs s') n = csr_value (k_csrs s) n) ∧
        ∃ tr time, sbi_trace (k_sbi s') = tr ++ [SetTimer time]
  | PowerOff is_failure =>
      is_failure = false ∧ (∀ t, t ∈ l → state t ≠ Ready) ∧
      ∃ tr, sbi_trace (k_sbi s') = tr ++ [SystemReset false]
  end.
(** The register writes of [__switch] *)
Lemma switch_run curr next ctx s :
  Task.__switch curr next ctx s =
  Ret (Switched curr next (kret tt))
    (set_tp (ctx_tp ctx) (upd (<[0x180 := ctx_satp ctx]> (k_csrs s)) s)).
Proof. by destruct s. Qed.

(** The hart runs the task whose context it loaded. *)
Lemma switched_running s1 s2 l t t' rest :
  tasks_inv (t :: rest) s1 → (∀ x, x ∈ rest → state x ≠ Running) →
  same_task t t' → state t' = Running →
  k_mm s2 = k_mm s1 → k_next_id s2 = k_next_id s1 → k_tasks s2 = mk_SpinLock false l →
  l ≡ₚ t' :: rest → k_tp s2 = ctx_tp (context t) →
  csr_value (k_csrs s2) 0x180 = ctx_satp (context t) → in_kernel (k_csrs s2) →
  kernel_inv s2 ∧ running s2 t'.
Proof.
  intros Hinv Hnr Hsame Hst Em En Et Hl Htp Hsatp Hker.
  assert (tasks_inv (t' :: rest) s2) as Hinv2.
  { apply (tasks_inv_mm _ s1); [done..|]. by eapply tasks_inv_same. }
  assert (tasks_of s2 ≡ₚ t' :: rest) as Hl2 by (unfold tasks_of; by rewrite Et).
  pose proof Hinv2 as (Ht' & Hnot & _)%tasks_inv_cons. split.
  - apply kernel_inv_tasks. split; [by rewrite Et|]. by eapply tasks_inv_reorder; [symmetry; exact Hl2|].
  - destruct Hsame as (Eid & Ev & Ec). pose proof (tk_context _ _ Ht') as Hctx.
    rewrite <- Ec, Hctx in Htp, Hsatp. split; [|done| |exact Htp|exact Hsatp|exact Hker].
    + rewrite Hl2. by left.
    + intros other Ho Hso. rewrite Hl2 in Ho. apply elem_of_cons in Ho as [->|Ho]; [done|].
      by destruct (Hnr other Ho).
Qed.

Lemma run_next_task_wp s cur :
  kernel_inv s → leaving s cur →
  wp Task.run_next_task (λ r s', ∃ o l s1, requeued s cur o l s1 ∧ k_mm s' = k_mm s1 ∧
    scheduled s cur l r s') s.
Proof.
  intros Hi Hleave. unfold Task.run_next_task. apply wp_kbind_lift.
  eapply wp_intro; [apply lock_tasks_run, Hi|]. apply wp_kbind_lift. eapply wp_intro; [reflexivity|].
  change (data (proj (lock_tasks s) : SpinLock Tasks)) with (tasks_of s).
  apply wp_kbind_lift. eapply wp_mono; [by apply requeue_wp|].
  intros [o l] s1 Hrq. cbv beta iota. pose proof Hrq as [-> Hperm Hlast Hinv Hmem Hfree (Ec & Etp & Elk & En & Es)].
  assert (∀ t, t ∈ l → state t ≠ Running) as Hnr.
  { intros t Ht. apply Hleave. rewrite Hperm. apply elem_of_app. by right. }
  destruct (Task.get_next_task_id l) as [id|] eqn:Hnext.
  - destruct (get_next_task_id_Some _ _ Hnext) as (t & Hin & <- & Hready).
    destruct (find_task_in _ (task_id t) t (ti_ids _ _ Hinv) Hin eq_refl) as [i Hfind].
    apply wp_kbind_lift. eapply wp_mono; [by apply (take_task_io _ _ _ _ s1 Hfind)|].
    intros [o' rest] s2 (Hio2 & -> & Hp). cbv beta iota. cbn [expect].
    apply wp_kbind_lift. wp_step. apply wp_kbind_lift. eapply wp_mono; [apply read_time_ms_io|].
    intros time s3 Hio3. apply wp_kbind_lift. eapply wp_mono; [apply log_io|].
    intros [] s4 Hio4. apply wp_kbind_lift. eapply wp_mono; [apply record_run_start_io|].
    intros t' s5 (Hio5 & Hsame & Hst). cbn [state Tcb.set_state] in Hst.
    apply wp_kbind_lift. eapply wp_intro; [reflexivity|].
    apply wp_kbind_lift. eapply wp_intro; [reflexivity|].
    apply wp_kbind_lift. eapply wp_mono; [apply set_next_timer_io|].
    intros [] s6 (Hio6 & time' & Htr). eapply wp_intro; [apply switch_run|].
    set (s7 := set_tp _ _).
    assert (io s1 s5) as (Emm & Ec5 & _ & _ & En5)
      by exact (io_trans _ _ _ Hio2 (io_trans _ _ _ Hio3 (io_trans _ _ _ Hio4 Hio5))).
    destruct Hio6 as (Emm6 & Ec6 & _ & Ek6 & En6).
    assert (k_csrs s7 = <[0x180 := ctx_satp (context t)]> (k_csrs s)) as Ec7.
    { change (k_csrs s7) with (<[0x180 := ctx_satp (context t)]> (k_csrs s6)). f_equal.
      rewrite <- Ec, <- Ec5. exact Ec6. }
    assert (k_mm s7 = k_mm s1) as Em7 by (etransitivity; [exact Emm6|exact Emm]).
    exists (task_id <$> cur), l, s1. split; [done|]. split; [done|].
    split; [done|]. split; [done|].
    assert (tasks_inv (t :: rest) s1) as Hinv' by (by eapply tasks_inv_reorder).
    destruct (switched_running s1 s7 (vec_push rest t') t t' rest) as [Hi7 Hrun7]; [done| |done|done|done| | | |done| | |].
    { intros x Hx. apply Hnr. rewrite Hp. by right. }
    { etransitivity; [exact En6|exact En5]. }
    { etransitivity; [exact Ek6|]. done. }
    { unfold vec_push. symmetry. apply Permutation_cons_append. }
    { apply csr_value_insert_same. }
    { rewrite Ec7. destruct Hleave as (_ & _ & Hscr & Hvec).
      split; by rewrite csr_value_insert_ne by done. }
    exists t, t', rest. split_and!; [done|done|done| |done|done|done| |done| |by eexists _, _].
    + intros Hcur other Hoth Hr. destruct (Hlast t Hcur Hready) as [l0 ->].
      assert (rest ≡ₚ l0) as Hp0.
      { apply (Permutation_cons_inv (a := t)). rewrite <- Hp. symmetry. apply Permutation_cons_append. }
      rewrite (get_next_task_id_app l0 [t]) in Hnext; [|exists other; by rewrite <- Hp0].
      destruct (get_next_task_id_Some _ _ Hnext) as (t0 & Hin0 & E & _).
      pose proof (ti_ids _ _ Hinv') as Hnd. unfold ids in Hnd. simpl in Hnd. apply NoDup_cons in Hnd as [Hn _].
      apply Hn. rewrite <- E. apply list_elem_of_fmap. exists t0. by rewrite Hp0.
    + assert (tasks_of s7 = vec_push rest t') as ->.
      { unfold tasks_of. change (k_tasks s7) with (k_tasks s6). by rewrite Ek6. }
      unfold vec_push. symmetry. apply Permutation_cons_append.
    + intros n Hn. rewrite Ec7. by apply csr_value_insert_ne.
  - apply wp_kbind_lift. eapply wp_intro; [reflexivity|].
    apply wp_kbind_lift. eapply wp_mono; [apply log_io|]. intros [] s2 (Em2 & _).
    apply wp_kbind_lift. eapply wp_intro; [reflexivity|].
    exists (task_id <$> cur), l, s1. split; [done|]. split; [exact Em2|].
    split; [done|]. split; [by apply get_next_task_id_None|]. by eexists.
Qed.
End sched.

(** C11: [run_next_task], called in the kernel when no task is marked as running, always
    comes to an end.  The task that leaves stays listed if it is [Ready]; if it is over, it is
    dropped and exactly its pages are free again.  If a listed task is [Ready], one of
    them runs next - not the one that leaves unless it is the only one -, marked as
    [Running], with its page table in [satp] and every other CSR as it was, its trap context in
    [tp] and the timer set, and the kernel invariant holds.  Otherwise the machine powers off. *)
Theorem run_next_task_correct `{LinkerSymbols} `{TrapSymbols} `{Fmt} `{Log.EnvLog} (s : KS) cur :
  kernel_inv s → leaving s cur →
  ∃ r s' l, Task.run_next_task s = Ret r s' ∧
    tasks_of s ≡ₚ dropped cur ++ l ∧ scheduled s cur l r s' ∧ mem_of s' = mem_of s ∧
    ∀ p, ps_free s' p ↔ ps_free s p ∨ ∃ t, t ∈ dropped cur ∧ owns (vm_space t) p.
Proof.
  intros Hi Hl. destruct (wp_returns _ _ _ (run_next_task_wp s cur Hi Hl))
    as (r & s' & Hr & o & l & s1 & [_ Hperm _ _ Hmem Hfree _] & Em & Hsch).
  exists r, s', l. split_and!; [done..| |].
  - rewrite <- Hmem. unfold mem_of. cbn. by rewrite Em.
  - intros p. rewrite <- Hfree. unfold ps_free. cbn. by rewrite Em.
Qed.

(** The sample kernel after its running task was killed *)
Definition killed_task : TaskControlBlock := Tcb.set_state Killed task1.
Definition sample_killed : KS := upd (new [killed_task; task2]) sample_kernel.
Lemma sample_killed_inv : @kernel_inv sample_symbols sample_trap_symbols sample_killed.
Proof.
  apply kernel_inv_tasks. split; [done|].
  apply (tasks_inv_same _ task1); [done|]. apply (tasks_inv_mm _ sample_kernel); [done..|].
  by pose proof sample_kernel_inv as [_ ?]%kernel_inv_tasks.
Qed.
Lemma sample_killed_leaving : leaving sample_killed (Some killed_task).
Proof.
  split; [split; [left|done]|]. split; [|by split].
  change (tasks_of sample_killed) with [killed_task; task2].
  intros t Ht. rewrite !elem_of_cons, elem_of_nil in Ht. by destruct Ht as [->|[->|[]]].
Qed.

Lemma run_next_task_correct_witness :
  let fmt : Fmt := {| format := λ _ _, [] |} in
  let env : Log.EnvLog := {| Log.env_LOG := None |} in
  ∃ s', @Task.run_next_task fmt sample_killed = Ret (Switched (Some 1) 2 (kret tt)) s' ∧
    @ps_free KS _ _ (@page_source_laws_KS sample_symbols) s' 0x8070c.
Proof.
  intros fmt env.
  destruct (@run_next_task_correct sample_symbols sample_trap_symbols fmt env sample_killed
    (Some killed_task) sample_killed_inv sample_killed_leaving) as (r & s' & l & Hr & Hp & Hsch & _ & Hf).
  change (tasks_of sample_killed) with [killed_task; task2] in Hp.
  change (dropped (Some killed_task)) with [killed_task] in Hp, Hf.
  apply Permutation_cons_inv, Permutation_singleton_l in Hp as <-.
  exists s'. split.
  - rewrite Hr. destruct r as [|curr next k|b].
    + destruct Hsch.
    + destruct Hsch as (-> & -> & t & t' & rest & Hl & _ & -> & _).
      symmetry in Hl. assert (t = task2) as ->; [|reflexivity].
      apply (list_elem_of_singleton t task2). rewrite <- Hl. left.
    + destruct Hsch as (_ & Hn & _). exfalso. apply (Hn task2); [left|reflexivity].
  - apply Hf. right. exists killed_task. split; [left|]. right.
    exists (kernel_vpn 0x8070c), KernelVaOffset, 0x6. apply sample_has. right. split_and!; reflexivity.
Defined.
