(* ===== verification/Syscall.v ===== *)
(** * System calls: [src/os/src/syscall.rs], [syscall/io.rs], [syscall/mm.rs],
    [syscall/process.rs]

    The heap ([buddy_system_allocator]) and the layout the compiler gives [TaskInfo] are
    parameters. *)

From S2P Require Export Uaccess Utf8.
From S2P Require Import Spin.
From stdpp Require Import list.
Open Scope Z_scope.

(** Where [vec![0; count]] puts its bytes in a state, unless the heap is full *)
Class KernelHeap := { vec_alloc : KS → Z → option Z }.

(** [size_of::<TaskInfo>()], the bytes of a value, and the address of the local *)
Class TaskInfoLayout := {
  size_of_TaskInfo : Z;
  bytes_of_TaskInfo : TaskInfo → list Z;
  addr_of_task_info : KS → Z;
}.

Module Syscall.
Section ops.
Context `{LinkerSymbols} `{TrapSymbols} `{AppSymbols} `{XmasElf} `{Fmt}
  `{KernelHeap} `{TaskInfoLayout}.

Definition SYSCALL_WRITE : Z := 64.
Definition SYSCALL_MMAP : Z := 90.
Definition SYSCALL_MUNMAP : Z := 215.
Definition SYSCALL_EXIT : Z := 93.
Definition SYSCALL_YIELD : Z := 124.
Definition SYSCALL_TASK_INFO : Z := (1 .<< 63) .| 1.

(** A warning whose first argument is [get_current_task_id()]: the macro evaluates its
    arguments only if it logs. *)
Definition warn_current (fmt : string) (args : list fmt_arg) : M KS unit :=
  b ← Log.should_log Log.WARN;
  if (b : bool) then
    task_id_ ← Task.get_current_task_id;
    Log.warn fmt (FArg task_id_ :: args)
  else mret tt.

Definition log_failed_copy_from (src len failed_len : Z) : M KS unit :=
  warn_current "Task {:?}: Failed to copy from user, src={:#x}, len={}, failed_len={}"
    [FArg src; FArg len; FArg failed_len].
Definition log_failed_copy_to (dst len failed_len : Z) : M KS unit :=
  warn_current "Task {:?}: Failed to copy to user, dst={:#x}, len={}, failed_len={}"
    [FArg dst; FArg len; FArg failed_len].

(** ** [io.rs] *)

Definition FD_STDOUT : Z := 1.

(** [vec![0; count]]: an empty vector does not allocate. *)
Definition vec_zeroed (count : Z) : M KS Z :=
  if count =? 0 then mret 1
  else
    o ← gets (λ s, vec_alloc s count);
    dst ← expect o "memory allocation failed";
    for_each (range 0 count) (λ i, store_u8 (dst + i) 0);;
    mret dst.
Fixpoint read_bytes (ptr : Z) (n : nat) : M KS (list Z) :=
  match n with
  | O => mret []
  | Datatypes.S n => b ← load_u8 ptr; l ← read_bytes (ptr + 1) n; mret (b :: l)
  end.

Definition sys_write (fd buf count : Z) : M KS Z :=
  if negb (fd =? FD_STDOUT) then
    warn_current "Task {:?}: Unsupported file descriptor {}" [FArg fd];;
    mret (-1)
  else if negb (check_u_va_range buf count) then
    log_failed_copy_from buf count count;;
    mret (-1)
  else
    dst ← vec_zeroed count;
    failed_len ← Uaccess.copy_from_user buf dst count;
    if negb (failed_len =? 0) then
      log_failed_copy_from buf count failed_len;;
      mret (-1)
    else
      bytes ← read_bytes dst (Z.to_nat count);
      str ← expect (utf8_chars bytes) "called `Result::unwrap()` on an `Err` value";
      write_str str;;
      mret (as_isize count).

(** ** [mm.rs] *)

Definition PROT_EXEC : Z := 1.
Definition PROT_READ : Z := 2.
Definition PROT_WRITE : Z := 4.
Definition ALL_PROT_FLAGS : Z := (PROT_EXEC .| PROT_READ) .| PROT_WRITE.

Definition to_permissions (prot : Z) : Z :=
  let result := PERMISSION_U in
  let result := if negb (prot .& PROT_READ =? 0) then result .| PERMISSION_R else result in
  let result := if negb (prot .& PROT_WRITE =? 0) then result .| PERMISSION_W else result in
  if negb (prot .& PROT_EXEC =? 0) then result .| PERMISSION_X else result.

Definition mmap (addr len prot : Z) : M KS Z :=
  if negb (check_u_va_range addr len) then mret (-1)
  else if negb (prot .& .~ ALL_PROT_FLAGS =? 0) then mret (-1)
  else
    task_id_ ← Task.get_current_task_id;
    result ← Task.update_tcb task_id_ (λ tcb,
      start_vpn ← VPN.from_va addr;
      end_vpn ← VPN.from_va (((addr ⊕ len) ⊕ PAGE_SIZE_BYTES) ⊖ 1);
      let permissions := to_permissions prot in
      let '(result, v) :=
        Space.add_new_area (vm_space tcb) start_vpn end_vpn Anonymous permissions in
      mret (result, Tcb.set_vm_space v tcb));
    mret (if is_ok result then 0 else -1).

(** [sfence.vma] at the end has nothing to do: the model has no TLB. *)
Definition munmap (addr len : Z) : M KS Z :=
  if negb (check_u_va_range addr len) then mret (-1)
  else if len =? 0 then mret 0
  else
    task_id_ ← Task.get_current_task_id;
    result ← Task.update_tcb task_id_ (λ tcb,
      start_vpn ← VPN.from_va addr;
      end_vpn ← VPN.from_va (((addr ⊕ len) ⊕ PAGE_SIZE_BYTES) ⊖ 1);
      '(result, v) ← Space.unmap (vm_space tcb) start_vpn end_vpn;
      mret (result, Tcb.set_vm_space v tcb));
    mret (if is_ok result then 0 else -1).

(** ** [process.rs] *)

(** The current task leaves the processor in state [new]. *)
Definition leave (new : TaskState) : M KS unit :=
  state ← Task.exchange_current_task_state Running new;
  assert_or (is_ok state) "Expected running".

Definition sys_exit (exit_code : Z) : K Z :=
  task_id_ ↤ Task.get_current_task_id;
  '_ ↤ leave Exited;
  '_ ↤ Log.info "Task {:?}: Exited with code {}" [FArg task_id_; FArg exit_code];
  '_ ⇐ Task.run_next_task;
  kret exit_code.

Definition sys_yield : K Z :=
  task_id_ ↤ Task.get_current_task_id;
  '_ ↤ leave Ready;
  '_ ↤ Log.info "Task {:?}: Yield" [FArg task_id_];
  '_ ⇐ Task.run_next_task;
  kret 0.

Definition sys_task_info (task_id_ data : Z) : M KS Z :=
  let dst := data in
  let len := size_of_TaskInfo in
  if negb (check_u_va_range dst len) then
    log_failed_copy_to dst len len;;
    mret (-1)
  else
    task_info ← Task.get_task_info task_id_;
    match task_info with
    | None => mret (-1)
    | Some task_info =>
        src ← gets addr_of_task_info;
        for_each (imap (λ i b, (src + Z.of_nat i, b)) (bytes_of_TaskInfo task_info))
          (λ '(a, b), store_u8 a b);;
        failed_len ← Uaccess.copy_to_user src dst len;
        if failed_len =? 0 then mret 0
        else
          log_failed_copy_to dst len failed_len;;
          mret (-1)
    end.

(** ** [syscall.rs] *)

Definition syscall_handler (syscall_id arg0 arg1 arg2 : Z) : K Z :=
  if syscall_id =? SYSCALL_WRITE then klift (sys_write arg0 arg1 arg2)
  else if syscall_id =? SYSCALL_MMAP then klift (mmap arg0 arg1 arg2)
  else if syscall_id =? SYSCALL_MUNMAP then klift (munmap arg0 arg1)
  else if syscall_id =? SYSCALL_EXIT then sys_exit (as_isize arg0)
  else if syscall_id =? SYSCALL_YIELD then sys_yield
  else if syscall_id =? SYSCALL_TASK_INFO then klift (sys_task_info arg0 arg1)
  else klift (panic "Unknown syscall").
End ops.
End Syscall.
