(* ===== verification/SyscallProps.v ===== *)
(** * The memory system calls

    [mmap] and [munmap] of [src/os/src/syscall/mm.rs] on the kernel state, and the page
    faults that fill what [mmap] reserved. *)

From S2P Require Export KSample Syscall.
From S2P Require Import Spin PageAlloc Regs.
From stdpp Require Import list.
Open Scope Z_scope.

Section mem_syscalls.
Context `{LinkerSymbols} `{TrapSymbols}.
Implicit Types (s : KS) (tcb : TaskControlBlock).

(** The pages of the byte range, rounded outwards *)
Definition first_page (addr : Z) : Z := addr / 4096.
Definition end_page (addr len : Z) : Z := (addr + len + 4095) / 4096.

Lemma checked_pages addr len :
  is_usize addr → is_usize len → check_u_va_range addr len = true →
  0 <= first_page addr <= end_page addr len ∧ end_page addr len <= 2 ^ 26.
Proof.
  intros Ha Hl Hc. apply check_u_va_range_iff in Hc; [|done..].
  unfold first_page, end_page, is_usize in *. rewrite user_space_end_eq in Hc. zlia.
Qed.

Lemma from_va_pages addr len s (B : Type) (f : Z → Z → M KS B) Q :
  is_usize addr → is_usize len → check_u_va_range addr len = true →
  wp (f (first_page addr) (end_page addr len)) Q s →
  wp (start_vpn ← VPN.from_va addr;
      end_vpn ← VPN.from_va (((addr ⊕ len) ⊕ PAGE_SIZE_BYTES) ⊖ 1);
      f start_vpn end_vpn) Q s.
Proof.
  intros Ha Hl Hc Hf. destruct (user_range_pages addr len s Ha Hl Hc) as [E1 E2].
  apply wp_bind. eapply wp_intro; [exact E1|]. apply wp_bind. by eapply wp_intro; [exact E2|].
Qed.

(** [prot] uses known bits only. *)
Lemma prot_known prot :
  is_usize prot → (prot .& .~ Syscall.ALL_PROT_FLAGS = 0 ↔ prot < 8).
Proof.
  intros Hp. change (.~ Syscall.ALL_PROT_FLAGS) with (.~ (2 ^ 3 - 1)).
  split.
  - intros E. rewrite (land_not_mask prot 3) in E by (done || lia). unfold is_usize in Hp. zlia.
  - intros Hlt. rewrite (land_not_mask prot 3) by (done || lia). unfold is_usize in Hp. zlia.
Qed.

Lemma to_permissions_ok prot :
  0 <= prot < 8 →
  is_usize (Syscall.to_permissions prot) ∧
  Syscall.to_permissions prot .& .~ ALL_PERMISSION_FLAGS = 0.
Proof.
  intros Hp.
  assert (forallb (λ p, bool_decide (is_usize (Syscall.to_permissions p)) &&
    (Syscall.to_permissions p .& .~ ALL_PERMISSION_FLAGS =? 0)) (seqZ 0 8) = true) as Hall
    by (vm_compute; reflexivity).
  rewrite forallb_forall in Hall. specialize (Hall prot).
  rewrite <- list_elem_of_In, elem_of_seqZ in Hall. specialize (Hall ltac:(lia)).
  by apply andb_true_iff in Hall as [?%bool_decide_eq_true ?%Z.eqb_eq].
Qed.

(** A step that changes no memory *)
Lemma same_mem_space_step s tcb v :
  vm_inv (vm_space tcb) s → vm_inv v s → root_pgt v = root_pgt (vm_space tcb) →
  same_ends (vm_space tcb) v →
  (∀ u t pm p, has (areas v) u t pm (Some p) ↔ has (areas (vm_space tcb)) u t pm (Some p)) →
  space_step s tcb v s.
Proof.
  intros Hi Hi' Hr Hends Hview. apply space_step_keeps; [done|done| |done|].
  - split; [done|tauto| |].
    + intros p [Hp|(u & t & pm & Hh)]; left; [left; by rewrite <- Hr|].
      right. exists u, t, pm. by apply Hview.
    + intros p (q & Hq & Hn). left. exists q. by rewrite <- Hr.
  - intros u pm p _ Hh. split; [by apply Hview|done].
Qed.

(** The update that changes nothing *)
Lemma release_same s tcb i :
  locked (k_tasks s) = false → tasks_of s !! i = Some tcb →
  release_tasks (<[i := Tcb.set_vm_space (vm_space tcb) tcb]> (tasks_of s)) (lock_tasks s) = s.
Proof.
  intros Hl Hi. assert (Tcb.set_vm_space (vm_space tcb) tcb = tcb) as -> by (by destruct tcb).
  rewrite list_insert_id by done. destruct s as [? ? ? [lk d] ? ? ? ?]. simpl in Hl. by subst lk.
Qed.

(** What [mmap] requires *)
Definition mmap_accepts tcb (addr len prot : Z) : Prop :=
  check_u_va_range addr len = true ∧ prot < 8 ∧ first_page addr < end_page addr len ∧
  ∀ u t pm o, first_page addr <= u < end_page addr len → ¬ has (areas (vm_space tcb)) u t pm o.

(** What it did, with the result [r] *)
Definition mmap_did s tcb (addr len prot r : Z) s' : Prop :=
  (r = 0 ∧ mmap_accepts tcb addr len prot ∧
   ∃ v, stepped s tcb v s' ∧ running s' (Tcb.set_vm_space v tcb) ∧ k_mm s' = k_mm s ∧
     ∀ u t pm o, has (areas v) u t pm o ↔
       has (areas (vm_space tcb)) u t pm o ∨
       (first_page addr <= u < end_page addr len ∧ t = Anonymous ∧
        pm = Syscall.to_permissions prot ∧ o = None)) ∨
  (r = -1 ∧ ¬ mmap_accepts tcb addr len prot ∧ s' = s).

Lemma mmap_wp s tcb addr len prot :
  kernel_inv s → running s tcb → is_usize addr → is_usize len → is_usize prot →
  wp (Syscall.mmap addr len prot) (λ r s', mmap_did s tcb addr len prot r s') s.
Proof.
  intros Hi Hrun Ha Hl Hp. unfold Syscall.mmap.
  destruct (check_u_va_range addr len) eqn:Hc; cbn [negb].
  2:{ wp_step. right. split_and!; [done| |done]. intros (E & _). congruence. }
  destruct (Z.eqb_spec (prot .& .~ Syscall.ALL_PROT_FLAGS) 0) as [Hpr|Hpr]; cbn [negb].
  2:{ wp_step. right. split_and!; [done| |done]. intros (_ & E & _). apply Hpr. by apply prot_known. }
  apply prot_known in Hpr; [|done].
  assert (0 <= prot) as Hp0 by (unfold is_usize in Hp; lia).
  destruct (to_permissions_ok prot ltac:(lia)) as [Hpu Hpk].
  destruct (checked_pages addr len Ha Hl Hc) as [Hpg Hend].
  pose proof (rn_in _ _ Hrun) as Hin. pose proof (running_space _ _ Hi Hrun) as Hsp.
  pose proof (add_new_area_correct (vm_space tcb) s (first_page addr) (end_page addr len)
    (Syscall.to_permissions prot) Hsp (proj1 Hpg) Hend Hpu) as Hadd.
  destruct (Space.add_new_area _ _ _ _ _) as [[[]|e] v] eqn:Eadd;
    wp_step; (eapply wp_intro; [by apply current_task_run|]); wp_step.
  - destruct Hadd as (Hv & Hlt & _ & Hroot & Hno & Hview).
    apply update_space_wp; [done|done|]. cbv beta. apply from_va_pages; [done..|]. cbv beta zeta.
    rewrite Eadd. wp_step. exists v. split_and!; [done|apply only_mm_refl| |].
    { apply (space_step_pre s); [done|]. apply (space_step_mm s tcb v s); [done|].
      apply same_mem_space_step; [done|done|done| |].
      - unfold Space.add_new_area in Eadd. by repeat case_match; simplify_eq.
      - intros u t pm p. rewrite Hview. naive_solver. }
    intros s' Em Hst. wp_step. left. split_and!; [done|by split_and!|].
    exists v. split_and!; [done|by eapply stepped_running|done|done].
  - destruct Hadd as [-> Hwhy].
    destruct (find_task_in _ (task_id tcb) tcb (ki_ids _ Hi) Hin eq_refl) as [i Hfind].
    pose proof (find_task_Some _ _ _ _ Hfind) as [Hix _].
    apply (update_tcb_run s tcb i); [apply Hi|done|]. cbv beta.
    apply from_va_pages; [done..|]. cbv beta zeta. rewrite Eadd. wp_step.
    rewrite (release_same s tcb i) by (done || apply Hi). wp_step. right. split_and!; [done| |done].
    intros (_ & _ & Hlt & Hno).
    destruct Hwhy as [[_ ?]|[[_ ?]|[_ (u & t & pm & o & Hu & Hh)]]]; [lia|done|].
    by apply (Hno u t pm o).
Qed.

(** C15: [mmap] of the running task always returns.  It gives 0 exactly when the byte
    range lies in user space, covers a page, asks for known protection bits and meets
    no existing area; the pages of the range, rounded outwards, are then reserved with
    the permissions of [prot], without a frame, and no byte of memory changes.
    Otherwise it gives -1 and changes nothing at all. *)
Theorem mmap_correct s tcb addr len prot :
  kernel_inv s → running s tcb → is_usize addr → is_usize len → is_usize prot →
  ∃ r s', Syscall.mmap addr len prot s = Ret r s' ∧ mmap_did s tcb addr len prot r s'.
Proof. intros. by apply wp_returns, mmap_wp. Qed.
End mem_syscalls.

Lemma mmap_correct_witness :
  ∃ s', Syscall.mmap 0x100000 0x1800 6 sample_kernel = Ret 0 s' ∧
    ∃ v, @stepped sample_symbols sample_trap_symbols sample_kernel task1 v s' ∧
      has (areas v) 0x101 Anonymous 0x16 None.
Proof.
  destruct (@mmap_correct sample_symbols sample_trap_symbols sample_kernel task1 0x100000 0x1800 6
    sample_kernel_inv sample_running) as (r & s' & Hr & [(-> & _ & v & Hst & _ & _ & Hv)|(_ & Hno & _)]).
  - vm_compute. split; congruence.
  - vm_compute. split; congruence.
  - vm_compute. split; congruence.
  - exists s'. split; [exact Hr|]. exists v. split; [exact Hst|]. apply Hv. right.
    split; [vm_compute; split; congruence|]. split; [reflexivity|]. split; reflexivity.
  - exfalso. apply Hno. split; [vm_compute; reflexivity|]. split; [reflexivity|].
    split; [reflexivity|]. intros u t pm o Hu Hh.
    change (first_page 0x100000) with 0x100 in Hu. change (end_page 0x100000 0x1800) with 0x102 in Hu.
    apply sample_has in Hh as [(? & _)|(-> & _)]; [lia|].
    pose proof (kernel_vpn_high 0x8070c ltac:(lia)). lia.
Defined.

Section unmap.
Context `{LinkerSymbols} `{TrapSymbols}.
Implicit Types (s : KS) (tcb : TaskControlBlock).

(** What [munmap] did, with the result [r] *)
Definition munmap_did s tcb (addr len r : Z) s' : Prop :=
  if negb (check_u_va_range addr len) then r = -1 ∧ s' = s
  else r = 0 ∧
    let gone u := len ≠ 0 ∧ first_page addr <= u < end_page addr len in
    ∃ v, stepped s tcb v s' ∧ running s' (Tcb.set_vm_space v tcb) ∧
      (∀ u t pm o, has (areas v) u t pm o ↔ has (areas (vm_space tcb)) u t pm o ∧ ¬ gone u) ∧
      (∀ p, ps_free s' p ↔
         ps_free s p ∨ ∃ u t pm, gone u ∧ has (areas (vm_space tcb)) u t pm (Some p)) ∧
      (∀ u t pm p, has (areas v) u t pm (Some p) → page_same p (mem_of s) (mem_of s')) ∧
      ∀ va, 0 <= va < 2 ^ 38 →
        (gone (va / 4096) → mmu_translate (mem_of s') (rp_ppn (root_pgt v)) va = None) ∧
        (¬ gone (va / 4096) → mmu_translate (mem_of s') (rp_ppn (root_pgt v)) va =
           mmu_translate (mem_of s) (rp_ppn (root_pgt (vm_space tcb))) va).

Lemma munmap_wp s tcb addr len :
  kernel_inv s → running s tcb → is_usize addr → is_usize len →
  wp (Syscall.munmap addr len) (λ r s', munmap_did s tcb addr len r s') s.
Proof.
  intros Hi Hrun Ha Hl. unfold Syscall.munmap, munmap_did.
  destruct (check_u_va_range addr len) eqn:Hc; cbn [negb]; [|by wp_step].
  pose proof (rn_in _ _ Hrun) as Hin. pose proof (running_space _ _ Hi Hrun) as Hsp.
  destruct (Z.eqb_spec len 0) as [->|Hlen].
  { wp_step. split; [done|]. exists (vm_space tcb). split_and!.
    - by apply stepped_refl.
    - assert (Tcb.set_vm_space (vm_space tcb) tcb = tcb) as -> by (by destruct tcb). done.
    - intros. split; [intros ?; split; [done|by intros [[] _]]|by intros [? _]].
    - intros p. split; [by left|]. by intros [?|(u & t & pm & [[] _] & _)].
    - done.
    - intros va Hva. split; [by intros [[] _]|done]. }
  destruct (checked_pages addr len Ha Hl Hc) as [Hpg Hend].
  wp_step. eapply wp_intro; [by apply current_task_run|]. wp_step.
  apply update_space_wp; [done|done|]. cbv beta. apply from_va_pages; [done..|].
  assert (vm_inv (vm_space tcb) (lock_tasks s)) as Hsp' by (by apply (vm_inv_mm _ s)).
  wp_step. eapply wp_mono; [by apply unmap_at|]. intros [r v] s1 (-> & Hmm & Hcut).
  wp_step. exists v. split_and!; [done|done|by eapply cut_space_step|].
  intros s' Em Hst. wp_step. split; [done|]. exists v.
  pose proof (vm_inv_mm v _ s' Em (cut_inv _ _ _ _ _ _ Hcut)) as Hv.
  assert (∀ u t pm p, has (areas v) u t pm (Some p) → page_same p (mem_of s) (mem_of s')) as Hpages.
  { intros u t pm p Hh. pose proof (cut_pages _ _ _ _ _ _ u t pm p Hsp' Hcut Hh) as Hs.
    unfold mem_of in *. cbn in *. by rewrite Em. }
  destruct Hcut as [_ _ _ Hhas Hfree _ _].
  split_and!; [done|by eapply stepped_running|intros; rewrite Hhas; tauto| |exact Hpages|].
  - intros p. unfold ps_free in *. cbn in *. rewrite Em, Hfree. naive_solver.
  - intros va Hva. split; intros Hg.
    + apply user_translate_none; [done..|]. intros t pm p [_ Hn]%Hhas. apply Hn, Hg.
    + apply user_translate_same; [done..|]. intros t pm p. rewrite Hhas. tauto.
Qed.
(** C16: [munmap] of the running task always returns: -1, without any effect, exactly
    when the byte range is not in user space; otherwise 0.  Every page that the range
    touches has then left the task's space, with its frame given back and nothing else;
    the pages that stay keep their bytes,
    no address of the range translates any more, every other user address of the task
    translates as before, and no other task notices. *)
Theorem munmap_correct s tcb addr len :
  kernel_inv s → running s tcb → is_usize addr → is_usize len →
  ∃ r s', Syscall.munmap addr len s = Ret r s' ∧ munmap_did s tcb addr len r s'.
Proof. intros. by apply wp_returns, munmap_wp. Qed.
End unmap.

Lemma munmap_correct_witness :
  ∃ s', Syscall.munmap 0x12000 0x1800 sample_kernel = Ret 0 s' ∧
    ∃ v, @stepped sample_symbols sample_trap_symbols sample_kernel task1 v s' ∧
      ¬ has (areas v) 0x13 Anonymous 0x16 None ∧ has (areas v) 0x14 Anonymous 0x16 None.
Proof.
  destruct (@munmap_correct sample_symbols sample_trap_symbols sample_kernel task1 0x12000 0x1800
    sample_kernel_inv sample_running) as (r & s' & Hr & Hpost).
  - vm_compute. split; congruence.
  - vm_compute. split; congruence.
  - unfold munmap_did in Hpost.
    replace (check_u_va_range 0x12000 0x1800) with true in Hpost by (vm_compute; reflexivity).
    destruct Hpost as (-> & v & Hst & _ & Hv & _). exists s'. split; [exact Hr|].
    exists v. split; [exact Hst|]. split.
    + intros Hh. apply Hv in Hh as [_ Hn]. apply Hn. split; [lia|vm_compute; split; congruence].
    + apply Hv. split.
      * apply sample_has. left. split; [lia|]. split; [reflexivity|]. split; reflexivity.
      * intros [_ Hg]. change (end_page 0x12000 0x1800) with 0x14 in Hg. lia.
Defined.
