(* ===== verification/IoProps.v ===== *)
(** * [sys_write] is correct

    [src/os/src/syscall/io.rs]: from the user's buffer to the console. *)

From S2P Require Export UaccessProps SchedProps Syscall.
From S2P Require Import Spin PageAlloc Regs Console Utf8.
From stdpp Require Import list.
Open Scope Z_scope.

(** The bytes a task sees at [[va, va + len)], if it may read them all *)
Definition user_bytes (s : KS) (self : VMSpace) (va len : Z) : option (list Z) :=
  mapM (λ j, user_byte s self PERMISSION_R (va + j)) (seqZ 0 len).

Lemma mapM_all_Some {A B} (f : A → option B) (g : A → B) l :
  (∀ x, x ∈ l → f x = Some (g x)) → mapM f l = Some (g <$> l).
Proof.
  intros Hl. apply mapM_Some_2. apply Forall2_fmap_r. apply Forall_Forall2_diag.
  by apply Forall_forall.
Qed.
Lemma mapM_some_None {A B} (f : A → option B) l x : x ∈ l → f x = None → mapM f l = None.
Proof. intros Hx Hf. apply mapM_None_2, Exists_exists. by exists x. Qed.

Section io.
Context `{LinkerSymbols} `{TrapSymbols} `{Fmt} `{Log.EnvLog} `{KernelHeap}.
Implicit Types (s : KS) (tcb : TaskControlBlock).

Lemma read_bytes_run ptr n s :
  Syscall.read_bytes ptr n s =
  Ret ((λ a, read_u8 (mem_of s) (a - KERNEL_VA_OFFSET)) <$> seqZ ptr (Z.of_nat n)) s.
Proof.
  revert ptr. induction n as [|n IH]; intros ptr; [done|].
  cbn [Syscall.read_bytes]. erewrite bind_run by done. erewrite bind_run by apply IH.
  rewrite (seqZ_cons ptr) by lia. replace (Z.pred (Z.of_nat (Datatypes.S n))) with (Z.of_nat n) by lia.
  done.
Qed.

(** The zeroed vector: private writes only *)
Lemma zero_fill_wp s tcb dst len :
  kernel_inv s → running s tcb → kernel_buffer s dst len → 0 <= len →
  wp (for_each (range 0 len) (λ i, store_u8 (dst + i) 0)) (λ _ s',
    advanced (buffer_page dst len) s tcb (vm_space tcb) s' ∧ running s' tcb ∧
    same_view s (vm_space tcb) s' (vm_space tcb) ∧ k_sbi s' = k_sbi s) s.
Proof.
  intros Hi Hrun Hbuf Hlen. assert (Tcb.set_vm_space (vm_space tcb) tcb = tcb) as Et by (by destruct tcb).
  apply (wp_for_each _ _ (λ _ s', advanced (buffer_page dst len) s tcb (vm_space tcb) s' ∧ running s' tcb ∧
    same_view s (vm_space tcb) s' (vm_space tcb) ∧ k_sbi s' = k_sbi s)).
  { split_and!; [apply advanced_refl; [done|apply Hrun]|done|done|done]. }
  intros done_ x todo s1 E (Hav & Hrun1 & Hview & Hsbi).
  assert (0 <= x < len) as Hx.
  { apply elem_of_range. rewrite E. apply elem_of_app. right. left. }
  pose proof (av_inv _ _ _ _ _ Hav) as Hi1. pose proof (running_space _ _ Hi1 Hrun1) as Hv.
  pose proof (kernel_buffer_advanced _ _ _ _ _ _ _ Hav Hbuf) as Hbuf1.
  pose proof (kernel_write s1 dst len (dst + x) 0 (pi_ok _ _ (vi_pgt _ _ Hv)) Hbuf1 ltac:(lia)) as Hw.
  assert (buffer_page dst len ((dst + x - KERNEL_VA_OFFSET) / 4096)) as Hb by (exists (dst + x); split; [lia|done]).
  pose proof (kb_private _ _ _ Hbuf1 _ Hb) as Hp.
  unfold store_u8. wp_step. set (s2 := upd_mem _ s1) in *.
  assert (advanced (buffer_page dst len) s1 tcb (vm_space tcb) s2) as Hav2.
  { eapply advanced_private_write; [done|apply Hrun1|exact Hp|exact Hb|exact Hw]. }
  split_and!.
  - eapply advanced_trans; [exact Hav|]. by rewrite Et.
  - rewrite <- Et. by apply (advanced_running (buffer_page dst len) s1 tcb).
  - eapply same_view_trans; [exact Hview|]. apply (undisturbed_view _ s1 s2 Hv).
    eapply wrote_private_undisturbed; [done|exact Hw|exact Hp|apply Hrun1].
  - exact Hsbi.
Qed.

(** [vec![0; count]], when the heap has room at [dst] *)
Lemma vec_zeroed_wp s tcb dst count :
  kernel_inv s → running s tcb → 0 <= count → (count ≠ 0 → vec_alloc s count = Some dst) →
  kernel_buffer s dst count →
  wp (Syscall.vec_zeroed count) (λ d s', d = (if count =? 0 then 1 else dst) ∧
    advanced (buffer_page dst count) s tcb (vm_space tcb) s' ∧ running s' tcb ∧
    same_view s (vm_space tcb) s' (vm_space tcb) ∧ k_sbi s' = k_sbi s) s.
Proof.
  intros Hi Hrun Hc Hal Hbuf. unfold Syscall.vec_zeroed. destruct (Z.eqb_spec count 0) as [->|Hne].
  - wp_step. split_and!; [done|apply advanced_refl; [done|apply Hrun]|done|done|done].
  - wp_step. wp_step. rewrite Hal by done. wp_step. cbn [expect]. wp_step. wp_step.
    eapply wp_mono; [by apply zero_fill_wp|]. intros [] s1 Hpost. by wp_step.
Qed.

(** A message about the current task only touches the console. *)
Lemma warn_current_io s tcb fmt args :
  kernel_inv s → running s tcb → wp (Syscall.warn_current fmt args) (λ _ s', io s s') s.
Proof.
  intros Hi Hrun. unfold Syscall.warn_current. wp_step. unfold Log.should_log. wp_step.
  case_match; [|by wp_step]. wp_step. eapply wp_intro; [by apply current_task_run|]. apply log_io.
Qed.

Lemma kernel_buffer_empty s d : kernel_buffer s d 0.
Proof. split; [lia|]. intros p (a & Ha & _). lia. Qed.
(** What [sys_write] of a user range to [stdout] did with the memory [dst] of the heap *)
Definition printed_from s tcb buf count dst (o : outcome KS Z) : Prop :=
  let bytes := user_bytes s (vm_space tcb) buf count in
  match o with
  | Ret r s' =>
      (∃ v, advanced (buffer_page dst count) s tcb v s' ∧ running s' (Tcb.set_vm_space v tcb) ∧
         same_view s (vm_space tcb) s' v) ∧
      ((r = count ∧ ∃ bs str, bytes = Some bs ∧ utf8_chars bs = Some str ∧
          sbi_trace (k_sbi s') = sbi_trace (k_sbi s) ++ (ConsolePutchar <$> str)) ∨
       (r = -1 ∧ (bytes = None ∨ nearly_full s')))
  | Panic _ => ∃ bs, bytes = Some bs ∧ utf8_chars bs = None
  | Spin => False
  end.

Lemma stdout_run s tcb buf count dst :
  uaccess_labels → kernel_inv s → running s tcb → is_usize buf → is_usize count →
  check_u_va_range buf count = true →
  (count ≠ 0 → vec_alloc s count = Some dst) → kernel_buffer s dst count →
  printed_from s tcb buf count dst (Syscall.sys_write Syscall.FD_STDOUT buf count s).
Proof.
  intros Hlab Hi Hrun Hbu Hcu Hrange Hal Hbuf. unfold printed_from.
  set (bytes := user_bytes s (vm_space tcb) buf count).
  pose proof Hrange as (_ & Hend & _)%check_u_va_range_iff; [|done..].
  unfold is_usize in Hbu, Hcu. pose proof user_space_end_eq as Eend.
  unfold Syscall.sys_write. change (negb (Syscall.FD_STDOUT =? Syscall.FD_STDOUT)) with false.
  rewrite Hrange. cbn [negb].
  destruct (wp_returns _ _ _ (vec_zeroed_wp s tcb dst count Hi Hrun ltac:(lia) Hal Hbuf))
    as (d & s1 & Hr1 & Hd & Hav1 & Hrun1 & Hview1 & Hsbi1).
  erewrite bind_run by exact Hr1. clear Hr1.
  assert (kernel_buffer s1 d count) as Hbuf1.
  { subst d. destruct (Z.eqb_spec count 0) as [->|]; [apply kernel_buffer_empty|].
    by eapply kernel_buffer_advanced. }
  destruct (wp_returns _ _ _ (copy_from_user_wp s1 tcb buf d count Hlab (av_inv _ _ _ _ _ Hav1) Hrun1
    ltac:(lia) ltac:(lia) Hend Hbuf1)) as (n & s2 & Hr2 & v & Hc).
  erewrite bind_run by exact Hr2. clear Hr2.
  assert (Tcb.set_vm_space (vm_space tcb) tcb = tcb) as Etcb by (by destruct tcb).
  assert (advanced (buffer_page dst count) s tcb v s2) as Hav2.
  { eapply advanced_trans; [exact Hav1|]. rewrite Etcb. subst d.
    destruct (Z.eqb_spec count 0) as [->|]; [|apply Hc].
    apply (advanced_weaken (buffer_page 1 0)); [|apply Hc]. intros p (a & Ha & _). lia. }
  assert (same_view s (vm_space tcb) s2 v) as Hview2
    by (eapply same_view_trans; [exact Hview1|apply Hc]).
  assert (∀ j, 0 <= j < count →
    user_byte s1 (vm_space tcb) PERMISSION_R (buf + j) = user_byte s (vm_space tcb) PERMISSION_R (buf + j)) as Eb.
  { intros j Hj. apply Hview1; [by left|lia]. }
  pose proof (co_n _ _ _ _ _ _ _ _ Hc) as Hn.
  destruct (Z.eqb_spec n 0) as [->|Hne]; cbn [negb].
  - erewrite bind_run by apply read_bytes_run. rewrite Z2Nat.id by lia.
    set (bs := _ <$> seqZ d count).
    assert (bytes = Some bs) as Ebs.
    { unfold bytes, user_bytes, bs. rewrite <- (Z.add_0_r d), <- fmap_add_seqZ, <- list_fmap_compose.
      apply mapM_all_Some. intros j Hj%elem_of_seqZ. rewrite <- Eb by lia.
      by rewrite (co_bytes _ _ _ _ _ _ _ _ Hc) by lia. }
    rewrite Ebs. destruct (utf8_chars bs) as [str|] eqn:Estr; [|by exists bs].
    erewrite bind_run by done. erewrite bind_run by apply write_str_run.
    assert (quiet s2 (printed str s2)) as Hq by done. split.
    + exists v. split; [by apply (advanced_quiet _ s s s2)|]. split.
      * destruct (co_running _ _ _ _ _ _ _ _ Hc) as [? ? ? ? ?]. by split.
      * eapply same_view_trans; [exact Hview2|by apply quiet_view].
    + left. split; [apply as_isize_small; lia|]. exists bs, str. split; [done|]. split; [done|].
      change (sbi_trace (k_sbi (printed str s2))) with (sbi_trace (k_sbi s2) ++ (ConsolePutchar <$> str)).
      by rewrite (co_console _ _ _ _ _ _ _ _ Hc) by done; rewrite Hsbi1.
  - destruct (wp_returns _ _ _ (warn_current_io s2 (Tcb.set_vm_space v tcb)
      "Task {:?}: Failed to copy from user, src={:#x}, len={}, failed_len={}"
      [FArg buf; FArg count; FArg n] (av_inv _ _ _ _ _ Hav2) (co_running _ _ _ _ _ _ _ _ Hc)))
      as ([] & s3 & Hr3 & Hio).
    erewrite bind_run by exact Hr3. pose proof (io_quiet _ _ Hio) as Hq. split.
    + exists v. split; [by apply (advanced_quiet _ s s s2)|]. split.
      * destruct (co_running _ _ _ _ _ _ _ _ Hc) as [? ? ? ? ?], Hio as (_ & Ec & Et & Ek & _).
        split; unfold tasks_of in *; rewrite ?Ek, ?Et, ?Ec; done.
      * eapply same_view_trans; [exact Hview2|by apply quiet_view].
    + right. split; [done|]. destruct (co_short _ _ _ _ _ _ _ _ Hc Hne) as [Hnone|[p Hp]].
      * left. eapply (mapM_some_None _ _ (count - n)); [apply elem_of_seqZ; lia|].
        by rewrite <- Eb by lia.
      * right. exists p. intros q. rewrite (quiet_free s2 s3) by done. apply Hp.
Qed.

(** The pages of the vector *)
Definition heap_page s (count p : Z) : Prop :=
  count ≠ 0 ∧ ∃ dst, vec_alloc s count = Some dst ∧ buffer_page dst count p.

(** The calls that get as far as the copy *)
Definition write_accepted (fd buf count : Z) : Prop :=
  fd = Syscall.FD_STDOUT ∧ check_u_va_range buf count = true.

(** What [sys_write] did *)
Definition sys_write_did s tcb fd buf count (o : outcome KS Z) : Prop :=
  let bytes := user_bytes s (vm_space tcb) buf count in
  let heap_full := count ≠ 0 ∧ vec_alloc s count = None in
  match o with
  | Ret r s' =>
      ¬ (write_accepted fd buf count ∧ heap_full) ∧
      (∃ v, advanced (heap_page s count) s tcb v s' ∧ running s' (Tcb.set_vm_space v tcb) ∧
         same_view s (vm_space tcb) s' v) ∧
      ((r = count ∧ write_accepted fd buf count ∧
          ∃ bs str, bytes = Some bs ∧ utf8_chars bs = Some str ∧
          sbi_trace (k_sbi s') = sbi_trace (k_sbi s) ++ (ConsolePutchar <$> str)) ∨
       (r = -1 ∧ (¬ write_accepted fd buf count ∨ bytes = None ∨ nearly_full s')))
  | Panic _ => write_accepted fd buf count ∧
      (heap_full ∨ ∃ bs, bytes = Some bs ∧ utf8_chars bs = None)
  | Spin => False
  end.

Lemma sys_write_refused s tcb fd buf count :
  kernel_inv s → running s tcb → ¬ write_accepted fd buf count →
  sys_write_did s tcb fd buf count (Syscall.sys_write fd buf count s).
Proof.
  intros Hi Hrun Hno.
  enough (wp (Syscall.sys_write fd buf count) (λ r s', r = -1 ∧ io s s') s) as Hw.
  { destruct (wp_returns _ _ _ Hw) as (r & s' & -> & -> & Hio).
    split; [tauto|]. split; [|right; by split; [|left]].
    pose proof (io_quiet _ _ Hio) as Hq.
    assert (Tcb.set_vm_space (vm_space tcb) tcb = tcb) as Et by (by destruct tcb).
    exists (vm_space tcb). rewrite Et. split_and!.
    - by apply (advanced_quiet _ s s s); [..|apply advanced_refl, Hrun].
    - destruct Hrun as [? ? ? ? ?], Hio as (_ & Ec & Ett & Ek & _).
      split; unfold tasks_of in *; rewrite ?Ek, ?Ett, ?Ec; done.
    - by apply quiet_view. }
  unfold Syscall.sys_write. destruct (Z.eqb_spec fd Syscall.FD_STDOUT) as [->|Hfd]; cbn [negb].
  - destruct (check_u_va_range buf count) eqn:Hr; [by destruct Hno|]. cbn [negb].
    wp_step. eapply wp_mono; [by apply (warn_current_io s tcb)|]. intros [] s' Hio. by wp_step.
  - wp_step. eapply wp_mono; [by apply (warn_current_io s tcb)|]. intros [] s' Hio. by wp_step.
Qed.

Lemma sys_write_heap_full s fd buf count :
  write_accepted fd buf count → count ≠ 0 → vec_alloc s count = None →
  Syscall.sys_write fd buf count s = Panic "memory allocation failed".
Proof.
  intros [-> Hr] Hne Hal. unfold Syscall.sys_write. rewrite Z.eqb_refl, Hr. cbn [negb].
  unfold Syscall.vec_zeroed. rewrite (proj2 (Z.eqb_neq _ _) Hne).
  unfold mbind, M_bind, gets. by rewrite Hal.
Qed.

Lemma sys_write_run s tcb fd buf count :
  uaccess_labels → kernel_inv s → running s tcb → is_usize buf → is_usize count →
  (∀ dst, vec_alloc s count = Some dst → kernel_buffer s dst count) →
  sys_write_did s tcb fd buf count (Syscall.sys_write fd buf count s).
Proof.
  intros Hlab Hi Hrun Hbu Hcu Hheap.
  destruct (decide (fd = Syscall.FD_STDOUT)) as [->|Hfd];
    [|apply sys_write_refused; [done..|]; by intros [? _]].
  destruct (check_u_va_range buf count) eqn:Hr;
    [|apply sys_write_refused; [done..|]; intros [_ ?]; congruence].
  assert (write_accepted Syscall.FD_STDOUT buf count) as Hacc by done.
  destruct (decide (count ≠ 0 ∧ vec_alloc s count = None)) as [[Hne Hal]|Hroom].
  { rewrite (sys_write_heap_full s _ _ _ Hacc Hne Hal). split; [done|]. by left. }
  assert (∃ dst, (count ≠ 0 → vec_alloc s count = Some dst) ∧ kernel_buffer s dst count ∧
    ∀ p, buffer_page dst count p → heap_page s count p) as (dst & Hal & Hbuf & Hpage).
  { destruct (decide (count = 0)) as [->|Hne].
    - exists 1. split; [done|]. split; [apply kernel_buffer_empty|]. intros p (a & Ha & _). lia.
    - destruct (vec_alloc s count) as [dst|] eqn:Hal; [|tauto].
      exists dst. split; [done|]. split; [by apply Hheap|]. intros p Hp. split; [done|]. by exists dst. }
  pose proof (stdout_run s tcb buf count dst Hlab Hi Hrun Hbu Hcu Hr Hal Hbuf) as Hw.
  unfold printed_from in Hw. unfold sys_write_did.
  destruct (Syscall.sys_write _ _ _ s) as [r s'|msg|]; [|split; [done|by right]|done].
  destruct Hw as [(v & Hav & Hrest) Hres]. split; [tauto|]. split.
  - exists v. split; [by eapply advanced_weaken|done].
  - destruct Hres as [(? & ?)|[? ?]]; [left|right]; naive_solver.
Qed.
End io.

(** C12: [sys_write] never hangs.  It returns [count] exactly after printing the characters
    of the user's bytes, all of which the task may read and which are UTF-8, and nothing
    else; it returns -1 only if the descriptor is not [stdout], the range is not in user
    space, the task may not read a byte of it or memory is used up.  It panics only on a
    call to [stdout] of a user range, and only if the heap has no room for the vector - it
    always does then - or the bytes are not UTF-8.  The task sees the memory it saw before
    and no other task notices.  Of the heap it is assumed that a vector it hands out is
    private memory of the kernel in the direct map. *)
Theorem sys_write_correct `{LinkerSymbols} `{TrapSymbols} `{Fmt} `{Log.EnvLog} `{KernelHeap}
    (s : KS) tcb fd buf count :
  uaccess_labels → kernel_inv s → running s tcb → is_usize buf → is_usize count →
  (∀ dst, vec_alloc s count = Some dst → kernel_buffer s dst count) →
  let bytes := user_bytes s (vm_space tcb) buf count in
  let heap_full := count ≠ 0 ∧ vec_alloc s count = None in
  match Syscall.sys_write fd buf count s with
  | Ret r s' =>
      ¬ (write_accepted fd buf count ∧ heap_full) ∧
      (∃ v, advanced (heap_page s count) s tcb v s' ∧ running s' (Tcb.set_vm_space v tcb) ∧
         same_view s (vm_space tcb) s' v) ∧
      ((r = count ∧ write_accepted fd buf count ∧
          ∃ bs str, bytes = Some bs ∧ utf8_chars bs = Some str ∧
          sbi_trace (k_sbi s') = sbi_trace (k_sbi s) ++ (ConsolePutchar <$> str)) ∨
       (r = -1 ∧ (¬ write_accepted fd buf count ∨ bytes = None ∨ nearly_full s')))
  | Panic _ => write_accepted fd buf count ∧
      (heap_full ∨ ∃ bs, bytes = Some bs ∧ utf8_chars bs = None)
  | Spin => False
  end.
Proof. apply sys_write_run. Qed.

(** Three bytes of a fresh page: three NUL characters *)
Lemma sys_write_correct_witness :
  let fmt : Fmt := {| format := λ _ _, [] |} in
  let env : Log.EnvLog := {| Log.env_LOG := None |} in
  let heap : KernelHeap :=
    {| vec_alloc := λ _ n, if n <=? 4096 then Some (KERNEL_VA_OFFSET + 0x8070e000) else None |} in
  match @Syscall.sys_write sample_trap_symbols fmt heap 1 0x10000 3 sample_kernel with
  | Ret r s' => r = 3 ∧ sbi_trace (k_sbi s') = replicate 3 (ConsolePutchar 0) ∨ r = -1
  | _ => False
  end.
Proof.
  intros fmt env heap.
  assert (is_usize 0x10000) as H1 by (vm_compute; split; congruence).
  assert (is_usize 3) as H2 by (vm_compute; split; congruence).
  assert (@kernel_buffer sample_symbols sample_kernel (KERNEL_VA_OFFSET + 0x8070e000) 3) as H3.
  { split; [intros _; unfold KERNEL_VA_OFFSET; lia|]. intros p (a & Ha & E). apply sample_buffer.
    exists a. split; [lia|exact E]. }
  assert (∀ dst, vec_alloc sample_kernel 3 = Some dst → @kernel_buffer sample_symbols sample_kernel dst 3)
    as H4 by (intros dst [= <-]; exact H3).
  pose proof (@sys_write_correct sample_symbols sample_trap_symbols fmt env heap sample_kernel task1
    1 0x10000 3 sample_labels sample_kernel_inv sample_running H1 H2 H4) as Hw.
  assert (user_bytes sample_kernel (vm_space task1) 0x10000 3 = Some [0; 0; 0]) as Eb
    by (vm_compute; reflexivity).
  assert (utf8_chars [0; 0; 0] = Some [0; 0; 0]) as Eu by reflexivity.
  destruct (@Syscall.sys_write sample_trap_symbols fmt heap 1 0x10000 3 sample_kernel) as [r s'|msg|].
  - destruct Hw as (_ & _ & [(-> & _ & bs & str & E1 & E2 & Ht)|[-> _]]); [left|right; reflexivity].
    rewrite Eb in E1. injection E1 as <-. rewrite Eu in E2. injection E2 as <-.
    split; [reflexivity|exact Ht].
  - destruct Hw as (_ & [[_ E]|(bs & E1 & E2)]); [discriminate E|].
    rewrite Eb in E1. injection E1 as <-. rewrite Eu in E2. discriminate E2.
  - exact Hw.
Defined.
