(* ===== verification/InfoProps.v ===== *)
(** * [sys_task_info] is correct

    [src/os/src/syscall/process.rs]: the statistics of a task, from the kernel stack of the
    caller to its memory. *)

From S2P Require Export IoProps UaccessTo.
From S2P Require Import Spin PageAlloc Regs Console.
From stdpp Require Import list.
Open Scope Z_scope.

(** ** The local variable *)
Section layout.
Context `{LinkerSymbols} `{TrapSymbols} `{TaskInfoLayout}.
Implicit Types (s : KS) (tcb : TaskControlBlock).

(** Bytes on the kernel stack of the task, below its trap context *)
Record stack_buffer tcb (buf len : Z) : Prop := {
  sb_low : KERNEL_VA_OFFSET <= buf;
  sb_top : buf + len <= context_of tcb;
  sb_page p : buffer_page buf len p → stack_page tcb p;
}.

(** What the compiler guarantees of the layout and the place of the local *)
Class TaskInfoLaws : Prop := {
  info_size i : Z.of_nat (length (bytes_of_TaskInfo i)) = size_of_TaskInfo;
  info_byte i : Forall (λ b, 0 <= b < 256) (bytes_of_TaskInfo i);
  info_place s tcb : kernel_inv s → running s tcb →
    stack_buffer tcb (addr_of_task_info s) size_of_TaskInfo;
}.
End layout.
Arguments TaskInfoLaws {_ _ _}.

Section info.
Context `{LinkerSymbols} `{TrapSymbols} `{Fmt} `{Log.EnvLog} `{TaskInfoLayout}.
Implicit Types (s : KS) (tcb : TaskControlBlock).

(** ** Writes to the kernel stack *)

(** The words of the trap context are as before. *)
Definition context_kept s s' tcb : Prop :=
  ∀ i, 0 <= i < 35 →
    read_u64 (mem_of s') (context_of tcb + 8 * i - KERNEL_VA_OFFSET) =
    read_u64 (mem_of s) (context_of tcb + 8 * i - KERNEL_VA_OFFSET).

(** A step of the task on its own stack, below the context *)
Record stack_step s tcb s' : Prop := {
  sk_advanced : advanced (stack_page tcb) s tcb (vm_space tcb) s';
  sk_running : running s' tcb;
  sk_view : same_view s (vm_space tcb) s' (vm_space tcb);
  sk_context : context_kept s s' tcb;
}.

(** A step that keeps off the stack keeps the context. *)
Lemma advanced_context_kept P s tcb v s' :
  kernel_inv s → tcb ∈ tasks_of s → advanced P s tcb v s' → (∀ p, stack_page tcb p → ¬ P p) →
  context_kept s s' tcb.
Proof.
  intros Hi Hin Hav HP i Hix. pose proof (ki_tasks _ Hi) as Hts. rewrite Forall_forall in Hts.
  destruct (Hts _ Hin) as [Hv [p Hp] _ _ _]. apply (context_word_same tcb p s s' i Hv Hp Hix).
  destruct (av_stack _ _ _ _ _ Hav p Hp) as [_ Hs]. apply Hs. by apply HP.
Qed.

Lemma set_same_vm tcb : Tcb.set_vm_space (vm_space tcb) tcb = tcb.
Proof. by destruct tcb. Qed.

Lemma stack_step_refl s tcb : kernel_inv s → running s tcb → stack_step s tcb s.
Proof. intros Hi Hrun. split; [apply advanced_refl; [done|apply Hrun]|done..]. Qed.
Lemma stack_step_trans s1 s2 s3 tcb : stack_step s1 tcb s2 → stack_step s2 tcb s3 → stack_step s1 tcb s3.
Proof.
  intros [Ha1 _ Hv1 Hc1] [Ha2 Hr2 Hv2 Hc2]. split.
  - eapply advanced_trans; [exact Ha1|]. by rewrite set_same_vm.
  - done.
  - by eapply same_view_trans.
  - intros i Hi. by rewrite Hc2, Hc1.
Qed.

Lemma stack_store s tcb buf len va b :
  kernel_inv s → running s tcb → stack_buffer tcb buf len → buf <= va < buf + len →
  stack_step s tcb (upd_mem (λ m, write_u8 m (va - KERNEL_VA_OFFSET) b) s).
Proof.
  intros Hi Hrun [Hlow Htop Hpg] Hva. set (s' := upd_mem _ s).
  set (p := (va - KERNEL_VA_OFFSET) / 4096).
  assert (stack_page tcb p) as Hst by (apply Hpg; by exists va).
  pose proof Hst as [_ [pm Hh]]. pose proof (rn_in _ _ Hrun) as Hin.
  pose proof (ki_tasks _ Hi) as Hts. rewrite Forall_forall in Hts. pose proof (Hts _ Hin) as [Hv _ Hid Hus _].
  assert (∀ q, q ≠ p → page_same q (mem_of s) (mem_of s')) as Hsame.
  { intros q Hq a Ha. apply read_u8_write_ne. intros E.
    apply Hq. unfold page_start, page_end in Ha. unfold p. rewrite E. zlia. }
  assert (wrote s p s') as Hw by (by apply upd_mem_wrote; [apply Hv|]).
  assert (context_kept s s' tcb) as Hctx.
  { intros i Hix. apply read_u64_ext. intros a Ha. apply read_u8_write_ne. lia. }
  assert (advanced (stack_page tcb) s tcb (vm_space tcb) s') as Hav.
  { apply (advanced_owned_write (stack_page tcb) s tcb (kernel_vpn p) KernelVaOffset pm p s'); try done.
    - rewrite task_id_word in Hid |- *. rewrite <- Hid. by apply Hctx.
    - unfold to_user. by rewrite (Hctx 32). }
  split; [done| | |done].
  - rewrite <- (set_same_vm tcb). by apply (advanced_running (stack_page tcb) s tcb).
  - pose proof (advanced_space _ _ _ _ _ Hav) as Hv'. intros need va' Hn Hva'.
    destruct (has_dec (vm_space tcb) (va' / 4096)) as [(t & pm' & o & Hh')|Hno];
      [|by rewrite !user_byte_none].
    rewrite (user_byte_has _ _ _ _ _ _ _ Hv Hh'), (user_byte_has _ _ _ _ _ _ _ Hv' Hh').
    destruct o as [q|]; [|done]. eapply user_page_byte; [exact Hh'|]. apply Hsame. intros ->.
    pose proof (vi_inj _ _ Hv _ _ _ _ _ _ _ Hh Hh') as E.
    pose proof (kernel_vpn_high p ltac:(pose proof (stack_page_ram _ _ _ Hv Hst); lia)). zlia.
Qed.

(** The bytes of the local are stored. *)
Lemma store_all_wp s tcb buf bytes :
  kernel_inv s → running s tcb → stack_buffer tcb buf (Z.of_nat (length bytes)) →
  Forall (λ b, 0 <= b < 256) bytes →
  wp (for_each (imap (λ i b, (buf + Z.of_nat i, b)) bytes) (λ '(a, b), store_u8 a b)) (λ _ s',
    stack_step s tcb s' ∧
    ∀ i b, bytes !! i = Some b → read_u8 (mem_of s') (buf + Z.of_nat i - KERNEL_VA_OFFSET) = b) s.
Proof.
  intros Hi Hrun Hbuf Hb. set (l := imap _ bytes).
  assert (∀ i, l !! i = (λ b, (buf + Z.of_nat i, b)) <$> bytes !! i) as Hl
    by (intros i; unfold l; rewrite list_lookup_imap; by destruct (bytes !! i)).
  eapply wp_mono; [apply (wp_for_each l _ (λ don s', stack_step s tcb s' ∧ ∀ i b, (i < length don)%nat →
    bytes !! i = Some b → read_u8 (mem_of s') (buf + Z.of_nat i - KERNEL_VA_OFFSET) = b))|].
  - split; [by apply stack_step_refl|]. simpl. lia.
  - intros don [a b] todo s1 E [Hst Hr]. set (n := length don).
    assert (l !! n = Some (a, b)) as Hn by (rewrite E; by apply list_lookup_middle).
    rewrite Hl in Hn. destruct (bytes !! n) as [b'|] eqn:Hbn; [|done]. injection Hn as <- ->.
    pose proof (lookup_lt_Some _ _ _ Hbn) as Hlt. rewrite Forall_lookup in Hb. pose proof (Hb _ _ Hbn) as Hb'.
    unfold store_u8. wp_step. set (s2 := upd_mem _ s1). split.
    + eapply stack_step_trans; [exact Hst|].
      apply (stack_store s1 tcb buf (Z.of_nat (length bytes))); [apply (sk_advanced _ _ _ Hst)|apply Hst|done|lia].
    + intros i c Hix Hc. rewrite length_app in Hix. simpl in Hix.
      destruct (decide (i = n)) as [->|Hne].
      * assert (c = b) as -> by congruence. etransitivity; [apply read_u8_write_same|]. by apply Z.mod_small.
      * rewrite <- (Hr i c); [|lia|done]. apply read_u8_write_ne. lia.
  - intros [] s' [Hst Hr]. split; [done|]. intros i b Hib. apply Hr; [|done].
    unfold l. rewrite length_imap. by eapply lookup_lt_Some.
Qed.

(** ** The call *)

Lemma get_task_info_run s id :
  kernel_inv s →
  Task.get_task_info id s = Ret ('(_, tcb) ← Task.find_task id (tasks_of s);
    Some (mk_TaskInfo id (Tcb.get_state tcb) (Tcb.get_statistics tcb))) s.
Proof.
  intros Hi. unfold Task.get_task_info. rewrite (bind_run _ _ _ _ _ (lock_tasks_run s (ki_lock _ Hi))).
  pose proof (ki_lock _ Hi) as Hl. destruct s as [mm c tp [b l] nid clk sbi lvl]. simpl in Hl. subst b. done.
Qed.

(** The bytes of the answer about [other] *)
Definition info_bytes (id : Z) (other : TaskControlBlock) : list Z :=
  bytes_of_TaskInfo (mk_TaskInfo id (Tcb.get_state other) (Tcb.get_statistics other)).

(** What the call did with its buffer: nothing, or the answer is copied but for the last
    [n] bytes *)
Definition info_sent s tcb (id data : Z) v n s' : Prop :=
  ∃ other, other ∈ tasks_of s ∧ task_id other = id ∧
    0 <= n <= size_of_TaskInfo ∧ data + size_of_TaskInfo <= USER_SPACE_END ∧
    view_set s (vm_space tcb) data (data + (size_of_TaskInfo - n))
      (λ va, nth (Z.to_nat (va - data)) (info_bytes id other) 0) s' v ∧
    (n ≠ 0 → user_byte s (vm_space tcb) PERMISSION_W (data + (size_of_TaskInfo - n)) = None ∨ nearly_full s').
Definition info_did s tcb (id data r : Z) s' : Prop :=
  ∃ v, advanced (stack_page tcb) s tcb v s' ∧ running s' (Tcb.set_vm_space v tcb) ∧
    context_kept s s' tcb ∧
    ((r = 0 ∧ info_sent s tcb id data v 0 s') ∨
     (r = -1 ∧ (∃ n, n ≠ 0 ∧ info_sent s tcb id data v n s')) ∨
     (r = -1 ∧ same_view s (vm_space tcb) s' v ∧
        (check_u_va_range data size_of_TaskInfo = false ∨ id ∉ ids (tasks_of s)))).

Lemma info_sent_quiet s1 s2 s tcb id data v n :
  quiet s1 s2 → info_sent s tcb id data v n s1 → info_sent s tcb id data v n s2.
Proof.
  intros Hq (other & Hin & Hid & Hn & Hend & Hview & Hshort). exists other.
  do 4 (split; [done|]). split.
  - eapply view_set_same; [exact Hview|by apply quiet_view].
  - intros Hne. destruct (Hshort Hne) as [?|[p Hp]]; [by left|]. right. exists p.
    intros q. rewrite (quiet_free s1 s2) by done. apply Hp.
Qed.

Lemma running_quiet s s' tcb : io s s' → running s tcb → running s' tcb.
Proof.
  intros (_ & Ec & Et & Ek & _) [? ? ? ? ?]. split; unfold tasks_of in *; rewrite ?Ek, ?Et, ?Ec; done.
Qed.

Lemma info_nothing s tcb id data s' :
  kernel_inv s → running s tcb → io s s' →
  check_u_va_range data size_of_TaskInfo = false ∨ id ∉ ids (tasks_of s) →
  info_did s tcb id data (-1) s'.
Proof.
  intros Hi Hrun Hio Hc. pose proof (io_quiet _ _ Hio) as Hq. exists (vm_space tcb). rewrite set_same_vm.
  split; [by apply (advanced_quiet _ s s s s'), advanced_refl; [|..|apply Hrun]|].
  split; [by eapply running_quiet|].
  split; [intros i _; by rewrite (quiet_mem _ _ Hq)|]. right. right. split; [done|].
  split; [by apply quiet_view|done].
Qed.

Section laws.
Context `{!TaskInfoLaws}.

Lemma info_layout s tcb id other :
  kernel_inv s → running s tcb →
  stack_buffer tcb (addr_of_task_info s) (Z.of_nat (length (info_bytes id other))) ∧
  0 <= size_of_TaskInfo < USIZE_MODULUS ∧ is_usize (addr_of_task_info s).
Proof using Type*.
  intros Hi Hrun. pose proof (info_place s tcb Hi Hrun) as Hp.
  assert (Z.of_nat (length (info_bytes id other)) = size_of_TaskInfo) as E by apply info_size.
  rewrite E. split; [done|]. destruct Hp as [Hlow Htop _].
  assert (0 <= size_of_TaskInfo) as Hpos by (rewrite <- E; lia). clear E.
  pose proof (ki_tasks _ Hi) as Hts. rewrite Forall_forall in Hts.
  destruct (Hts _ (rn_in _ _ Hrun)) as [Hv [p Hst] _ _ _].
  pose proof (context_of_eq _ _ _ Hv Hst) as Ec. pose proof (stack_page_ram _ _ _ Hv Hst) as Hr.
  unfold kernel_va, page_start, KERNEL_VA_OFFSET in *. unfold is_usize, USIZE_MODULUS. lia.
Qed.

Lemma stack_sendable s tcb buf len :
  kernel_inv s → running s tcb → stack_buffer tcb buf len → sendable s tcb buf len.
Proof.
  intros Hi Hrun [Hlow Htop Hpg]. split; [|intros p Hb; right; by apply Hpg].
  intros _. split; [done|]. pose proof (ki_tasks _ Hi) as Hts. rewrite Forall_forall in Hts.
  destruct (Hts _ (rn_in _ _ Hrun)) as [Hv [p Hst] _ _ _].
  pose proof (context_of_eq _ _ _ Hv Hst) as Ec. pose proof (stack_page_ram _ _ _ Hv Hst) as Hr.
  unfold kernel_va, page_start, KERNEL_VA_OFFSET in Ec. lia.
Qed.

(** The copy, and the message if it is short *)
Lemma info_copied s tcb id other src data :
  uaccess_labels → kernel_inv s → running s tcb → is_usize data →
  check_u_va_range data size_of_TaskInfo = true →
  other ∈ tasks_of s → task_id other = id → src = addr_of_task_info s →
  wp (for_each (imap (λ i b, (src + Z.of_nat i, b)) (info_bytes id other)) (λ '(a, b), store_u8 a b);;
      failed_len ← Uaccess.copy_to_user src data size_of_TaskInfo;
      if failed_len =? 0 then mret 0
      else Syscall.log_failed_copy_to data size_of_TaskInfo failed_len;; mret (-1))
    (λ r s', info_did s tcb id data r s') s.
Proof using Type*.
  intros Hlab Hi Hrun Hdu Hrange Hin Hid ->.
  destruct (info_layout s tcb id other Hi Hrun) as (Hbuf & Hsz & Hsrc).
  pose proof Hrange as (_ & Hend & _)%check_u_va_range_iff; [|done..].
  wp_step. eapply wp_mono; [apply (store_all_wp s tcb _ (info_bytes id other)); [done..|apply info_byte]|].
  intros [] s1 [[Hav1 Hrun1 Hview1 Hctx1] Hbytes]. pose proof (av_inv _ _ _ _ _ Hav1) as Hi1.
  set (src := addr_of_task_info s) in *.
  assert (Z.of_nat (length (info_bytes id other)) = size_of_TaskInfo) as Elen by apply info_size.
  rewrite Elen in Hbuf.
  wp_step. eapply wp_mono; [apply (copy_to_user_wp Hlab s1 tcb src data size_of_TaskInfo Hi1 Hrun1);
    [done|apply Hdu|lia|done|by apply stack_sendable]|].
  intros n s2 (v & Hn & Hav2 & Hrun2 & Hview2 & _ & Hshort & _).
  assert (advanced (stack_page tcb) s tcb v s2) as Hav.
  { eapply advanced_trans; [exact Hav1|]. rewrite set_same_vm.
    by apply (advanced_weaken nothing); [intros p []|]. }
  assert (context_kept s s2 tcb) as Hctx.
  { intros i Hix. rewrite <- (Hctx1 i Hix).
    apply (advanced_context_kept nothing s1 tcb v s2); [done|apply Hrun1|done|by intros p _ []|done]. }
  assert (info_sent s tcb id data v n s2) as Hsent.
  { exists other. split; [done|]. split; [done|]. split; [lia|]. split; [done|]. split.
    - intros need va Hnd Hva. rewrite (Hview2 need va Hnd Hva), (Hview1 need va Hnd Hva).
      case_decide as Hdv; [|done]. apply option_fmap_ext. intros _. unfold buffer_byte.
      destruct (lookup_lt_is_Some_2 (info_bytes id other) (Z.to_nat (va - data))) as [b Hb]; [lia|].
      rewrite (nth_lookup_Some _ _ _ _ Hb), <- (Hbytes _ _ Hb). do 2 f_equal. lia.
    - intros Hne. destruct (Hshort Hne) as [Hs|?]; [left|by right].
      rewrite <- Hs. symmetry. apply Hview1; [by right|]. unfold is_usize in *. rewrite user_space_end_eq in Hend. lia. }
  destruct (Z.eqb_spec n 0) as [->|Hne].
  - wp_step. exists v. split_and!; [done..|]. left. by split.
  - wp_step. eapply wp_mono; [apply (warn_current_io s2 (Tcb.set_vm_space v tcb) _ _ (av_inv _ _ _ _ _ Hav2) Hrun2)|].
    intros [] s3 Hio. wp_step. pose proof (io_quiet _ _ Hio) as Hq. exists v.
    split; [by apply (advanced_quiet _ s s s2)|]. split; [by eapply running_quiet|].
    split; [intros i Hix; by rewrite (quiet_mem _ _ Hq), Hctx|]. right. left. split; [done|].
    exists n. split; [done|]. by apply (info_sent_quiet s2).
Qed.

Lemma sys_task_info_wp s tcb id data :
  uaccess_labels → kernel_inv s → running s tcb → is_usize data →
  wp (Syscall.sys_task_info id data) (λ r s', info_did s tcb id data r s') s.
Proof using Type*.
  intros Hlab Hi Hrun Hdu. unfold Syscall.sys_task_info.
  destruct (check_u_va_range data size_of_TaskInfo) eqn:Hrange; cbn [negb].
  2:{ wp_step. eapply wp_mono; [by apply (warn_current_io s tcb)|].
      intros [] s1 Hio. wp_step. apply info_nothing; [done..|by left]. }
  wp_step. eapply wp_intro; [by apply get_task_info_run|].
  destruct (Task.find_task id (tasks_of s)) as [[i other]|] eqn:Hfind.
  - apply find_task_Some in Hfind as [Hix Hid].
    change ('(_, tcb) ← Some (i, other); _) with
      (Some (mk_TaskInfo id (Tcb.get_state other) (Tcb.get_statistics other))). cbv beta iota.
    wp_step. wp_step. apply info_copied; [done..| |done|done]. by eapply list_elem_of_lookup_2.
  - apply find_task_None in Hfind.
    change (None ≫= _) with (@None TaskInfo). cbv beta iota. wp_step. apply info_nothing; [done..|by right].
Qed.
End laws.
End info.

(** C13: a call of [sys_task_info] of the running task always returns.  It returns 0 exactly
    after its caller's memory holds, at [data], the state and statistics of the task [id] -
    byte for byte as the compiler lays them out - and is otherwise as before; it returns -1
    if the buffer leaves user space or no such task exists, without a change, or after a
    partial copy if the caller may not write the next byte or memory is used up.  The trap
    context of the caller is kept, and no other task notices. *)
Theorem sys_task_info_correct `{LinkerSymbols} `{TrapSymbols} `{Fmt} `{Log.EnvLog} `{TaskInfoLayout}
    `{!TaskInfoLaws} (s : KS) tcb id data :
  uaccess_labels → kernel_inv s → running s tcb → is_usize data →
  ∃ r s', Syscall.sys_task_info id data s = Ret r s' ∧ info_did s tcb id data r s'.
Proof. intros Hlab Hi Hrun Hdu. by apply wp_returns, sys_task_info_wp. Qed.

(** [sys_task_info(2, 0x12345)] of task 1, with a layout of one byte *)
#[local] Instance sample_info_layout : TaskInfoLayout := {|
  size_of_TaskInfo := 1;
  bytes_of_TaskInfo := λ i, [match ti_state i with Ready => 1 | _ => 2 end];
  addr_of_task_info := λ s, k_tp s - 64;
|}.
Lemma sample_info_laws : @TaskInfoLaws sample_symbols sample_trap_symbols sample_info_layout.
Proof.
  split; [done| |].
  { intros [? st ?]. apply Forall_singleton. cbn. by destruct st. }
  intros s tcb Hi Hrun. cbn. rewrite (rn_tp _ _ Hrun).
  pose proof (ki_tasks _ Hi) as Hts. rewrite Forall_forall in Hts.
  destruct (Hts _ (rn_in _ _ Hrun)) as [Hv [p Hst] _ _ _].
  pose proof (context_of_eq _ _ _ Hv Hst) as Ec. pose proof (stack_page_ram _ _ _ Hv Hst) as Hr.
  unfold kernel_va, page_start in *. rewrite Ec. split; [lia|lia|].
  intros q (a & Ha & ->). replace ((a - KERNEL_VA_OFFSET) / 4096) with p; [done|zlia].
Qed.

Lemma sys_task_info_correct_witness :
  let fmt : Fmt := {| format := λ _ _, [] |} in
  let env : Log.EnvLog := {| Log.env_LOG := None |} in
  ∃ r s', @Syscall.sys_task_info sample_trap_symbols fmt sample_info_layout 2 0x12345 sample_kernel = Ret r s' ∧
    (r = 0 ∨ r = -1).
Proof.
  intros fmt env.
  destruct (@sys_task_info_correct sample_symbols sample_trap_symbols fmt env sample_info_layout sample_info_laws
    sample_kernel task1 2 0x12345 sample_labels sample_kernel_inv sample_running)
    as (r & s' & Hr & v & _ & _ & _ & Hcase); [vm_compute; split; congruence|].
  exists r, s'. split; [exact Hr|].
  destruct Hcase as [[E _]|[[E _]|[E _]]]; [left|right|right]; exact E.
Defined.
