(* ===== verification/Utrap.v ===== *)
(** * Traps from user mode: [src/os/src/trap/utrap.rs], [trap/trap.S]

    Time slices, system calls, page faults and the faults that kill a task. *)

From S2P Require Export Syscall.
From S2P Require Import Regs Spin.
From stdpp Require Import list.
Open Scope Z_scope.

Module Utrap.
Section ops.
Context `{LinkerSymbols} `{TrapSymbols} `{AppSymbols} `{XmasElf} `{Fmt}
  `{KernelHeap} `{TaskInfoLayout}.

Definition EXPECT_RUNNING_TASK_STATE : string :=
  "Expected the current TaskState to be Running.".

(** What [sleep_task] and [kill_task] share *)
Definition stop_task (new : TaskState) : M KS unit :=
  r ← Task.exchange_current_task_state Running new;
  assert_or (is_ok r) EXPECT_RUNNING_TASK_STATE;;
  Task.record_current_run_end.
Definition sleep_task : M KS unit := stop_task Ready.
Definition kill_task : M KS unit := stop_task Killed.

Definition log_task_killed (task_id_ : Z) (cause : Scause.Cause) (stval sepc : Z) : M KS unit :=
  Log.warn "Task {}: {:?}, stval={:#x}, spec={:#x}. Kernel killed it."
    [FArg task_id_; FArg cause; FArg stval; FArg sepc].

Definition kill_and_switch (task_id_ : Z) (cause : Scause.Cause) (stval sepc : Z) : K unit :=
  '_ ↤ kill_task;
  '_ ↤ log_task_killed task_id_ cause stval sepc;
  Task.run_next_task.

(** The body of the two page-fault arms *)
Definition user_page_fault (task_id_ : Z) (cause : Scause.Cause)
    (stval sepc min_permissions : Z) : K unit :=
  r ↤ Trap.do_page_fault task_id_ stval min_permissions;
  match r with
  | Err err =>
      '_ ↤ Trap.log_do_page_fault_failed task_id_ stval min_permissions err;
      kill_and_switch task_id_ cause stval sepc
  | Ok _ => kret tt
  end.

Definition user_syscall (context : Z) : K unit :=
  syscall_id ↤ TrapCtx.get_x context 17;
  '_ ↤ Task.record_current_syscall syscall_id;
  pc ↤ TrapCtx.get_sepc context;
  '_ ↤ TrapCtx.set_sepc context (pc ⊕ 4);
  a0 ↤ TrapCtx.get_x context 10;
  a1 ↤ TrapCtx.get_x context 11;
  a2 ↤ TrapCtx.get_x context 12;
  r ⇐ Syscall.syscall_handler syscall_id a0 a1 a2;
  klift (TrapCtx.set_x context 10 (isize_as_usize r)).

Definition u_trap_handler (context : Z) : K Z :=
  task_id_ ↤ Task.get_current_task_id;
  scause ↤ lift Scause.read;
  sepc ↤ lift Sepc.read;
  stval ↤ lift Stval.read;
  let cause := Scause.match_cause scause in
  '_ ⇐ (match cause with
    | Scause.SupervisorTimerInterrupt =>
        '_ ↤ sleep_task;
        '_ ↤ Log.info "Task {:?}: {:?}." [FArg task_id_; FArg cause];
        Task.run_next_task
    | Scause.UserEnvironmentCall => user_syscall context
    | Scause.StoreOrAmoPageFault =>
        if check_u_va stval
        then user_page_fault task_id_ cause stval sepc (PERMISSION_U .| PERMISSION_W)
        else klift Trap.trap_panic
    | Scause.LoadPageFault =>
        if check_u_va stval
        then user_page_fault task_id_ cause stval sepc (PERMISSION_U .| PERMISSION_R)
        else klift Trap.trap_panic
    | Scause.IllegalInstruction | Scause.InstructionPageFault =>
        kill_and_switch task_id_ cause stval sepc
    | _ => klift Trap.trap_panic
    end);
  kret context.

(** ** The assembly around it *)

(** [__restore_u_ctx]: the user registers and the program counter *)
Definition restore_u_ctx : M KS (list Z * Z) :=
  tp ← gets k_tp;
  lift (csrw Trap.SSCRATCH tp);;
  sstatus ← TrapCtx.get_x tp 32;
  lift (csrw Sstatus.CSR_NO sstatus);;
  sepc ← TrapCtx.get_sepc tp;
  lift (Sepc.write sepc);;
  x ← gets (λ s, (λ i, read_u64 (mem_of s) (tp + 8 * i - KERNEL_VA_OFFSET)) <$> seqZ 1 31);
  modify (set_tp (nth 3 x 0));;
  pc ← Hart.sret;
  mret (0 :: x, pc).

(** [__save_u_ctx]: the registers [x] go to the context [tp] points to; that of [tp] itself
    is in [sscratch]. *)
Definition save_u_ctx (x : list Z) : M KS unit :=
  tp ← gets k_tp;
  for_each (imap (λ i w, (tp + 8 * Z.of_nat i, w)) (<[4%nat := tp]> x)) (λ '(a, w), store_u64 a w);;
  user_tp ← lift (csrr Trap.SSCRATCH);
  lift (csrw Trap.SSCRATCH 0);;
  TrapCtx.set_x tp 4 user_tp;;
  sstatus ← lift Sstatus.read;
  TrapCtx.set_x tp 32 sstatus;;
  sepc ← lift Sepc.read;
  TrapCtx.set_sepc tp sepc.

(** A trap from user mode with registers [x]: [__stvec], [__save_u_ctx], the handler
    and the way back *)
Definition u_trap (cause epc tval : Z) (x : list Z) : K (list Z * Z) :=
  '_ ↤ modify (set_tp (nth 4 x 0));
  '_ ↤ Hart.take_trap true cause epc tval;
  from_kernel ↤ Hart.dispatch;
  if (from_kernel : bool) then klift Hart.misdirected
  else
    '_ ↤ save_u_ctx x;
    tp ↤ gets k_tp;
    '_ ⇐ u_trap_handler tp;
    klift restore_u_ctx.
End ops.
End Utrap.
