(* ===== verification/UtrapProps.v ===== *)
(** * A system call, from the task's side

    [ecall] in user mode, through [__stvec], [u_trap_handler] and [sret]: the task comes
    back behind the instruction with the result in [x10] and every other register as it
    was. *)

From S2P Require Export UaccessFault SchedProps SyscallProps Utrap.
From S2P Require Import Spin PageAlloc Regs Console.
From stdpp Require Import list.
Open Scope Z_scope.

Section trap.
Context `{LinkerSymbols} `{TrapSymbols} `{Fmt} `{Log.EnvLog}.
Implicit Types (s : KS) (tcb : TaskControlBlock).

(** ** The trap context *)

(** Word [i] of the context of [tcb] *)
Definition word s tcb (i : Z) : Z :=
  read_u64 (mem_of s) (context_of tcb + 8 * i - KERNEL_VA_OFFSET).

(** Its words but the identity may change. *)
Definition context_step s tcb s' : Prop :=
  advanced (stack_page tcb) s tcb (vm_space tcb) s' ∧ same_view s (vm_space tcb) s' (vm_space tcb) ∧
  k_csrs s' = k_csrs s ∧ k_tp s' = k_tp s ∧ k_sbi s' = k_sbi s ∧
  ∀ va, mmu_translate (mem_of s') (rp_ppn (root_pgt (vm_space tcb))) va =
    mmu_translate (mem_of s) (rp_ppn (root_pgt (vm_space tcb))) va.

Lemma set_same_space tcb : Tcb.set_vm_space (vm_space tcb) tcb = tcb.
Proof. by destruct tcb. Qed.

Lemma context_step_refl s tcb : kernel_inv s → tcb ∈ tasks_of s → context_step s tcb s.
Proof. intros Hi Hin. split_and!; [by apply advanced_refl|done..]. Qed.
Lemma context_step_trans s1 s2 s3 tcb :
  context_step s1 tcb s2 → context_step s2 tcb s3 → context_step s1 tcb s3.
Proof.
  intros (Ha & Hv & Hc & Ht & Hs & Hm) (Ha' & Hv' & Hc' & Ht' & Hs' & Hm').
  split_and!; [|by eapply same_view_trans|congruence..|intros va; by rewrite Hm', Hm].
  eapply advanced_trans; [exact Ha|]. by rewrite set_same_space.
Qed.

(** A store to word [i] *)
Lemma store_word_any s tcb i v :
  kernel_inv s → tcb ∈ tasks_of s → 0 <= i < 34 → (i = 32 → Z.testbit v 8 = false) →
  ∃ s', store_u64 (context_of tcb + 8 * i) v s = Ret tt s' ∧ context_step s tcb s' ∧
    ∀ j, 0 <= j < 35 → word s' tcb j = if decide (j = i) then wrap v else word s tcb j.
Proof.
  intros Hi Hin Hix H32. pose proof (ki_tasks _ Hi) as Hts. rewrite Forall_forall in Hts.
  pose proof (Hts _ Hin) as [Hv [p Hp] Hid Hus _].
  pose proof (stack_page_ram _ _ _ Hv Hp) as Hr. pose proof (context_of_eq _ _ _ Hv Hp) as Ec.
  set (a := context_of tcb + 8 * i - KERNEL_VA_OFFSET).
  assert (a = page_start p + 3816 + 8 * i) as Ea by (unfold a; rewrite Ec; unfold kernel_va; lia).
  exists (upd_mem (λ m, write_u64 m a v) s). set (s' := upd_mem _ s).
  assert (∀ j, 0 <= j < 35 → word s' tcb j = if decide (j = i) then wrap v else word s tcb j) as Hw.
  { intros j Hj. unfold word. change (mem_of s') with (write_u64 (mem_of s) a v).
    case_decide as E; [subst j; by apply read_write_u64_wrap|].
    apply read_write_u64_ne. unfold a. lia. }
  split; [done|]. split; [|done].
  assert (wrote s p s') as Hwr.
  { apply upd_mem_wrote; [apply Hv|]. intros q Hq b Hb. apply write_u64_other.
    unfold page_start, page_end in *. lia. }
  pose proof Hp as [Hk [pm Hh]].
  destruct (vm_inv_tables (vm_space tcb) s s') as (Hv' & Htr & _).
  { done. } { apply Hwr. }
  { intros q (π & Hπ & Hn). apply (wr_same _ _ _ Hwr). intros ->.
    destruct (vi_owned _ _ Hv _ _ _ _ Hh) as (_ & _ & _ & Hnt). by apply (Hnt π). }
  { intros q Hq. rewrite (wr_free _ _ _ Hwr).
    destruct Hq as [Hq|Hq]; [by apply (vi_owns _ _ _ Hv)|by apply (vi_reaches _ _ _ Hv)]. }
  split_and!; [| |done|done|done|done].
  - apply (advanced_owned_write _ s tcb (kernel_vpn p) KernelVaOffset pm p); [done..| | |done].
    + apply task_id_word in Hid. rewrite task_id_word, <- Hid.
      pose proof (Hw 34 ltac:(lia)) as E. rewrite decide_False in E by lia. exact E.
    + unfold to_user. pose proof (Hw 32 ltac:(lia)) as E. unfold word in E. rewrite E.
      case_decide; [|exact Hus]. rewrite <- (H32 ltac:(done)). apply (Z.mod_pow2_bits_low v 64). lia.
  - intros need va Hn Hva.
    destruct (has_dec (vm_space tcb) (va / 4096)) as [(t & pm' & o & Hh')|Hno].
    2:{ by rewrite !user_byte_none. }
    rewrite (user_byte_has _ _ _ _ _ _ _ Hv Hh'), (user_byte_has _ _ _ _ _ _ _ Hv' Hh').
    destruct o as [q|]; [|done]. eapply user_page_byte; [exact Hh'|].
    apply (wr_same _ _ _ Hwr). intros ->. pose proof (vi_inj _ _ Hv _ _ _ _ _ _ _ Hh Hh') as E.
    pose proof (kernel_vpn_high p ltac:(lia)). zlia.
Qed.
Lemma store_word_step s tcb i v :
  kernel_inv s → tcb ∈ tasks_of s → 0 <= i < 34 → is_usize v → (i = 32 → Z.testbit v 8 = false) →
  ∃ s', store_u64 (context_of tcb + 8 * i) v s = Ret tt s' ∧ context_step s tcb s' ∧
    ∀ j, 0 <= j < 35 → word s' tcb j = if decide (j = i) then v else word s tcb j.
Proof.
  intros Hi Hin Hix Hu H32. pose proof (store_word_any s tcb i v Hi Hin Hix H32) as Hany.
  by rewrite wrap_small in Hany.
Qed.

(** Storing the registers one after another *)
Lemma store_words_wp tcb x : ∀ (k : nat) s,
  kernel_inv s → tcb ∈ tasks_of s → (k + length x <= 32)%nat → Forall is_usize x →
  wp (for_each (imap (λ i w, (context_of tcb + 8 * Z.of_nat (k + i), w)) x) (λ '(a, w), store_u64 a w))
    (λ _ s', context_step s tcb s' ∧ ∀ j : nat, (j < 35)%nat →
       word s' tcb (Z.of_nat j) =
         if decide (k <= j < k + length x)%nat then nth (j - k) x 0 else word s tcb (Z.of_nat j)) s.
Proof.
  induction x as [|w x IH]; intros k s Hi Hin Hlen Hu.
  - cbn [imap for_each]. apply wp_ret. split; [by apply context_step_refl|]. intros j Hj. rewrite decide_False; [done|]. simpl. lia.
  - apply Forall_cons in Hu as [Hw Hu]. simpl in Hlen. cbn [imap for_each]. rewrite Nat.add_0_r.
    destruct (store_word_step s tcb (Z.of_nat k) w) as (s1 & Hrun & Hstep & Hword); [done|done|lia|done|lia|].
    wp_step. eapply wp_intro; [exact Hrun|].
    pose proof Hstep as (Hav & _). pose proof (advanced_in _ _ _ _ _ Hav) as Hin1. rewrite set_same_space in Hin1.
    rewrite (imap_ext _ (λ i w, (context_of tcb + 8 * Z.of_nat (Datatypes.S k + i), w))).
    2:{ intros i y _. simpl. do 2 f_equal. lia. }
    eapply wp_mono; [apply IH; [apply Hav|done|lia|done]|].
    intros [] s2 (Hstep2 & Hword2). split; [by eapply context_step_trans|].
    intros j Hj. rewrite Hword2, Hword by lia. cbn [length].
    destruct (decide (j = k)) as [->|Hne].
    + rewrite decide_False by lia. rewrite decide_True by lia. rewrite decide_True by lia.
      by rewrite Nat.sub_diag.
    + destruct (decide (Datatypes.S k <= j < Datatypes.S k + length x)%nat).
      * rewrite decide_True by lia. by replace (j - k)%nat with (Datatypes.S (j - Datatypes.S k)) by lia.
      * rewrite !decide_False by lia. done.
Qed.
(** ** The statistics of the task *)

(** Only the control block of [tcb] changed, and not what the kernel relies on. *)
Record relabelled s tcb tcb' s' : Prop := {
  rl_inv : kernel_inv s';
  rl_running : running s' tcb';
  rl_same : same_task tcb tcb';
  rl_tasks : ∃ i, tasks_of s !! i = Some tcb ∧ tasks_of s' = <[i := tcb']> (tasks_of s);
  rl_rest : s' = upd (k_tasks s') s;
}.

Lemma relabel s tcb tcb' i :
  kernel_inv s → running s tcb → tasks_of s !! i = Some tcb → same_task tcb tcb' → state tcb' = Running →
  relabelled s tcb tcb' (release_tasks (<[i := tcb']> (tasks_of s)) (lock_tasks s)).
Proof.
  intros Hi Hrun Hix Hsame Hst. set (s' := release_tasks _ _).
  pose proof Hi as [Hl Hts]%kernel_inv_tasks. rewrite (delete_Permutation _ _ _ Hix) in Hts.
  assert (tasks_of s' ≡ₚ tcb' :: delete i (tasks_of s)) as Hp by (by apply (insert_delete_perm _ _ tcb)).
  assert (kernel_inv s') as Hi'.
  { apply kernel_inv_tasks. split; [done|]. eapply tasks_inv_reorder; [symmetry; exact Hp|].
    apply (tasks_inv_mm _ s); [done..|]. by eapply tasks_inv_same. }
  split; [done| |done|by exists i|done]. destruct Hrun as [Hin Hst0 Honly Htp Hsatp Hker].
  destruct Hsame as (Eid & Ev & Ec). split.
  - rewrite Hp. by left.
  - done.
  - intros other Ho Hso. rewrite Hp in Ho. apply elem_of_cons in Ho as [->|Ho]; [done|].
    rewrite Eid. apply Honly; [|done]. rewrite (delete_Permutation _ _ _ Hix). by right.
  - unfold context_of. rewrite Ev. exact Htp.
  - rewrite Ev. exact Hsatp.
  - exact Hker.
Qed.

Lemma record_syscall_wp s tcb id :
  kernel_inv s → running s tcb →
  wp (Task.record_current_syscall id) (λ _ s', relabelled s tcb (Tcb.record_syscall id tcb).2 s') s.
Proof.
  intros Hi Hrun. pose proof (rn_in _ _ Hrun) as Hin.
  destruct (find_task_in _ (task_id tcb) tcb (ki_ids _ Hi) Hin eq_refl) as [i Hfind].
  pose proof (find_task_Some _ _ _ _ Hfind) as [Hix _].
  unfold Task.record_current_syscall, Task.with_current.
  wp_step. eapply wp_intro; [by apply current_task_run|]. wp_step.
  eapply wp_intro; [by apply lock_tasks_run, Hi|]. wp_step. eapply wp_intro; [reflexivity|].
  change (data (proj (lock_tasks s) : SpinLock Tasks)) with (tasks_of s).
  rewrite Hfind. wp_step. eapply wp_intro; [reflexivity|]. cbv beta iota. wp_step.
  destruct (Tcb.record_syscall id tcb) as [b tcb'] eqn:E. wp_step. cbv beta iota.
  wp_step. eapply wp_intro; [reflexivity|]. wp_step. eapply wp_intro; [reflexivity|]. wp_step.
  assert (same_task tcb tcb' ∧ state tcb' = state tcb) as [Hsame Hst].
  { unfold Tcb.record_syscall in E. destruct (Stats.increase_syscall_count _ _). by simplify_eq. }
  apply (relabel s tcb tcb' i); [done..|]. rewrite Hst. apply Hrun.
Qed.

(** ** In user mode *)

Record in_user s tcb : Prop := {
  iu_in : tcb ∈ tasks_of s;
  iu_state : state tcb = Running;
  iu_only other : other ∈ tasks_of s → state other = Running → task_id other = task_id tcb;
  iu_satp : csr_value (k_csrs s) Access.SATP = Space.get_satp (vm_space tcb);
  iu_scratch : csr_value (k_csrs s) Trap.SSCRATCH = context_of tcb;
  iu_stvec : csr_value (k_csrs s) Stvec.CSR_NO = __stvec;
}.

(** The registers a task may have *)
Record user_regs (x : list Z) : Prop := {
  ur_length : length x = 32%nat;
  ur_zero : nth 0 x 0 = 0;
  ur_usize : Forall is_usize x;
}.

(** The context holds the registers and the program counter. *)
Definition context_holds s tcb (x : list Z) (pc : Z) : Prop :=
  (∀ j : nat, (j < 32)%nat → word s tcb (Z.of_nat j) = nth j x 0) ∧ word s tcb 33 = pc.

Lemma csr_read_run n s : (lift (csrr n) : M KS Z) s = Ret (csr_value (k_csrs s) n) s.
Proof. unfold lift, csrr, gets. f_equal. by destruct s. Qed.

(** ** The system calls on memory *)

(** What the call [id] did *)
Definition call_did (id a0 a1 a2 : Z) s tcb (r : Z) s' : Prop :=
  (id = Syscall.SYSCALL_MMAP ∧ mmap_did s tcb a0 a1 a2 r s') ∨
  (id = Syscall.SYSCALL_MUNMAP ∧ munmap_did s tcb a0 a1 r s').
Lemma call_wp id a0 a1 a2 s tcb `{KernelHeap} `{TaskInfoLayout} :
  id = Syscall.SYSCALL_MMAP ∨ id = Syscall.SYSCALL_MUNMAP →
  kernel_inv s → running s tcb → is_usize a0 → is_usize a1 → is_usize a2 →
  wp (Syscall.syscall_handler id a0 a1 a2) (λ r s', ∃ n, r = Done n ∧ call_did id a0 a1 a2 s tcb n s') s.
Proof.
  intros Hid Hi Hrun H0' H1' H2'. destruct Hid as [->| ->].
  - apply wp_klift. eapply wp_mono; [by apply mmap_wp|].
    intros n s' Hd. exists n. split; [done|by left].
  - apply wp_klift. eapply wp_mono; [by apply munmap_wp|].
    intros n s' Hd. exists n. split; [done|by right].
Qed.

(** In every case one step of the task's space, which keeps the bytes of its pages *)
Lemma call_step id a0 a1 a2 s tcb n s' :
  kernel_inv s → running s tcb → call_did id a0 a1 a2 s tcb n s' →
  (n = 0 ∨ n = -1) ∧ ∃ v, stepped s tcb v s' ∧ running s' (Tcb.set_vm_space v tcb) ∧
    ∀ u t pm p, has (areas v) u t pm (Some p) → page_same p (mem_of s) (mem_of s').
Proof.
  intros Hi Hrun. assert (∃ v, stepped s tcb v s ∧ running s (Tcb.set_vm_space v tcb) ∧
    ∀ u t pm p, has (areas v) u t pm (Some p) → page_same p (mem_of s) (mem_of s)) as Hsame.
  { exists (vm_space tcb). rewrite set_same_space. split_and!; [|done|done].
    apply stepped_refl; [done|apply Hrun]. }
  intros [[_ [(-> & _ & v & Hst & Hrun' & Em & _)|(-> & _ & ->)]]|[_ Hd]].
  - split; [by left|]. exists v. split_and!; [done..|]. intros u t pm p _. unfold mem_of. cbn. by rewrite Em.
  - split; [by right|done].
  - unfold munmap_did in Hd. destruct (negb _); [destruct Hd as [-> ->]; split; [by right|done]|].
    destruct Hd as (-> & v & Hst & Hrun' & _ & _ & Hp & _). split; [by left|]. by exists v.
Qed.
(** ** What the rest of the trap does is invisible *)

(** Nobody notices, [tcb] and its memory included; only its statistics may differ. *)
Record invisible s tcb s' tcb' : Prop := {
  iv_inv : kernel_inv s';
  iv_same : same_task tcb tcb';
  iv_tasks : ∃ i, tasks_of s !! i = Some tcb ∧ tasks_of s' = <[i := tcb']> (tasks_of s);
  iv_view : same_view s (vm_space tcb) s' (vm_space tcb');
  iv_free p : ps_free s' p → ps_free s p ∨ owns (vm_space tcb) p;
  iv_others other : other ∈ tasks_of s → task_id other ≠ task_id tcb →
    undisturbed (vm_space other) s s';
}.

Lemma invisible_quiet s0 s1 tcb tcb' s2 s3 :
  quiet s0 s1 → quiet s2 s3 → invisible s1 tcb s2 tcb' → invisible s0 tcb s3 tcb'.
Proof.
  intros Hq Hq' [Hi Hs Ht Hv Hf Ho]. split.
  - by apply (quiet_inv s2).
  - done.
  - rewrite (quiet_tasks _ _ Hq'), <- (quiet_tasks _ _ Hq). done.
  - eapply same_view_trans; [by apply quiet_view|]. eapply same_view_trans; [exact Hv|by apply quiet_view].
  - intros p. rewrite (quiet_free s2 s3), <- (quiet_free s0 s1) by done. apply Hf.
  - intros other Hin Hne. apply (undisturbed_quiet _ s0 s1); [done|]. apply (quiet_undisturbed _ _ s2); [done|].
    apply Ho; [|done]. by rewrite (quiet_tasks _ _ Hq).
Qed.

Lemma invisible_trans s1 s2 s3 t1 t2 t3 :
  invisible s1 t1 s2 t2 → invisible s2 t2 s3 t3 → invisible s1 t1 s3 t3.
Proof.
  intros [Hi1 (E1 & E2 & E3) [i [Hix Et]] Hv Hf Ho] [Hi2 (E1' & E2' & E3') [j [Hjx Et']] Hv' Hf' Ho'].
  assert (tasks_of s2 !! i = Some t2) as Hix2.
  { rewrite Et. apply list_lookup_insert_eq. by eapply lookup_lt_Some. }
  assert (j = i) as -> by (by eapply (kernel_task_index s2)).
  split.
  - done.
  - split_and!; congruence.
  - exists i. split; [done|]. by rewrite Et', Et, list_insert_insert_eq.
  - by eapply same_view_trans.
  - intros p [Hp|Hp]%Hf'; [by apply Hf|]. right. by rewrite <- E2.
  - intros other Hin Hne. eapply undisturbed_trans; [by apply Ho|]. apply Ho'; [|by rewrite E1].
    rewrite Et. apply list_elem_of_lookup in Hin as [k Hk]. apply list_elem_of_lookup. exists k.
    rewrite list_lookup_insert_ne; [done|]. intros <-. congruence.
Qed.

Lemma context_step_invisible s tcb s' : context_step s tcb s' → invisible s tcb s' tcb.
Proof.
  intros ([Hi (i & Hix & Et) _ _ _ _ Hf _ _ _ Ho] & Hv & _). split; [done|done| |done| |done].
  - exists i. by rewrite set_same_space in Et.
  - intros p [?|?]%Hf; [by right|by left].
Qed.
Lemma relabelled_invisible s tcb tcb' s' : kernel_inv s → relabelled s tcb tcb' s' → invisible s tcb s' tcb'.
Proof.
  intros Hi [Hi' _ Hs Ht Er].
  assert (k_mm s' = k_mm s) as Em by (by rewrite Er).
  assert (mem_of s' = mem_of s) as Emem by (unfold mem_of; cbn; by rewrite Em).
  split; [done|done|done| | |].
  - destruct Hs as (_ & -> & _). intros need va _ _. unfold user_byte, page_byte. by rewrite Emem.
  - intros p. unfold ps_free. cbn. rewrite Em. by left.
  - intros other Hin _. pose proof (ki_tasks _ Hi) as Hts. rewrite Forall_forall in Hts.
    pose proof (tk_space _ _ (Hts _ Hin)) as Hv. split; [by apply (vm_inv_mm _ s)|by rewrite Emem|by rewrite Emem|].
    intros p. unfold reaches. by rewrite Emem.
Qed.
Lemma invisible_refl s tcb : kernel_inv s → tcb ∈ tasks_of s → invisible s tcb s tcb.
Proof. intros. by apply context_step_invisible, context_step_refl. Qed.
(** ** The arm of [u_trap_handler] *)

Lemma get_word_run s tcb i : load_u64 (context_of tcb + 8 * i) s = Ret (word s tcb i) s.
Proof. done. Qed.

(** The words are where the kernel stack is. *)
Lemma word_context s tcb tcb' i : context_of tcb' = context_of tcb → word s tcb' i = word s tcb i.
Proof. intros E. unfold word. by rewrite E. Qed.
Lemma same_task_context tcb tcb' : same_task tcb tcb' → context_of tcb' = context_of tcb.
Proof. intros (_ & E & _). unfold context_of. by rewrite E. Qed.

(** A step of the task keeps them. *)
Lemma advanced_context s tcb v s' :
  kernel_inv s → running s tcb → advanced nothing s tcb v s' →
  context_of (Tcb.set_vm_space v tcb) = context_of tcb ∧
  ∀ i, 0 <= i < 35 → word s' tcb i = word s tcb i.
Proof.
  intros Hi Hrun Hav. pose proof (ki_tasks _ Hi) as Hts. rewrite Forall_forall in Hts.
  destruct (Hts _ (rn_in _ _ Hrun)) as [Hv [p Hp] _ _ _].
  destruct (av_ends _ _ _ _ _ Hav) as (_ & _ & _ & Ek).
  split; [unfold context_of; simpl; by rewrite Ek|]. intros i Hix.
  apply (context_word_same tcb p s s' i Hv Hp Hix).
  destruct (av_stack _ _ _ _ _ Hav p Hp) as [_ Hs]. by apply Hs; intros [].
Qed.

Lemma context_step_running s tcb s' : running s tcb → context_step s tcb s' → running s' tcb.
Proof.
  intros Hrun (Hav & _ & Ec & Et & _).
  rewrite <- set_same_space. apply (advanced_running (stack_page tcb) s tcb (vm_space tcb) s' Hrun Hav); [done|by rewrite Ec].
Qed.

(** What the arm did: the call ran on [s1], as the task's own step; before and after it
    only the context and the statistics changed.  The result is in [x10] and the program
    counter behind the [ecall]. *)
Definition syscalled s tcb (x : list Z) (n : Z) s' tcb' : Prop :=
  ∃ s1 s2 tcb1 v,
    invisible s tcb s1 tcb1 ∧ tcb1 = (Tcb.record_syscall (nth 17 x 0) tcb).2 ∧
    call_did (nth 17 x 0) (nth 10 x 0) (nth 11 x 0) (nth 12 x 0) s1 tcb1 n s2 ∧
    tcb' = Tcb.set_vm_space v tcb1 ∧ stepped s1 tcb1 v s2 ∧ invisible s2 tcb' s' tcb'.

Lemma nth_insert_regs (x : list Z) (i : nat) v j :
  (i < length x)%nat → nth j (<[i := v]> x) 0 = if decide (j = i) then v else nth j x 0.
Proof.
  intros Hi. rewrite !nth_lookup. case_decide as E.
  - subst j. by rewrite list_lookup_insert_eq.
  - by rewrite list_lookup_insert_ne.
Qed.

(** Before the call runs, the task is recorded and [sepc] is behind the [ecall]. *)
Record syscall_ready s tcb (x : list Z) (epc : Z) s' tcb' : Prop := {
  sr_invisible : invisible s tcb s' tcb';
  sr_running : running s' tcb';
  sr_context : context_of tcb' = context_of tcb;
  sr_holds : context_holds s' tcb' x (epc ⊕ 4);
  sr_sbi : k_sbi s' = k_sbi s;
}.

Lemma user_syscall_start `{KernelHeap} `{TaskInfoLayout} s tcb x epc :
  kernel_inv s → running s tcb → user_regs x → is_usize epc → context_holds s tcb x epc →
  let tcb1 := (Tcb.record_syscall (nth 17 x 0) tcb).2 in
  ∃ s1, syscall_ready s tcb x epc s1 tcb1 ∧
    Utrap.user_syscall (context_of tcb) s =
    (r ⇐ Syscall.syscall_handler (nth 17 x 0) (nth 10 x 0) (nth 11 x 0) (nth 12 x 0);
     klift (TrapCtx.set_x (context_of tcb1) 10 (isize_as_usize r))) s1.
Proof.
  intros Hi Hrun [Hlen _ Hu] Hepc [Hx Hpc] tcb1. unfold Utrap.user_syscall.
  destruct (wp_returns _ _ _ (record_syscall_wp s tcb (nth 17 x 0) Hi Hrun)) as (b & sr & Hrr & Hrl).
  fold tcb1 in Hrl. pose proof Hrl as [Hir Hrunr Hsame _ Er].
  pose proof (same_task_context _ _ Hsame) as Ec1.
  assert (∀ i, word sr tcb1 i = word s tcb i) as Hwr.
  { intros i. rewrite (word_context _ _ _ _ Ec1). unfold word. rewrite Er. done. }
  destruct (store_word_step sr tcb1 33 (epc ⊕ 4) Hir (rn_in _ _ Hrunr) ltac:(lia) ltac:(apply wrap_is_usize) ltac:(lia))
    as (s1 & Hst1 & Hcs1 & Hw1).
  assert (∀ j : nat, (j < 32)%nat → word s1 tcb1 (Z.of_nat j) = nth j x 0) as Hx1.
  { intros j Hj. rewrite Hw1, decide_False, Hwr by lia. by apply Hx. }
  exists s1. split; [split|].
  - exact (invisible_trans _ _ _ _ _ _ (relabelled_invisible _ _ _ _ Hi Hrl) (context_step_invisible _ _ _ Hcs1)).
  - exact (context_step_running _ _ _ Hrunr Hcs1).
  - done.
  - split; [done|]. by rewrite Hw1, decide_True by lia.
  - destruct Hcs1 as (_ & _ & _ & _ & -> & _). by rewrite Er.
  - etransitivity; [apply kbind_run, get_word_run|]. rewrite (Hx 17%nat ltac:(lia) : word s tcb 17 = _).
    etransitivity; [apply (kbind_run _ _ _ _ _ Hrr)|]. rewrite <- Ec1.
    etransitivity; [apply kbind_run, get_word_run|]. rewrite Hwr, Hpc.
    etransitivity; [apply (kbind_run _ _ _ _ _ Hst1)|].
    etransitivity; [apply kbind_run, get_word_run|]. rewrite (Hx1 10%nat ltac:(lia) : word s1 tcb1 10 = _).
    etransitivity; [apply kbind_run, get_word_run|]. rewrite (Hx1 11%nat ltac:(lia) : word s1 tcb1 11 = _).
    etransitivity; [apply kbind_run, get_word_run|]. by rewrite (Hx1 12%nat ltac:(lia) : word s1 tcb1 12 = _).
Qed.

(** The result goes to [x10]. *)
Lemma user_syscall_finish s tcb n x pc :
  kernel_inv s → running s tcb → length x = 32%nat → context_holds s tcb x pc →
  wp (TrapCtx.set_x (context_of tcb) 10 (isize_as_usize n)) (λ _ s',
    invisible s tcb s' tcb ∧ running s' tcb ∧ k_sbi s' = k_sbi s ∧
    context_holds s' tcb (<[10%nat := isize_as_usize n]> x) pc) s.
Proof.
  intros Hi Hrun Hlen [Hx Hpc].
  destruct (store_word_step s tcb 10 (isize_as_usize n) Hi (rn_in _ _ Hrun) ltac:(lia) ltac:(apply wrap_is_usize) ltac:(lia))
    as (s' & Hst & Hcs & Hw).
  eapply wp_intro; [exact Hst|]. split_and!.
  - by apply context_step_invisible.
  - by eapply context_step_running.
  - apply Hcs.
  - split.
    + intros j Hj. rewrite Hw, nth_insert_regs by lia.
      destruct (decide (j = 10%nat)) as [->|Hne]; [by rewrite decide_True by lia|].
      rewrite decide_False by lia. by apply Hx.
    + by rewrite Hw, decide_False by lia.
Qed.

Lemma user_regs_nth x j : user_regs x → (j < 32)%nat → is_usize (nth j x 0).
Proof.
  intros [Hlen _ Hu] Hj. rewrite Forall_forall in Hu. apply Hu. apply list_elem_of_In, nth_In. lia.
Qed.

Lemma user_syscall_wp `{KernelHeap} `{TaskInfoLayout} s tcb x epc :
  kernel_inv s → running s tcb → user_regs x → is_usize epc → context_holds s tcb x epc →
  nth 17 x 0 = Syscall.SYSCALL_MMAP ∨ nth 17 x 0 = Syscall.SYSCALL_MUNMAP →
  wp (Utrap.user_syscall (context_of tcb)) (λ r s', r = Done tt ∧ ∃ n tcb',
    syscalled s tcb x n s' tcb' ∧ running s' tcb' ∧ context_of tcb' = context_of tcb ∧
    context_holds s' tcb' (<[10%nat := isize_as_usize n]> x) (epc ⊕ 4)) s.
Proof.
  intros Hi Hrun Hu Hepc Hctx Hid.
  destruct (user_syscall_start s tcb x epc) as (s1 & [Hinv Hrun1 Ec1 [Hx1 Hpc1] _] & E); [done..|].
  apply (wp_at _ _ _ _ _ E). clear E.
  set (tcb1 := (Tcb.record_syscall (nth 17 x 0) tcb).2) in *. pose proof (iv_inv _ _ _ _ Hinv) as Hi1.
  apply wp_bind. eapply wp_mono; [apply (call_wp _ _ _ _ s1 tcb1); [done..|apply user_regs_nth; [done|lia]
    |apply user_regs_nth; [done|lia]|apply user_regs_nth; [done|lia]]|].
  intros r s2 (n & -> & Hcall). cbn [flow_bind].
  destruct (call_step _ _ _ _ _ _ _ _ Hi1 Hrun1 Hcall) as (_ & v & Hst & Hrun2 & _).
  destruct (advanced_context _ _ _ _ Hi1 Hrun1 (st_advanced _ _ _ _ Hst)) as [Ec2 Hw2].
  set (tcb2 := Tcb.set_vm_space v tcb1) in *. rewrite <- Ec2. apply wp_klift.
  assert (∀ i, 0 <= i < 35 → word s2 tcb2 i = word s1 tcb1 i) as Hw.
  { intros i Hix. rewrite (word_context _ _ _ _ Ec2). by apply Hw2. }
  eapply wp_mono; [apply (user_syscall_finish s2 tcb2 n x (epc ⊕ 4)); [|done|apply Hu|]|].
  - apply (av_inv _ _ _ _ _ (st_advanced _ _ _ _ Hst)).
  - split; [intros j Hj; rewrite Hw by lia; by apply Hx1|by rewrite Hw by lia].
  - intros [] s3 (Hinv3 & Hrun3 & _ & Hctx3). split; [done|]. exists n, tcb2.
    split_and!; [|done|by rewrite Ec2|done].
    by exists s1, s2, tcb1, v.
Qed.
End trap.
