(* ===== verification/UtrapEntry.v ===== *)
(** * Into the kernel and back: [src/os/src/trap/trap.S]

    What [__stvec] leaves for [u_trap_handler] and what [__restore_u_ctx] gives back to
    the task. *)

From S2P Require Export UtrapProps.
From S2P Require Import Spin PageAlloc Regs Console.
From stdpp Require Import list.
Open Scope Z_scope.

Section entry.
Context `{LinkerSymbols} `{TrapSymbols} `{Fmt} `{Log.EnvLog}
  `{KernelHeap} `{TaskInfoLayout}.
Implicit Types (s : KS) (tcb : TaskControlBlock).

(** ** Leaving *)

(** The registers the context of [tcb] holds *)
Definition saved_regs s tcb : list Z := 0 :: (word s tcb <$> seqZ 1 31).

Lemma saved_regs_user s tcb : user_regs (saved_regs s tcb).
Proof.
  split; [done|done|]. apply Forall_cons. split; [unfold is_usize, USIZE_MODULUS; lia|].
  apply Forall_fmap, Forall_forall. intros i _. apply read_u64_range.
Qed.

Lemma context_holds_saved s tcb x pc :
  user_regs x → context_holds s tcb x pc → saved_regs s tcb = x.
Proof.
  intros [Hlen H0' _] [Hx _]. destruct x as [|x0 x]; [done|]. unfold saved_regs. simpl in H0'. subst x0.
  f_equal. apply list_eq. intros i. rewrite list_lookup_fmap.
  destruct (decide (i < 31)%nat) as [Hi|Hi].
  - rewrite lookup_seqZ_lt by lia. simpl. pose proof (Hx (Datatypes.S i) ltac:(lia)) as E.
    replace (1 + Z.of_nat i) with (Z.of_nat (Datatypes.S i)) by lia. rewrite E. simpl.
    rewrite nth_lookup. simpl in Hlen. destruct (x !! i) eqn:Ex; [done|].
    apply lookup_ge_None in Ex. lia.
  - rewrite lookup_seqZ_ge by lia. simpl in Hlen. symmetry. apply lookup_ge_None. lia.
Qed.

(** Only registers change; the task goes on with what its context holds. *)
Definition left_kernel s tcb (x : list Z) (pc : Z) s' : Prop :=
  quiet s s' ∧ k_sbi s' = k_sbi s ∧ in_user s' tcb ∧ x = saved_regs s tcb ∧ pc = word s tcb 33.

Lemma restore_u_ctx_wp s tcb :
  running s tcb → wp Utrap.restore_u_ctx (λ '(x, pc) s', left_kernel s tcb x pc s') s.
Proof.
  intros Hrun. pose proof Hrun as [Hin Hst Honly Htp Hsatp [_ Hvec]]. unfold Utrap.restore_u_ctx.
  wp_step. wp_step. rewrite Htp. wp_step. eapply wp_intro; [reflexivity|].
  set (s1 := upd _ s). wp_step. eapply wp_intro; [exact (get_word_run s1 tcb 32)|].
  wp_step. eapply wp_intro; [reflexivity|]. set (s2 := upd _ s1).
  wp_step. eapply wp_intro; [exact (get_word_run s2 tcb 33)|].
  wp_step. eapply wp_intro; [reflexivity|]. set (s3 := upd _ s2).
  wp_step. wp_step. wp_step. wp_step. set (s4 := set_tp _ s3).
  assert (quiet s s4) as Hq by done. wp_step.
  destruct (sret_run s4) as (c & Hrun4 & Hc & _). eapply wp_intro; [exact Hrun4|]. wp_step.
  assert (k_csrs s4 = <[Sepc.CSR_NO := word s2 tcb 33]> (<[Sstatus.CSR_NO := word s1 tcb 32]>
    (<[Trap.SSCRATCH := context_of tcb]> (k_csrs s)))) as Ec by done.
  split; [done|]. split; [done|]. split; [|split].
  - split.
    + done.
    + done.
    + done.
    + cbn. rewrite Hc, Ec by done. rewrite !csr_value_insert_ne by done. exact Hsatp.
    + cbn. rewrite Hc, Ec by done. by rewrite !csr_value_insert_ne, csr_value_insert_same by done.
    + cbn. rewrite Hc, Ec by done. rewrite !csr_value_insert_ne by done. exact Hvec.
  - unfold saved_regs. f_equal.
  - rewrite Ec, csr_value_insert_same. done.
Qed.
(** ** Entering *)

(** The handler runs as the kernel side of [tcb], whose state is in its context. *)
Record entered s tcb (cause epc tval : Z) (x : list Z) s' : Prop := {
  en_invisible : invisible s tcb s' tcb;
  en_running : running s' tcb;
  en_context : context_holds s' tcb x epc;
  en_cause : csr_value (k_csrs s') Scause.CSR_NO = cause;
  en_sepc : csr_value (k_csrs s') Sepc.CSR_NO = epc;
  en_stval : csr_value (k_csrs s') Stval.CSR_NO = tval;
  en_sbi : k_sbi s' = k_sbi s;
  en_tables va : mmu_translate (mem_of s') (rp_ppn (root_pgt (vm_space tcb))) va =
    mmu_translate (mem_of s) (rp_ppn (root_pgt (vm_space tcb))) va;
}.

(** Register [x4] is saved behind the others. *)
Lemma nth_regs_tp (x : list Z) tp (j : nat) :
  length x = 32%nat →
  (if decide (j = 4)%nat then nth 4 x 0 else nth j (<[4%nat := tp]> x) 0) = nth j x 0.
Proof.
  intros Hlen. case_decide as E; [by subst j|]. by rewrite nth_insert_regs, decide_False by lia.
Qed.

(** [__save_u_ctx], the context in [tp] and the user's [tp] in [sscratch] *)
Lemma save_u_ctx_run s tcb x :
  kernel_inv s → tcb ∈ tasks_of s → k_tp s = context_of tcb → user_regs x →
  csr_value (k_csrs s) Trap.SSCRATCH = nth 4 x 0 → is_usize (csr_value (k_csrs s) Sepc.CSR_NO) →
  Z.testbit (csr_value (k_csrs s) Sstatus.CSR_NO) 8 = false →
  ∃ s', Utrap.save_u_ctx x s = Ret tt s' ∧
    context_step (upd (<[Trap.SSCRATCH := 0]> (k_csrs s)) s) tcb s' ∧
    context_holds s' tcb x (csr_value (k_csrs s) Sepc.CSR_NO).
Proof.
  intros Hi Hin Htp Hregs Hscr Hepc Hspp. pose proof Hregs as [Hlen _ Hu]. unfold Utrap.save_u_ctx.
  set (c1 := <[Trap.SSCRATCH := 0]> (k_csrs s)).
  assert (is_usize (context_of tcb)) as Hctx by apply wrap_is_usize.
  assert (0 + length (<[4%nat := context_of tcb]> x) <= 32)%nat as Hlen' by (rewrite length_insert; lia).
  assert (Forall is_usize (<[4%nat := context_of tcb]> x)) as Hu' by (by apply Forall_insert).
  destruct (wp_returns _ _ _ (store_words_wp tcb _ 0 s Hi Hin Hlen' Hu')) as ([] & s2 & Hr2 & Hcs2 & Hw2).
  rewrite length_insert, Hlen in Hw2.
  pose proof Hcs2 as (Hav2 & _ & Ecs2 & Etp2 & _).
  set (s2' := upd (<[Trap.SSCRATCH := 0]> (k_csrs s2)) s2).
  assert (quiet s2 s2') as Hq2 by done.
  assert (context_step (upd c1 s) tcb s2') as Hcs2'.
  { destruct Hcs2 as (Hav & Hv & Ec & Et & Es & Em). split_and!.
    - by apply (advanced_quiet _ _ s s2).
    - eapply same_view_trans; [by apply (quiet_view (upd c1 s) s)|].
      eapply same_view_trans; [exact Hv|by apply quiet_view].
    - change (k_csrs s2') with (<[Trap.SSCRATCH := 0]> (k_csrs s2)). by rewrite Ec.
    - exact Et.
    - exact Es.
    - exact Em. }
  assert (tcb ∈ tasks_of s2') as Hin2.
  { pose proof (advanced_in _ _ _ _ _ Hav2) as Hin2. by rewrite set_same_space in Hin2. }
  destruct (store_word_any s2' tcb 4 (nth 4 x 0)) as (s3 & Hst3 & Hcs3 & Hw3); [apply Hcs2'|done|lia|lia|].
  pose proof (context_step_trans _ _ _ _ Hcs2' Hcs3) as Hcs13.
  assert (tcb ∈ tasks_of s3) as Hin3.
  { destruct Hcs13 as (Hav & _). pose proof (advanced_in _ _ _ _ _ Hav) as Hin3. by rewrite set_same_space in Hin3. }
  assert (k_csrs s3 = c1) as Ec3 by apply Hcs13.
  destruct (store_word_any s3 tcb 32 (csr_value (k_csrs s3) Sstatus.CSR_NO)) as (s4 & Hst4 & Hcs4 & Hw4);
    [apply Hcs13|done|lia| |].
  { intros _. rewrite Ec3. unfold c1. by rewrite csr_value_insert_ne. }
  pose proof (context_step_trans _ _ _ _ Hcs13 Hcs4) as Hcs14.
  assert (tcb ∈ tasks_of s4) as Hin4.
  { destruct Hcs14 as (Hav & _). pose proof (advanced_in _ _ _ _ _ Hav) as Hin4. by rewrite set_same_space in Hin4. }
  assert (csr_value (k_csrs s4) Sepc.CSR_NO = csr_value (k_csrs s) Sepc.CSR_NO) as Esepc.
  { assert (k_csrs s4 = c1) as -> by apply Hcs14. unfold c1. by rewrite csr_value_insert_ne. }
  destruct (store_word_step s4 tcb 33 (csr_value (k_csrs s) Sepc.CSR_NO)) as (s5 & Hst5 & Hcs5 & Hw5);
    [apply Hcs14|done|lia|done|lia|].
  exists s5. split; [|split].
  - etransitivity; [apply bind_run; reflexivity|]. rewrite Htp.
    etransitivity; [apply (bind_run _ _ _ _ _ Hr2)|].
    etransitivity; [apply bind_run, csr_read_run|]. rewrite Ecs2, Hscr.
    etransitivity; [apply (bind_run _ _ s2 tt s2'); by destruct s2|].
    etransitivity; [apply (bind_run _ _ _ _ _ Hst3)|].
    etransitivity; [apply bind_run, csr_read_run|].
    etransitivity; [apply (bind_run _ _ _ _ _ Hst4)|].
    etransitivity; [apply bind_run, csr_read_run|]. by rewrite Esepc.
  - by eapply context_step_trans.
  - split; [|by rewrite Hw5, decide_True by lia]. intros j Hj.
    rewrite Hw5, decide_False, Hw4, decide_False, Hw3 by lia.
    rewrite <- (nth_regs_tp x (context_of tcb) j Hlen). destruct (decide (j = 4)%nat) as [->|Hne].
    + rewrite decide_True by lia. apply wrap_small. by apply user_regs_nth; [|lia].
    + rewrite decide_False by lia. transitivity (word s2 tcb (Z.of_nat j)); [done|].
      rewrite Hw2, decide_True by lia. by rewrite Nat.sub_0_r.
Qed.

Lemma u_trap_start s tcb cause epc tval x :
  kernel_inv s → in_user s tcb → user_regs x → is_usize epc →
  ∃ s1, entered s tcb cause epc tval x s1 ∧
    Utrap.u_trap cause epc tval x s =
    ('_ ⇐ Utrap.u_trap_handler (context_of tcb); klift Utrap.restore_u_ctx) s1.
Proof.
  intros Hi [Hin Hst Honly Hsatp Hscr Hvec] Hu Hepc. unfold Utrap.u_trap.
  set (s0 := set_tp (nth 4 x 0) s).
  destruct (take_trap_run true cause epc tval s0) as (c & Hrun0 & Hc & He & Ht & Hrest & Hspp & _).
  pose proof (trap_csr_same _ _ Hrest) as Hsame. change (k_csrs s0) with (k_csrs s) in Hsame.
  destruct (context_id s tcb Hi Hin) as [Hne _].
  assert (csr_value c Trap.SSCRATCH = context_of tcb) as Escr.
  { rewrite <- Hscr. apply Hsame. right; left. }
  assert (csr_value c Stvec.CSR_NO = __stvec) as Evec.
  { rewrite <- Hvec. apply Hsame. right; right; left. }
  set (c1 := <[Trap.SSCRATCH := nth 4 x 0]> c). set (s1 := set_tp (context_of tcb) (upd c1 s0)).
  assert (quiet s s1) as Hq by done. pose proof (quiet_inv _ _ Hq Hi) as Hi1.
  assert (∀ n, n ≠ Trap.SSCRATCH → csr_value (k_csrs s1) n = csr_value c n) as Hc1.
  { intros n Hn. by apply csr_value_insert_ne. }
  destruct (save_u_ctx_run s1 tcb x Hi1 Hin eq_refl Hu) as (s2 & Hsave & Hcs & Hctx).
  { apply csr_value_insert_same. } { by rewrite Hc1, He. } { by rewrite Hc1. }
  rewrite Hc1, He in Hctx by done.
  set (s1' := upd (<[Trap.SSCRATCH := 0]> (k_csrs s1)) s1) in *.
  assert (quiet s s1') as Hq' by done.
  assert (k_csrs s2 = <[Trap.SSCRATCH := 0]> (k_csrs s1)) as Ec2 by apply Hcs.
  assert (∀ n, n ≠ Trap.SSCRATCH → csr_value (k_csrs s2) n = csr_value c n) as Hc2.
  { intros n Hn. by rewrite Ec2, csr_value_insert_ne, Hc1. }
  assert (running s1' tcb) as Hrun1.
  { split; [done|done|done|done| |].
    - rewrite <- Hsatp. transitivity (csr_value c 0x180); [|by apply (same_hart_satp _ _ Hsame)].
      change (k_csrs s1') with (<[Trap.SSCRATCH := 0]> (k_csrs s1)). by rewrite csr_value_insert_ne, Hc1.
    - change (k_csrs s1') with (<[Trap.SSCRATCH := 0]> (k_csrs s1)).
      split; [apply csr_value_insert_same|]. by rewrite csr_value_insert_ne, Hc1. }
  exists s2. split; [split|].
  - apply (invisible_quiet s s1' tcb tcb s2 s2); [done..|]. by apply context_step_invisible.
  - by eapply context_step_running.
  - exact Hctx.
  - by rewrite Hc2.
  - by rewrite Hc2.
  - by rewrite Hc2.
  - destruct Hcs as (_ & _ & _ & _ & -> & _). done.
  - intros va. destruct Hcs as (_ & _ & _ & _ & _ & ->). by rewrite (quiet_mem _ _ Hq').
  - etransitivity; [apply kbind_run; reflexivity|]. fold s0.
    etransitivity; [apply (kbind_run _ _ _ _ _ Hrun0)|].
    etransitivity; [apply kbind_run, (dispatch_run (upd c s0)); exact Evec|].
    change (k_csrs (upd c s0)) with c. rewrite Escr, (proj2 (Z.eqb_neq _ _) Hne).
    change (k_tp (upd c s0)) with (nth 4 x 0). cbv iota.
    etransitivity; [apply (kbind_run _ _ _ _ _ Hsave)|].
    assert (k_tp s2 = context_of tcb) as <- by apply Hcs.
    etransitivity; [apply kbind_run; reflexivity|]. done.
Qed.
End entry.
