(* ===== verification/UtrapArms.v ===== *)
(** * The arms of [u_trap_handler]

    Ending the time slice of a task, and what every arm leaves behind: the task goes on,
    another one is handed the hart, or the machine powers off. *)

From S2P Require Export UtrapEntry IoProps.
From S2P Require Import Spin PageAlloc Regs Console.
From stdpp Require Import list.
Open Scope Z_scope.

Section arms.
Context `{LinkerSymbols} `{TrapSymbols} `{Fmt} `{Log.EnvLog}
  `{KernelHeap} `{TaskInfoLayout}.
Implicit Types (s : KS) (tcb : TaskControlBlock).

(** ** What holds for everybody else *)

(** Every other task stays listed, up to its state and statistics, and its memory is as
    it was. *)
Definition others_kept s tcb s' : Prop :=
  ∀ other, other ∈ tasks_of s → task_id other ≠ task_id tcb →
    ∃ other', other' ∈ tasks_of s' ∧ same_task other other' ∧ undisturbed (vm_space other) s s'.

(** The kernel is sound and [tcb] is [tcb'] now. *)
Record kept s tcb s' tcb' : Prop := {
  kp_inv : kernel_inv s';
  kp_id : task_id tcb' = task_id tcb;
  kp_others : others_kept s tcb s';
}.

Lemma others_kept_trans s1 s2 s3 t1 t2 :
  task_id t2 = task_id t1 → others_kept s1 t1 s2 → others_kept s2 t2 s3 → others_kept s1 t1 s3.
Proof.
  intros E Ho1 Ho2 other Hin Hne. destruct (Ho1 other Hin Hne) as (o2 & Hin2 & (Ei & Ev & Ec) & Hu1).
  destruct (Ho2 o2 Hin2) as (o3 & Hin3 & (Ei' & Ev' & Ec') & Hu2); [congruence|].
  exists o3. split; [done|]. split; [split_and!; congruence|]. rewrite Ev in Hu2. by eapply undisturbed_trans.
Qed.
Lemma kept_trans s1 s2 s3 t1 t2 t3 : kept s1 t1 s2 t2 → kept s2 t2 s3 t3 → kept s1 t1 s3 t3.
Proof.
  intros [Hi1 E1 Ho1] [Hi2 E2 Ho2]. split; [done|congruence|]. by eapply others_kept_trans.
Qed.

(** Another control block than that of [tcb] stays in the list. *)
Lemma other_stays s tcb tcb' l other :
  kernel_inv s → (∃ i, tasks_of s !! i = Some tcb ∧ l = <[i := tcb']> (tasks_of s)) →
  other ∈ tasks_of s → task_id other ≠ task_id tcb → other ∈ l.
Proof.
  intros Hi (i & Hix & ->) Hin Hne. apply list_elem_of_lookup in Hin as [j Hj].
  apply list_elem_of_lookup. exists j. rewrite list_lookup_insert_ne; [done|]. intros <-. congruence.
Qed.

Lemma invisible_kept s tcb s' tcb' : kernel_inv s → invisible s tcb s' tcb' → kept s tcb s' tcb'.
Proof.
  intros Hi [Hi' Hs Ht _ _ Ho]. split; [done|apply Hs|]. intros other Hin Hne.
  exists other. split; [exact (other_stays _ _ _ _ _ Hi Ht Hin Hne)|]. split; [done|by apply Ho].
Qed.
Lemma advanced_kept P s tcb v s' :
  kernel_inv s → advanced P s tcb v s' → kept s tcb s' (Tcb.set_vm_space v tcb).
Proof.
  intros Hi [Hi' Ht _ _ _ _ _ _ _ _ Ho]. split; [done|done|]. intros other Hin Hne.
  exists other. split; [exact (other_stays _ _ _ _ _ Hi Ht Hin Hne)|]. split; [done|by apply Ho].
Qed.

(** Spaces do not notice what leaves memory and the allocator alone. *)
Lemma undisturbed_mm s s' t : kernel_inv s → k_mm s' = k_mm s → t ∈ tasks_of s → undisturbed (vm_space t) s s'.
Proof.
  intros Hi E Hin. pose proof (ki_tasks _ Hi) as Hts. rewrite Forall_forall in Hts.
  assert (mem_of s' = mem_of s) as Em by (unfold mem_of; cbn; by rewrite E).
  split; [by apply (vm_inv_mm _ s), Hts|by rewrite Em|by rewrite Em|]. intros p. unfold reaches. by rewrite Em.
Qed.
Lemma quiet_kept s tcb s' : kernel_inv s → quiet s s' → kept s tcb s' tcb.
Proof.
  intros Hi Hq. split; [by apply (quiet_inv s)|done|]. intros other Hin _. exists other.
  rewrite (quiet_tasks _ _ Hq). split; [done|]. split; [done|]. apply undisturbed_mm; [done|apply Hq|done].
Qed.

(** ** Updates of the current task under the lock *)

(** Its control block is [tcb'] now, with the same identity, space and context. *)
Record relisted s tcb tcb' s' : Prop := {
  rs_inv : kernel_inv s';
  rs_same : same_task tcb tcb';
  rs_tasks : ∃ i, tasks_of s !! i = Some tcb ∧ tasks_of s' = <[i := tcb']> (tasks_of s);
  rs_mm : k_mm s' = k_mm s;
  rs_csrs : k_csrs s' = k_csrs s;
  rs_tp : k_tp s' = k_tp s;
}.

(** The hart is on the kernel stack of [tcb]. *)
Definition on_hart s tcb : Prop := tcb ∈ tasks_of s ∧ k_tp s = context_of tcb.

Lemma relisted_on_hart s tcb tcb' s' : on_hart s tcb → relisted s tcb tcb' s' → on_hart s' tcb'.
Proof.
  intros [Hin Htp] [_ Hs [i [Hix Et]] _ _ Etp]. split.
  - rewrite Et. apply list_elem_of_lookup. exists i. apply list_lookup_insert_eq. by eapply lookup_lt_Some.
  - by rewrite Etp, Htp, (same_task_context _ _ Hs).
Qed.

Lemma with_current_wp {A} s tcb (f : TaskControlBlock → M KS (A * TaskControlBlock)) Q :
  kernel_inv s → on_hart s tcb →
  wp (f tcb) (λ '(a, tcb') s1, io (lock_tasks s) s1 ∧ same_task tcb tcb' ∧
    ∀ s', relisted s tcb tcb' s' → Q a s') (lock_tasks s) →
  wp (Task.with_current f) Q s.
Proof.
  intros Hi [Hin Htp] Hwp. destruct (context_id s tcb Hi Hin) as [Hne Hid].
  destruct (find_task_in _ (task_id tcb) tcb (ki_ids _ Hi) Hin eq_refl) as [i Hfind].
  pose proof (find_task_Some _ _ _ _ Hfind) as [Hix _]. unfold Task.with_current.
  wp_step. eapply (wp_intro _ _ _ (task_id tcb) s).
  { unfold Task.get_current_task_id, Task.try_get_current_task_id, gets, mbind, M_bind.
    rewrite Htp, (proj2 (Z.eqb_neq _ _) Hne). by rewrite Hid. }
  wp_step. eapply wp_intro; [by apply lock_tasks_run, Hi|]. wp_step. eapply wp_intro; [reflexivity|].
  change (data (proj (lock_tasks s) : SpinLock Tasks)) with (tasks_of s).
  rewrite Hfind. wp_step. eapply wp_intro; [reflexivity|]. cbv beta iota. wp_step.
  eapply wp_mono; [exact Hwp|]. intros [a tcb'] s1 ((Em & Ec & Etp & Ek & En) & Hsame & HQ).
  wp_step. eapply wp_intro; [reflexivity|]. wp_step. eapply wp_intro; [reflexivity|]. wp_step.
  apply HQ. pose proof Hi as [Hl Hts]%kernel_inv_tasks. rewrite (delete_Permutation _ _ _ Hix) in Hts.
  split; [|done|by exists i|exact Em|exact Ec|exact Etp].
  apply kernel_inv_tasks. split; [done|].
  eapply tasks_inv_reorder; [symmetry; by apply (insert_delete_perm _ _ tcb)|].
  apply (tasks_inv_mm _ s); [exact Em|exact En|]. by eapply tasks_inv_same.
Qed.

(** ** The end of a time slice *)

Lemma exchange_wp s tcb new :
  kernel_inv s → running s tcb →
  wp (Task.exchange_current_task_state Running new)
    (λ r s', is_ok r = true ∧ relisted s tcb (Tcb.set_state new tcb) s') s.
Proof.
  intros Hi [Hin Hst _ Htp _ _]. apply (with_current_wp s tcb); [done|by split|].
  unfold Tcb.get_state. rewrite bool_decide_true by done. wp_step. split_and!; [done|done|].
  intros s' Hrl. by split.
Qed.

Lemma record_run_end_wp s tcb :
  kernel_inv s → on_hart s tcb →
  wp Task.record_current_run_end (λ _ s', ∃ tcb', relisted s tcb tcb' s' ∧ state tcb' = state tcb) s.
Proof.
  intros Hi Ho. apply (with_current_wp s tcb); [done..|]. unfold Tcb.record_run_end. wp_step. wp_step.
  eapply wp_mono; [apply read_time_io|]. intros t s1 Hio. wp_step. wp_step. split_and!; [exact Hio|done|].
  intros s' Hrl. by eexists.
Qed.

Lemma relisted_leaving s tcb tcb' s' :
  kernel_inv s → running s tcb → relisted s tcb tcb' s' → state tcb' ≠ Running → leaving s' (Some tcb').
Proof.
  intros Hi Hrun Hrl Hst. split; [apply (relisted_on_hart s tcb); [split; apply Hrun|done]|].
  destruct Hrl as [_ _ [i [Hix Et]] _ Ec _]. split; [|rewrite Ec; apply Hrun].
  intros t Hin Hr. rewrite Et in Hin.
  apply list_elem_of_lookup in Hin as [j Hj]. destruct (decide (j = i)) as [->|Hne].
  - rewrite list_lookup_insert_eq in Hj by (by eapply lookup_lt_Some). by simplify_eq.
  - rewrite list_lookup_insert_ne in Hj by done. apply Hne. symmetry.
    eapply (kernel_task_index s); [done|exact Hix|exact Hj|]. symmetry.
    apply (rn_only _ _ Hrun); [by eapply list_elem_of_lookup_2|done].
Qed.
Lemma relisted_leaving_again s tcb tcb' s' :
  kernel_inv s → leaving s (Some tcb) → relisted s tcb tcb' s' → state tcb' = state tcb →
  leaving s' (Some tcb').
Proof.
  intros Hi (Ho & Hnr & Hker) Hrl Hst. split; [by apply (relisted_on_hart s tcb)|].
  destruct Hrl as [_ _ [i [Hix Et]] _ Ec _]. split; [|by rewrite Ec]. intros t Hin Hr. rewrite Et in Hin.
  apply list_elem_of_lookup in Hin as [j Hj]. destruct (decide (j = i)) as [->|Hne].
  - rewrite list_lookup_insert_eq in Hj by (by eapply lookup_lt_Some). simplify_eq.
    apply (Hnr tcb); [apply Ho|congruence].
  - rewrite list_lookup_insert_ne in Hj by done. apply (Hnr t); [by eapply list_elem_of_lookup_2|done].
Qed.

Lemma io_leaving s s' cur : io s s' → leaving s cur → leaving s' cur.
Proof.
  intros (_ & Ec & Etp & Ek & _) Hl. unfold leaving, tasks_of in *. by rewrite Ec, Ek, Etp.
Qed.
Lemma io_inv s s' : io s s' → kernel_inv s → kernel_inv s'.
Proof. intros Hio. by apply quiet_inv, io_quiet. Qed.

Lemma relisted_kept s tcb tcb' s' : kernel_inv s → relisted s tcb tcb' s' → kept s tcb s' tcb'.
Proof.
  intros Hi [Hi' Hs Ht Em _ _]. split; [done|apply Hs|]. intros other Hin Hne. exists other.
  split; [exact (other_stays _ _ _ _ _ Hi Ht Hin Hne)|]. split; [done|by apply undisturbed_mm].
Qed.

(** The hart left [tcb]: it has a new task, or none is ready. *)
Definition handed_over s tcb {A} (r : flow A) s' : Prop :=
  match r with
  | Done _ => False
  | Switched _ next _ => kernel_inv s' ∧ (∃ t, running s' t ∧ task_id t = next) ∧ others_kept s tcb s'
  | PowerOff is_failure => is_failure = false
  end.

Lemma kept_handed_over s tcb s1 tcb1 {A} (r : flow A) s' :
  kept s tcb s1 tcb1 → handed_over s1 tcb1 r s' → handed_over s tcb r s'.
Proof.
  intros [_ E Ho]. destruct r as [|c n k|b]; [done| |done]. intros (Hi & Hrun & Ho').
  split_and!; [done|done|]. by eapply others_kept_trans.
Qed.

Lemma run_next_handed_over s cur :
  kernel_inv s → leaving s (Some cur) → wp Task.run_next_task (λ r s', handed_over s cur r s') s.
Proof.
  intros Hi Hl. eapply wp_mono; [by apply run_next_task_wp|].
  intros r s' (o & l & s1 & Hrq & Emm & Hsch). destruct r as [|c n k|b]; simpl in *; [done| |by apply Hsch].
  destruct Hsch as (_ & _ & t & t' & rest & Hl1 & _ & -> & _ & Hs & _ & Hi' & Hl' & Hrun & _).
  split; [done|]. split; [exists t'; split; [done|apply Hs]|].
  pose proof Hrq as [_ Hperm _ _ Hmem _ _].
  assert (mem_of s' = mem_of s) as Em by (rewrite <- Hmem; unfold mem_of; cbn; by rewrite Emm).
  intros other Hin Hne. rewrite Hperm in Hin. apply elem_of_app in Hin as [Hd|Hin].
  { exfalso. unfold dropped in Hd. destruct (bool_decide _); [by apply elem_of_nil in Hd|].
    apply list_elem_of_singleton in Hd as ->. done. }
  assert (∃ other', other' ∈ tasks_of s' ∧ same_task other other') as (o' & Hin' & Hso).
  { rewrite Hl1 in Hin. apply elem_of_cons in Hin as [->|Hin]; [exists t'|exists other];
      rewrite Hl'; (split; [|done]); [left|by right]. }
  exists o'. split; [done|]. split; [done|]. pose proof (ki_tasks _ Hi') as Hts. rewrite Forall_forall in Hts.
  destruct Hso as (_ & Ev & _). split.
  - rewrite <- Ev. apply Hts, Hin'.
  - by rewrite Em.
  - by rewrite Em.
  - intros p. unfold reaches. by rewrite Em.
Qed.

(** What comes after is the continuation of a task that does not run any more. *)
Lemma handed_over_bind s0 tcb {A B} (m : K A) (f : A → K B) s :
  wp m (λ r s', handed_over s0 tcb r s') s → wp (kbind m f) (λ r s', handed_over s0 tcb r s') s.
Proof.
  intros Hm. apply wp_bind. eapply wp_mono; [exact Hm|]. intros r s' Hr. by destruct r.
Qed.

(** ** The arms that end a time slice *)

(** [sleep_task] and [kill_task] *)
Lemma stop_task_wp s tcb new :
  kernel_inv s → running s tcb → new ≠ Running →
  wp (Utrap.stop_task new) (λ _ s', ∃ tcb', kept s tcb s' tcb' ∧ leaving s' (Some tcb')) s.
Proof.
  intros Hi Hrun Hnew. unfold Utrap.stop_task. wp_step.
  eapply wp_mono; [by apply exchange_wp|]. intros r s1 [Hok Hrl]. wp_step. apply wp_assert; [done|].
  pose proof (relisted_leaving _ _ _ _ Hi Hrun Hrl Hnew) as Hl1. pose proof (rs_inv _ _ _ _ Hrl) as Hi1.
  eapply wp_mono; [apply (record_run_end_wp s1 (Tcb.set_state new tcb) Hi1), Hl1|].
  intros [] s2 (tcb' & Hrl2 & Hst). exists tcb'. split; [|by eapply relisted_leaving_again].
  eapply kept_trans; by apply relisted_kept.
Qed.

(** The last steps of a time slice: a message, then the next task *)
Lemma log_run_next_wp s0 tcb0 s tcb level fmt args :
  kept s0 tcb0 s tcb → leaving s (Some tcb) →
  wp ('_ ↤ Log.log level fmt args; Task.run_next_task) (λ r s', handed_over s0 tcb0 r s') s.
Proof.
  intros Hk Hl. pose proof (kp_inv _ _ _ _ Hk) as Hi. apply wp_kbind_lift.
  eapply wp_mono; [apply log_io|]. intros [] s2 Hio.
  eapply wp_mono; [apply run_next_handed_over; [by eapply io_inv|by eapply io_leaving]|].
  intros r s'. apply kept_handed_over. eapply kept_trans; [exact Hk|]. by apply quiet_kept, io_quiet.
Qed.

Lemma kill_and_switch_wp s tcb id cause stval sepc :
  kernel_inv s → running s tcb →
  wp (Utrap.kill_and_switch id cause stval sepc) (λ r s', handed_over s tcb r s') s.
Proof.
  intros Hi Hrun. unfold Utrap.kill_and_switch. apply wp_kbind_lift.
  eapply wp_mono; [by apply (stop_task_wp s tcb Killed)|]. intros [] s1 (tcb' & Hk & Hl).
  by apply (log_run_next_wp s tcb s1 tcb').
Qed.

(** [sys_exit] and [sys_yield] *)
Lemma leave_wp s tcb new :
  kernel_inv s → running s tcb → new ≠ Running →
  wp (Syscall.leave new) (λ _ s', ∃ tcb', kept s tcb s' tcb' ∧ leaving s' (Some tcb')) s.
Proof.
  intros Hi Hrun Hnew. unfold Syscall.leave. wp_step.
  eapply wp_mono; [by apply exchange_wp|]. intros r s1 [Hok Hrl]. apply wp_assert; [done|].
  exists (Tcb.set_state new tcb). split; [by apply relisted_kept|by eapply relisted_leaving].
Qed.

Lemma leave_and_switch_wp s tcb new level fmt args (n : Z) :
  kernel_inv s → running s tcb → new ≠ Running →
  wp ('_ ↤ Syscall.leave new; '_ ↤ Log.log level fmt args; '_ ⇐ Task.run_next_task; kret n)
    (λ r s', handed_over s tcb r s') s.
Proof.
  intros Hi Hrun Hnew. apply wp_kbind_lift. eapply wp_mono; [by apply (leave_wp s tcb)|].
  intros [] s1 (tcb' & Hk & Hl). apply wp_kbind_lift. eapply wp_mono; [apply log_io|]. intros [] s2 Hio.
  apply handed_over_bind.
  eapply wp_mono; [apply (run_next_handed_over s2 tcb'); [by apply (io_inv _ _ Hio), Hk|by eapply io_leaving]|].
  intros r s'. apply kept_handed_over. eapply kept_trans; [exact Hk|]. apply quiet_kept; [apply Hk|by apply io_quiet].
Qed.
Lemma sys_exit_wp s tcb code :
  kernel_inv s → running s tcb → wp (Syscall.sys_exit code) (λ r s', handed_over s tcb r s') s.
Proof.
  intros Hi Hrun. unfold Syscall.sys_exit. apply wp_kbind_lift.
  eapply wp_intro; [by apply current_task_run|]. by apply leave_and_switch_wp.
Qed.
Lemma sys_yield_wp s tcb :
  kernel_inv s → running s tcb → wp Syscall.sys_yield (λ r s', handed_over s tcb r s') s.
Proof.
  intros Hi Hrun. unfold Syscall.sys_yield. apply wp_kbind_lift.
  eapply wp_intro; [by apply current_task_run|]. by apply leave_and_switch_wp.
Qed.

(** ** Page faults *)

(** The task resumes where it was, and sees what it saw. *)
Definition fault_resolved s tcb va need s' : Prop :=
  ∃ v, advanced nothing s tcb v s' ∧ running s' (Tcb.set_vm_space v tcb) ∧
    same_view s (vm_space tcb) s' v ∧ ¬ denied s' v va need ∧ k_sbi s' = k_sbi s.

Lemma user_page_fault_wp s tcb cause va sepc need :
  kernel_inv s → running s tcb → 0 <= va < 2 ^ 38 → is_access need → denied s (vm_space tcb) va need →
  wp (Utrap.user_page_fault (task_id tcb) cause va sepc (PERMISSION_U .| need))
    (λ r s', r = Done tt ∧ fault_resolved s tcb va need s' ∨
      handed_over s tcb r s' ∧ (¬ entitled (vm_space tcb) need va ∨ ¬ spare 5 s)) s.
Proof.
  intros Hi Hrun Hva Hn Hden. unfold Utrap.user_page_fault.
  pose proof (rn_in _ _ Hrun) as Hin. pose proof (running_space _ _ Hi Hrun) as Hsp.
  apply wp_kbind_lift. eapply wp_mono; [by apply (do_page_fault_wp s tcb va need)|].
  intros r s1 (v & Hst & Htook & Hsame & Hpost).
  pose proof (stepped_running _ _ _ _ Hrun Hst) as Hrun1. destruct Hst as [Hav Er].
  assert (vm_inv v s1) as Hv by (by eapply advanced_space).
  destruct r as [[]|e].
  - apply wp_ret. left. split; [done|]. exists v. split_and!; [done|done|by eapply map_post_view| |by rewrite Er].
    pose proof (access_min need Hn) as Hmin.
    destruct (map_post_translate _ _ _ _ _ _ Hsp Hv Hva Hmin Hpost) as (pm & p & Hm & _ & _ & Htr).
    pose proof (Htr va Hva) as E. rewrite decide_True in E by done. by eapply resolved_allows.
  - apply wp_kbind_lift. eapply wp_mono; [apply log_io|]. intros [] s2 Hio.
    eapply wp_mono; [apply (kill_and_switch_wp s2 (Tcb.set_vm_space v tcb)); [by apply (io_inv s1), (av_inv _ _ _ _ _ Hav)|]|].
    { destruct Hrun1 as [? ? ? ? ? ?]. destruct Hio as (_ & Ec & Etp & Ek & _).
      split; [|done| |by rewrite Etp|by rewrite Ec|by rewrite Ec]; unfold tasks_of in *; by rewrite Ek. }
    intros r s3 Hh. right. split.
    { eapply kept_handed_over; [|exact Hh]. eapply kept_trans; [by eapply advanced_kept|].
      apply quiet_kept; [apply Hav|by apply io_quiet]. }
    destruct (map_post_unentitled _ _ _ _ _ _ _ Hsp Hpost) as [?|[p Hp]]; [by left|].
    right. intros Hsp5. destruct (spare_left 5 3 s s1 Hsp5 Htook) as (l & Hnd & Hlen & Hl).
    destruct l as [|a [|b [|]]]; [done|done| |done].
    apply NoDup_cons in Hnd as [Hnd _]. apply Hnd. apply list_elem_of_singleton.
    transitivity p; [|symmetry]; apply Hp, Hl; [left|right; left].
Qed.
End arms.
