(* ===== verification/TrapProps.v ===== *)
(** * Every trap of a task comes to an end

    The whole way of a trap from user mode: the task resumes, with its registers and its
    memory as the trap promises, or another task is handed the hart, or the machine powers
    off.  The kernel invariant holds afterwards, so the next trap starts from it.  On the
    traps it has no answer to the kernel panics. *)

From S2P Require Export InfoProps UtrapArms.
From S2P Require Import Spin PageAlloc Regs Console.
From stdpp Require Import list.
Open Scope Z_scope.

Section traps.
Context `{LinkerSymbols} `{TrapSymbols} `{Fmt} `{Log.EnvLog}
  `{KernelHeap} `{TaskInfoLayout} `{!TaskInfoLaws}.
Implicit Types (s : KS) (tcb : TaskControlBlock).

(** ** The system calls *)

(** The calls the kernel has; it panics on any other number. *)
Definition known_call (id : Z) : Prop :=
  id = Syscall.SYSCALL_WRITE ∨ id = Syscall.SYSCALL_MMAP ∨ id = Syscall.SYSCALL_MUNMAP ∨
  id = Syscall.SYSCALL_EXIT ∨ id = Syscall.SYSCALL_YIELD ∨ id = Syscall.SYSCALL_TASK_INFO.

(** The heap hands out private memory of the kernel. *)
Definition heap_private (count : Z) : Prop :=
  ∀ s dst, kernel_inv s → vec_alloc s count = Some dst → kernel_buffer s dst count.

(** A step of the task that keeps its trap context *)
Definition called s tcb s' tcb' : Prop :=
  ∃ P v, advanced P s tcb v s' ∧ context_kept s s' tcb ∧
    tcb' = Tcb.set_vm_space v tcb ∧ running s' tcb'.

Lemma called_off_stack P s tcb v s' :
  kernel_inv s → tcb ∈ tasks_of s → advanced P s tcb v s' → (∀ p, stack_page tcb p → ¬ P p) →
  running s' (Tcb.set_vm_space v tcb) → called s tcb s' (Tcb.set_vm_space v tcb).
Proof.
  intros Hi Hin Hav HP Hrun'. exists P, v. split_and!; [done| |done|done].
  by eapply advanced_context_kept.
Qed.

Lemma called_refl s tcb : kernel_inv s → running s tcb → called s tcb s tcb.
Proof.
  intros Hi Hrun. exists nothing, (vm_space tcb). rewrite set_same_space.
  split_and!; [by apply advanced_refl, Hrun|done|done|done].
Qed.
Lemma called_io s tcb s' : kernel_inv s → running s tcb → io s s' → called s tcb s' tcb.
Proof.
  intros Hi Hrun Hio. exists nothing, (vm_space tcb). rewrite set_same_space.
  split_and!; [| |done|by eapply running_quiet].
  - apply (advanced_quiet nothing s s s s'); [done|by apply io_quiet|by apply advanced_refl, Hrun].
  - intros i _. by rewrite (quiet_mem _ _ (io_quiet _ _ Hio)).
Qed.

Lemma called_stepped s tcb v s' :
  kernel_inv s → running s tcb → stepped s tcb v s' → called s tcb s' (Tcb.set_vm_space v tcb).
Proof.
  intros Hi Hrun Hst. apply (called_off_stack nothing); [done|apply Hrun|apply Hst|by intros p _ []|].
  by eapply stepped_running.
Qed.

(** Private pages are no stack of a task. *)
Lemma buffer_no_stack s tcb dst len p :
  tcb ∈ tasks_of s → kernel_buffer s dst len → stack_page tcb p → ¬ buffer_page dst len p.
Proof.
  intros Hin Hb [_ [pm Hh]] Hp. destruct (kb_private _ _ _ Hb p Hp) as [_ Hpr].
  destruct (Hpr tcb Hin) as [Hno _]. apply Hno. right. by eexists _, _, _.
Qed.

Lemma sys_write_called s tcb fd buf count :
  uaccess_labels → heap_private count → kernel_inv s → running s tcb → is_usize buf → is_usize count →
  ends (Syscall.sys_write fd buf count) (λ _ s', ∃ tcb', called s tcb s' tcb') (λ _, True) s.
Proof.
  intros Hlab Hheap Hi Hrun Hbu Hcu.
  pose proof (sys_write_run s tcb fd buf count Hlab Hi Hrun Hbu Hcu (λ dst, Hheap s dst Hi)) as Hw.
  unfold sys_write_did in Hw. unfold ends. destruct (Syscall.sys_write _ _ _ s) as [r s'| |]; [|done..].
  destruct Hw as (_ & (v & Hav & Hrun' & _) & _). exists (Tcb.set_vm_space v tcb).
  apply (called_off_stack (heap_page s count)); [done|apply Hrun|done| |done].
  intros p Hp (_ & dst & Hal & Hb). revert Hb. eapply buffer_no_stack; [apply Hrun|by apply Hheap|done].
Qed.
(** What a call leaves, with the result [r] *)
Definition call_result s tcb (r : flow Z) s' : Prop :=
  match r with
  | Done _ => ∃ tcb', called s tcb s' tcb'
  | _ => handed_over s tcb r s'
  end.

Lemma handed_over_result s tcb (r : flow Z) s' : handed_over s tcb r s' → call_result s tcb r s'.
Proof. by destruct r. Qed.

Lemma call_ends id a0 a1 a2 s tcb :
  uaccess_labels → (id = Syscall.SYSCALL_WRITE → heap_private a2) → known_call id → kernel_inv s → running s tcb →
  is_usize a0 → is_usize a1 → is_usize a2 →
  ends (Syscall.syscall_handler id a0 a1 a2) (call_result s tcb)
    (λ _, id = Syscall.SYSCALL_WRITE) s.
Proof.
  intros Hlab Hheap Hid Hi Hrun Hu0 Hu1 Hu2. destruct Hid as [->|[->|[->|[->|[->| ->]]]]].
  - apply ends_fmap. eapply ends_mono; [apply (sys_write_called s tcb); try done; by apply Hheap| |done].
    intros n s' Hc. exact Hc.
  - apply ends_wp, wp_klift. eapply wp_mono; [by apply mmap_wp|].
    intros n s' [(_ & _ & v & Hst & _)|(_ & _ & ->)].
    + exists (Tcb.set_vm_space v tcb). by apply called_stepped.
    + exists tcb. by apply called_refl.
  - apply ends_wp, wp_klift. eapply wp_mono; [by apply munmap_wp|]. intros n s' Hd.
    destruct (call_step Syscall.SYSCALL_MUNMAP a0 a1 a2 s tcb n s' Hi Hrun) as (_ & v & Hst & _); [by right|].
    exists (Tcb.set_vm_space v tcb). by apply called_stepped.
  - apply ends_wp. eapply wp_mono; [by apply (sys_exit_wp s tcb (as_isize a0))|].
    intros r s'. apply handed_over_result.
  - apply ends_wp. eapply wp_mono; [by apply (sys_yield_wp s tcb)|]. intros r s'. apply handed_over_result.
  - apply ends_wp, wp_klift. eapply wp_mono; [by apply (sys_task_info_wp s tcb)|].
    intros n s' (v & Hav & Hrun' & Hctx & _). by exists (Tcb.set_vm_space v tcb), (stack_page tcb), v.
Qed.

Lemma called_kept s tcb s' tcb' : kernel_inv s → called s tcb s' tcb' → kept s tcb s' tcb'.
Proof. intros Hi (P & v & Hav & _ & -> & _). by eapply advanced_kept. Qed.

Lemma called_context s tcb s' tcb' :
  kernel_inv s → tcb ∈ tasks_of s → called s tcb s' tcb' →
  context_of tcb' = context_of tcb ∧ ∀ i, 0 <= i < 35 → word s' tcb' i = word s tcb i.
Proof.
  intros Hi Hin (P & v & Hav & Hctx & -> & _).
  destruct (av_ends _ _ _ _ _ Hav) as (_ & _ & _ & Ek).
  assert (context_of (Tcb.set_vm_space v tcb) = context_of tcb) as Ec by (unfold context_of; simpl; by rewrite Ek).
  split; [done|]. intros i Hix. rewrite (word_context _ _ _ _ Ec). by apply Hctx.
Qed.

(** The arm of the trap handler: when it comes back, the context holds the registers with
    a result in [x10] and the address behind the [ecall]. *)
Definition syscall_back s tcb (x : list Z) (epc : Z) (r : flow unit) s' : Prop :=
  match r with
  | Done _ => ∃ n tcb', kept s tcb s' tcb' ∧ running s' tcb' ∧
      context_holds s' tcb' (<[10%nat := isize_as_usize n]> x) (epc ⊕ 4)
  | _ => handed_over s tcb r s'
  end.

Lemma user_syscall_ends s tcb x epc :
  uaccess_labels → (nth 17 x 0 = Syscall.SYSCALL_WRITE → heap_private (nth 12 x 0)) →
  known_call (nth 17 x 0) →
  kernel_inv s → running s tcb → user_regs x → is_usize epc → context_holds s tcb x epc →
  ends (Utrap.user_syscall (context_of tcb)) (syscall_back s tcb x epc)
    (λ _, nth 17 x 0 = Syscall.SYSCALL_WRITE) s.
Proof.
  intros Hlab Hheap Hid Hi Hrun Hu Hepc Hctx.
  destruct (user_syscall_start s tcb x epc) as (s1 & [Hinv Hrun1 Ec1 [Hx1 Hpc1] _] & E); [done..|].
  apply (ends_at _ _ _ _ _ _ E). clear E. set (tcb1 := (Tcb.record_syscall (nth 17 x 0) tcb).2) in *.
  pose proof (iv_inv _ _ _ _ Hinv) as Hi1. pose proof (invisible_kept _ _ _ _ Hi Hinv) as Hk1.
  apply ends_bind. eapply ends_mono; [apply (call_ends _ _ _ _ s1 tcb1); [done..|apply user_regs_nth; [done|lia]
    |apply user_regs_nth; [done|lia]|apply user_regs_nth; [done|lia]]| |done].
  intros r s2 Hr. destruct r as [n| |]; [|exact (kept_handed_over _ _ _ _ _ _ Hk1 Hr)..].
  destruct Hr as [tcb2 Hc]. cbn [flow_bind].
  pose proof (called_kept _ _ _ _ Hi1 Hc) as Hk2.
  destruct (called_context _ _ _ _ Hi1 (rn_in _ _ Hrun1) Hc) as [Ec2 Hw]. rewrite <- Ec2.
  destruct Hc as (_ & _ & _ & _ & _ & Hrun2).
  apply ends_wp, wp_klift. eapply wp_mono; [apply (user_syscall_finish s2 tcb2 n x (epc ⊕ 4))|].
  - apply Hk2.
  - done.
  - apply Hu.
  - split; [intros j Hj; rewrite Hw by lia; by apply Hx1|by rewrite Hw by lia].
  - intros [] s3 (Hinv3 & Hrun3 & _ & Hctx3). exists n, tcb2. split; [|done].
    eapply kept_trans; [exact Hk1|]. eapply kept_trans; [exact Hk2|].
    apply invisible_kept; [apply Hk2|done].
Qed.
(** ** The handler *)

(** The traps user mode may take: any at all, but the hardware reports a page fault only at
    an address it refuses, and the heap hands [sys_write] private memory. *)
Record trap_cause s tcb (tval : Z) (x : list Z) (cause : Z) : Prop := {
  tc_cause : is_usize cause;
  tc_load : cause = 13 → check_u_va tval = true →
    0 <= tval ∧ denied s (vm_space tcb) tval PERMISSION_R;
  tc_store : cause = 15 → check_u_va tval = true →
    0 <= tval ∧ denied s (vm_space tcb) tval PERMISSION_W;
  tc_heap : cause = 8 → nth 17 x 0 = Syscall.SYSCALL_WRITE → heap_private (nth 12 x 0);
}.

(** The traps the handler has no answer to: *)
Definition unhandled (cause tval : Z) (x : list Z) : Prop :=
  match Scause.match_cause cause with
  | Scause.SupervisorTimerInterrupt | Scause.IllegalInstruction | Scause.InstructionPageFault =>
      False
  (** a call the kernel does not have, *)
  | Scause.UserEnvironmentCall => ¬ known_call (nth 17 x 0)
  (** a page fault at an address that is not the user's, *)
  | Scause.LoadPageFault | Scause.StoreOrAmoPageFault => check_u_va tval = false
  (** and every other cause *)
  | _ => True
  end.
Lemma known_call_dec id : known_call id ∨ ¬ known_call id.
Proof. unfold known_call. lia. Qed.
Lemma unhandled_dec cause tval x : unhandled cause tval x ∨ ¬ unhandled cause tval x.
Proof.
  unfold unhandled. destruct (known_call_dec (nth 17 x 0)).
  all: destruct (Scause.match_cause cause), (check_u_va tval); first [tauto|by left|right; discriminate].
Qed.

(** [scause] is read back from the name of a cause. *)
Lemma match_cause_value v c :
  is_usize v → Scause.match_cause v = c → c ≠ Scause.Unknown → scause_value c = Some v.
Proof. intros Hv <- Hc. pose proof (match_cause_correct v Hv) as Hm. by destruct (Scause.match_cause v). Qed.

(** The access a page fault reports *)
Definition fault_access (cause : Z) : option Z :=
  if cause =? 13 then Some PERMISSION_R else if cause =? 15 then Some PERMISSION_W else None.

(** How the task goes on: behind its system call with the result in [x10], or at the
    instruction that faulted, which may make its access now *)
Definition resumes s tcb (cause tval : Z) (x : list Z) (epc : Z) (x' : list Z) (pc' : Z) s' tcb' : Prop :=
  if cause =? 8 then pc' = epc ⊕ 4 ∧ ∃ n, x' = <[10%nat := isize_as_usize n]> x
  else x' = x ∧ pc' = epc ∧ same_view s (vm_space tcb) s' (vm_space tcb') ∧
    ∃ need, fault_access cause = Some need ∧ ¬ denied s' (vm_space tcb') tval need.

Definition handler_back s tcb (cause tval : Z) (x : list Z) (epc : Z) {A} (r : flow A) s' : Prop :=
  match r with
  | Done _ => ∃ tcb' x' pc', kept s tcb s' tcb' ∧ running s' tcb' ∧ context_holds s' tcb' x' pc' ∧
      resumes s tcb cause tval x epc x' pc' s' tcb'
  | _ => handed_over s tcb r s'
  end.

Lemma handed_over_back s tcb cause tval x epc {A} (r : flow A) s' :
  handed_over s tcb r s' → handler_back s tcb cause tval x epc r s'.
Proof. by destruct r. Qed.

Lemma page_fault_back s tcb cause need tval x epc r s' :
  kernel_inv s → running s tcb → context_holds s tcb x epc →
  fault_access cause = Some need → cause ≠ 8 →
  r = Done tt ∧ fault_resolved s tcb tval need s' ∨ handed_over s tcb r s' →
  handler_back s tcb cause tval x epc r s'.
Proof.
  intros Hi Hrun [Hx Hpc] Hacc Hne [[-> (v & Hav & Hrun' & Hview & Hd & _)]|Hh]; [|by apply handed_over_back].
  destruct (advanced_context _ _ _ _ Hi Hrun Hav) as [Ec Hw].
  exists (Tcb.set_vm_space v tcb), x, epc. split; [by eapply advanced_kept|]. split; [done|].
  assert (∀ i, 0 <= i < 35 → word s' (Tcb.set_vm_space v tcb) i = word s tcb i) as Hw'.
  { intros i Hix. rewrite (word_context _ _ _ _ Ec). by apply Hw. }
  split; [split; [intros j Hj; rewrite Hw' by lia; by apply Hx|by rewrite Hw' by lia]|].
  unfold resumes. rewrite (proj2 (Z.eqb_neq _ _) Hne). split_and!; [done|done|done|by exists need].
Qed.

Lemma check_u_va_range38 va : 0 <= va → check_u_va va = true → 0 <= va < 2 ^ 38.
Proof. unfold check_u_va. rewrite Z.ltb_lt, user_space_end_eq. lia. Qed.

(** What follows the handler's body *)
Lemma kret_back s tcb cause tval x epc (m : K unit) (c : Z) E s1 :
  ends m (handler_back s tcb cause tval x epc) E s1 →
  ends ('_ ⇐ m; kret c) (handler_back s tcb cause tval x epc) E s1.
Proof.
  intros Hm. apply ends_bind. eapply ends_mono; [exact Hm| |done].
  intros r s' Hr. destruct r as [[]| |]; exact Hr.
Qed.

(** A call the kernel does not have *)
Lemma unknown_call_ends s tcb x epc Q :
  kernel_inv s → running s tcb → user_regs x → is_usize epc → context_holds s tcb x epc →
  ¬ known_call (nth 17 x 0) → ends (Utrap.user_syscall (context_of tcb)) Q (λ _, True) s.
Proof.
  intros Hi Hrun Hu Hepc Hctx Hid. destruct (user_syscall_start s tcb x epc) as (s1 & _ & E); [done..|].
  apply (ends_at _ _ _ _ _ _ E). apply ends_bind.
  assert (Syscall.syscall_handler (nth 17 x 0) (nth 10 x 0) (nth 11 x 0) (nth 12 x 0) =
    klift (panic "Unknown syscall")) as ->.
  { unfold Syscall.syscall_handler, known_call in *.
    repeat match goal with |- context [?a =? ?b] => destruct (Z.eqb_spec a b); [tauto|] end. done. }
  by apply ends_fmap, ends_panic.
Qed.

Lemma u_trap_handler_unhandled s tcb cause epc tval x Q :
  kernel_inv s → running s tcb → user_regs x → is_usize epc → context_holds s tcb x epc →
  unhandled cause tval x →
  csr_value (k_csrs s) Scause.CSR_NO = cause → csr_value (k_csrs s) Sepc.CSR_NO = epc →
  csr_value (k_csrs s) Stval.CSR_NO = tval →
  ends (Utrap.u_trap_handler (context_of tcb)) Q (λ _, True) s.
Proof.
  intros Hi Hrun Hu Hepc Hctx Hun Hc He Ht. unfold Utrap.u_trap_handler.
  eapply ends_at; [apply kbind_run; by apply current_task_run|].
  do 3 (eapply ends_at; [apply kbind_run, csr_read_run|]). rewrite Hc, He, Ht. apply ends_bind.
  unfold unhandled in Hun. destruct (Scause.match_cause cause); cbv beta iota zeta;
    try (by apply ends_fmap, ends_panic); try done; try (rewrite Hun; by apply ends_fmap, ends_panic).
  by apply (unknown_call_ends s tcb x epc).
Qed.

Lemma u_trap_handler_handled s tcb cause epc tval x :
  uaccess_labels → kernel_inv s → running s tcb → user_regs x → is_usize epc →
  context_holds s tcb x epc → trap_cause s tcb tval x cause → ¬ unhandled cause tval x →
  csr_value (k_csrs s) Scause.CSR_NO = cause → csr_value (k_csrs s) Sepc.CSR_NO = epc →
  csr_value (k_csrs s) Stval.CSR_NO = tval →
  ends (Utrap.u_trap_handler (context_of tcb)) (handler_back s tcb cause tval x epc)
    (λ _, cause = 8 ∧ nth 17 x 0 = Syscall.SYSCALL_WRITE) s.
Proof.
  intros Hlab Hi Hrun Hu Hepc Hctx [Hus Hload Hstore Hheap] Hun Hc He Ht. unfold Utrap.u_trap_handler.
  eapply ends_at; [apply kbind_run; by apply current_task_run|].
  do 3 (eapply ends_at; [apply kbind_run, csr_read_run|]). rewrite Hc, He, Ht. clear Hc He Ht.
  apply kret_back. unfold unhandled in Hun.
  destruct (Scause.match_cause cause) eqn:Em; try done;
    pose proof (match_cause_value cause _ Hus Em ltac:(done)) as Ev; cbv beta iota zeta.
  - apply ends_wp. apply wp_kbind_lift. eapply wp_mono; [by apply (stop_task_wp s tcb Ready)|].
    intros [] s1 (tcb' & Hk & Hl). eapply wp_mono; [by apply (log_run_next_wp s tcb s1 tcb')|].
    intros r s'. apply handed_over_back.
  - apply ends_wp. eapply wp_mono; [by apply (kill_and_switch_wp s tcb)|]. intros r s'. apply handed_over_back.
  - injection Ev as <-. destruct (known_call_dec (nth 17 x 0)) as [Hid|Hid]; [|done].
    eapply ends_mono; [apply (user_syscall_ends s tcb x epc); try done; intros E; by apply Hheap| |done].
    intros r s' Hr. destruct r as [[]| |]; [|exact Hr..]. destruct Hr as (n & tcb' & Hk & Hrun' & Hctx').
    exists tcb', (<[10%nat := isize_as_usize n]> x), (epc ⊕ 4). split; [done|]. split; [done|]. split; [done|]. split; [done|by exists n].
  - apply ends_wp. eapply wp_mono; [by apply (kill_and_switch_wp s tcb)|]. intros r s'. apply handed_over_back.
  - injection Ev as <-. destruct (check_u_va tval) eqn:Htv; [|done]. destruct (Hload eq_refl eq_refl) as [Ht0 Hd].
    apply ends_wp. eapply wp_mono; [apply (user_page_fault_wp s tcb); try done|].
    { by apply check_u_va_range38. } { by left. }
    intros r s' Hr. apply (page_fault_back s tcb 13 PERMISSION_R); [done..|]. destruct Hr as [?|[? _]]; [by left|by right].
  - injection Ev as <-. destruct (check_u_va tval) eqn:Htv; [|done]. destruct (Hstore eq_refl eq_refl) as [Ht0 Hd].
    apply ends_wp. eapply wp_mono; [apply (user_page_fault_wp s tcb); try done|].
    { by apply check_u_va_range38. } { by right. }
    intros r s' Hr. apply (page_fault_back s tcb 15 PERMISSION_W); [done..|]. destruct Hr as [?|[? _]]; [by left|by right].
Qed.

(** Why a trap ends in a panic *)
Definition trap_panics (cause tval : Z) (x : list Z) : Prop :=
  unhandled cause tval x ∨ cause = 8 ∧ nth 17 x 0 = Syscall.SYSCALL_WRITE.

Lemma u_trap_handler_ends s tcb cause epc tval x :
  uaccess_labels → kernel_inv s → running s tcb → user_regs x → is_usize epc →
  context_holds s tcb x epc → trap_cause s tcb tval x cause →
  csr_value (k_csrs s) Scause.CSR_NO = cause → csr_value (k_csrs s) Sepc.CSR_NO = epc →
  csr_value (k_csrs s) Stval.CSR_NO = tval →
  ends (Utrap.u_trap_handler (context_of tcb))
    (λ r s', ¬ unhandled cause tval x ∧ handler_back s tcb cause tval x epc r s')
    (λ _, trap_panics cause tval x) s.
Proof.
  intros Hlab Hi Hrun Hu Hepc Hctx Hcause Hc He Ht. destruct (unhandled_dec cause tval x) as [Hun|Hun].
  - eapply ends_mono; [by apply (u_trap_handler_unhandled s tcb cause epc tval x (λ _ _, False))|done|].
    intros msg _. by left.
  - eapply ends_mono; [by apply (u_trap_handler_handled s tcb cause epc tval x)| |].
    + intros r s' Hr. by split.
    + intros msg Hm. by right.
Qed.
(** ** The whole trap *)

(** Where a trap from user mode leads *)
Definition trap_result s tcb (cause tval : Z) (x : list Z) (epc : Z) (r : flow (list Z * Z)) s' : Prop :=
  match r with
  | Done (x', pc') => ∃ tcb', kept s tcb s' tcb' ∧ in_user s' tcb' ∧ user_regs x' ∧ is_usize pc' ∧
      resumes s tcb cause tval x epc x' pc' s' tcb'
  | _ => handed_over s tcb r s'
  end.

Lemma resumes_regs s tcb cause tval x epc x' pc' s' tcb' :
  user_regs x → is_usize epc → resumes s tcb cause tval x epc x' pc' s' tcb' → user_regs x' ∧ is_usize pc'.
Proof.
  intros Hu Hepc. unfold resumes. destruct (cause =? 8).
  - intros [-> [n ->]]. split; [|apply wrap_is_usize]. destruct Hu as [Hl Hz Hf]. split.
    + by rewrite length_insert.
    + by rewrite nth_insert_regs, decide_False by lia.
    + apply Forall_insert; [done|apply wrap_is_usize].
  - intros (-> & -> & _). done.
Qed.

Lemma entered_cause s tcb cause epc tval x s1 :
  entered s tcb cause epc tval x s1 → trap_cause s tcb tval x cause → trap_cause s1 tcb tval x cause.
Proof.
  intros He Hc. assert (∀ need, denied s (vm_space tcb) tval need → denied s1 (vm_space tcb) tval need) as Hd.
  { intros need. unfold denied. by rewrite (en_tables _ _ _ _ _ _ _ He). }
  destruct Hc as [Hus Hl Hst Hh]. split; [done| | |done]; intros E Hv; [destruct (Hl E Hv)|destruct (Hst E Hv)]; auto.
Qed.
Lemma entered_resumes s tcb cause epc tval x s1 x' pc' s' tcb' :
  entered s tcb cause epc tval x s1 →
  resumes s1 tcb cause tval x epc x' pc' s' tcb' → resumes s tcb cause tval x epc x' pc' s' tcb'.
Proof.
  intros He. unfold resumes. destruct (cause =? 8); [done|]. intros (-> & -> & Hv & Hd).
  split_and!; [done|done| |done]. eapply same_view_trans; [apply He|exact Hv].
Qed.

Lemma left_resumes s tcb cause tval x epc x' pc' s1 s2 tcb' :
  quiet s1 s2 → resumes s tcb cause tval x epc x' pc' s1 tcb' → resumes s tcb cause tval x epc x' pc' s2 tcb'.
Proof.
  intros Hq. unfold resumes. destruct (cause =? 8); [done|]. intros (-> & -> & Hv & need & Hn & Hd).
  split_and!; [done|done|eapply same_view_trans; [exact Hv|by apply quiet_view]|].
  exists need. split; [done|]. unfold denied. by rewrite (quiet_mem _ _ Hq).
Qed.

Lemma u_trap_run s tcb cause epc tval x :
  uaccess_labels → kernel_inv s → in_user s tcb → user_regs x → is_usize epc →
  trap_cause s tcb tval x cause →
  ends (Utrap.u_trap cause epc tval x)
    (λ r s', ¬ unhandled cause tval x ∧ trap_result s tcb cause tval x epc r s')
    (λ _, trap_panics cause tval x) s.
Proof.
  intros Hlab Hi Hin Hu Hepc Hcause.
  destruct (u_trap_start s tcb cause epc tval x Hi Hin Hu Hepc) as (s1 & He & E).
  apply (ends_at _ _ _ _ _ _ E). clear E. pose proof (entered_cause _ _ _ _ _ _ _ He Hcause) as Hcause1.
  pose proof He as [Hinv Hrun1 Hctx1 Hc1 Hpc1 Ht1 _ _]. pose proof (iv_inv _ _ _ _ Hinv) as Hi1.
  apply ends_bind. eapply ends_mono; [by apply (u_trap_handler_ends s1 tcb cause epc tval x)| |done].
  pose proof (invisible_kept _ _ _ _ Hi Hinv) as Hk1.
  intros r s2 [Hun Hr]. destruct r as [c| |]; [|split; [done|exact (kept_handed_over _ _ _ _ _ _ Hk1 Hr)]..].
  destruct Hr as (tcb' & x' & pc' & Hk & Hrun2 & Hctx2 & Hres). cbn [flow_bind].
  pose proof (entered_resumes _ _ _ _ _ _ _ _ _ _ _ He Hres) as Hres0.
  destruct (resumes_regs _ _ _ _ _ _ _ _ _ _ Hu Hepc Hres0) as [Hu' Hpc'].
  apply ends_wp, wp_klift. eapply wp_mono; [by apply (restore_u_ctx_wp s2 tcb')|].
  intros [x2 pc2] s3 (Hq & _ & Hin3 & -> & ->). rewrite (context_holds_saved _ _ _ _ Hu' Hctx2), (proj2 Hctx2).
  split; [done|]. exists tcb'. split; [|split; [done|split; [done|split; [done|by eapply left_resumes]]]].
  eapply kept_trans; [exact Hk1|]. eapply kept_trans; [exact Hk|].
  apply quiet_kept; [apply Hk|done].
Qed.

(** [mmap] and [munmap] *)
Lemma mem_syscall_run s tcb epc tval x :
  kernel_inv s → in_user s tcb → user_regs x → is_usize epc →
  nth 17 x 0 = Syscall.SYSCALL_MMAP ∨ nth 17 x 0 = Syscall.SYSCALL_MUNMAP →
  wp (Utrap.u_trap 8 epc tval x) (λ r s', ∃ n tcb',
    r = Done (<[10%nat := isize_as_usize n]> x, epc ⊕ 4) ∧ in_user s' tcb' ∧
    syscalled s tcb x n s' tcb') s.
Proof.
  intros Hi Hin Hu Hepc Hid.
  destruct (u_trap_start s tcb 8 epc tval x Hi Hin Hu Hepc) as (s1 & He & E).
  apply (wp_at _ _ _ _ _ E). clear E. pose proof He as [Hinv Hrun1 Hctx1 Hc1 Hpc1 Ht1 _ _].
  pose proof (iv_inv _ _ _ _ Hinv) as Hi1. apply wp_bind. unfold Utrap.u_trap_handler.
  apply wp_kbind_lift. eapply wp_intro; [by apply current_task_run|].
  do 3 (apply wp_kbind_lift; eapply wp_intro; [apply csr_read_run|]). rewrite Hc1.
  change (Scause.match_cause 8) with Scause.UserEnvironmentCall. cbv beta iota zeta.
  apply wp_bind. eapply wp_mono; [by apply (user_syscall_wp s1 tcb x epc)|].
  intros r s2 (-> & n & tcb' & (sa & sb & tcb1 & v & Ha & -> & Hd & -> & Hst & Hb) & Hrun2 & Ec & Hctx2).
  cbn [flow_bind]. apply wp_ret. cbn [flow_bind]. apply wp_klift.
  assert (user_regs (<[10%nat := isize_as_usize n]> x)) as Hu'.
  { apply (resumes_regs s tcb 8 tval x epc _ (epc ⊕ 4) s tcb Hu Hepc). split; [done|by exists n]. }
  eapply wp_mono; [by apply (restore_u_ctx_wp s2)|].
  intros [x2 pc2] s3 (Hq & _ & Hin3 & -> & ->). rewrite (context_holds_saved _ _ _ _ Hu' Hctx2), (proj2 Hctx2).
  eexists n, _. split; [done|]. split; [done|].
  exists sa, sb, (Tcb.record_syscall (nth 17 x 0) tcb).2, v. split_and!; [|done|done|done|done|].
  - by eapply invisible_trans.
  - by eapply (invisible_quiet sb sb).
Qed.
End traps.

(** ** The sample kernel in user mode *)

Definition sample_user : KS :=
  upd (<[Trap.SSCRATCH := sample_context 0x8070c]> (k_csrs sample_kernel)) sample_kernel.
Definition sample_regs (id a0 a1 a2 : Z) : list Z :=
  <[17%nat := id]> (<[10%nat := a0]> (<[11%nat := a1]> (<[12%nat := a2]> (replicate 32 0)))).

Lemma sample_user_inv : @kernel_inv sample_symbols sample_trap_symbols sample_user.
Proof. by apply (quiet_inv sample_kernel), sample_kernel_inv. Qed.
Lemma sample_in_user : in_user sample_user task1.
Proof.
  destruct sample_running as [Hin Hst Honly _ Hsatp [_ Hvec]]. split; [done|done|done| |done|].
  - rewrite <- Hsatp. by apply csr_value_insert_ne.
  - rewrite <- Hvec. by apply csr_value_insert_ne.
Qed.
Lemma sample_regs_user id a0 a1 a2 :
  is_usize id → is_usize a0 → is_usize a1 → is_usize a2 → user_regs (sample_regs id a0 a1 a2).
Proof.
  intros. split; [done|done|]. unfold sample_regs. repeat (apply Forall_insert; [|done]).
  apply Forall_replicate. split; [done|]. by vm_compute.
Qed.

(** C1: every trap of a task in user mode comes to an end, whatever its cause.  Either the
    task is resumed in user mode - behind its system call with only [x10] changed, or after a
    page fault at the faulting instruction with every register and its whole memory as
    before and the access now allowed -, or the hart is handed to another task, or the
    machine powers off; the kernel is sound then, and every other task keeps its memory.
    Or the kernel panics: always, and but for [sys_write] only, on a trap its handler has no
    answer to - a system call it does not have, a page fault at an address that is not the
    user's, and any cause but the timer, an [ecall], an illegal instruction and a page fault.
    ([sys_write] panics on bytes that are not UTF-8 and on a full heap.)  No lock spins
    forever.  Of the hardware it is assumed that it reports a page fault at a user address
    only if it refuses the access. *)
Theorem u_trap_ends `{LinkerSymbols} `{TrapSymbols} `{Fmt} `{Log.EnvLog} `{KernelHeap} `{TaskInfoLayout}
    `{!TaskInfoLaws} (s : KS) tcb cause epc tval x :
  uaccess_labels → kernel_inv s → in_user s tcb → user_regs x → is_usize epc →
  trap_cause s tcb tval x cause →
  match Utrap.u_trap cause epc tval x s with
  | Ret r s' => ¬ unhandled cause tval x ∧ trap_result s tcb cause tval x epc r s'
  | Panic _ => trap_panics cause tval x
  | Spin => False
  end.
Proof. exact (u_trap_run s tcb cause epc tval x). Qed.

(** C8: an [ecall] for [mmap] or [munmap] always returns to the task, behind the [ecall],
    in user mode, with the result in [x10] and every other register as it was.  What the
    task and everybody else see of it is the call itself, as specified for the function,
    and one more call in the statistics of the task. *)
Theorem mem_syscall_correct `{LinkerSymbols} `{TrapSymbols} `{Fmt} `{Log.EnvLog} `{KernelHeap} `{TaskInfoLayout}
    (s : KS) tcb epc tval x :
  kernel_inv s → in_user s tcb → user_regs x → is_usize epc →
  nth 17 x 0 = Syscall.SYSCALL_MMAP ∨ nth 17 x 0 = Syscall.SYSCALL_MUNMAP →
  ∃ n s' tcb',
    Utrap.u_trap 8 epc tval x s = Ret (Done (<[10%nat := isize_as_usize n]> x, epc ⊕ 4)) s' ∧
    in_user s' tcb' ∧ syscalled s tcb x n s' tcb'.
Proof.
  intros Hi Hin Hu Hepc Hid.
  destruct (wp_returns _ _ _ (mem_syscall_run s tcb epc tval x Hi Hin Hu Hepc Hid))
    as (r & s' & Hr & n & tcb' & -> & Hin' & Hs). by exists n, s', tcb'.
Qed.

Lemma u_trap_ends_witness :
  let fmt : Fmt := {| format := λ _ _, [] |} in
  let env : Log.EnvLog := {| Log.env_LOG := None |} in
  let heap : KernelHeap := {| vec_alloc := λ _ _, None |} in
  let layout : TaskInfoLayout := sample_info_layout in
  match @Utrap.u_trap sample_trap_symbols fmt heap layout 15 0x10000 0x10008 (sample_regs 0 1 2 3) sample_user with
  | Ret (Done (x', pc')) s' => x' = sample_regs 0 1 2 3 ∧ pc' = 0x10000
  | Ret _ _ => True
  | _ => False
  end.
Proof.
  intros fmt env heap layout.
  assert (user_regs (sample_regs 0 1 2 3)) as Hu by (apply sample_regs_user; by vm_compute).
  assert (is_usize 0x10000) as Hpc by (vm_compute; split; congruence).
  assert (@trap_cause sample_symbols sample_trap_symbols heap sample_user task1 0x10008 (sample_regs 0 1 2 3) 15) as Hc.
  { split; [by vm_compute|discriminate| |discriminate]. intros _ _. split; [lia|]. vm_compute. exact I. }
  pose proof (@u_trap_ends sample_symbols sample_trap_symbols fmt env heap layout sample_info_laws sample_user task1 15 0x10000 0x10008
    (sample_regs 0 1 2 3) sample_labels sample_user_inv sample_in_user Hu Hpc Hc) as Hw.
  destruct (@Utrap.u_trap sample_trap_symbols fmt heap layout 15 0x10000 0x10008 (sample_regs 0 1 2 3) sample_user)
    as [[[x' pc']| |] s'|msg|].
  - destruct Hw as (_ & tcb' & _ & _ & _ & _ & Hres). destruct Hres as (Hx & Hp & _). split; assumption.
  - exact I.
  - exact I.
  - destruct Hw as [E|[E _]]; [vm_compute in E|]; discriminate E.
  - exact Hw.
Defined.

(** [mmap(0x30000, 4096, PROT_READ | PROT_EXEC)] *)
Lemma mem_syscall_correct_witness :
  let fmt : Fmt := {| format := λ _ _, [] |} in
  let env : Log.EnvLog := {| Log.env_LOG := None |} in
  let heap : KernelHeap := {| vec_alloc := λ _ _, None |} in
  let layout : TaskInfoLayout := sample_info_layout in
  let x := sample_regs Syscall.SYSCALL_MMAP 0x30000 4096 3 in
  ∃ n s', @Utrap.u_trap sample_trap_symbols fmt heap layout 8 0x10000 0 x sample_user =
    Ret (Done (<[10%nat := isize_as_usize n]> x, 0x10004)) s'.
Proof.
  intros fmt env heap layout x.
  assert (user_regs x) as Hu by (apply sample_regs_user; by vm_compute).
  assert (is_usize 0x10000) as Hpc by (vm_compute; split; congruence).
  destruct (@mem_syscall_correct sample_symbols sample_trap_symbols fmt env heap layout sample_user task1 0x10000 0 x
    sample_user_inv sample_in_user Hu Hpc (or_introl eq_refl)) as (n & s' & tcb' & E & _).
  exists n, s'. exact E.
Defined.
