(* ===== verification/Rounds.v ===== *)
(** * Tasks and kernel in turns

    The machine as user mode sees it: a task computes, stores, and traps; the kernel
    handles the trap and resumes it or the task it switched to.  Whatever the tasks do,
    the kernel stays sound, and a task only ever changes its own memory. *)

From S2P Require Export TrapProps UaccessTo.
From S2P Require Import Spin PageAlloc Regs Console.
From stdpp Require Import list.
Open Scope Z_scope.

(** The state of the kernel, the registers and the program counter of the task *)
Record machine := mk_machine {
  m_kernel : KS;
  m_regs : list Z;
  m_pc : Z;
}.

Section rounds.
Context `{LinkerSymbols} `{TrapSymbols} `{Fmt} `{Log.EnvLog}
  `{KernelHeap} `{TaskInfoLayout} `{!TaskInfoLaws}.
Implicit Types (s : KS) (tcb : TaskControlBlock) (m : machine).

(** A machine in user mode *)
Definition user_mode m tcb : Prop :=
  kernel_inv (m_kernel m) ∧ in_user (m_kernel m) tcb ∧ user_regs (m_regs m) ∧ is_usize (m_pc m).

(** One turn of the task [id]: *)
Inductive round (id : Z) : machine → machine → Prop :=
  (** it computes, *)
  | round_compute s x pc tcb x' pc' :
      in_user s tcb → task_id tcb = id → user_regs x' → is_usize pc' →
      round id (mk_machine s x pc) (mk_machine s x' pc')
  (** it stores a byte where the hardware lets user mode write, *)
  | round_store s x pc tcb va b pa f pc' :
      in_user s tcb → task_id tcb = id → 0 <= va < 2 ^ 38 → 0 <= b < 256 → is_usize pc' →
      mmu_translate (mem_of s) (Access.root_of s) va = Some (pa, f) →
      f .& (PERMISSION_U .| PERMISSION_W) = PERMISSION_U .| PERMISSION_W →
      round id (mk_machine s x pc) (mk_machine (upd_mem (λ memory, write_u8 memory pa b) s) x pc')
  (** it traps and is resumed, *)
  | round_trap s x pc tcb cause tval s' x' pc' :
      in_user s tcb → task_id tcb = id → trap_cause s tcb tval x cause →
      Utrap.u_trap cause pc tval x s = Ret (Done (x', pc')) s' →
      round id (mk_machine s x pc) (mk_machine s' x' pc')
  (** or it traps and the hart is handed to another task, whose context [__switch] loads:
      it starts at [__restore_u_ctx]. *)
  | round_switch s x pc tcb cause tval curr next k s1 s' x' pc' :
      in_user s tcb → task_id tcb = id → trap_cause s tcb tval x cause →
      Utrap.u_trap cause pc tval x s = Ret (Switched curr next k) s1 →
      Utrap.restore_u_ctx s1 = Ret (x', pc') s' →
      round id (mk_machine s x pc) (mk_machine s' x' pc').

(** Turns one after another, of the tasks [ids] *)
Inductive rounds : list Z → machine → machine → Prop :=
  | rounds_refl m : rounds [] m m
  | rounds_step id ids m1 m2 m3 : round id m1 m2 → rounds ids m2 m3 → rounds (id :: ids) m1 m3.

(** The task in user mode is known by the state. *)
Lemma in_user_unique s tcb tcb' : kernel_inv s → in_user s tcb → in_user s tcb' → tcb = tcb'.
Proof.
  intros Hi [Hin Hst Honly _ _ _] [Hin' Hst' _ _ _ _]. pose proof (Honly _ Hin' Hst') as E.
  apply list_elem_of_lookup in Hin as [i Hix], Hin' as [j Hjx].
  assert (i = j) as <- by (by eapply (kernel_task_index s)). congruence.
Qed.

Lemma root_of_user s tcb :
  kernel_inv s → in_user s tcb → Access.root_of s = rp_ppn (root_pgt (vm_space tcb)).
Proof.
  intros Hi [Hin Hst Honly Hs _ Hv].
  set (s' := set_tp (context_of tcb) (upd (<[Trap.SSCRATCH := 0]> (k_csrs s)) s)).
  transitivity (Access.root_of s').
  - unfold Access.root_of. f_equal. symmetry. by apply csr_value_insert_ne.
  - apply root_of_running; [by apply (quiet_inv s)|]. split; [done..| |].
    + rewrite <- Hs. by apply csr_value_insert_ne.
    + split; [apply csr_value_insert_same|]. rewrite <- Hv. by apply csr_value_insert_ne.
Qed.

(** A switch ends in user mode. *)
Lemma switched_user s t s' x' pc' :
  kernel_inv s → running s t → Utrap.restore_u_ctx s = Ret (x', pc') s' →
  kept s t s' t ∧ user_mode (mk_machine s' x' pc') t.
Proof.
  intros Hi Hrun Hr. pose proof (wp_run _ _ _ _ _ (restore_u_ctx_wp s t Hrun) Hr) as Hl.
  destruct Hl as (Hq & _ & Hin & -> & ->). pose proof (quiet_kept s t s' Hi Hq) as Hk.
  split; [done|]. split_and!; [apply Hk|done|apply saved_regs_user|apply read_u64_range].
Qed.

(** One turn: the machine is in user mode again, and who did not run is undisturbed. *)
Lemma round_sound id m m' tcb :
  uaccess_labels → user_mode m tcb → round id m m' →
  task_id tcb = id ∧ (∃ tcb', user_mode m' tcb') ∧ others_kept (m_kernel m) tcb (m_kernel m').
Proof.
  intros Hlab (Hi & Hu & Hx & Hpc) Hr. destruct Hr as
    [s x pc t x' pc' Hin <- Hx' Hpc'|s x pc t va b pa f pc' Hin <- Hva Hb Hpc' Htr Hf
    |s x pc t cause tval s' x' pc' Hin <- Hc Hrun|s x pc t cause tval cu nx k s1 s' x' pc' Hin <- Hc Hrun Hres];
    cbn [m_kernel m_regs m_pc] in *; pose proof (in_user_unique _ _ _ Hi Hu Hin) as ->; (split; [done|]).
  - split; [by exists t|]. apply (quiet_kept s t s Hi). done.
  - rewrite (root_of_user s t) in Htr by done.
    pose proof (ki_tasks _ Hi) as Hts. rewrite Forall_forall in Hts.
    pose proof (tk_space _ _ (Hts _ (iu_in _ _ Hin))) as Hv.
    destruct (user_translate_inv _ _ _ _ _ Hv Hva Htr) as (ty & pm & p & Hh & Epa & _).
    destruct (user_write s t va b ty pm p pa Hi (iu_in _ _ Hin) Hva Hb Hh Epa) as [Hav _].
    set (s' := upd_mem _ s) in *. split; [|by apply (advanced_kept nothing s t (vm_space t))].
    exists t. split_and!; [apply Hav| |done|done]. rewrite <- (set_same_space t).
    destruct Hin as [_ Hst Honly Hsatp Hscr Hvec].
    split; [by eapply advanced_in|done|exact Honly|exact Hsatp|exact Hscr|exact Hvec].
  - pose proof (u_trap_run s t cause pc tval x Hlab Hi Hin Hx Hpc Hc) as He.
    unfold ends in He. rewrite Hrun in He. destruct He as (_ & t' & Hk & Hin' & Hx' & Hpc' & _).
    split; [exists t'; split_and!; [apply Hk|done..]|apply Hk].
  - pose proof (u_trap_run s t cause pc tval x Hlab Hi Hin Hx Hpc Hc) as He.
    unfold ends in He. rewrite Hrun in He. destruct He as (_ & Hi1 & (t' & Hrun1 & _) & Ho).
    destruct (switched_user s1 t' s' x' pc' Hi1 Hrun1 Hres) as [Hk Hum]. split; [by exists t'|].
    intros other Hot Hne. destruct (Ho other Hot Hne) as (o' & Ho' & (Ei & Ev & Ec) & Hund).
    assert (quiet s1 s') as Hq by (by pose proof (wp_run _ _ _ _ _ (restore_u_ctx_wp s1 t' Hrun1) Hres) as (Hq & _)).
    exists o'. rewrite (quiet_tasks _ _ Hq). split; [done|]. split; [done|]. by apply (quiet_undisturbed _ _ s1).
Qed.

Lemma rounds_sound ids m m' tcb :
  uaccess_labels → user_mode m tcb → rounds ids m m' →
  (∃ tcb', user_mode m' tcb') ∧
  ∀ t, t ∈ tasks_of (m_kernel m) → task_id t ∉ ids →
    ∃ t', t' ∈ tasks_of (m_kernel m') ∧ same_task t t' ∧ undisturbed (vm_space t) (m_kernel m) (m_kernel m').
Proof.
  intros Hlab Hu Hr. revert tcb Hu. induction Hr as [m|id ids m1 m2 m3 Hr Hrs IH]; intros tcb Hu.
  - split; [by exists tcb|]. intros t Hin _. exists t. split; [done|]. split; [done|].
    by apply undisturbed_mm; [apply Hu| |].
  - destruct (round_sound _ _ _ _ Hlab Hu Hr) as (Hid & (tcb2 & Hu2) & Ho).
    destruct (IH tcb2 Hu2) as [Hend Hund]. split; [done|]. intros t Hin Hnot.
    rewrite not_elem_of_cons in Hnot. destruct Hnot as [Hne Hnot].
    destruct (Ho t Hin) as (t2 & Hin2 & (Ei & Ev & Ec) & Hu12); [congruence|].
    destruct (Hund t2 Hin2) as (t3 & Hin3 & (Ei' & Ev' & Ec') & Hu23); [congruence|].
    exists t3. split; [done|]. split; [split_and!; congruence|]. rewrite Ev in Hu23.
    by eapply undisturbed_trans.
Qed.
End rounds.

(** C3: from a machine in user mode, with a sound kernel, every sequence of turns -
    computation, stores, system calls, page faults, interrupts and switches of any of the
    tasks - leads to a machine in user mode with a sound kernel again: every task keeps a
    well-formed address space, a kernel stack that identifies it and a context that leads
    to user mode, and no two tasks share a page. *)
Theorem rounds_well_formed `{LinkerSymbols} `{TrapSymbols} `{Fmt} `{Log.EnvLog} `{KernelHeap} `{TaskInfoLayout} `{!TaskInfoLaws}
    (ids : list Z) (m m' : machine) tcb :
  uaccess_labels → user_mode m tcb → rounds ids m m' → ∃ tcb', user_mode m' tcb'.
Proof. intros Hlab Hu Hr. by destruct (rounds_sound ids m m' tcb Hlab Hu Hr). Qed.

(** C2: tasks are isolated.  Whatever the other tasks compute, store, ask for or run
    into, in any number of turns, a task that has no turn stays listed with its identity
    and address space; every address it may use translates as before and every byte it
    sees is the same. *)
Theorem rounds_isolated `{LinkerSymbols} `{TrapSymbols} `{Fmt} `{Log.EnvLog} `{KernelHeap} `{TaskInfoLayout} `{!TaskInfoLaws}
    (ids : list Z) (m m' : machine) tcb t :
  uaccess_labels → user_mode m tcb → rounds ids m m' →
  t ∈ tasks_of (m_kernel m) → task_id t ∉ ids →
  ∃ t', t' ∈ tasks_of (m_kernel m') ∧ task_id t' = task_id t ∧ vm_space t' = vm_space t ∧
    (∀ va, mmu_translate (mem_of (m_kernel m')) (rp_ppn (root_pgt (vm_space t))) va =
       mmu_translate (mem_of (m_kernel m)) (rp_ppn (root_pgt (vm_space t))) va) ∧
    same_view (m_kernel m) (vm_space t) (m_kernel m') (vm_space t).
Proof.
  intros Hlab Hu Hr Hin Hnot. destruct (rounds_sound ids m m' tcb Hlab Hu Hr) as [_ Hk].
  destruct (Hk t Hin Hnot) as (t' & Hin' & (Ei & Ev & _) & Hund). exists t'. split_and!; [done|done|done|apply Hund|].
  apply undisturbed_view; [|done]. destruct Hu as [Hi _]. pose proof (ki_tasks _ Hi) as Hts.
  rewrite Forall_forall in Hts. apply Hts, Hin.
Qed.

(** The sample machine: [task1] computes the arguments of [mmap], then calls it. *)
Definition sample_machine : machine := mk_machine sample_user (sample_regs 0 1 2 3) 0x10000.
Lemma sample_user_mode : @user_mode sample_symbols sample_trap_symbols sample_machine task1.
Proof.
  split; [exact sample_user_inv|]. split; [exact sample_in_user|]. split; [|by vm_compute].
  apply sample_regs_user; by vm_compute.
Qed.
Lemma sample_rounds {fmt : Fmt} {heap : KernelHeap} {layout : TaskInfoLayout} :
  ∃ m', @rounds sample_symbols sample_trap_symbols fmt heap layout [1; 1] sample_machine m'.
Proof.
  set (x := sample_regs Syscall.SYSCALL_MMAP 0x30000 4096 3).
  assert (user_regs x) as Hx by (apply sample_regs_user; by vm_compute).
  assert (is_usize 0x10004) as Hpc by by vm_compute.
  destruct (wp_returns _ _ _ (@mem_syscall_run sample_symbols sample_trap_symbols fmt heap layout sample_user task1
    0x10004 0 x sample_user_inv sample_in_user Hx Hpc (or_introl eq_refl))) as (r & s' & Hr & n & tcb' & -> & _).
  eexists. eapply rounds_step; [|eapply rounds_step; [|apply rounds_refl]].
  - by apply (round_compute 1 _ _ _ task1 x 0x10004); [exact sample_in_user|..].
  - eapply (round_trap 1 sample_user x 0x10004 task1 8 0 s'); [exact sample_in_user|done| |exact Hr].
    split; [by vm_compute|discriminate..|]. intros _ E. discriminate E.
Qed.

Lemma rounds_well_formed_witness :
  let fmt : Fmt := {| format := λ _ _, [] |} in
  let env : Log.EnvLog := {| Log.env_LOG := None |} in
  let heap : KernelHeap := {| vec_alloc := λ _ _, None |} in
  let layout : TaskInfoLayout := sample_info_layout in
  ∃ m' tcb', @rounds sample_symbols sample_trap_symbols fmt heap layout [1; 1] sample_machine m' ∧
    @user_mode sample_symbols sample_trap_symbols m' tcb'.
Proof.
  intros fmt env heap layout. destruct (@sample_rounds fmt heap layout) as [m' Hr]. exists m'.
  destruct (@rounds_well_formed sample_symbols sample_trap_symbols fmt env heap layout sample_info_laws [1; 1] sample_machine m' task1
    sample_labels sample_user_mode Hr) as [tcb' Hu].
  exists tcb'. split; [exact Hr|exact Hu].
Defined.

Lemma rounds_isolated_witness :
  let fmt : Fmt := {| format := λ _ _, [] |} in
  let env : Log.EnvLog := {| Log.env_LOG := None |} in
  let heap : KernelHeap := {| vec_alloc := λ _ _, None |} in
  let layout : TaskInfoLayout := sample_info_layout in
  ∃ m' t', @rounds sample_symbols sample_trap_symbols fmt heap layout [1; 1] sample_machine m' ∧
    t' ∈ tasks_of (m_kernel m') ∧ task_id t' = 2.
Proof.
  intros fmt env heap layout. destruct (@sample_rounds fmt heap layout) as [m' Hr]. exists m'.
  assert (task2 ∈ tasks_of (m_kernel sample_machine)) as Hin by (right; left).
  assert (task_id task2 ∉ [1; 1]) as Hnot.
  { change (task_id task2) with 2. rewrite !elem_of_cons, elem_of_nil. lia. }
  destruct (@rounds_isolated sample_symbols sample_trap_symbols fmt env heap layout sample_info_laws [1; 1] sample_machine m' task1 task2
    sample_labels sample_user_mode Hr Hin Hnot) as (t' & Hin' & E & _).
  exists t'. split; [exact Hr|]. split; [exact Hin'|exact E].
Defined.
