(* ===== verification/Startup.v ===== *)
(** * From the boot to user mode

    [task::start] makes a task of every linked application and leaves for the first one;
    what it leaves is a machine in user mode with a sound kernel, where [Rounds] begins. *)

From S2P Require Export NewUser Rounds.
From S2P Require Import KSample Spin PageAlloc Regs Console KernelMap.
From stdpp Require Import list.
Open Scope Z_scope.

(** ** Writing a trap context *)
Section write.
Implicit Types s : KS.

(** Words one after the other *)
Lemma store_words_mem ptr ws : ∀ (k : nat) s,
  wp (for_each (imap (λ i w, (ptr + 8 * Z.of_nat (k + i), w)) ws) (λ '(a, w), store_u64 a w))
    (λ _ s', ∃ m', s' = upd_mem (λ _, m') s ∧
      (∀ (i : nat) w, ws !! i = Some w →
         read_u64 m' (ptr + 8 * Z.of_nat (k + i) - KERNEL_VA_OFFSET) = wrap w) ∧
      same_outside (ptr + 8 * Z.of_nat k - KERNEL_VA_OFFSET)
        (ptr + 8 * Z.of_nat (k + length ws) - KERNEL_VA_OFFSET) (mem_of s) m') s.
Proof.
  induction ws as [|w ws IH]; intros k s.
  - cbn [imap for_each]. wp_step. exists (mem_of s). split; [by destruct s as [[]]|].
    split; [done|apply same_outside_refl].
  - cbn [imap for_each]. wp_step. eapply wp_intro; [reflexivity|]. set (s1 := upd_mem _ s).
    rewrite (imap_ext _ (λ i w, (ptr + 8 * Z.of_nat (Datatypes.S k + i), w)))
      by (intros i y _; simpl; do 2 f_equal; lia).
    eapply wp_mono; [apply IH|]. intros [] s2 (m' & -> & Hw & Hout). exists m'.
    split; [by destruct s as [[]]|]. split.
    + intros [|i] w' Hi; [injection Hi as <-|].
      * rewrite <- (read_write_u64_wrap (mem_of s) (ptr + 8 * Z.of_nat (k + 0) - KERNEL_VA_OFFSET) w).
        apply (same_outside_read_u64 _ _ _ _ _ Hout). lia.
      * rewrite <- (Hw i w' Hi). f_equal. lia.
    + cbn [length]. intros a Ha. rewrite (Hout a) by lia.
      change (mem_of s1) with (write_u64 (mem_of s) (ptr + 8 * Z.of_nat (k + 0) - KERNEL_VA_OFFSET) w).
      apply write_u64_other. lia.
Qed.

Lemma write_volatile_wp ptr c s :
  wp (TrapCtx.write_volatile ptr c) (λ _ s', ∃ m', s' = upd_mem (λ _, m') s ∧
    (∀ i w, TrapCtx.words c !! i = Some w → read_u64 m' (ptr + 8 * Z.of_nat i - KERNEL_VA_OFFSET) = wrap w) ∧
    same_outside (ptr - KERNEL_VA_OFFSET) (ptr + 8 * Z.of_nat (length (TrapCtx.words c)) - KERNEL_VA_OFFSET)
      (mem_of s) m') s.
Proof.
  eapply wp_mono; [apply (store_words_mem ptr (TrapCtx.words c) 0)|].
  intros [] s' (m' & -> & Hw & Hout). exists m'. split; [done|]. split; [exact Hw|].
  intros a Ha. apply Hout. lia.
Qed.
End write.

(** ** [new_user] in the kernel *)
Section startup.
Context `{LinkerSymbols} `{TrapSymbols} `{XmasElf}.
Implicit Types (s : KS) (tcb : TaskControlBlock) (self : VMSpace).

Lemma grown_at s0 shared n self s :
  @grown KS _ _ (page_source_laws_at s0) s0 shared n self s → grown s0 shared n self s ∧ only_mm s0 s.
Proof.
  intros [Hi Ht Hf Hr Hc]. apply vm_inv_at in Hi as [Hi Hmm]. split; [|done]. by split.
Qed.

Lemma new_user_at k bytes s :
  file_ok bytes → kernel_table k s →
  wp (Space.new_user bytes) (λ r s', only_mm s s' ∧
    match r with
    | Ok self => ∃ elf, elf_new bytes = Ok elf ∧
        grown s (kernel_page k s) (user_pages elf) self s' ∧ program_space bytes elf self s'
    | Err e => undone s s' ∧ new_user_error (file_pages bytes) bytes s e
    end) s.
Proof.
  intros Hfile [[Hok _] Hsatp Hwf Hfr Hlow Hsen].
  eapply wp_mono; [apply (@new_user_wp KS _ _ (page_source_laws_at s) _ _ k bytes s Hfile)|].
  - split; try done. split; [done|apply only_mm_refl].
  - intros [self|e] s' Hr.
    + destruct Hr as (elf & Helf & Hg & Hp). apply grown_at in Hg as [Hg Hmm].
      split; [done|]. by exists elf.
    + destruct Hr as (([Hok' Hmm] & Hf & Hs) & He). split; [done|]. split; [|exact He].
      split; [by split|]. done.
Qed.

(** ** Adding a task *)

(** The kernel while it adds tasks, with its own page table [k] *)
Record booting k s : Prop := {
  bo_inv : kernel_inv s;
  bo_table : kernel_table k s;
  bo_ready tcb : tcb ∈ tasks_of s → state tcb = Ready;
  (** no task owns a table of the kernel *)
  bo_apart tcb p : tcb ∈ tasks_of s → owns (vm_space tcb) p → ¬ kernel_page k s p;
}.

(** The program [bytes] is loaded in the space of the task, and its context leads to the
    entry point with the stack pointer set and all other registers 0. *)
Definition holds_program (bytes : list Z) s tcb : Prop :=
  ∃ elf, elf_new bytes = Ok elf ∧ program_space bytes elf (vm_space tcb) s ∧
    word s tcb 33 = elf_entry_point elf ∧
    ∀ i, 1 <= i < 32 → word s tcb i = if decide (i = 2) then USER_SPACE_END else 0.

Lemma holds_program_same bytes s s' tcb :
  vm_inv (vm_space tcb) s → (∃ p, stack_page tcb p) →
  (∀ p, owns (vm_space tcb) p → page_same p (mem_of s) (mem_of s')) →
  holds_program bytes s tcb → holds_program bytes s' tcb.
Proof.
  intros Hi [q Hq] Hsame (elf & Helf & Hprog & Hpc & Hregs).
  assert (∀ i, 0 <= i < 35 → word s' tcb i = word s tcb i) as Hw.
  { intros i Hix. apply (context_word_same _ q s); [done..|]. apply Hsame. right.
    destruct Hq as (_ & pm & Hh). by exists (kernel_vpn q), KernelVaOffset, pm. }
  exists elf. split; [done|]. split; [|split].
  - eapply program_space_same; [exact Hi|done|]. intros v pm p Hh. apply Hsame. right. by exists v, Anonymous, pm.
  - by rewrite Hw by lia.
  - intros i Hix. rewrite Hw by lia. by apply Hregs.
Qed.

Lemma program_stack bytes elf self s shared s0 n id st ctx stats :
  program_space bytes elf self s → grown s0 shared n self s →
  let tcb := mk_TaskControlBlock id self st ctx stats in
  ∃ q, stack_page tcb q ∧ has (areas self) (direct_vpn q) KernelVaOffset (PERMISSION_R .| PERMISSION_W) (Some q).
Proof.
  intros [(segs & p & q & Ea & _ & _ & Hk) _ _] Hg tcb. exists q.
  assert (has (areas self) (direct_vpn q) KernelVaOffset (PERMISSION_R .| PERMISSION_W) (Some q)) as Hh.
  { rewrite Ea. apply has_app. right. apply has_cons. right. apply has_cons. left. by apply kernel_stack_sees. }
  split; [|done]. split; [|by eexists]. exact Hk.
Qed.

(** A task over a new space joins the others. *)
Lemma booting_push k s n tcb s' :
  booting k s → grown s (kernel_page k s) n (vm_space tcb) s' → task_ok s' tcb →
  state tcb = Ready → task_id tcb = next_task_id (k_next_id s) →
  next_task_id (k_next_id s') = task_id tcb + 1 →
  kernel_satp (k_mm s') = kernel_satp (k_mm s) →
  k_tasks s' = mk_SpinLock false (tasks_of s ++ [tcb]) → booting k s'.
Proof.
  intros [Hi Hkt Hready Hap] Hg Hok Hst Hid Hnext Hsatp Htasks.
  pose proof Hi as [_ [Hts Hids Hns Hpw]]%kernel_inv_tasks.
  pose proof (gr_inv _ _ _ _ _ Hg) as Hv. assert (ps_ok s') as Hoks by apply Hv.
  assert (∀ p, ps_free s' p → ps_free s p) as Hfree by (intros p; by eapply grown_free).
  destruct (kernel_table_frame k s s' Hkt Hoks) as [Hkt' Hkp]; [done|apply Hg|done|].
  assert (tasks_of s' = tasks_of s ++ [tcb]) as Et by (unfold tasks_of at 1; by rewrite Htasks).
  assert (∀ t, t ∈ tasks_of s → vm_inv (vm_space t) s) as Hspaces.
  { intros t Ht. rewrite Forall_forall in Hts. apply Hts, Ht. }
  assert (∀ t, t ∈ tasks_of s → undisturbed (vm_space t) s s') as Hund.
  { intros t Ht. eapply grown_undisturbed; [by apply Hspaces|exact Hg]. }
  split; [|done| |].
  - apply kernel_inv_tasks. rewrite Et. split; [by rewrite Htasks|].
    eapply tasks_inv_reorder; [apply Permutation_cons_append|]. apply tasks_inv_cons. split_and!.
    + done.
    + rewrite Hid. intros Hin. unfold ids in Hin. apply list_elem_of_fmap in Hin as (t & E & Ht).
      rewrite Forall_forall in Hns. pose proof (Hns t Ht). lia.
    + lia.
    + apply Forall_forall. intros t Ht.
      eapply grown_apart; [by apply Hspaces| |exact Hg]. intros p. by apply Hap.
    + split; [|done| |by apply (apart_undisturbed _ s)].
      * rewrite Forall_forall in Hts |- *. intros t Ht. apply (task_ok_undisturbed s); auto.
      * eapply Forall_impl; [exact Hns|]. simpl. intros t. lia.
  - rewrite Et. intros t [Ht| ->%list_elem_of_singleton]%elem_of_app; [by apply Hready|done].
  - rewrite Et. intros t p [Ht| ->%list_elem_of_singleton]%elem_of_app Hp; rewrite Hkp; [by eapply Hap|].
    intros (q & Hq & Hn). apply (kt_fresh _ _ Hkt p) with q; [|done|done].
    apply (gr_took _ _ _ _ _ Hg). by right.
Qed.

(** Of the CSRs [TrapContext::new_initial] only clears [SPP]. *)
Definition csrs_kept (c c' : csrs) : Prop :=
  (∀ n, n ≠ Sstatus.CSR_NO → csr_value c' n = csr_value c n) ∧
  ∀ i, 0 <= i < 64 → i ≠ 8 →
    Z.testbit (csr_value c' Sstatus.CSR_NO) i = Z.testbit (csr_value c Sstatus.CSR_NO) i.
Lemma csrs_kept_refl c : csrs_kept c c.
Proof. done. Qed.
Lemma csrs_kept_trans c1 c2 c3 : csrs_kept c1 c2 → csrs_kept c2 c3 → csrs_kept c1 c3.
Proof.
  intros [E1 B1] [E2 B2]. split; [intros n Hn; by rewrite E2, E1|].
  intros i Hi Hne. by rewrite B2, B1.
Qed.
Lemma csrs_kept_hart c c' : csrs_kept c c' → same_hart c c'.
Proof. intros [E _] n Hn. apply E. intros ->. by apply (not_hart_csr Sstatus.CSR_NO). Qed.

(** What [add_task] did for the program [bytes] *)
Record added k (bytes : list Z) s s' : Prop := {
  ad_boot : booting k s';
  ad_task : ∃ tcb, tasks_of s' = tasks_of s ++ [tcb] ∧ holds_program bytes s' tcb;
  ad_next : next_task_id (k_next_id s') = next_task_id (k_next_id s) + 1;
  ad_tp : k_tp s' = k_tp s;
  ad_csrs : csrs_kept (k_csrs s) (k_csrs s');
  ad_frame p : ¬ ps_free s p → page_same p (mem_of s) (mem_of s');
  ad_free p : ps_free s' p → ps_free s p;
  ad_took : took_at_most (file_pages bytes) s s';
}.

(** The first context of a task *)
Definition first_context (elf : ElfFile) (sstatus id : Z) : TrapContext :=
  mk_TrapContext (<[2%nat := USER_SPACE_END]> (replicate 32 0)) sstatus (elf_entry_point elf) id.

Lemma first_context_words elf sstatus id i :
  0 <= i < 35 →
  ∃ w, TrapCtx.words (first_context elf sstatus id) !! Z.to_nat i = Some w ∧
    (i < 32 → w = if decide (i = 2) then USER_SPACE_END else 0) ∧
    (i = 32 → w = sstatus) ∧ (i = 33 → w = elf_entry_point elf) ∧ (i = 34 → w = id).
Proof.
  intros Hi. unfold TrapCtx.words, first_context. cbn [tc_x tc_sstatus tc_sepc tc_task_id].
  destruct (decide (i < 32)).
  - rewrite lookup_app_l by (rewrite length_insert, length_replicate; lia).
    case_decide as E; [subst i|].
    + rewrite list_lookup_insert_eq by (rewrite length_replicate; lia). eexists. split; [done|]. lia.
    + rewrite list_lookup_insert_ne by lia. rewrite lookup_replicate_2 by lia. eexists. split; [done|]. lia.
  - rewrite lookup_app_r by (rewrite length_insert, length_replicate; lia).
    rewrite length_insert, length_replicate.
    assert (i = 32 ∨ i = 33 ∨ i = 34) as [->|[->| ->]] by lia; eexists; (split; [done|]); lia.
Qed.

(** The state [add_task] leaves, once the space [self] is there in [s1] *)
Lemma task_added k bytes s s1 self elf m' v tcb s' :
  file_ok bytes → booting k s → is_usize (next_task_id (k_next_id s) + 1) → 0 <= next_task_id (k_next_id s) →
  elf_new bytes = Ok elf → only_mm s s1 →
  grown s (kernel_page k s) (user_pages elf) self s1 → program_space bytes elf self s1 →
  Z.testbit v 8 = false →
  tcb = mk_TaskControlBlock (next_task_id (k_next_id s)) self Ready
    (Context.new_initial __restore_u_ctx (k_stack_end self ⊖ TrapCtx.SIZE) (k_stack_end self ⊖ TrapCtx.SIZE)
       (Space.get_satp self)) Stats.new_zeros →
  (∀ i w, TrapCtx.words (first_context elf v (task_id tcb)) !! i = Some w →
     read_u64 m' (context_of tcb + 8 * Z.of_nat i - KERNEL_VA_OFFSET) = wrap w) →
  same_outside (context_of tcb - KERNEL_VA_OFFSET) (context_of tcb + 280 - KERNEL_VA_OFFSET) (mem_of s1) m' →
  k_mm s' = mk_MM m' (page_allocator (k_mm s1)) (kernel_satp (k_mm s1)) →
  k_tasks s' = mk_SpinLock false (tasks_of s ++ [tcb]) →
  k_next_id s' = mk_NEXT_TASK_ID (next_task_id (k_next_id s) + 1) → k_tp s' = k_tp s →
  csrs_kept (k_csrs s) (k_csrs s') → added k bytes s s'.
Proof.
  intros Hfile Hbo Hid1 Hid0 Helf [Es1 Esatp] Hg Hprog Hv Etcb Hwords Hout Emm Etasks Enext Etp Ecs.
  destruct (program_stack bytes elf self s1 (kernel_page k s) s (user_pages elf) (task_id tcb) Ready
    (context tcb) Stats.new_zeros Hprog Hg) as (q & Hq & Hh).
  assert (stack_page tcb q) as Hstack by (by subst tcb). clear Hq.
  assert (vm_space tcb = self) as Ev by (by subst tcb).
  assert (ps_ok s1) as Hok1 by apply (gr_inv _ _ _ _ _ Hg).
  assert (vm_inv (vm_space tcb) s1) as Hi1 by (rewrite Ev; apply Hg).
  pose proof (context_of_eq tcb q s1 Hi1 Hstack) as Ectx.
  assert (mem_of s' = m') as Em by (unfold mem_of; cbn; by rewrite Emm).
  assert (∀ p, ps_free s' p ↔ ps_free s1 p) as Ef by (intros p; unfold ps_free; cbn; by rewrite Emm).
  assert (same_outside_page q (mem_of s1) (mem_of s')) as Hpage.
  { rewrite Em. intros a Ha. apply Hout. rewrite Ectx. unfold kernel_va, page_start, page_end in *. lia. }
  assert (grown s (kernel_page k s) (user_pages elf) self s') as Hg'.
  { eapply (grown_write s (kernel_page k s) _ self s1); [done|exact Hh| |done|done].
    destruct Hok1 as [Hok1 _]. split; [|done]. by rewrite Emm. }
  assert (∀ i, 0 <= i < 35 → ∃ w, word s' tcb i = wrap w ∧
    (i < 32 → w = if decide (i = 2) then USER_SPACE_END else 0) ∧
    (i = 32 → w = v) ∧ (i = 33 → w = elf_entry_point elf) ∧ (i = 34 → w = task_id tcb)) as Hword.
  { intros i Hi. destruct (first_context_words elf v (task_id tcb) i Hi) as (w & Hw & Hrest).
    exists w. split; [|done]. unfold word. rewrite Em.
    pose proof (Hwords _ _ Hw) as E. by rewrite Z2Nat.id in E by lia. }
  assert (task_ok s' tcb) as Htask.
  { split.
    - rewrite Ev. apply Hg'.
    - by exists q.
    - apply task_id_word. destruct (Hword 34) as (w & Hw & _ & _ & _ & E); [lia|].
      rewrite (E eq_refl) in Hw. etransitivity; [exact Hw|]. apply wrap_small.
      subst tcb. unfold is_usize in *. cbn [task_id]. lia.
    - unfold to_user. destruct (Hword 32) as (w & Hw & _ & E & _); [lia|]. unfold word in Hw.
      rewrite Hw, (E eq_refl). rewrite <- Hv. apply (Z.mod_pow2_bits_low v 64). lia.
    - by subst tcb. }
  assert (holds_program bytes s' tcb) as Hholds.
  { exists elf. split; [done|]. split; [|split].
    - rewrite Ev. eapply program_space_same; [apply Hg|exact Hprog|].
      intros u pm x Hx. apply (page_same_outside q); [exact Hpage|]. intros ->.
      pose proof (vi_inj _ _ (gr_inv _ _ _ _ _ Hg) _ _ _ _ _ _ _ Hx Hh) as ->.
      by destruct (has_unique _ _ _ _ _ _ _ _ _ (gr_inv _ _ _ _ _ Hg) Hx Hh).
    - destruct (Hword 33) as (w & Hw & _ & _ & E & _); [lia|]. rewrite Hw, (E eq_refl).
      apply wrap_small, (fl_entry _ Hfile elf Helf).
    - intros i Hi. destruct (Hword i) as (w & Hw & E & _); [lia|]. rewrite Hw, E by lia. by case_decide. }
  split.
  - eapply (booting_push k s (user_pages elf) tcb); [done|by rewrite Ev|done|by subst tcb|by subst tcb| | |done].
    + rewrite Enext. by subst tcb.
    + by rewrite Emm.
  - exists tcb. split; [|done]. unfold tasks_of at 1. by rewrite Etasks.
  - by rewrite Enext.
  - done.
  - done.
  - apply Hg'.
  - intros p. by eapply grown_free.
  - unfold file_pages. rewrite Helf. apply Hg'.
Qed.

Definition no_space : string := "Failed to create user vm space".

Lemma add_task_ends k bytes s :
  file_ok bytes → booting k s → 0 <= next_task_id (k_next_id s) →
  next_task_id (k_next_id s) + 1 < USIZE_MODULUS →
  ends (Task.add_task bytes) (λ _ s', added k bytes s s')
    (λ msg, msg = no_space ∧ ∃ e, new_user_error (file_pages bytes) bytes s e) s.
Proof.
  intros Hfile Hbo Hid0 Hid1. unfold Task.add_task. apply ends_bind.
  eapply ends_mono; [apply ends_wp, new_user_at; [done|apply Hbo]| |intros msg Hm; exact Hm].
  intros [self|e] s1 [Hmm Hr].
  2:{ apply ends_bind, ends_panic. split; [done|]. exists e. apply Hr. }
  destruct Hr as (elf & Helf & Hg & Hprog). apply ends_wp. wp_step. wp_step.
  set (sp := Space.get_k_stack_end self ⊖ TrapCtx.SIZE). wp_step. eapply wp_intro; [reflexivity|].
  destruct Hmm as [Es1 Esatp].
  assert (k_next_id s1 = k_next_id s ∧ k_tasks s1 = k_tasks s ∧ k_tp s1 = k_tp s ∧ k_csrs s1 = k_csrs s)
    as (En & Ek & Et & Ecs) by (by rewrite Es1).
  change (next_task_id (proj s1)) with (next_task_id (k_next_id s1)). rewrite En.
  set (tcb := mk_TaskControlBlock _ _ _ _ _). set (s2 := upd (mk_NEXT_TASK_ID _) s1).
  destruct (set_spp_user_spec (k_csrs s1)) as (v & c & Hspp & Evc & Hv & Hvo).
  wp_step. eapply wp_intro.
  { unfold TrapCtx.new_initial, mbind, M_bind, lift.
    change (proj s2 : csrs) with (k_csrs s1). rewrite Hspp. reflexivity. }
  change (mk_TrapContext _ _ _ _) with (mk_TrapContext (<[2%nat := u_stack_end self]> (replicate 32 0)) v
    (entry_addr self) (task_id tcb)).
  rewrite (pr_user_sp _ _ _ _ Hprog), (pr_entry _ _ _ _ Hprog).
  fold (first_context elf v (task_id tcb)). wp_step.
  eapply wp_mono; [apply write_volatile_wp|]. intros [] s3 (m' & -> & Hw & Hout).
  eapply wp_intro.
  { apply (with_guard_run _ _ tt (tasks_of s ++ [tcb]) (tasks_of s)); [|done].
    change (k_tasks s1 = mk_SpinLock false (tasks_of s)). rewrite Ek.
    pose proof (ki_lock _ (bo_inv _ _ Hbo)) as Hl. unfold tasks_of.
    destruct (k_tasks s) as [b l]. cbn in Hl |- *. by subst b. }
  eapply (task_added k bytes s s1 self elf m' v tcb); try done.
  - split; lia.
  - pose proof (Hv 8 ltac:(lia)) as E. exact E.
  - cbn. unfold uadd. by rewrite wrap_small by (unfold is_usize; lia).
  - rewrite <- Ecs. split; [exact Hvo|]. intros i Hi Hne. pose proof (Hv i Hi) as E.
    rewrite (proj2 (Z.eqb_neq _ _) Hne), Evc in E. exact E.
Qed.
End startup.

(** ** [start] *)
Section start.
Context `{LinkerSymbols} `{TrapSymbols} `{XmasElf} `{AppSymbols} `{Fmt} `{Log.EnvLog}.
Implicit Types (s : KS) (tcb : TaskControlBlock).

(** The applications lie in no free page: they stay linked whatever happens to those. *)
Definition apps_fixed (apps : list Apps.app) s : Prop :=
  ∀ m', (∀ p, ¬ ps_free s p → page_same p (mem_of s) m') → apps_linked m' apps.

(** The kernel before [start], with its page table [k]: no task yet *)
Record cold k (apps : list Apps.app) s : Prop := {
  cd_lock : k_tasks s = mk_SpinLock false [];
  cd_table : kernel_table k s;
  cd_tp : k_tp s = 0;
  cd_kernel : in_kernel (k_csrs s);
  cd_ids : 0 <= next_task_id (k_next_id s) ∧
    next_task_id (k_next_id s) + Z.of_nat (length apps) < USIZE_MODULUS;
  cd_apps : apps_fixed apps s;
  cd_files : Forall (λ a, file_ok (app_elf a)) apps;
}.

(** The pages the applications may need *)
Definition total_pages (apps : list Apps.app) : nat := sum_list_with (λ a, file_pages (app_elf a)) apps.

(** The tasks of the applications [l] have been added. *)
Record added_all k (l : list Apps.app) s0 s : Prop := {
  aa_boot : booting k s;
  aa_tasks : Forall2 (λ a t, holds_program (app_elf a) s t) l (tasks_of s);
  aa_next : next_task_id (k_next_id s) = next_task_id (k_next_id s0) + Z.of_nat (length l);
  aa_tp : k_tp s = k_tp s0;
  aa_csrs : csrs_kept (k_csrs s0) (k_csrs s);
  aa_frame p : ¬ ps_free s0 p → page_same p (mem_of s0) (mem_of s);
  aa_free p : ps_free s p → ps_free s0 p;
  aa_took : took_at_most (total_pages l) s0 s;
}.

Lemma cold_booting k apps s : cold k apps s → booting k s.
Proof.
  intros [Hl Hk _ _ _ _ _]. assert (tasks_of s = []) as Et by (unfold tasks_of; by rewrite Hl).
  split; [|done|by rewrite Et; intros t []%elem_of_nil|by rewrite Et; intros t p []%elem_of_nil].
  split; rewrite ?Et; [by rewrite Hl|constructor|constructor|constructor|done].
Qed.

Lemma added_all_snoc k l a s0 s s' :
  added_all k l s0 s → added k (app_elf a) s s' → added_all k (l ++ [a]) s0 s'.
Proof.
  intros [Hb Ht Hn Htp Hcs Hf Hfr Htk] [Hb' (tcb & Et & Hh) Hn' Htp' Hcs' Hf' Hfr' Htk']. split.
  - done.
  - rewrite Et. apply Forall2_app; [|by constructor].
    apply Forall2_same_length_lookup in Ht as [Hlen Ht]. apply Forall2_same_length_lookup. split; [done|].
    intros i b t Hb1 Ht1. pose proof (ki_tasks _ (bo_inv _ _ Hb)) as Hts. rewrite Forall_forall in Hts.
    pose proof (Hts t ltac:(by eapply list_elem_of_lookup_2)) as [Hv Hst _ _ _].
    eapply (holds_program_same _ s); [done|done| |by eapply Ht].
    intros p Hp. apply Hf'. by apply (vi_owns _ _ _ Hv).
  - rewrite Hn', Hn, length_app. cbn. lia.
  - by rewrite Htp'.
  - by eapply csrs_kept_trans.
  - intros p Hp. eapply page_same_trans; [by apply Hf|]. apply Hf'. intros ?. by apply Hp, Hfr.
  - intros p Hp. by apply Hfr, Hfr'.
  - unfold total_pages. rewrite sum_list_with_app. cbn. rewrite Nat.add_0_r.
    by eapply took_at_most_trans.
Qed.

(** Why [start] panics: an application cannot be loaded. *)
Definition start_panic (apps : list Apps.app) s (msg : string) : Prop :=
  msg = no_space ∧ ∃ a e, a ∈ apps ∧ new_user_error (total_pages apps) (app_elf a) s e.

Lemma add_all_ends k apps s :
  cold k apps s →
  ends (for_each (range 0 (Z.of_nat (length apps))) (λ i, elf ← Apps.get_app_elf i; Task.add_task elf))
    (λ _ s', added_all k apps s s') (start_panic apps s) s.
Proof.
  intros Hc. pose proof (cold_booting _ _ _ Hc) as Hbo. destruct Hc as [Hl Hk Htp _ [Hid0 Hid1] Happs Hfiles].
  assert (length (range 0 (Z.of_nat (length apps))) = length apps) as Hlen
    by (unfold range; rewrite length_seqZ; lia).
  eapply ends_mono.
  - apply (ends_for_each _ _ (λ don s', added_all k (take (length don) apps) s s') (start_panic apps s)).
    + change (added_all k [] s s).
      split; try done; [unfold tasks_of; rewrite Hl; exact (List.Forall2_nil _)|cbn; lia|by apply took_at_most_refl].
    + intros don i todo s1 Hr Hadd.
      assert (i = Z.of_nat (length don) ∧ (length don < length apps)%nat) as [-> Hlt].
      { assert (range 0 (Z.of_nat (length apps)) !! length don = Some i) as Hi
          by (rewrite Hr; by apply list_lookup_middle).
        apply lookup_seqZ in Hi. lia. }
      destruct (lookup_lt_is_Some_2 apps (length don) Hlt) as [a Ha].
      assert (apps_linked (mem_of s1) apps) as Hlink by (apply Happs; apply Hadd).
      apply ends_bind. eapply (ends_at _ (mret (app_elf a))).
      { apply (get_app_elf_run apps); [done|lia|by rewrite Nat2Z.id]. }
      change (ends (Task.add_task (app_elf a)) (λ _ s', added_all k (take (length (don ++ [Z.of_nat (length don)])) apps) s s')
        (start_panic apps s) s1).
      rewrite Forall_forall in Hfiles. pose proof (list_elem_of_lookup_2 _ _ _ Ha) as Hin.
      pose proof (aa_next _ _ _ _ Hadd) as Hnext. rewrite length_take in Hnext.
      eapply ends_mono; [apply (add_task_ends k); [by apply Hfiles|apply Hadd|lia|lia]|..].
      * intros [] s2 Had. rewrite length_app, Nat.add_1_r, (take_S_r _ _ _ Ha). by eapply added_all_snoc.
      * intros msg (-> & e & He). split; [done|]. exists a, e. split; [done|].
        assert (total_pages (take (length don) apps) + file_pages (app_elf a) <= total_pages apps)%nat as Hle.
        { rewrite <- (take_drop_middle apps (length don) a Ha) at 2. unfold total_pages.
          rewrite sum_list_with_app. cbn. lia. }
        replace (total_pages apps) with
          (total_pages apps - file_pages (app_elf a) + file_pages (app_elf a))%nat by lia.
        eapply new_user_error_earlier; [|exact He].
        eapply took_at_most_le; [|apply (aa_took _ _ _ _ Hadd)]. lia.
  - intros [] s' Hadd. cbv beta in Hadd. by rewrite Hlen, firstn_all in Hadd.
  - done.
Qed.

(** ** The first task in user mode *)

Lemma holds_program_relabel bytes s s' t t' :
  mem_of s' = mem_of s → vm_space t' = vm_space t → vm_inv (vm_space t) s →
  holds_program bytes s t → holds_program bytes s' t'.
Proof.
  intros Em Ev Hi (elf & Helf & Hprog & Hpc & Hregs).
  assert (∀ i, word s' t' i = word s t i) as Hw.
  { intros i. unfold word, context_of. by rewrite Em, Ev. }
  exists elf. rewrite Ev. split; [done|]. split; [|split].
  - eapply program_space_same; [exact Hi|done|]. intros v pm p _. by rewrite Em.
  - by rewrite Hw.
  - intros i Hix. rewrite Hw. by apply Hregs.
Qed.

(** The registers a program starts with *)
Definition first_regs : list Z := <[2%nat := USER_SPACE_END]> (replicate 32 0).

Lemma first_saved_regs bytes s t : holds_program bytes s t → saved_regs s t = first_regs.
Proof.
  intros (elf & _ & _ & _ & Hregs). unfold saved_regs, first_regs. apply list_eq. intros [|i]; [done|].
  change ((0 :: (word s t <$> seqZ 1 31)) !! Datatypes.S i) with ((word s t <$> seqZ 1 31) !! i).
  rewrite list_lookup_fmap. destruct (decide (i < 31)%nat) as [Hi|Hi].
  - rewrite lookup_seqZ_lt by lia. cbn [fmap option_fmap option_map]. rewrite Hregs by lia.
    destruct (decide (i = 1%nat)) as [->|Hne]; [done|]. rewrite decide_False by lia.
    rewrite list_lookup_insert_ne by lia. by rewrite lookup_replicate_2 by lia.
  - rewrite lookup_seqZ_ge by lia. symmetry. apply lookup_ge_None.
    rewrite length_insert, length_replicate. lia.
Qed.

(** What the machine is when the task [next] is about to start *)
Definition first_task (apps : list Apps.app) (next : Z) s : Prop :=
  (∃ l, tasks_of s ≡ₚ l ∧ Forall2 (λ a t, holds_program (app_elf a) s t) apps l) ∧
  ∃ a elf tcb s', a ∈ apps ∧ elf_new (app_elf a) = Ok elf ∧ tcb ∈ tasks_of s ∧ task_id tcb = next ∧
    program_space (app_elf a) elf (vm_space tcb) s ∧ mem_of s' = mem_of s ∧
    Utrap.restore_u_ctx s = Ret (first_regs, elf_entry_point elf) s' ∧
    user_mode (mk_machine s' first_regs (elf_entry_point elf)) tcb.

Lemma scheduled_first apps s l curr next K0 s' :
  tasks_of s ≡ₚ l → kernel_inv s → mem_of s' = mem_of s →
  Forall2 (λ a t, holds_program (app_elf a) s t) apps (tasks_of s) →
  scheduled s None l (Switched curr next K0) s' → curr = None ∧ first_task apps next s'.
Proof.
  intros Hp Hi Em Hall (-> & _ & t & t' & rest & Hl & _ & -> & _ & Hsame & _ & Hi' & Ht' & Hrun & _).
  split; [done|]. pose proof Hsame as (Eid & Ev & _).
  assert (t ∈ tasks_of s) as Hin by (rewrite Hp, Hl; by left).
  apply list_elem_of_lookup in Hin as [j Hj].
  assert (∀ x, x ∈ tasks_of s → vm_inv (vm_space x) s) as Hsp.
  { intros x Hx. pose proof (ki_tasks _ Hi) as Hts. rewrite Forall_forall in Hts. apply Hts, Hx. }
  assert (Forall2 (λ a x, holds_program (app_elf a) s' x) apps (<[j := t']> (tasks_of s))) as Hall'.
  { apply Forall2_same_length_lookup in Hall as [Hlen Hall]. apply Forall2_same_length_lookup.
    split; [by rewrite length_insert|]. intros i a x Ha Hx.
    destruct (decide (i = j)) as [->|Hne].
    - rewrite list_lookup_insert_eq in Hx by (by eapply lookup_lt_Some). injection Hx as <-.
      apply (holds_program_relabel _ s s' t); [done|done|by eapply Hsp, list_elem_of_lookup_2|by eapply Hall].
    - rewrite list_lookup_insert_ne in Hx by done.
      apply (holds_program_relabel _ s s' x); [done|done|by eapply Hsp, list_elem_of_lookup_2|by eapply Hall]. }
  split.
  - exists (<[j := t']> (tasks_of s)). split; [|done]. rewrite Ht', (insert_delete_perm _ _ _ _ Hj).
    f_equiv. apply (Permutation_cons_inv (a := t)). rewrite <- Hl, <- Hp. by apply delete_Permutation.
  - destruct (Forall2_lookup_r _ _ _ j t' Hall') as (a & Ha & Hh).
    { apply list_lookup_insert_eq. by eapply lookup_lt_Some. }
    pose proof Hh as (elf & Helf & Hprog & Hpc & _).
    destruct (wp_returns _ _ _ (restore_u_ctx_wp s' t' Hrun)) as ([x pc] & s2 & Hres & Hl2).
    pose proof (switched_user s' t' s2 x pc Hi' Hrun Hres) as [_ Hum].
    destruct Hl2 as (Hq & _ & _ & Ex & Epc). rewrite (first_saved_regs _ _ _ Hh) in Ex. rewrite Hpc in Epc.
    subst x pc. exists a, elf, t', s2. split; [by eapply list_elem_of_lookup_2|]. split; [done|].
    split; [rewrite Ht'; by left|]. split; [done|]. split; [done|]. split; [by apply quiet_mem|]. by split.
Qed.

(** The registers the first task finds: [satp] is its own, the rest is as [start] found it *)
Definition csrs_started (c c' : csrs) : Prop :=
  (∀ n, n ≠ Sstatus.CSR_NO → n ≠ 0x180 → csr_value c' n = csr_value c n) ∧
  ∀ i, 0 <= i < 64 → i ≠ 8 →
    Z.testbit (csr_value c' Sstatus.CSR_NO) i = Z.testbit (csr_value c Sstatus.CSR_NO) i.

(** The timer is set. *)
Definition timer_set s : Prop := ∃ tr time, sbi_trace (k_sbi s) = tr ++ [SetTimer time].

(** How [start] ends, from the page table [k] and the registers [c] *)
Definition start_post k (apps : list Apps.app) (c : csrs) (r : flow unit) s : Prop :=
  match r with
  | Done _ => False
  | Switched curr next _ => curr = None ∧ first_task apps next s ∧ csrs_started c (k_csrs s) ∧
      kernel_satp (k_mm s) = Pgt.get_satp (mk_RootPgt k []) ∧ timer_set s
  | PowerOff failure => failure = false ∧ apps = []
  end.

Lemma start_ends k apps s :
  cold k apps s → ends Task.start (start_post k apps (k_csrs s)) (start_panic apps s) s.
Proof.
  intros Hc. unfold Task.start. unfold kbind at 1. apply ends_bind. apply ends_fmap.
  eapply (ends_at _ (mret (Z.of_nat (length apps)))).
  { apply (get_total_apps_run (mem_of s)); [done|]. by apply (cd_apps _ _ _ Hc). }
  apply (ends_bind (S := KS)), ends_fmap.
  eapply ends_mono; [by apply (add_all_ends k)| |done]. intros [] s1 Hadd. cbn [flow_bind].
  destruct Hadd as [Hbo Hall _ Htp Hcs _ _ _]. rewrite (cd_tp _ _ _ Hc) in Htp.
  pose proof (bo_inv _ _ Hbo) as Hi.
  assert (leaving s1 None) as Hleave.
  { split; [done|]. split; [intros t Ht; by rewrite (bo_ready _ _ Hbo t Ht)|].
    eapply in_kernel_same; [by apply csrs_kept_hart|apply (cd_kernel _ _ _ Hc)]. }
  apply ends_bind. eapply ends_mono; [by apply ends_wp, (run_next_task_wp s1 None)| |intros msg Hm; exact Hm].
  intros r s' (o & l & s2 & Hrq & Emm & Hsch).
  assert (tasks_of s1 ≡ₚ l) as Hp by (by rewrite (rq_perm _ _ _ _ _ Hrq)).
  assert (mem_of s' = mem_of s1) as Em.
  { rewrite <- (rq_mem _ _ _ _ _ Hrq). unfold mem_of. cbn. by rewrite Emm. }
  destruct r as [u|curr next K0|failure]; cbn [flow_bind].
  - destruct Hsch.
  - destruct (scheduled_first apps s1 l curr next K0 s') as [Hcurr Hfirst]; [done..|].
    split; [done|]. split; [done|].
    destruct Hsch as (_ & _ & t & t' & rest & _ & _ & _ & _ & _ & _ & _ & _ & _ & Ecs & Htime).
    split; [|split; [|exact Htime]].
    2:{ rewrite <- (kt_satp _ _ (bo_table _ _ Hbo)), Emm.
        by destruct (rq_rest _ _ _ _ _ Hrq) as (_ & _ & _ & _ & ->). }
    destruct Hcs as [E B]. split.
    + intros n H1' H2'. by rewrite Ecs, E.
    + intros i Hi' Hne. by rewrite Ecs, B.
  - destruct Hsch as (-> & Hno & _). split; [done|].
    destruct (tasks_of s1) as [|t ts] eqn:Et.
    + by apply Forall2_nil_inv_r in Hall.
    + exfalso. apply (Hno t); [rewrite <- Hp; by left|]. apply (bo_ready _ _ Hbo). rewrite Et. by left.
Qed.
End start.

(** [start] gives every linked application a task of its own - its segments loaded, a
    user and a kernel stack, a context at its entry point - and leaves for one of them:
    with the switch the hart is in user mode at the entry point of a linked program, all
    registers 0 but the stack pointer, over a sound kernel.  With no applications the machine
    powers off; it panics only when an application cannot be loaded.  It never spins on
    the lock of [ALL_TASKS] and never returns. *)
Theorem start_correct `{LinkerSymbols} `{TrapSymbols} `{XmasElf} `{AppSymbols} `{Fmt} `{Log.EnvLog}
    k (apps : list Apps.app) (s : KS) :
  cold k apps s →
  match Task.start s with
  | Ret (Switched curr next _) s' =>
      curr = None ∧ first_task apps next s' ∧ csrs_started (k_csrs s) (k_csrs s') ∧
      kernel_satp (k_mm s') = Pgt.get_satp (mk_RootPgt k []) ∧ timer_set s'
  | Ret (PowerOff failure) s' => failure = false ∧ apps = []
  | Ret (Done _) s' => False
  | Panic msg => start_panic apps s msg
  | Spin => False
  end.
Proof.
  intros Hc. pose proof (start_ends k apps s Hc) as He. unfold ends in He.
  destruct (Task.start s) as [[u|curr next K0|failure] s'|msg|]; exact He.
Qed.

(** *** One application *)
#[local] Existing Instance sample_symbols.
#[local] Existing Instance sample_elf.
#[local] Instance sample_apps : AppSymbols := {| _num_apps := KERNEL_VA_OFFSET |}.
Definition sample_app_table : mem :=
  write_u8 (write_u8 (write_u8 (write_u64 (write_u64 (write_u64 (write_u64 (write_u64 ∅ 0 1)
    8 (KERNEL_VA_OFFSET + 64)) 16 (KERNEL_VA_OFFSET + 64))
    24 (KERNEL_VA_OFFSET + 72)) 32 (KERNEL_VA_OFFSET + 75)) 72 1) 73 2) 74 3.
Definition sample_app : Apps.app := mk_app [] [1; 2; 3].
Definition sample_cold_mem : mem := sample_tree 0x80706 sample_app_table.
Definition sample_cold : KS := {|
  k_mm := mk_MM sample_cold_mem (new (mk_PageAllocator 0x80710 LAST_PPN [])) (Pgt.get_satp sample_pgt);
  k_csrs := mk_csrs {[Stvec.CSR_NO := __stvec]};
  k_tp := 0;
  k_tasks := new [];
  k_next_id := mk_NEXT_TASK_ID 1;
  k_clock := mk_Clock (λ n, 100 + 10 * Z.of_nat n) 0;
  k_sbi := mk_Sbi [];
  k_level := mk_MAX_LEVEL_ORDINAL 0;
|}.

Lemma sample_app_table_other p : p ≠ 0 → page_same p ∅ sample_app_table.
Proof.
  intros Hp a Ha. assert (a < 0 ∨ 4096 <= a) by (unfold page_start, page_end in Ha; lia).
  unfold sample_app_table. rewrite !read_u8_write_ne by lia. rewrite !write_u64_other by lia. done.
Qed.
Lemma sample_cold_tree : has_tree 0x80706 sample_cold_mem.
Proof.
  intros q Hq. unfold sample_root, rp_pages in Hq. rewrite !elem_of_cons, elem_of_nil in Hq.
  apply sample_tree_cong, sample_app_table_other. lia.
Qed.
Lemma sample_cold_free p : ps_free sample_cold p ↔ 0x80710 <= p < LAST_PPN.
Proof. split; [intros [Hp|Hp]; [by apply elem_of_nil in Hp|]|intros Hp; right]; exact Hp. Qed.

Lemma sample_cold_table : kernel_table 0x80706 sample_cold.
Proof.
  destruct (has_tree_tables 0x80706 sample_cold_mem) as (Hwf & Htab & _ & Hsen);
    [lia|lia|apply sample_cold_tree|]. split.
  - destruct (with_mem_ok ∅) as [Hok _]. split; [exact Hok|exact I].
  - reflexivity.
  - exact Hwf.
  - intros p Hp%sample_cold_free q Hq Hn. apply Htab in Hn; [|done].
    unfold sample_root, rp_pages in Hn. rewrite !elem_of_cons, elem_of_nil in Hn. lia.
  - intros i Hi. change (mem_of sample_cold) with sample_cold_mem. unfold sample_cold_mem.
    rewrite sample_tree_low by exact Hi.
    assert (pte sample_app_table 0x80706 i = 0) as ->; [|reflexivity].
    apply pte_zero_page; [|unfold idx_ok; lia].
    apply (page_same_zero 0x80706 ∅); [apply sample_app_table_other; lia|apply empty_page_zero].
  - exists (0x80706 + 2). change (mem_of sample_cold) with sample_cold_mem. exact Hsen.
Qed.

Lemma sample_apps_fixed : apps_fixed [sample_app] sample_cold.
Proof.
  intros m' Hm'. assert (page_same 0 sample_cold_mem m') as Hs.
  { apply (Hm' 0). rewrite sample_cold_free. lia. }
  assert (∀ a, 0 <= a → a + 8 <= 4096 → read_u64 m' a = read_u64 sample_cold_mem a) as Hw.
  { intros a Ha Ha'. apply read_u64_ext. intros b Hb. apply Hs. unfold page_start, page_end. lia. }
  assert (∀ a, 0 <= a < 4096 → read_u8 m' a = read_u8 sample_cold_mem a) as Hb8.
  { intros a Ha. apply Hs. unfold page_start, page_end. lia. }
  split; [vm_compute; congruence|]. split; [vm_compute; reflexivity|].
  split; [unfold word_at; rewrite Hw; vm_compute; congruence|].
  intros [|[|]] a Ha; [|discriminate Ha..]. injection Ha as <-.
  exists (KERNEL_VA_OFFSET + 64), (KERNEL_VA_OFFSET + 72).
  do 4 (split; [unfold word_at; rewrite Hw; vm_compute; congruence|]).
  split; (split; [vm_compute; split; congruence|]; split; [vm_compute; reflexivity|]);
    intros [|[|[|]]] b Hb; try discriminate Hb; injection Hb as <-; rewrite Hb8; vm_compute; (congruence || split; congruence).
Qed.

Lemma sample_cold_ok : cold 0x80706 [sample_app] sample_cold.
Proof.
  split; [done|apply sample_cold_table|done|by split|vm_compute; split; congruence|apply sample_apps_fixed|].
  apply Forall_singleton, sample_file_ok.
Qed.

Lemma start_correct_witness :
  let fmt : Fmt := {| format := λ _ _, [] |} in
  let env : Log.EnvLog := {| Log.env_LOG := None |} in
  ∃ next K0 s', @Task.start sample_apps sample_trap_symbols sample_elf fmt sample_cold =
      Ret (Switched None next K0) s' ∧ first_task [sample_app] next s'.
Proof.
  intros fmt env.
  pose proof (@start_correct sample_symbols sample_trap_symbols sample_elf sample_apps fmt env
    0x80706 [sample_app] sample_cold sample_cold_ok) as Hst.
  destruct (@Task.start sample_apps sample_trap_symbols sample_elf fmt sample_cold) as [[u|curr next K0|failure] s'|msg|].
  - destruct Hst.
  - destruct Hst as (-> & Hfirst & _). exists next, K0, s'. split; [reflexivity|exact Hfirst].
  - destruct Hst as [_ Hn]. discriminate Hn.
  - exfalso. destruct Hst as (_ & a & e & Ha & He). apply list_elem_of_singleton in Ha as ->.
    change (total_pages [sample_app]) with 11%nat in He.
    refine (sample_no_error 11 sample_cold e _ He). apply spare_not_scarce.
    exists (seqZ 0x80710 12). split; [apply NoDup_seqZ|]. split; [reflexivity|].
    intros p Hp%elem_of_seqZ. apply sample_cold_free. unfold LAST_PPN. lia.
  - destruct Hst.
Defined.
