(* ===== verification/Boot.v ===== *)
(** * Start-up: [src/os/src/main.rs] and the initialisation of [src/os/src/mm.rs] *)

From S2P Require Export Utrap.
From S2P Require Import Regs KernelMap.
From stdpp Require Import list.
Open Scope Z_scope.

(** [static mut KERNEL_HEAP] and the [init] of [buddy_system_allocator] *)
Class HeapInit := {
  KERNEL_HEAP : Z;
  heap_init : Z → Z → M KS unit;
}.

Module Boot.
Section ops.
Context `{LinkerSymbols} `{TrapSymbols} `{AppSymbols} `{XmasElf} `{Fmt}
  `{KernelHeap} `{TaskInfoLayout} `{HeapInit} `{Log.EnvLog}.

(** [heap_alloc::init] *)
Definition heap_alloc_init : M KS unit := heap_init KERNEL_HEAP KERNEL_HEAP_SIZE_BYTES.

(** [mm::init] *)
Definition mm_init : M KS unit :=
  clear_bss;;
  heap_alloc_init;;
  r ← Kernel.init_kernel_satp;
  assert_or (is_ok r) "Failed to activate kernel satp";;
  Kernel.activate_kernel_space.

Definition log_kernel_layout : M KS unit :=
  Log.debug " kernel [{:#x}, {:#x}) size={}"
    [FArg kernel_start; FArg kernel_end; FArg (kernel_end ⊖ kernel_start)];;
  Log.debug ".text [{:#x}, {:#x}) size={}"
    [FArg text_start; FArg text_end; FArg (text_end ⊖ text_start)];;
  Log.debug ".boot_pgt [{:#x}, {:#x}) size={}"
    [FArg boot_pgt; FArg (boot_pgt ⊕ PAGE_SIZE_BYTES); FArg PAGE_SIZE_BYTES];;
  Log.debug ".kernel_stack [{:#x}, {:#x}) size={}"
    [FArg kernel_stack_start; FArg kernel_stack_end;
     FArg (kernel_stack_end ⊖ kernel_stack_start)];;
  Log.debug ".rodata [{:#x}, {:#x}) size={}"
    [FArg rodata_start; FArg rodata_end; FArg (rodata_end ⊖ rodata_start)];;
  Log.debug ".data [{:#x}, {:#x}) size={}"
    [FArg data_start; FArg data_end; FArg (data_end ⊖ data_start)];;
  Log.debug ".bss [{:#x}, {:#x}) size={}"
    [FArg bss_start; FArg bss_end; FArg (bss_end ⊖ bss_start)].

Definition rust_main : K unit :=
  '_ ↤ mm_init;
  '_ ↤ Log.init;
  '_ ↤ log_kernel_layout;
  '_ ↤ Apps.log_app_elfs;
  '_ ↤ Trap.init;
  Task.start.
End ops.
End Boot.
