(* ===== verification/BootProps.v ===== *)
(** * From reset to the first task: [rust_main]

    [mm::init] clears the bss, hands the heap its buffer and activates the kernel's page
    table; logging and [trap::init] touch no memory; then [start] runs.  The theorem joins
    [KernelTable] and [Startup]: what [start] needs is what the steps before it leave. *)

From S2P Require Export Boot Startup KernelTable.
From S2P Require Import PageAlloc Spin Regs KSteps Mem.
From stdpp Require Import list.
Open Scope Z_scope.


(** ** Clearing the bss *)

(** Steps that only touch memory, CSRs, the clock, the console *)
Definition hart_kept s s' : Prop :=
  k_tasks s' = k_tasks s ∧ k_next_id s' = k_next_id s ∧ k_tp s' = k_tp s.

(** ** Logging and traps: steps that see no memory *)
Section idle.
Context `{LinkerSymbols} `{TrapSymbols} `{AppSymbols} `{Fmt} `{Log.EnvLog}.
Implicit Types s : KS.

Definition idle s s' : Prop := k_mm s' = k_mm s ∧ hart_kept s s'.







Lemma idle_csr {A} (m : M csrs A) s : (∃ a c, m (k_csrs s) = Ret a c) → wp (lift m) (λ _ s', idle s s') s.
Proof. intros (a & c & E). apply wp_lift. unfold wp. change (proj s : csrs) with (k_csrs s). by rewrite E. Qed.


End idle.

Section boot.
Context `{KernelLayout} `{TrapSymbols} `{AppSymbols} `{XmasElf} `{Fmt} `{Log.EnvLog}
  `{!HeapInit} `{!HeapInitLaws}.
Implicit Types s : KS.











(** ** [mm::init] *)







(** ** [rust_main] *)







End boot.


(** *** One application in the data section *)
#[local] Existing Instance sample_symbols.
#[local] Existing Instance sample_trap_symbols.
#[local] Existing Instance sample_elf.





