(* ===== verification/UserLib.v ===== *)
(** * The user library: [src/user/src/lib.rs], [syscall.rs], [task.rs], [console.rs]

    A user program is a tree of system calls: it returns, panics, or executes [ecall] with
    its argument registers and goes on with what the kernel leaves in [x10]. *)

From S2P Require Export Console.
From S2P Require Import Utf8.
From stdpp Require Import list.
Open Scope Z_scope.

Inductive U (A : Type) :=
  | URet (a : A)
  | UPanic (msg : string)
  | Ecall (x10 x11 x12 x17 : Z) (k : Z → U A).
Arguments URet {A} a.
Arguments UPanic {A} msg.
Arguments Ecall {A} x10 x11 x12 x17 k.

#[export] Instance U_ret : MRet U := @URet.
#[export] Instance U_bind : MBind U := λ A B f,
  fix bind (m : U A) : U B :=
    match m with
    | URet a => f a
    | UPanic msg => UPanic msg
    | Ecall x10 x11 x12 x17 k => Ecall x10 x11 x12 x17 (λ r, bind (k r))
    end.

(** Programs that make the same calls and react to every result in the same way *)
Inductive U_eq {A} : U A → U A → Prop :=
  | eq_ret a : U_eq (URet a) (URet a)
  | eq_panic msg : U_eq (UPanic msg) (UPanic msg)
  | eq_ecall x10 x11 x12 x17 k k' :
      (∀ r, U_eq (k r) (k' r)) → U_eq (Ecall x10 x11 x12 x17 k) (Ecall x10 x11 x12 x17 k').
#[export] Instance U_equiv {A} : Equiv (U A) := U_eq.
#[export] Instance U_equivalence {A} : Equivalence (≡@{U A}).
Proof.
  split.
  - intros m. induction m; constructor; auto.
  - intros m m'. induction 1; constructor; auto.
  - intros m1 m2 m3 H12. revert m3. induction H12 as [a|msg|x10 x11 x12 x17 k k' _ IH]; intros m3 H23;
      inversion H23 as [| |? ? ? ? ? k2 Hk]; subst; [exact H23..|].
    constructor. intros r. apply IH, Hk.
Qed.

Lemma U_bind_ret {A B} (a : A) (f : A → U B) : mret a ≫= f = f a.
Proof. done. Qed.
Lemma U_bind_mono {A B} (m m' : U A) (f g : A → U B) :
  m ≡ m' → (∀ a, f a ≡ g a) → m ≫= f ≡ m' ≫= g.
Proof.
  intros Hm Hf. induction Hm as [a|msg|x10 x11 x12 x17 k k' _ IH]; [apply Hf|constructor|].
  constructor. exact IH.
Qed.
Lemma U_bind_l {A B} (m m' : U A) (f : A → U B) : m ≡ m' → m ≫= f ≡ m' ≫= f.
Proof. intros Hm. by apply U_bind_mono. Qed.
Lemma U_bind_assoc {A B C} (m : U A) (f : A → U B) (g : B → U C) :
  (m ≫= f) ≫= g ≡ m ≫= λ a, f a ≫= g.
Proof.
  induction m as [a|msg|x10 x11 x12 x17 k IH]; [done|constructor|].
  constructor. exact IH.
Qed.

(** Statements run for their effect *)
Fixpoint u_each {A} (l : list A) (f : A → U unit) : U unit :=
  match l with
  | [] => mret tt
  | x :: l => f x;; u_each l f
  end.

Module User.

(** ** [syscall.rs] *)

Definition SYSCALL_WRITE : Z := 64.
Definition SYSCALL_MMAP : Z := 90.
Definition SYSCALL_MUNMAP : Z := 215.
Definition SYSCALL_EXIT : Z := 93.
Definition SYSCALL_YIELD : Z := 124.
Definition SYSCALL_TASK_INFO : Z := (1 .<< 63) .| 1.

Definition syscall (id arg0 arg1 arg2 : Z) : U Z :=
  Ecall arg0 arg1 arg2 id (λ x10, mret (as_isize x10)).

(** A slice is its address and length. *)
Definition sys_write (fd ptr len : Z) : U Z := syscall SYSCALL_WRITE fd ptr len.
(** [xstate as usize] of an [i32] *)
Definition sys_exit (xstate : Z) : U Z := syscall SYSCALL_EXIT (isize_as_usize xstate) 0 0.
Definition sys_yield : U Z := syscall SYSCALL_YIELD 0 0 0.
Definition sys_task_info (task_id data : Z) : U Z := syscall SYSCALL_TASK_INFO task_id data 0.
Definition sys_mmap (addr len prot : Z) : U Z := syscall SYSCALL_MMAP addr len prot.
Definition sys_munmap (addr len : Z) : U Z := syscall SYSCALL_MUNMAP addr len 0.

(** ** [lib.rs] *)

Definition write (fd ptr len : Z) : U Z := sys_write fd ptr len.
Definition exit (exit_code : Z) : U Z := sys_exit exit_code.
Definition yield_now : U Z := sys_yield.
Definition get_task_info (task_id data : Z) : U Z := sys_task_info task_id data.
Definition mmap (addr len prot : Z) : U Z := sys_mmap addr len prot.
Definition munmap (addr len : Z) : U Z := sys_munmap addr len.

(** [_start]: [None] is the [unreachable!()] after [sys_exit]; clearing [.bss] has no
    system call. *)
Definition _start (main : U Z) : U (option Empty_set) :=
  code ← main;
  sys_exit code;;
  mret None.

(** ** [console.rs] *)

Definition FD_STDOUT : Z := 1.
(** The string [s] lies at [ptr]; the result of the write is dropped. *)
Definition write_str (ptr : Z) (s : list Z) : U unit :=
  write FD_STDOUT ptr (Z.of_nat (length (utf8_bytes s)));;
  mret tt.
(** [core::fmt]: the strings a formatted line is written in, and where they lie *)
Class Pieces := { pieces : string → list fmt_arg → list (Z * list Z) }.
Definition print `{Pieces} (fmt : string) (args : list fmt_arg) : U unit :=
  u_each (pieces fmt args) (λ p, write_str p.1 p.2).
Definition println `{Pieces} (fmt : string) (args : list fmt_arg) : U unit :=
  print (fmt ++ "\n") args.

(** ** [lang_items.rs] *)

(** The handler of a panic; [None] is the [unreachable!()] after [sys_exit]. *)
Definition panic_handler `{Pieces} (location : option (string * Z)) (message : string)
    : U (option Empty_set) :=
  match location with
  | Some (file, line) => println "Panicked at {}:{} {}" [FArg file; FArg line; FArg message]
  | None => println "Panicked: {}" [FArg message]
  end;;
  sys_exit (-1);;
  mret None.

(** ** [task.rs] *)

Definition MAX_SYSCALLS_TRACKED : Z := 6.
Inductive TaskState := Ready | Running | Killed | Exited | Unused.
Record TaskStatistics := mk_TaskStatistics {
  mtime_first_run_start : Z;
  mtime_last_run_start : Z;
  mtime_last_run_end : Z;
  mtime_total_executed : Z;
  mtime_total_waiting : Z;
  switch_count : Z;
  syscall_counts : list (Z * Z);
}.
Record TaskInfo := mk_TaskInfo {
  task_id : Z;
  state : TaskState;
  stastics : TaskStatistics;
}.
Definition new_init : TaskStatistics :=
  mk_TaskStatistics 0 0 0 0 0 0 (replicate (Z.to_nat MAX_SYSCALLS_TRACKED) (0, 0)).
Definition new_placeholder : TaskInfo := mk_TaskInfo 0 Unused new_init.
End User.
