(* ===== verification/UserApps.v ===== *)
(** * Applications: [src/user/src/bin/00_helloworld.rs], [02_power.rs]

    Programs of the user library.  [02_power] computes powers modulo a prime in a ring
    buffer of machine integers; the theorem compares it with the powers themselves. *)

From S2P Require Export UserLib.
From stdpp Require Import list strings.
Open Scope Z_scope.

(** [for x in l], over a state *)
Fixpoint u_fold {A B} (l : list A) (f : A → B → U B) (b : B) : U B :=
  match l with
  | [] => mret b
  | x :: l => b ← f x b; u_fold l f b
  end.

Definition U32_MODULUS : Z := 2 ^ 32.

(** ** [00_helloworld.rs] *)
Module HelloWorld.
Definition main `{User.Pieces} : U Z :=
  u_each (String.list_ascii_of_string "hello world!!!!!") (λ c,
    User.println "{}" [FArg c];;
    User.yield_now;;
    mret tt);;
  mret 0.
End HelloWorld.

(** ** [02_power.rs] *)
Module Power.
Definition BASE : Z := 3.
Definition POW_CEIL : Z := 100000.
Definition MODULE : Z := 10007.

(** [buffer[index]]; out of range it panics. *)
Definition get (buffer : list Z) (index : Z) : U Z :=
  match buffer !! Z.to_nat index with
  | Some v => mret v
  | None => UPanic "index out of bounds"
  end.
Definition set (buffer : list Z) (index value : Z) : U (list Z) :=
  if index <? Z.of_nat (length buffer) then mret (<[Z.to_nat index := value]> buffer)
  else UPanic "index out of bounds".

Section ops.
Context `{User.Pieces}.

(** One round of the loop.  The products are those of [u32]. *)
Definition round (buffer_size pow : Z) (s : list Z * Z) : U (list Z * Z) :=
  let '(buffer, index) := s in
  prev_value ← get buffer index;
  let value := (prev_value * BASE) mod U32_MODULUS mod MODULE in
  let index := (index ⊕ 1) mod buffer_size in
  buffer ← set buffer index value;
  (if pow mod 2000 =? 0
   then User.println "{}^{}={}(MOD {})" [FArg BASE; FArg pow; FArg value; FArg MODULE]
   else mret tt);;
  mret (buffer, index).

Definition main : U Z :=
  let buffer := replicate 10 0 in
  let buffer_size := Z.of_nat (length buffer) in
  let index := 0 in
  buffer ← set buffer index 1;
  u_fold (range 1 (POW_CEIL + 1)) (round buffer_size) (buffer, index);;
  User.println "Test power OK!" [];;
  mret 0.
End ops.
End Power.

(** ** The powers *)

Section power.
Context `{User.Pieces}.

(** What a program that computes the powers prints *)
Definition report (pow : Z) : U unit :=
  User.println "{}^{}={}(MOD {})"
    [FArg Power.BASE; FArg pow; FArg (3 ^ pow mod 10007); FArg Power.MODULE].

(** The ring before exponent [pow] is processed: the cell at [index] holds the last power. *)
Definition ring (pow : Z) (s : list Z * Z) : Prop :=
  length s.1 = 10%nat ∧ 0 <= s.2 < 10 ∧ s.1 !! Z.to_nat s.2 = Some (3 ^ (pow - 1) mod 10007).

Lemma power_step pow : 1 <= pow →
  (3 ^ (pow - 1) mod 10007 * 3) mod 2 ^ 32 mod 10007 = 3 ^ pow mod 10007.
Proof.
  intros Hp. pose proof (Z.mod_pos_bound (3 ^ (pow - 1)) 10007 ltac:(lia)).
  rewrite (Z.mod_small _ (2 ^ 32)) by lia. rewrite Z.mul_mod_idemp_l by lia.
  f_equal. rewrite Z.mul_comm, <- Z.pow_succ_r by lia. f_equal. lia.
Qed.

Lemma round_ring pow s : 1 <= pow → ring pow s →
  ∃ s', ring (pow + 1) s' ∧
    Power.round 10 pow s ≡ ((if pow mod 2000 =? 0 then report pow else mret tt);; mret s').
Proof.
  destruct s as [buffer index]. intros Hp (Hlen & Hi & Hv). simpl in *.
  unfold Power.round, Power.get. rewrite Hv, U_bind_ret.
  unfold Power.BASE, Power.MODULE, U32_MODULUS. rewrite power_step by done.
  set (i := (index ⊕ 1) mod 10).
  assert (0 <= i < 10) as Hi' by (by apply Z.mod_pos_bound).
  exists (<[Z.to_nat i := 3 ^ pow mod 10007]> buffer, i). split.
  - split_and!; simpl; [by rewrite length_insert|lia|lia|].
    rewrite list_lookup_insert_eq by lia. f_equal. f_equal. f_equal. lia.
  - unfold Power.set. rewrite Hlen. rewrite (proj2 (Z.ltb_lt i (Z.of_nat 10))) by lia. by rewrite U_bind_ret.
Qed.

Lemma filter_none {A} (P : A → Prop) `{∀ x, Decision (P x)} l :
  Forall (λ x, ¬ P x) l → filter P l = [].
Proof. induction 1 as [|x l Hx _ IH]; [done|]. by rewrite filter_cons, decide_False. Qed.

(** The multiples of 2000 *)
Lemma multiples (n : nat) :
  filter (λ p, p mod 2000 = 0) (seqZ 1 (2000 * Z.of_nat n)) = (λ k, 2000 * k) <$> range 1 (Z.of_nat n + 1).
Proof.
  unfold range. induction n as [|n IH]; [done|].
  replace (2000 * Z.of_nat (S n)) with (2000 * Z.of_nat n + (1999 + 1)) by lia.
  rewrite (seqZ_app 1 (2000 * Z.of_nat n) (1999 + 1)), filter_app, IH by lia.
  rewrite (seqZ_app _ 1999 1), filter_app by lia.
  replace (Z.of_nat (S n) + 1 - 1) with (Z.of_nat n + 1 - 1 + 1) by lia.
  rewrite (seqZ_app 1), fmap_app by lia. f_equal.
  rewrite filter_none; [|apply Forall_forall].
  - rewrite (seqZ_cons _ 1), filter_cons by lia.
    rewrite decide_True by (Z.to_euclidean_division_equations; lia).
    rewrite (seqZ_cons _ 1), !seqZ_nil by lia. cbn -[Z.mul]. f_equal. lia.
  - intros p [Hp1 Hp2]%elem_of_seqZ Hm. Z.to_euclidean_division_equations. lia.
Qed.

Lemma rounds_report {A} n pow s (m : U A) : 1 <= pow → ring pow s →
  (u_fold (seqZ pow (Z.of_nat n)) (Power.round 10) s;; m) ≡
  (u_each (filter (λ p, p mod 2000 = 0) (seqZ pow (Z.of_nat n))) report;; m).
Proof.
  revert pow s. induction n as [|n IH]; intros pow s Hp Hs; [done|].
  rewrite Nat2Z.inj_succ, seqZ_cons, Z.pred_succ by lia. cbn [u_fold].
  destruct (round_ring pow s Hp Hs) as (s' & Hs' & E).
  rewrite U_bind_assoc. etrans; [exact (U_bind_l _ _ _ E)|].
  rewrite U_bind_assoc. rewrite filter_cons.
  destruct (Z.eqb_spec (pow mod 2000) 0) as [E0|E0].
  - rewrite decide_True by done. cbn [u_each]. rewrite U_bind_assoc.
    apply U_bind_mono; [done|]. intros _. rewrite U_bind_ret. apply (IH (Z.succ pow)); [lia|exact Hs'].
  - rewrite decide_False by done. rewrite !U_bind_ret. apply (IH (Z.succ pow)); [lia|exact Hs'].
Qed.
End power.

(** C40: [02_power] prints exactly the powers of 3 modulo 10007 of the exponents 2000, 4000, ...,
    100000, then its last line, and returns 0: the ring buffer is never indexed out of range
    and no product leaves the [u32] range. *)
Theorem power_correct `{User.Pieces} :
  Power.main ≡
    (u_each ((λ k, 2000 * k) <$> range 1 51) report;;
     User.println "Test power OK!" [];;
     mret 0).
Proof.
  unfold Power.main, range. change (Power.POW_CEIL + 1 - 1) with (2000 * Z.of_nat 50).
  replace (2000 * Z.of_nat 50) with (Z.of_nat (2000 * 50)) by lia.
  change (Power.set (replicate 10 0) 0 1) with (mret (M := U) (<[0%nat := 1]> (replicate 10 0))).
  rewrite U_bind_ret. etrans; [apply (rounds_report (2000 * 50) 1)|].
  - lia.
  - split_and!; reflexivity || (simpl; lia).
  - rewrite Nat2Z.inj_mul. replace (Z.of_nat 2000) with 2000 by lia. by rewrite (multiples 50).
Qed.
